(* ===== verification/_CoqProject ===== *)
-Q . S2P
Prelude.v
Text.v
Chrono.v
ScheduleTypes.v
Targets.v
Cron.v
CronFacts.v
Trigger.v
FirstDue.v
TriggerFacts.v
HorizonFacts.v
Millis.v
ExecutorLease.v
ExecutorLeaseFacts.v
Authority.v
ScheduleLifecycle.v
ScheduleFacts.v
AuthorityFacts.v
OccurrenceLifecycle.v
OccurrenceFacts.v
OccurrenceClaims.v
OccurrenceTerminal.v
OccurrenceVerdicts.v
Rows.v
StoreTypes.v
RowFacts.v
RowValidity.v
RowOutcomes.v
ScheduleRows.v
StoreContract.v
MemoryStore.v
MemoryClaims.v
MemoryReads.v
ClaimRows.v
RowReturns.v
MemoryFacts.v
MemoryCommit.v
DemoStore.v
MemoryProps.v
MemoryClaimFacts.v
MemoryClaimProps.v
Planner.v
PlannedRows.v
PlannerFacts.v
PlannerReturns.v
PlannerProps.v
Programs.v
Service.v
Driver.v
ServiceFacts.v
ServiceLogic.v
ServiceAtomic.v
ServiceRefill.v
RowMoves.v
MemoryContract.v
MemoryMoves.v
Discipline.v
Guided.v
System.v
DemoSystem.v
SystemProps.v
RefillPages.v
MemoryWake.v
ServiceProps.v
DetachedJob.v
JobFacts.v
JobDeliveries.v
JobProps.v
JobTypes.v
PredicateWatch.v
JobStore.v
JobPrograms.v
JobService.v
JobRows.v
JobStoreFacts.v
JobDiscipline.v
JobSystem.v
JobSystemProps.v
