(* ===== verification/Prelude.v ===== *)
(** * Meerkat: the scheduler, the detached jobs and the authority they run on

    A verification library of two subsystems of meerkat and of the machine
    language they share: the Rust crates [meerkat-schedule], [meerkat-jobs] and
    [meerkat-machine-dsl-core], and the schedule, occurrence and job machines of
    [meerkat-machine-schema].  The model follows the source definition by
    definition; PROJECT.json maps each of them to its lines.

    ** The program

    A *schedule* says what to run and when (a trigger, a target, policies); an
    *occurrence* is one due time of it.  Both are rows of a store.  Their
    life cycles are state machines written in a DSL, from which a macro derives
    an *authority*: a value that applies inputs to a machine state, checks its
    invariants and prepares commits.  [Schedule::apply] and [Occurrence::apply]
    wrap the authorities for rows.  Callers commit the writes they return to a
    [ScheduleStore], which checks the rows did not change meanwhile; the store
    also hands out due occurrences to the executor that holds its lease.  The
    service plans the next occurrences of a schedule from its trigger and
    commits them with the schedule; the driver claims due occurrences, has the
    adapters of their targets deliver them, and records what they come to.
    Both are clients of whatever store they are given, next to the drivers and
    services of other processes.

    A *detached job* outlives the call that submitted it.  Its life is a third
    machine of the same DSL: workers claim attempts under a growing fence and a
    lease, report progress, store checkpoints, emit notifications and end the
    job; each notification and the terminal outcome is a numbered delivery that
    the job commits once and a consumer acknowledges.  The row of a job holds
    the machine state together with the outbox of its deliveries.  The job
    service reads a row, applies an input to the authority recovered from it,
    projects the effects onto the row and writes it back by compare-and-swap.
    A predicate watch is evaluated by the worker that holds the job: its
    crossing, its checkpoint and its health reading are one bundle, committed
    with a receipt that later evaluations under the same identity replay.

    ** Files

    - [Prelude]: boolean tests, record update, integers of machine width,
      outcomes of calls, guards tactics.  [Text]: strings as characters.
      [Chrono]: the clock and calendar library, a class of parameters with its
      documented behaviour as laws, and [UniformClock], an instance.
    - [ScheduleTypes] ([types.rs]): triggers, policies, revisions.
      [Cron], [CronFacts] ([trigger.rs], upper part): parsing and printing of
      cron fields.  [Trigger], [TriggerFacts] ([trigger.rs], lower part): the
      next due time and the due times of a horizon.  [FirstDue]: their
      specification, "the first [n] instants that satisfy [P]".  [HorizonFacts]:
      the refinement.  [Millis] ([lifecycle.rs]): instants as machine
      milliseconds and misfire deadlines.
    - [Authority], [AuthorityFacts] ([gen_dispatch.rs], [ast.rs], [lib.rs] of
      the DSL core): the authority of any machine, generic over the class
      [Machine] of states, inputs, arms and invariants.
    - [ScheduleLifecycle], [ScheduleFacts] ([dsl/schedule_lifecycle.rs]) and
      [OccurrenceLifecycle], [OccurrenceFacts], [OccurrenceClaims],
      [OccurrenceTerminal], [OccurrenceVerdicts] ([dsl/occurrence_lifecycle.rs]):
      the two machines as instances of [Machine], one definition per transition,
      helper and invariant, and what every reachable state satisfies.
    - [Targets] ([types.rs]): target bindings and their public checks.
    - [Rows] ([types.rs], [lifecycle.rs]): rows over machine states,
      validation, write preconditions, every input of an occurrence and every
      request of a schedule.  [RowFacts], [RowValidity], [RowOutcomes],
      [RowReturns], [ScheduleRows]: applying an input to a valid row leaves a
      valid row, and which calls return.
    - [StoreTypes], [StoreContract] ([store.rs], [lifecycle.rs]): the calls of
      the store trait, their answers, and the laws a client of a store relies
      on, as the classes [ScheduleStore], [LawfulStore] and, for the driver,
      [TransitionStore] under [FaithfulCodec] (fingerprints tell rows apart).
    - [ExecutorLease], [ExecutorLeaseFacts], [MemoryStore], [MemoryClaims],
      [MemoryReads] ([store.rs]): the in-memory store: commits, transitions,
      supersession sweeps, receipts, the refill queue, the due scan, reads.
      [MemoryFacts]: the store invariant.  [MemoryCommit], [MemoryProps]: the
      atomic commit.  [ClaimRows], [MemoryClaimFacts], [MemoryClaimProps]: the
      scan.  [RefillPages], [MemoryWake]: the pages of schedules due for
      planning and the next time to act.  [MemoryContract], [MemoryMoves]: the
      in-memory store is a [LawfulStore] and a [TransitionStore].
      [DemoStore]: a concrete store for the examples.
    - [Planner] ([service.rs], upper part of the operations): planning from a
      snapshot.  [PlannedRows], [PlannerFacts], [PlannerReturns],
      [PlannerProps]: what is planned, and when planning returns.
    - [Programs]: programs of store calls, notifications and questions to the
      adapters of targets, and their runs while other users of the store take
      steps.  [Service] ([service.rs]): every operation as a program.
      [ServiceLogic]: rules for programs that are read-only, atomic or sound.
      [ServiceFacts], [ServiceAtomic], [ServiceRefill], [ServiceProps]: the
      operations, proved against [LawfulStore].
    - [Driver] ([driver.rs]): ticks, dispatches, lease renewals and completion
      waiters as programs.  [RowMoves]: what a row keeps while it advances.
      [Discipline], [Guided]: the permits a program needs to deliver, and that
      every program of the service and the driver keeps to them.  [System]: any
      number of programs over one store, with crashes.  [DemoSystem],
      [SystemProps]: its properties, proved against [TransitionStore].
    - [DetachedJob], [JobFacts], [JobDeliveries], [JobProps]
      ([dsl/detached_job.rs]): the job machine as an instance of [Machine], its
      strengthened invariant, the ledger of the deliveries an execution commits,
      and its properties.
    - [JobTypes] ([meerkat-jobs/src/types.rs], [error.rs]): validated texts,
      submissions, notifications, outbox entries, what callers are shown.
      [PredicateWatch] ([predicate.rs]): watches, observations, evaluation.
    - [JobStore] ([meerkat-jobs/src/store.rs]): the validation of rows,
      replacements and receipts, and the in-memory job store, one function
      per call of the trait [DetachedJobStore] ([memory_step] dispatches them).
    - [JobPrograms], [JobService] ([meerkat-jobs/src/service.rs]): every method
      of [DetachedJobService] as a program that stops at each store call, and
      the projection of effects onto rows.
    - [JobRows]: a row as the projection of an execution of the machine, kept by
      everything the service writes.  [JobStoreFacts]: the store's invariant,
      snapshots included.  [JobDiscipline]: every operation writes only what it
      derived from a row it read.  [JobSystem]: any number of operations over
      one store, with crashes, and one operation among others.
      [JobSystemProps]: the properties of the service.

    ** What the theorems show

    - Authority: a batch is atomic; prepared commits are serializable; the debug
      assertions never fire from a recovered state; the order of disjoint arms
      is irrelevant.  A machine whose guards and updates read maps goes through
      the strict chain, which refuses an arm that would read an absent key; for
      a machine that reads none ([NoMapReads]) it is the plain chain.
    - Machines: every reachable schedule and occurrence satisfies its
      invariants; terminal phases absorb; claims are exclusive and bounded;
      leases move by their holder; each refusal has the class the failure table
      gives it; revisions count supersessions; the planning cursor advances.
    - Triggers: a horizon is the first due times in order, whatever the trigger;
      it ends, resumes from its millisecond cursor and refuses exactly invalid
      triggers; cron fields print and parse back.
    - Store: rows stay valid under every operation, failed ones included; a
      schedule commit is all or nothing, supersedes exactly the stale live rows
      and acknowledges exactly those; a scan answers every due row within its
      limit and claims no row twice; an executor lease excludes others and its
      fencing token only grows; consecutive refill pages starve no schedule; the
      next time to act is exact.
    - Planning: a plan is the first missing due times of the trigger up to the
      horizon, as valid rows; it is refused only when the recorded cursor would
      not advance.
    - Service: over any lawful store and whatever its other users do, an
      operation takes effect at one instant on the schedule it had read, or not
      at all; a refill inserts the rows it answers with; its checks of what the
      store committed never fail.
    - System: however drivers, services and waiters interleave over one store,
      and whichever die, no attempt is delivered twice, a delivery is asked for
      only once the store has recorded its attempt, the deliveries of an
      occurrence share one identity, and outcomes are final.  Two examples show
      what a schedule deleted at the wrong instant does to a delivery.
    - Job machine: every reachable job recovers and no input reads an absent
      key; deliveries are numbered without a gap, committed once and the
      terminal one is last; only the last claim writes, under its fence;
      acknowledgements are accepted exactly for what was committed; a requested
      cancellation binds the attempt that holds the job.  An example shows that
      the next claim forgets it.
    - Job service: under any interleaving of operations on the in-memory store,
      every row is the projection of an execution of the machine, and only moves
      forward; a submission key names one job; a predicate delivery is committed
      once and replayed ever after; a request for cancellation lands however
      contended its job is; workers that lost their claim write nothing; the
      health census is exact or says it is truncated; a store survives its own
      snapshot.  An example shows a crossing that is not notified again.

    ** Conventions

    A call that can fail returns [Outcome]: [Ok], [Err], [Panic] (an [unwrap], an
    overflow of checked arithmetic, a chrono operator out of range) or
    [OutOfFuel], which is no result of the program.  Loops that are not
    structural have fuel: one unit for the interval loop, whose guard is false
    when it is first tested ([interval_fuel]); two more than the minutes of the
    range for a calendar scan ([scan_fuel]); one more than the occurrences asked
    for in a horizon.  [trigger_horizon_answers] shows no fuel runs out.  The
    Cargo profile is the class [BuildProfile].  [u64] counters are [N] with
    [u64_add]; milliseconds are [N], nanoseconds [Z].  Strings that are
    identifiers are their canonical texts.  An operation of the in-memory store
    holds the lock throughout, so it is a function on its state that keeps the
    writes it made before it fails; an interleaving is a sequence of operations.
    The demonstrations of [System] run a program for a thousand steps, more than
    any of them takes.  The job service's loops without a bound, [subscribe] and
    [request_cancel], have fuel, one unit for each turn; [request_cancel_lands]
    shows that one more turn than there are writes to the job, its own included,
    is enough.  Its
    other loops stop by the source's own budget of eight conflicts.  Identifiers
    made from a random UUID take its text as an argument; the name-based UUID of
    a crossing ([NameUuid]) and the JSON text of a checkpoint
    ([CheckpointCodec]) are parameters.  Job texts are lists of characters
    limited by the length of their UTF-8 encoding, and [usize] is 64 bits wide.
    The schedule files and the job files share names ([State], phases): no file
    loads both.

    ** Not modelled

    - The texts of errors, tracing, and the display fields of rows that repeat
      machine fields; identifiers are never parsed; the creation time of an
      occurrence, which no modelled code reads.
    - The payload of targets and principals ([TargetData]) and of receipts'
      outcomes, and their JSON keys ([RowData]): parameters; serialization of
      rows: [RowCodec].
    - The service's planning lock, which keeps the mutations of one process
      apart (no theorem needs it); the subscribers of its mutation counter; its
      report on the firing host.
    - The driver's log lines and fault summaries, and its tick gate, which
      keeps two ticks of one driver apart (no theorem needs it).  Its timers:
      when a renewal of a lease falls due is part of an adapter's answer.
    - The registry of host runnables, the tool surface, and the durable stores:
      I/O around the modelled operations.
    - Of the jobs: the SQL store; the subscribers of the commit signal, whose
      generation is modelled; serde encodings of stored rows; the texts of
      errors, which are named by the check that failed.
    - The other machines of the catalog, and the DSL's signals, which the
      modelled machines do not use: they build on what [Authority] models.
    - Sessions, mobs, agents, providers, transports and surfaces: asynchronous
      code around external services. *)

From Stdlib Require Export NArith ZArith.
From stdpp Require Export base gmap strings option numbers list.

(** ** Boolean tests of the machine language

    The machine language compares values with Rust's [==] and [!=]; both
    are decided by the [EqDecision] instance of the compared type. *)

Declare Scope mk_scope.
Delimit Scope mk_scope with mk.

Notation "a == b" := (bool_decide (a = b)) (at level 70, no associativity) : mk_scope.
Notation "a != b" := (negb (bool_decide (a = b))) (at level 70, no associativity) : mk_scope.
Open Scope mk_scope.

Lemma bool_neq_true P `{Decision P} : negb (bool_decide P) = true ↔ ¬ P.
Proof. rewrite negb_true_iff, bool_decide_eq_false. done. Qed.

Lemma bool_neq_false P `{Decision P} : negb (bool_decide P) = false ↔ P.
Proof. rewrite negb_false_iff, bool_decide_eq_true. done. Qed.

(** The two forms an implication takes in a boolean invariant. *)
Lemma bool_imply (a b : bool) : (a = true → b = true) → negb a || b = true.
Proof. destruct a; [by intros ->|done]. Qed.

Lemma bool_or_else (a b : bool) : (a = false → b = true) → a || b = true.
Proof. destruct a; [done|by intros ->]. Qed.

(** ** Record update

    [s <| f := v |>] is the Rust statement [s.f = v] on a value: the record
    [s] with the field [f] replaced.  A record type declares how it is rebuilt
    from its projections ([Fields]); the setter of one projection is then
    found by abstracting that projection from the rebuilding function. *)

Class Fields (R : Type) := rebuild : R → R.
Class FieldUpdate {R T : Type} (p : R → T) := field_update : (T → T) → R → R.
Arguments field_update {R T} p {_} _ _.

Ltac abstract_field p :=
  lazymatch type of p with
  | ?R → ?T =>
      let r := eval hnf in (rebuild (R := R)) in
      let r' := eval pattern p in r in
      lazymatch r' with
      | ?g _ => exact (λ (f : T → T) (x : R), g (λ y : R, f (p y)) x)
      end
  end.

#[export] Hint Extern 1 (FieldUpdate ?p) => abstract_field p : typeclass_instances.

Notation "s <| f := v |>" := (field_update f (λ _, v) s)
  (at level 1, f constr at level 8, left associativity,
   format "s  <| f  :=  v |>") : mk_scope.

(** ** Unsigned 64-bit integers

    A [u64] is an [N] below [2 ^ 64].  Rust's [+=] on a [u64] is checked
    (a panic) or wraps, depending on the build profile; saturating operations
    do neither. *)

Definition u64_max : N := 18446744073709551615.
Definition u64_modulus : N := 18446744073709551616.

(** The two switches of a Cargo profile the modelled code depends on. *)
Class BuildProfile := {
  debug_assertions : bool;   (* is [debug_assert!] compiled in *)
  overflow_checks : bool;    (* does [+] on integers panic on overflow *)
}.

Definition dev_profile : BuildProfile :=
  {| debug_assertions := true; overflow_checks := true |}.
Definition release_profile : BuildProfile :=
  {| debug_assertions := false; overflow_checks := false |}.

(** [a + b] on [u64]; [None] is the overflow panic. *)
Definition u64_add `{BuildProfile} (a b : N) : option N :=
  if (a + b <=? u64_max)%N then Some (a + b)%N
  else if overflow_checks then None
  else Some ((a + b) mod u64_modulus)%N.

Arguments u64_add : simpl never.

(** Conversion compares the summands of two additions before it unfolds the
    additions: states are long chains of record updates. *)
#[global] Strategy 1000 [u64_add].

(** Overflow is a panic: the arithmetic of the dev and test profiles. *)
Class CheckedArithmetic `{BuildProfile} : Prop :=
  overflow_is_checked : overflow_checks = true.

Lemma u64_add_checked `{CheckedArithmetic} a b c :
  u64_add a b = Some c → c = (a + b)%N.
Proof.
  unfold u64_add. rewrite overflow_is_checked.
  destruct (_ <=? _)%N; [by intros [= <-]|done].
Qed.

Lemma u64_add_small `{BuildProfile} a b :
  (a + b ≤ u64_max)%N → u64_add a b = Some (a + b)%N.
Proof. intros. unfold u64_add. by rewrite (proj2 (N.leb_le _ _)). Qed.

Lemma u64_add_bound `{BuildProfile} a b c :
  u64_add a b = Some c → (c ≤ u64_max)%N.
Proof.
  unfold u64_add. destruct (N.leb_spec (a + b) u64_max); [by intros [= <-]|].
  destruct overflow_checks; [done|]. intros [= <-].
  assert ((a + b) mod u64_modulus < u64_modulus)%N by (apply N.mod_upper_bound; done).
  unfold u64_max, u64_modulus in *. lia.
Qed.

(** ** Signed 64-bit integers *)

Definition i64_max : Z := 9223372036854775807.
Definition i64_min : Z := -9223372036854775808.

(** A result of [i64] arithmetic: in range, or the overflow of the profile. *)
Definition i64_result `{BuildProfile} (z : Z) : option Z :=
  if (i64_min <=? z)%Z && (z <=? i64_max)%Z then Some z
  else if overflow_checks then None
  else Some ((z - i64_min) mod 18446744073709551616 + i64_min)%Z.

Lemma i64_result_small `{BuildProfile} z :
  (i64_min ≤ z ≤ i64_max)%Z → i64_result z = Some z.
Proof.
  intros [? ?]. unfold i64_result.
  by rewrite (proj2 (Z.leb_le i64_min z)), (proj2 (Z.leb_le z i64_max)).
Qed.

Lemma i64_result_checked `{CheckedArithmetic} z z' : i64_result z = Some z' → z' = z.
Proof.
  unfold i64_result. rewrite overflow_is_checked. destruct (_ && _); [by intros [= <-]|done].
Qed.

(** ** Results of calls

    A fallible call returns [Ok] or [Err], or panics.  [OutOfFuel] is no result
    of the program: it says that the bound a model put on a loop was too small. *)

Inductive Outcome (E A : Type) :=
| Ok (a : A)
| Err (e : E)
| Panic
| OutOfFuel.
Arguments Ok {E A} _.
Arguments Err {E A} _.
Arguments Panic {E A}.
Arguments OutOfFuel {E A}.

#[export] Instance Outcome_ret {E} : MRet (Outcome E) := λ A, Ok.
#[export] Instance Outcome_bind {E} : MBind (Outcome E) := λ A B f m,
  match m with Ok a => f a | Err e => Err e | Panic => Panic | OutOfFuel => OutOfFuel end.

(** [ok_or(e)?] on an option, and an operation whose [None] is a panic. *)
Definition ok_or {E A} (o : option A) (e : E) : Outcome E A :=
  match o with Some a => Ok a | None => Err e end.
Definition or_panic {E A} (o : option A) : Outcome E A :=
  match o with Some a => Ok a | None => Panic end.

Lemma Outcome_bind_Ok {E A B} (m : Outcome E A) (f : A → Outcome E B) b :
  m ≫= f = Ok b → ∃ a, m = Ok a ∧ f a = Ok b.
Proof. destruct m; cbn; [eauto|done..]. Qed.

Lemma or_panic_Ok {E A} (o : option A) (a : A) : or_panic (E := E) o = Ok a → o = Some a.
Proof. destruct o; cbn; congruence. Qed.

Lemma ok_or_Ok {E A} (o : option A) (e : E) a : ok_or o e = Ok a → o = Some a.
Proof. destruct o; cbn; congruence. Qed.

(** [map_err(f)?] *)
Definition map_err {E F A} (f : E → F) (m : Outcome E A) : Outcome F A :=
  match m with Ok a => Ok a | Err e => Err (f e) | Panic => Panic | OutOfFuel => OutOfFuel end.

Lemma map_err_Ok {E F A} (f : E → F) (m : Outcome E A) a : map_err f m = Ok a → m = Ok a.
Proof. destruct m; cbn; congruence. Qed.

(** [Option<u64>::get("value")] of the machine language: [unwrap_or_default]. *)
Definition get_value (o : option N) : N := default 0%N o.

(** ** Automation *)

(** Boolean guards to propositions, conjunctions split, equalities used. *)
Ltac prop_guards :=
  repeat match goal with
  | H : Is_true _ |- _ => apply Is_true_true in H
  | H : (_ && _) = true |- _ => apply andb_true_iff in H as [? ?]
  | H : (_ || _) = false |- _ => apply orb_false_iff in H as [? ?]
  | H : bool_decide _ = true |- _ => apply bool_decide_eq_true in H
  | H : bool_decide _ = false |- _ => apply bool_decide_eq_false in H
  | H : negb _ = true |- _ => apply negb_true_iff in H
  | H : negb _ = false |- _ => apply negb_false_iff in H
  | H : (_ <=? _)%N = true |- _ => apply N.leb_le in H
  | H : (_ <=? _)%N = false |- _ => apply N.leb_gt in H
  | H : (_ <? _)%N = true |- _ => apply N.ltb_lt in H
  | H : (_ <? _)%N = false |- _ => apply N.ltb_ge in H
  | H : (_ =? _)%N = true |- _ => apply N.eqb_eq in H
  | H : (_ =? _)%N = false |- _ => apply N.eqb_neq in H
  end.

(** The same, also splitting disjunctive guards into cases. *)
Ltac case_guards :=
  repeat (prop_guards;
    match goal with
    | H : (_ || _) = true |- _ => apply orb_true_iff in H as [H|H]
    | H : (_ && _) = false |- _ => apply andb_false_iff in H as [H|H]
    end); prop_guards.

(** Runs through the binds of a call that returned. *)
Ltac binds H :=
  repeat (let x := fresh "x" in let Hx := fresh "Hx" in apply Outcome_bind_Ok in H as (x & Hx & H)).

(** Goals that are boolean invariants become the propositions they test. *)
Ltac prop_goal :=
  repeat match goal with
  | |- (_ && _) = true => apply andb_true_iff; split
  | |- (negb _ || _) = true => apply bool_imply; intro
  | |- (_ || _) = true => apply bool_or_else; intro
  | |- bool_decide _ = true => apply bool_decide_eq_true
  | |- negb (bool_decide _) = true => apply bool_neq_true
  | |- (_ <=? _)%N = true => apply N.leb_le
  | |- (_ <? _)%N = true => apply N.ltb_lt
  | |- true = true => reflexivity
  end.
