(* ===== verification/Text.v ===== *)
(** * Text: the string operations of the Rust standard library

    A [str] is the list of its characters (Unicode scalar values).  The
    operations are those the cron parser calls: [trim], [split],
    [split_once], [split_whitespace], [to_ascii_uppercase], [str::parse::<u32>]
    and the [Display] of a [u32]. *)

From Stdlib Require Import Ascii.
From S2P Require Import Prelude.

(** ** Characters and literals *)

Definition str := list N.

Fixpoint lit (s : string) : str :=
  match s with
  | EmptyString => []
  | String c s' => N_of_ascii c :: lit s'
  end.

(** The [White_Space] property of Unicode, which [char::is_whitespace] tests. *)
Definition is_whitespace (c : N) : bool :=
  ((9 <=? c) && (c <=? 13) || (c =? 32) || (c =? 133) || (c =? 160) || (c =? 5760)
   || (8192 <=? c) && (c <=? 8202) || (c =? 8232) || (c =? 8233) || (c =? 8239)
   || (c =? 8287) || (c =? 12288))%N.

Definition to_ascii_uppercase (s : str) : str :=
  map (λ c, if (97 <=? c) && (c <=? 122) then c - 32 else c)%N s.

(** ** Trimming and splitting *)

Fixpoint trim_start (s : str) : str :=
  match s with
  | c :: s' => if is_whitespace c then trim_start s' else s
  | [] => []
  end.

Definition trim (s : str) : str := reverse (trim_start (reverse (trim_start s))).

(** [s.split(p)]: the pieces between the characters that satisfy [p]. *)
Fixpoint split_by (p : N → bool) (s : str) : list str :=
  match s with
  | [] => [[]]
  | c :: s' =>
      if p c then [] :: split_by p s'
      else match split_by p s' with
           | piece :: rest => (c :: piece) :: rest
           | [] => [[c]]
           end
  end.

Definition split (sep : N) : str → list str := split_by (N.eqb sep).

Definition split_whitespace (s : str) : list str :=
  filter (λ piece, piece ≠ []) (split_by is_whitespace s).

Fixpoint split_once (sep : N) (s : str) : option (str * str) :=
  match s with
  | [] => None
  | c :: s' =>
      if (sep =? c)%N then Some ([], s')
      else '(before, after) ← split_once sep s'; Some (c :: before, after)
  end.

(** ** Numbers *)

Definition u32_max : N := 4294967295.

Definition digit (c : N) : option N :=
  if ((48 <=? c) && (c <=? 57))%N then Some (c - 48)%N else None.

Definition push_digit (acc : option N) (c : N) : option N :=
  n ← acc; d ← digit c;
  if (n * 10 + d <=? u32_max)%N then Some (n * 10 + d)%N else None.

(** [str::parse::<u32>]: an optional [+], then digits; [None] is the error. *)
Definition parse_u32 (s : str) : option N :=
  match s with
  | [] | [43%N] => None
  | 43%N :: s' => fold_left push_digit s' (Some 0%N)
  | _ => fold_left push_digit s (Some 0%N)
  end.

(** [Display] of a number of at most [fuel] digits; ten are enough for a [u32]. *)
Fixpoint decimal_digits (fuel : nat) (n : N) : str :=
  match fuel with
  | O => []
  | S fuel' =>
      if (n <? 10)%N then [(48 + n)%N]
      else decimal_digits fuel' (n / 10) ++ [(48 + n mod 10)%N]
  end.

Definition decimal (n : N) : str := decimal_digits 10 n.

(** The inverse of [split]: pieces joined by a separator. *)
Fixpoint join (sep : N) (pieces : list str) : str :=
  match pieces with
  | [] => []
  | [piece] => piece
  | piece :: rest => piece ++ sep :: join sep rest
  end.

(** ** Lemmas *)

Definition free_of (p : N → bool) (s : str) : Prop := Forall (λ c, p c = false) s.

Lemma split_by_free p s : free_of p s → split_by p s = [s].
Proof. induction 1 as [|c s Hc _ IH]; [done|]. cbn. by rewrite Hc, IH. Qed.

Lemma split_by_nonempty p s : split_by p s ≠ [].
Proof. destruct s as [|c s]; cbn; [done|]. by destruct (p c); [|destruct (split_by p s)]. Qed.

Lemma split_by_app p s c rest :
  free_of p s → p c = true → split_by p (s ++ c :: rest) = s :: split_by p rest.
Proof.
  intros Hs Hc. induction Hs as [|c' s Hc' _ IH]; cbn; [by rewrite Hc|].
  by rewrite Hc', IH.
Qed.

Lemma split_by_join p sep pieces :
  p sep = true → pieces ≠ [] → Forall (free_of p) pieces →
  split_by p (join sep pieces) = pieces.
Proof.
  intros Hsep Hne Hall. induction Hall as [|s pieces Hs Hall IH]; [done|].
  destruct pieces as [|s' pieces]; [by apply split_by_free|].
  change (join sep (s :: s' :: pieces)) with (s ++ sep :: join sep (s' :: pieces)).
  rewrite split_by_app by done. by rewrite IH.
Qed.

Lemma split_join sep pieces :
  pieces ≠ [] → Forall (free_of (N.eqb sep)) pieces → split sep (join sep pieces) = pieces.
Proof. apply split_by_join, N.eqb_refl. Qed.

Lemma split_once_free sep s : free_of (N.eqb sep) s → split_once sep s = None.
Proof. induction 1 as [|c s Hc _ IH]; [done|]. cbn. by rewrite Hc, IH. Qed.

Lemma split_once_app sep s rest :
  free_of (N.eqb sep) s → split_once sep (s ++ sep :: rest) = Some (s, rest).
Proof.
  induction 1 as [|c s Hc _ IH]; cbn; [by rewrite N.eqb_refl|]. by rewrite Hc, IH.
Qed.

Lemma trim_start_free s : free_of is_whitespace s → trim_start s = s.
Proof. destruct 1 as [|c s Hc _]; [done|]. cbn. by rewrite Hc. Qed.

Lemma trim_free s : free_of is_whitespace s → trim s = s.
Proof.
  intros Hs. unfold trim. rewrite (trim_start_free s Hs), trim_start_free.
  - apply reverse_involutive.
  - unfold free_of. by apply Forall_reverse.
Qed.

(** *** Decimal numbers *)

(** Every character of a printed number is a digit. *)
Definition digits_only (s : str) : Prop := Forall (λ c, (48 ≤ c ≤ 57)%N) s.

Lemma decimal_digits_only fuel n : digits_only (decimal_digits fuel n).
Proof.
  revert n. induction fuel as [|fuel IH]; intros n; cbn; [constructor|].
  destruct (N.ltb_spec n 10); [apply Forall_singleton; lia|].
  apply Forall_app. split; [apply IH|]. apply Forall_singleton.
  pose proof (N.mod_upper_bound n 10 ltac:(done)) as Hm. revert Hm.
  generalize (n `mod` 10)%N. intros m Hm. lia.
Qed.

Lemma decimal_only n : digits_only (decimal n).
Proof. apply decimal_digits_only. Qed.

Lemma digits_free p s :
  (∀ c, (48 ≤ c ≤ 57)%N → p c = false) → digits_only s → free_of p s.
Proof. intros Hp Hs. exact (Forall_impl _ _ _ Hs Hp). Qed.

Lemma digits_not_whitespace c : (48 ≤ c ≤ 57)%N → is_whitespace c = false.
Proof.
  intros Hc. unfold is_whitespace.
  repeat (apply orb_false_iff; split); try apply andb_false_iff;
    rewrite ?N.leb_gt, ?N.eqb_neq; lia.
Qed.

Lemma digits_eqb_false sep c : (sep < 48)%N → (48 ≤ c ≤ 57)%N → (sep =? c)%N = false.
Proof. intros. apply N.eqb_neq. lia. Qed.

Lemma digits_uppercase s : digits_only s → to_ascii_uppercase s = s.
Proof.
  induction 1 as [|c s Hc _ IH]; [done|]. cbn. f_equal; [|exact IH].
  by rewrite (proj2 (N.leb_gt 97 c)) by lia.
Qed.

Lemma decimal_digits_nonempty fuel n : fuel ≠ O → decimal_digits fuel n ≠ [].
Proof.
  destruct fuel; [done|]. intros _. cbn.
  destruct (n <? 10)%N; [done|]. by destruct (decimal_digits fuel (n / 10)).
Qed.

Lemma parse_decimal_digits fuel n :
  (n < 10 ^ N.of_nat fuel)%N → (n ≤ u32_max)%N → fuel ≠ O →
  fold_left push_digit (decimal_digits fuel n) (Some 0%N) = Some n.
Proof.
  revert n. induction fuel as [|fuel IH]; intros n Hn Hmax Hfuel; [done|].
  cbn [decimal_digits]. destruct (N.ltb_spec n 10) as [Hlt|Hge].
  - cbn. unfold digit. rewrite (proj2 (N.leb_le _ _)), (proj2 (N.leb_le _ _)) by lia.
    cbn. replace (_ <=? u32_max)%N with true by (symmetry; apply N.leb_le; lia).
    f_equal. lia.
  - rewrite fold_left_app, IH.
    + cbn. unfold digit.
      pose proof (N.mod_upper_bound n 10 ltac:(done)) as Hm.
      pose proof (N.div_mod n 10 ltac:(done)) as Hdm.
      revert Hm Hdm. generalize (n `mod` 10)%N (n `div` 10)%N. intros m d Hm Hdm.
      rewrite (proj2 (N.leb_le _ _)), (proj2 (N.leb_le _ _)) by lia.
      cbn. replace (d * 10 + (48 + m - 48))%N with n by lia.
      by rewrite (proj2 (N.leb_le _ _)).
    + rewrite Nat2N.inj_succ, N.pow_succ_r' in Hn.
      apply N.Div0.div_lt_upper_bound. lia.
    + pose proof (N.Div0.div_le_upper_bound n 10 u32_max). lia.
    + intros ->. cbn in Hn. lia.
Qed.

(** A printed [u32] parses back. *)
Lemma parse_decimal n : (n ≤ u32_max)%N → parse_u32 (decimal n) = Some n.
Proof.
  intros Hn.
  assert (Hp : fold_left push_digit (decimal n) (Some 0%N) = Some n).
  { apply parse_decimal_digits; [unfold u32_max in Hn; cbn; lia|done|done]. }
  pose proof (decimal_only n) as Hd. revert Hp Hd.
  pose proof (decimal_digits_nonempty 10 n). change (decimal_digits 10 n) with (decimal n) in *.
  destruct (decimal n) as [|c s]; [by destruct H|].
  intros Hp Hd. inversion Hd as [|? ? Hc Hs]; subst.
  unfold parse_u32. rewrite <- Hp.
  destruct c as [|p]; [lia|]. do 6 (destruct p; try reflexivity); lia.
Qed.
