(* ===== verification/Chrono.v ===== *)
(** * Chrono: what the scheduler uses of the [chrono] and [chrono_tz] crates

    Neither crate is part of the repository, so their types and functions are
    parameters ([Chrono]) and what the scheduler relies on is a class of laws
    ([ChronoLaws]), each the documented behaviour of one function.  A
    [DateTime] is a [DateTime<Utc>] that is not inside a leap second; [ns] is
    its offset from the Unix epoch in nanoseconds, in which chrono compares
    such instants.  [None] is a panic of the operators [+] and [-] and of the
    [Duration] constructors, and the absent result of the [_opt] functions.

    [UniformClock] instantiates the class with a clock whose months have
    thirty days, for the examples of the other files. *)

From S2P Require Import Prelude Text.

Local Open Scope Z_scope.

(** ** The parameters *)

Class Chrono := {
  DateTime : Type;
  TimeDelta : Type;
  Tz : Type;
  LocalTime : Type;
  ns : DateTime → Z;
  delta_ns : TimeDelta → Z;
  (** [DateTime::timestamp_millis], [Utc.timestamp_millis_opt(..).single()] *)
  timestamp_millis : DateTime → Z;
  timestamp_millis_opt : Z → option DateTime;
  (** [Duration::seconds], [Duration::minutes], [Duration::days] *)
  seconds : Z → option TimeDelta;
  minutes : Z → option TimeDelta;
  days : Z → option TimeDelta;
  num_seconds : TimeDelta → Z;
  num_milliseconds : TimeDelta → Z;
  (** [checked_add_signed], [checked_sub_signed]; the operators panic on [None] *)
  add_signed : DateTime → TimeDelta → option DateTime;
  sub_signed : DateTime → TimeDelta → option DateTime;
  signed_duration_since : DateTime → DateTime → TimeDelta;
  (** [Datelike] and [Timelike] of a UTC instant, [Utc.with_ymd_and_hms] *)
  year : DateTime → Z;
  month : DateTime → Z;
  day : DateTime → Z;
  hour : DateTime → Z;
  minute : DateTime → Z;
  with_ymd_and_hms : Z → Z → Z → Z → Z → Z → option DateTime;
  (** [with_timezone] and the fields of a local time *)
  with_timezone : DateTime → Tz → LocalTime;
  local_minute : LocalTime → N;
  local_hour : LocalTime → N;
  local_day : LocalTime → N;
  local_month : LocalTime → N;
  local_weekday_from_sunday : LocalTime → N;
  local_year_ce : LocalTime → N;
  (** [str::parse::<Tz>] and [Tz::name] *)
  parse_tz : str → option Tz;
  tz_name : Tz → str;
}.

(** [DateTime::<Utc>::MIN_UTC] and [MAX_UTC]. *)
Definition min_utc_ns : Z := -8334601228800 * 10 ^ 9.
Definition max_utc_ns : Z := 8210266876800 * 10 ^ 9 - 1.

Definition minute_ns : Z := 60 * 10 ^ 9.
Definition milli_ns : Z := 10 ^ 6.

Class ChronoLaws `{Chrono} : Prop := {
  #[global] ns_inj :: Inj (=) (=) ns;
  ns_range t : min_utc_ns ≤ ns t ≤ max_utc_ns;
  timestamp_millis_ns t : timestamp_millis t = ns t / milli_ns;
  timestamp_millis_opt_ns m t : timestamp_millis_opt m = Some t → ns t = m * milli_ns;
  timestamp_millis_opt_some t : is_Some (timestamp_millis_opt (timestamp_millis t));
  seconds_ns z d : seconds z = Some d → delta_ns d = z * 10 ^ 9;
  seconds_some z : is_Some (seconds z) ↔ Z.abs z ≤ i64_max / 1000;
  minutes_ns z d : minutes z = Some d → delta_ns d = z * minute_ns;
  minutes_some z : Z.abs z ≤ i64_max / 60000 → is_Some (minutes z);
  days_ns z d : days z = Some d → delta_ns d = z * (1440 * minute_ns);
  days_some z : Z.abs z ≤ i64_max / 86400000 → is_Some (days z);
  num_seconds_ns d : num_seconds d = Z.quot (delta_ns d) (10 ^ 9);
  num_milliseconds_ns d : num_milliseconds d = Z.quot (delta_ns d) milli_ns;
  add_signed_ns t d u : add_signed t d = Some u → ns u = ns t + delta_ns d;
  add_signed_some t d :
    min_utc_ns ≤ ns t + delta_ns d ≤ max_utc_ns → is_Some (add_signed t d);
  sub_signed_ns t d u : sub_signed t d = Some u → ns u = ns t - delta_ns d;
  sub_signed_some t d :
    min_utc_ns ≤ ns t - delta_ns d ≤ max_utc_ns → is_Some (sub_signed t d);
  signed_duration_since_ns t u : delta_ns (signed_duration_since t u) = ns t - ns u;
  with_ymd_and_hms_minute t :
    ∃ u, with_ymd_and_hms (year t) (month t) (day t) (hour t) (minute t) 0 = Some u ∧
         ns u = ns t / minute_ns * minute_ns;
  parse_tz_name tz : parse_tz (tz_name tz) = Some tz;
}.

(** The comparison operators of [DateTime<Utc>]. *)
Definition dt_ltb `{Chrono} (a b : DateTime) : bool := ns a <? ns b.
Definition dt_leb `{Chrono} (a b : DateTime) : bool := ns a <=? ns b.

(** ** The millisecond and minute grids *)

Definition on_millis `{Chrono} (t : DateTime) : Prop := ns t mod milli_ns = 0.
Definition on_minute `{Chrono} (t : DateTime) : Prop := ns t mod minute_ns = 0.

Section laws.
Context `{Chrono} {HL : ChronoLaws}.

Lemma on_minute_on_millis t : on_minute t → on_millis t.
Proof.
  unfold on_minute, on_millis, minute_ns, milli_ns. intros Hm.
  pose proof (Z.div_mod (ns t) (60 * 10 ^ 9)) as Hdm. rewrite Hm in Hdm.
  rewrite Hdm by done. replace (_ + 0)%Z with (60000 * (ns t / (60 * 10 ^ 9)) * 10 ^ 6) by lia.
  apply Z.mod_mul. done.
Qed.

(** A persisted millisecond timestamp of a grid instant reads back the instant. *)
Lemma on_millis_round_trip t :
  on_millis t → timestamp_millis_opt (timestamp_millis t) = Some t.
Proof.
  intros Ht. destruct (timestamp_millis_opt_some t) as [u Hu]. rewrite Hu. f_equal.
  apply (inj ns). rewrite (timestamp_millis_opt_ns _ _ Hu), timestamp_millis_ns.
  unfold on_millis in Ht. pose proof (Z.div_mod (ns t) milli_ns). unfold milli_ns in *. lia.
Qed.

End laws.

(** ** A concrete clock *)

Module UniformClock.

Definition in_range (z : Z) : bool := (min_utc_ns <=? z) && (z <=? max_utc_ns).

Record instant := Instant { offset : Z; offset_in_range : Is_true (in_range offset) }.

Definition clip (z : Z) : option instant :=
  match decide (Is_true (in_range z)) with left p => Some (Instant z p) | right _ => None end.

(** An instant written as seconds since the epoch, for the examples. *)
Definition at_seconds (z : Z) : instant := default (Instant 0 I) (clip (z * 10 ^ 9)).

Definition bounded_delta (limit unit z : Z) : option Z :=
  if Z.abs z <=? limit then Some (z * unit) else None.

(** The fields of an instant [m] minutes after the epoch: thirty-day months. *)
Definition field_minute (m : Z) : Z := m mod 60.
Definition field_hour (m : Z) : Z := m / 60 mod 24.
Definition field_day (m : Z) : Z := m / 1440 mod 30.
Definition field_month (m : Z) : Z := m / 43200 mod 12.
Definition field_year (m : Z) : Z := m / 518400.

Definition of_fields (y mo d h mi s : Z) : option instant :=
  clip ((((((y * 12 + mo) * 30 + d) * 24 + h) * 60 + mi) * 60 + s) * 10 ^ 9).

Definition minutes_of (t : instant) : Z := offset t / minute_ns.

(** Time zones are [UTC] and [+1], an offset of one hour. *)
Definition clock_tz (s : str) : option bool :=
  if bool_decide (s = lit "UTC") then Some false
  else if bool_decide (s = lit "+1") then Some true else None.

#[global] Instance clock : Chrono := {|
  DateTime := instant;
  TimeDelta := Z;
  Tz := bool;
  LocalTime := Z;
  ns t := offset t;
  delta_ns d := d;
  timestamp_millis t := offset t / milli_ns;
  timestamp_millis_opt m := clip (m * milli_ns);
  seconds := bounded_delta (i64_max / 1000) (10 ^ 9);
  minutes := bounded_delta (i64_max / 60000) minute_ns;
  days := bounded_delta (i64_max / 86400000) (1440 * minute_ns);
  num_seconds d := Z.quot d (10 ^ 9);
  num_milliseconds d := Z.quot d milli_ns;
  add_signed t d := clip (offset t + d);
  sub_signed t d := clip (offset t - d);
  signed_duration_since t u := offset t - offset u;
  year t := field_year (minutes_of t);
  month t := field_month (minutes_of t);
  day t := field_day (minutes_of t);
  hour t := field_hour (minutes_of t);
  minute t := field_minute (minutes_of t);
  with_ymd_and_hms := of_fields;
  with_timezone t tz := minutes_of t + (if tz then 60 else 0);
  local_minute m := Z.to_N (field_minute m);
  local_hour m := Z.to_N (field_hour m);
  local_day m := Z.to_N (field_day m + 1);
  local_month m := Z.to_N (field_month m + 1);
  local_weekday_from_sunday m := Z.to_N ((m / 1440 + 4) mod 7);
  local_year_ce m := Z.to_N (field_year m + 1970);
  parse_tz := clock_tz;
  tz_name tz := if tz then lit "+1" else lit "UTC";
|}.

Lemma clip_ns z t : clip z = Some t → offset t = z.
Proof. unfold clip. destruct (decide _); [|done]. by intros [= <-]. Qed.

Lemma in_range_spec z : Is_true (in_range z) ↔ min_utc_ns ≤ z ≤ max_utc_ns.
Proof.
  unfold in_range. rewrite Is_true_true, andb_true_iff, !Z.leb_le. done.
Qed.

Lemma clip_some z : min_utc_ns ≤ z ≤ max_utc_ns → is_Some (clip z).
Proof.
  intros Hz. unfold clip. destruct (decide _) as [|Hn]; [eauto|].
  destruct Hn. by apply in_range_spec.
Qed.

Lemma instant_range (t : instant) : min_utc_ns ≤ offset t ≤ max_utc_ns.
Proof. destruct t as [z Hz]. by apply in_range_spec. Qed.

Lemma fields_recompose m :
  (((field_year m * 12 + field_month m) * 30 + field_day m) * 24 + field_hour m) * 60
    + field_minute m = m.
Proof.
  unfold field_year, field_month, field_day, field_hour, field_minute.
  assert (E : m / 518400 * 12 + m / 43200 mod 12 = m / 43200).
  { replace 518400 with (43200 * 12) by done. rewrite <- Z.div_div by done.
    pose proof (Z.div_mod (m / 43200) 12). lia. }
  assert (E2 : m / 43200 * 30 + m / 1440 mod 30 = m / 1440).
  { replace 43200 with (1440 * 30) by done. rewrite <- Z.div_div by done.
    pose proof (Z.div_mod (m / 1440) 30). lia. }
  assert (E3 : m / 1440 * 24 + m / 60 mod 24 = m / 60).
  { replace 1440 with (60 * 24) by done. rewrite <- Z.div_div by done.
    pose proof (Z.div_mod (m / 60) 24). lia. }
  rewrite E, E2, E3. pose proof (Z.div_mod m 60). lia.
Qed.

Lemma bounded_delta_some limit unit z :
  is_Some (bounded_delta limit unit z) ↔ Z.abs z ≤ limit.
Proof.
  unfold bounded_delta. destruct (Z.leb_spec (Z.abs z) limit).
  - split; eauto.
  - split; [by intros []|lia].
Qed.

Lemma bounded_delta_ns limit unit z d : bounded_delta limit unit z = Some d → d = z * unit.
Proof. unfold bounded_delta. destruct (_ <=? _); congruence. Qed.

Lemma grid_range unit z :
  min_utc_ns mod unit = 0 → 0 < unit → min_utc_ns ≤ z ≤ max_utc_ns →
  min_utc_ns ≤ z / unit * unit ≤ max_utc_ns.
Proof.
  intros Hmin Hunit [Hlo Hhi]. split.
  - pose proof (Z.div_le_mono _ _ unit Hunit Hlo) as Hle.
    pose proof (Z.div_mod min_utc_ns unit). nia.
  - pose proof (Z.mul_div_le z unit Hunit). lia.
Qed.

#[global] Instance clock_laws : ChronoLaws.
Proof.
  split; cbn [ns delta_ns timestamp_millis timestamp_millis_opt seconds minutes days
    num_seconds num_milliseconds add_signed sub_signed signed_duration_since year month
    day hour minute with_ymd_and_hms parse_tz tz_name clock];
    try (intros; done); eauto using clip_ns, clip_some, instant_range, bounded_delta_ns.
  - intros [a Ha] [b Hb]. cbn. intros <-. f_equal. apply proof_irrel.
  - intros t. apply clip_some, grid_range; [done|done|apply instant_range].
  - apply bounded_delta_some.
  - intros z Hz. by apply bounded_delta_some.
  - intros z Hz. by apply bounded_delta_some.
  - intros t. unfold of_fields. rewrite fields_recompose.
    replace ((minutes_of t * 60 + 0) * 10 ^ 9) with (offset t / minute_ns * minute_ns)
      by (unfold minutes_of, minute_ns; lia).
    destruct (clip_some (offset t / minute_ns * minute_ns)) as [u Hu].
    + apply grid_range; [done|done|apply instant_range].
    + exists u. split; [done|by apply clip_ns].
  - by intros [].
Qed.
End UniformClock.
