(* ===== verification/ScheduleTypes.v ===== *)
(** * ScheduleTypes: triggers and errors of the schedule crate

    The trigger data of [meerkat-schedule/src/types.rs] and the two error
    variants of [error.rs] the trigger engine returns. *)

From S2P Require Import Prelude Text Chrono.

(** The variants of [ScheduleDomainError] that trigger evaluation and cron
    authoring construct. *)
Inductive ScheduleDomainError :=
| InvalidTrigger (message : str)
| InvalidCron (message : str).

#[export] Instance ScheduleDomainError_eq_dec : EqDecision ScheduleDomainError.
Proof. solve_decision. Defined.

(** ** Calendar fields *)

Inductive CalendarFieldSpec :=
| Any
| Values (values : list N).

#[export] Instance CalendarFieldSpec_eq_dec : EqDecision CalendarFieldSpec.
Proof. solve_decision. Defined.

Definition contains (f : CalendarFieldSpec) (value : N) : bool :=
  match f with
  | Any => true
  | Values values => bool_decide (value ∈ values)
  end.

Record CalendarTriggerSpec := {
  timezone : str;
  spec_minute : CalendarFieldSpec;
  spec_hour : CalendarFieldSpec;
  day_of_month : CalendarFieldSpec;
  spec_month : CalendarFieldSpec;
  day_of_week : CalendarFieldSpec;
  spec_year : option CalendarFieldSpec;
}.

#[export] Instance CalendarTriggerSpec_eq_dec : EqDecision CalendarTriggerSpec.
Proof. solve_decision. Defined.

(** ** Triggers *)

Record IntervalTriggerSpec `{Chrono} := {
  start_at_utc : DateTime;
  every_seconds : N;
  end_at_utc : option DateTime;
}.

Inductive TriggerSpec `{Chrono} :=
| Once (due_at_utc : DateTime)
| Interval (spec : IntervalTriggerSpec)
| Calendar (spec : CalendarTriggerSpec).

(** ** Revisions and ordinals *)

(** [ScheduleRevision::next] and [OccurrenceOrdinal::next]. *)
Definition saturating_next (n : N) : N := N.min (n + 1) u64_max.

Definition ScheduleRevision_initial : N := 1.
Definition ScheduleRevision_next : N → N := saturating_next.
Definition OccurrenceOrdinal_next : N → N := saturating_next.

(** ** Misfire policies *)

Inductive MisfirePolicy :=
| Skip
| CatchUpWithin (window_seconds : N).

Definition DEFAULT_SKIP_MISFIRE_GRACE_SECONDS : Z := 30.

(** [i64::try_from(n).unwrap_or(i64::MAX)] on a [u64]. *)
Definition i64_try_from (n : N) : option Z :=
  if (Z.of_N n <=? i64_max)%Z then Some (Z.of_N n) else None.

(** [catch_up_window]: [Duration::seconds] panics on a long window. *)
Definition catch_up_window `{Chrono} (p : MisfirePolicy) : option TimeDelta :=
  match p with
  | Skip => seconds DEFAULT_SKIP_MISFIRE_GRACE_SECONDS
  | CatchUpWithin window_seconds => seconds (default i64_max (i64_try_from window_seconds))
  end.

(** [misfire_deadline_utc]; the error type is empty, the call can only panic. *)
Definition misfire_deadline_utc `{Chrono} (p : MisfirePolicy) (due_at_utc : DateTime)
  : Outcome Empty_set (option DateTime) :=
  window ← or_panic (catch_up_window p); Ok (add_signed due_at_utc window).
