(* ===== verification/Targets.v ===== *)
(** * Targets: what a schedule runs

    The target bindings of [meerkat-schedule/src/types.rs], the checks public
    requests are given and the binding of a session a target materializes.
    Payloads the schedule crate only stores and compares are parameters
    ([TargetData]); JSON payloads are held as their canonical texts, as the
    source holds them. *)

From S2P Require Import Prelude.

Class TargetData := {
  ContentInput : Type;
  #[global] content_eq_dec :: EqDecision ContentInput;
  RenderMetadata : Type;
  #[global] render_eq_dec :: EqDecision RenderMetadata;
  SkillRef : Type;
  #[global] skill_eq_dec :: EqDecision SkillRef;
  JsonValue : Type;
  #[global] json_eq_dec :: EqDecision JsonValue;
  SessionMaterializationSpec : Type;
  #[global] materialization_eq_dec :: EqDecision SessionMaterializationSpec;
  ToolAccessPolicy : Type;
  #[global] access_eq_dec :: EqDecision ToolAccessPolicy;
  ResolvedSpawnSnapshot : Type;
  #[global] snapshot_eq_dec :: EqDecision ResolvedSpawnSnapshot;
  ForkContextSpec : Type;
  #[global] fork_eq_dec :: EqDecision ForkContextSpec;
  PrincipalRef : Type;
  #[global] principal_eq_dec :: EqDecision PrincipalRef;
}.

Section targets.
Context `{TargetData}.

(** ** Data *)

Inductive ScheduledSessionAction :=
| Prompt (prompt : ContentInput) (system_prompt : option string)
    (render_metadata : option RenderMetadata) (skill_refs : list SkillRef)
    (additional_instructions : list string)
| Event (event_type : string) (payload : JsonValue) (render_metadata : option RenderMetadata).

Inductive SessionTargetBinding :=
| ExactSession (session_id : string) (action : ScheduledSessionAction)
| ResumableSession (session_id : string) (action : ScheduledSessionAction)
| MaterializeOnDemandSession (create : SessionMaterializationSpec)
    (action : ScheduledSessionAction) (bound_session_id : option string).

Inductive IdentityTargetBinding :=
| ResumableIdentity (identity : string) (action : ScheduledSessionAction).

Inductive ScheduledMobAction :=
| Send (content : ContentInput) (render_metadata : option RenderMetadata).

Inductive ScheduleSpawnTooling :=
| InheritParent (allow_overlay deny_overlay : option (list string))
| Minimal
| Profile (name : string) (allow_overlay deny_overlay : option (list string)).

Inductive ScheduledMobRuntimeMode := AutonomousHost | TurnDriven.
Inductive ScheduledMobBackendKind := BackendSession | BackendExternal.

Record HelperOptionsSpec := {
  role_name : option string;
  runtime_mode : option ScheduledMobRuntimeMode;
  helper_backend : option ScheduledMobBackendKind;
  tool_access_policy : option ToolAccessPolicy;
  tooling : option ScheduleSpawnTooling;
  resolved_spawn_snapshot : option ResolvedSpawnSnapshot;
}.

Inductive MobTargetBinding :=
| Member (mob_id member_id : string) (action : ScheduledMobAction)
| Flow (mob_id flow_id : string) (params : string)
| SpawnHelper (mob_id member_id prompt : string) (options : HelperOptionsSpec)
| ForkHelper (mob_id source_member_id member_id prompt : string)
    (fork_context : ForkContextSpec) (options : HelperOptionsSpec).

Record HostRunnableTargetBinding := {
  runnable : string;
  runnable_params : option string;
}.

Inductive TargetBinding :=
| Session (binding : SessionTargetBinding)
| Identity (binding : IdentityTargetBinding)
| Mob (binding : MobTargetBinding)
| HostRunnable (binding : HostRunnableTargetBinding).

#[export] Instance session_action_eq_dec : EqDecision ScheduledSessionAction.
Proof. solve_decision. Defined.
#[export] Instance session_target_eq_dec : EqDecision SessionTargetBinding.
Proof. solve_decision. Defined.
#[export] Instance identity_target_eq_dec : EqDecision IdentityTargetBinding.
Proof. solve_decision. Defined.
#[export] Instance mob_action_eq_dec : EqDecision ScheduledMobAction.
Proof. solve_decision. Defined.
#[export] Instance spawn_tooling_eq_dec : EqDecision ScheduleSpawnTooling.
Proof. solve_decision. Defined.
#[export] Instance runtime_mode_eq_dec : EqDecision ScheduledMobRuntimeMode.
Proof. solve_decision. Defined.
#[export] Instance backend_kind_eq_dec : EqDecision ScheduledMobBackendKind.
Proof. solve_decision. Defined.
#[export] Instance helper_options_eq_dec : EqDecision HelperOptionsSpec.
Proof. solve_decision. Defined.
#[export] Instance mob_target_eq_dec : EqDecision MobTargetBinding.
Proof. solve_decision. Defined.
#[export] Instance runnable_target_eq_dec : EqDecision HostRunnableTargetBinding.
Proof. solve_decision. Defined.
#[export] Instance target_eq_dec : EqDecision TargetBinding.
Proof. solve_decision. Defined.

(** ** Materialized sessions *)

(** [target_materialized_session_id] *)
Definition target_session_id (target : TargetBinding) : option string :=
  match target with
  | Session (MaterializeOnDemandSession _ _ bound_session_id) => bound_session_id
  | _ => None
  end.

(** [bind_materialized_session]: the bound target, or [None] if nothing is bound. *)
Definition session_bind_materialized (session_id : string) (binding : SessionTargetBinding)
  : option SessionTargetBinding :=
  match binding with
  | MaterializeOnDemandSession create action bound_session_id =>
      match bound_session_id with
      | Some existing => None
      | None => Some (MaterializeOnDemandSession create action (Some session_id))
      end
  | ExactSession _ _ | ResumableSession _ _ => None
  end.

Definition bind_materialized_session (session_id : string) (target : TargetBinding)
  : option TargetBinding :=
  match target with
  | Session binding => Session <$> session_bind_materialized session_id binding
  | Identity _ | Mob _ | HostRunnable _ => None
  end.

(** ** Checks of public requests *)

Notation check := (Outcome string unit).

Definition refuse_if (b : bool) (reason : string) : check := if b then Err reason else Ok tt.

Definition requires_parent_context (tooling : ScheduleSpawnTooling) : bool :=
  match tooling with InheritParent _ _ | Minimal => true | Profile _ _ _ => false end.

Definition validate_bounded_runtime_mode (options : HelperOptionsSpec) : check :=
  refuse_if (runtime_mode options == Some AutonomousHost)
    "scheduled mob helpers run one tracked turn, which runtime_mode autonomous_host cannot complete; use turn_driven or leave runtime_mode unset".

Definition validate_helper_options (options : HelperOptionsSpec) : check :=
  _ ← validate_bounded_runtime_mode options;
  _ ← refuse_if (resolved_spawn_snapshot options != None)
        "resolved spawn snapshots are trusted internal schedule state and cannot be supplied through public schedule APIs";
  _ ← refuse_if (match tooling options with
                 | Some tooling => requires_parent_context tooling | None => false end)
        "schedule spawn tooling mode requires parent agent context (inherit_parent/minimal are only valid through agent tools)";
  refuse_if (match tooling options with
             | Some (Profile _ allow_overlay deny_overlay) =>
                 (allow_overlay != None) || (deny_overlay != None)
             | _ => false end)
    "schedule spawn profile overlays require trusted resolved spawn state and are only valid through agent tools".

Definition validate_mob_target (binding : MobTargetBinding) : check :=
  match binding with
  | SpawnHelper _ _ _ options | ForkHelper _ _ _ _ _ options => validate_helper_options options
  | Member _ _ _ | Flow _ _ _ => Ok tt
  end.

Definition MOB_MEMBER_IDENTITY_TARGET_PREFIX : string := "mob_member:".

Definition validate_identity_target (binding : IdentityTargetBinding) : check :=
  match binding with
  | ResumableIdentity identity action =>
      if negb (String.prefix MOB_MEMBER_IDENTITY_TARGET_PREFIX identity) then Ok tt
      else
        match action with
        | Prompt _ system_prompt _ skill_refs additional_instructions =>
            refuse_if ((system_prompt != None) || (skill_refs != [])
                       || (additional_instructions != []))
              "scheduled mob-member identity targets do not support session-only prompt overrides"
        | Event _ _ _ => Err "scheduled mob-member identity targets only support prompt actions"
        end
  end.

(** [TargetBinding::validate_public_api] *)
Definition validate_public_api (target : TargetBinding) : check :=
  match target with
  | Session _ => Ok tt
  | Identity binding => validate_identity_target binding
  | Mob binding => validate_mob_target binding
  | HostRunnable _ => Ok tt
  end.
End targets.
