(* ===== verification/Cron.v ===== *)
(** * Cron: cron authoring

    [CronAuthoringSpec::into_calendar] of [meerkat-schedule/src/trigger.rs] and
    the field parser it calls. *)

From S2P Require Import Prelude Text Chrono ScheduleTypes.

Record CronAuthoringSpec := {
  expression : str;
  cron_timezone : str;
}.

Inductive ValueDomain := Minute | Hour | DayOfMonth | Month | DayOfWeek.

#[export] Instance ValueDomain_eq_dec : EqDecision ValueDomain.
Proof. solve_decision. Defined.

(** ** Tokens *)

(** A [match] on string literals. *)
Definition match_names (table : list (string * N)) (value : str) : option N :=
  snd <$> find (λ entry, bool_decide (value = lit entry.1)) table.

Definition month_name : str → option N :=
  match_names [("JAN", 1); ("FEB", 2); ("MAR", 3); ("APR", 4); ("MAY", 5); ("JUN", 6);
    ("JUL", 7); ("AUG", 8); ("SEP", 9); ("OCT", 10); ("NOV", 11); ("DEC", 12)]%N.

Definition day_of_week_name : str → option N :=
  match_names [("SUN", 0); ("MON", 1); ("TUE", 2); ("TUES", 2); ("WED", 3); ("THU", 4);
    ("THUR", 4); ("THURS", 4); ("FRI", 5); ("SAT", 6)]%N.

Definition or_else {A} (a b : option A) : option A :=
  match a with Some _ => a | None => b end.

Definition normalize_field_value (raw : str) (domain : ValueDomain)
  : Outcome ScheduleDomainError N :=
  let upper := to_ascii_uppercase (trim raw) in
  parsed ← ok_or (match domain with
                  | Month => or_else (month_name upper) (parse_u32 upper)
                  | DayOfWeek => or_else (day_of_week_name upper) (parse_u32 upper)
                  | _ => parse_u32 upper
                  end) (InvalidCron (lit "invalid cron token `" ++ raw ++ lit "`"));
  Ok (if (domain == DayOfWeek) && (parsed == 7%N) then 0%N else parsed).

(** The function the source calls [parse_u32]. *)
Definition parse_step : str → ValueDomain → Outcome ScheduleDomainError N :=
  normalize_field_value.

(** ** Parts of a field *)

(** [BTreeSet<u32>::insert] on the ascending list of the elements. *)
Fixpoint btree_insert (x : N) (l : list N) : list N :=
  match l with
  | [] => [x]
  | y :: l' =>
      if (x <? y)%N then x :: l
      else if (x =? y)%N then l
      else y :: btree_insert x l'
  end.

(** [while value <= range_end { out.insert(value); .. }]: an iteration raises
    [value] by at least one, so [range_end - value + 2] units of fuel are enough. *)
Fixpoint insert_steps (fuel : nat) (value range_end step : N) (out : list N)
  : Outcome ScheduleDomainError (list N) :=
  match fuel with
  | O => OutOfFuel
  | S fuel' =>
      if (value <=? range_end)%N then
        let out' := btree_insert value out in
        if (value + step <=? u32_max)%N
        then insert_steps fuel' (value + step) range_end step out'
        else Ok out'
      else Ok out
  end.

Definition steps_fuel (value range_end : N) : nat := N.to_nat (range_end - value) + 2.

Definition SLASH : N := 47.
Definition DASH : N := 45.
Definition COMMA : N := 44.
Definition STAR : str := lit "*".

(** The part split at its first slash, and the step it names. *)
Definition part_step (raw : str) (domain : ValueDomain)
  : Outcome ScheduleDomainError (str * option N) :=
  match split_once SLASH raw with
  | Some (base, step) => step' ← parse_step step domain; Ok (base, Some step')
  | None => Ok (raw, None)
  end.

Definition part_range (base : str) (min max : N) (domain : ValueDomain)
  : Outcome ScheduleDomainError (N * N) :=
  if base == STAR then Ok (min, max)
  else match split_once DASH base with
       | Some (start, stop) =>
           range_start ← normalize_field_value start domain;
           range_end ← normalize_field_value stop domain;
           Ok (range_start, range_end)
       | None => value ← normalize_field_value base domain; Ok (value, value)
       end.

Definition parse_part (raw : str) (min max : N) (domain : ValueDomain) (out : list N)
  : Outcome ScheduleDomainError (list N) :=
  '(base, step) ← part_step raw domain;
  if step == Some 0%N then
    Err (InvalidCron (lit "cron step must be >= 1 in `" ++ raw ++ lit "`"))
  else
    '(range_start, range_end) ← part_range base min max domain;
    if (range_start <? min)%N || (max <? range_end)%N || (range_end <? range_start)%N then
      Err (InvalidCron (lit "cron field `" ++ raw ++ lit "` is outside the allowed range "
                        ++ decimal min ++ lit "..=" ++ decimal max))
    else
      insert_steps (steps_fuel range_start range_end) range_start range_end
        (default 1%N step) out.

(** ** Fields *)

Fixpoint parse_parts (parts : list str) (min max : N) (domain : ValueDomain) (out : list N)
  : Outcome ScheduleDomainError (list N) :=
  match parts with
  | [] => Ok out
  | part :: parts' =>
      out' ← parse_part (trim part) min max domain out;
      parse_parts parts' min max domain out'
  end.

Definition parse_field (raw : str) (min max : N) (domain : ValueDomain)
  : Outcome ScheduleDomainError CalendarFieldSpec :=
  if raw == STAR then Ok Any
  else
    values ← parse_parts (split COMMA raw) min max domain [];
    match values with
    | [] => Err (InvalidCron (lit "cron field `" ++ raw ++ lit "` expands to no values"))
    | _ => Ok (Values values)
    end.

Definition normalize_timezone `{Chrono} (value : str) : Outcome ScheduleDomainError Tz :=
  ok_or (parse_tz value) (InvalidTrigger (lit "invalid IANA timezone: " ++ value)).

(** ** Expressions *)

Definition five_fields_message : str :=
  lit "cron expressions must have 5 fields: minute hour day_of_month month day_of_week".

Definition into_calendar `{Chrono} (self : CronAuthoringSpec)
  : Outcome ScheduleDomainError CalendarTriggerSpec :=
  match split_whitespace self.(expression) with
  | [f0; f1; f2; f3; f4] =>
      tz ← normalize_timezone self.(cron_timezone);
      minute ← parse_field f0 0 59 Minute;
      hour ← parse_field f1 0 23 Hour;
      day_of_month ← parse_field f2 1 31 DayOfMonth;
      month ← parse_field f3 1 12 Month;
      day_of_week ← parse_field f4 0 6 DayOfWeek;
      Ok {| timezone := tz_name tz; spec_minute := minute; spec_hour := hour;
            day_of_month := day_of_month; spec_month := month;
            day_of_week := day_of_week; spec_year := None |}
  | _ => Err (InvalidCron five_fields_message)
  end.

Definition into_trigger `{Chrono} (self : CronAuthoringSpec)
  : Outcome ScheduleDomainError TriggerSpec :=
  calendar ← into_calendar self; Ok (Calendar calendar).
