(* ===== verification/CronFacts.v ===== *)
(** * CronFacts: the cron parser selects the values its grammar denotes

    Fields are printed from an abstract syntax ([cron_part]); the parser reads
    a printed field as the ascending list of the values the parts denote.  The
    round trip of a calendar through its cron expression follows. *)

From Stdlib Require Import Sorted.
From S2P Require Import Prelude Text Chrono ScheduleTypes Cron.

(** ** Ascending lists as sets *)

Definition ascending : list N → Prop := StronglySorted N.lt.

Lemma elem_of_btree_insert x l v : v ∈ btree_insert x l ↔ v = x ∨ v ∈ l.
Proof.
  induction l as [|y l IH]; cbn; [set_solver|].
  destruct (N.ltb_spec x y); [set_solver|].
  destruct (N.eqb_spec x y); set_solver.
Qed.

Lemma btree_insert_ascending x l : ascending l → ascending (btree_insert x l).
Proof.
  induction 1 as [|y l Hl IH Hy]; cbn; [repeat constructor|].
  destruct (N.ltb_spec x y) as [Hxy|Hxy].
  - constructor; [by constructor|]. constructor; [done|].
    eapply Forall_impl; [exact Hy|]. intros z Hz. lia.
  - destruct (N.eqb_spec x y); [by constructor|]. constructor; [done|].
    apply Forall_forall. intros z [->|Hz]%elem_of_btree_insert; [lia|].
    rewrite Forall_forall in Hy. by apply Hy.
Qed.

Lemma ascending_ext l1 l2 :
  ascending l1 → ascending l2 → (∀ v, v ∈ l1 ↔ v ∈ l2) → l1 = l2.
Proof.
  intros H1. revert l2. induction H1 as [|x l1 Hl1 IH Hx]; intros l2 H2 Heq.
  - destruct l2 as [|y l2]; [done|]. specialize (Heq y). set_solver.
  - destruct H2 as [|y l2 Hl2 Hy]; [specialize (Heq x); set_solver|].
    rewrite Forall_forall in Hx, Hy.
    assert (x = y) as ->.
    { assert (x ∈ y :: l2) as [->|Hin]%elem_of_cons by (apply Heq; set_solver); [done|].
      assert (y ∈ x :: l1) as [->|Hin']%elem_of_cons by (apply Heq; set_solver); [done|].
      pose proof (Hx _ Hin'). pose proof (Hy _ Hin). lia. }
    f_equal. apply IH; [done|]. intros v. specialize (Heq v). split; intros Hv.
    + assert (v ∈ y :: l2) as [->|]%elem_of_cons by (apply Heq; set_solver); [|done].
      pose proof (Hx _ Hv). lia.
    + assert (v ∈ y :: l1) as [->|]%elem_of_cons by (apply Heq; set_solver); [|done].
      pose proof (Hy _ Hv). lia.
Qed.

(** ** The loop over a range *)

(** The values of a stepped range. *)
Definition stepped (start stop step v : N) : Prop :=
  ∃ k, v = (start + k * step)%N ∧ (v ≤ stop)%N.

Lemma stepped_unfold start stop step v :
  (start ≤ stop)%N →
  stepped start stop step v ↔ v = start ∨ stepped (start + step) stop step v.
Proof.
  intros Hle. split.
  - intros (k & -> & Hk). destruct (N.eq_dec k 0%N) as [->|Hne]; [left; lia|].
    right. exists (N.pred k). split; [|done]. rewrite <- (N.succ_pred k Hne) at 1. lia.
  - intros [->|(k & -> & Hk)]; [exists 0%N; lia|]. exists (N.succ k). lia.
Qed.

Lemma stepped_empty start stop step v : (stop < start)%N → ¬ stepped start stop step v.
Proof. intros Hlt (k & -> & Hk). lia. Qed.

(** With the fuel of [steps_fuel] the loop ends, and has inserted exactly the
    values of the stepped range. *)
Lemma insert_steps_spec fuel start stop step out :
  (1 ≤ step)%N → (stop ≤ u32_max)%N → ascending out →
  (N.to_nat (stop - start) + 2 ≤ fuel)%nat ∨ (stop < start)%N ∧ (1 ≤ fuel)%nat →
  ∃ out', insert_steps fuel start stop step out = Ok out' ∧ ascending out' ∧
    ∀ v, v ∈ out' ↔ v ∈ out ∨ stepped start stop step v.
Proof.
  intros Hstep Hstop. revert start out.
  induction fuel as [|fuel IH]; intros start out Hout Hfuel; [lia|]. cbn.
  destruct (N.leb_spec start stop) as [Hle|Hlt].
  - assert (Hout' := btree_insert_ascending start out Hout).
    destruct (N.leb_spec (start + step) u32_max) as [Hadd|Hadd].
    + destruct (IH (start + step)%N (btree_insert start out)) as (out' & -> & Hasc & Hin);
        [done|lia|].
      exists out'. split_and!; [done|done|]. intros v.
      rewrite Hin, elem_of_btree_insert, (stepped_unfold start) by done. tauto.
    + eexists. split_and!; [done|done|]. intros v.
      rewrite elem_of_btree_insert, (stepped_unfold start) by done.
      split; [tauto|]. intros [?|[?|Hs]]; [tauto..|].
      destruct (stepped_empty (start + step) stop step v); [lia|done].
  - exists out. split_and!; [done|done|]. intros v. split; [tauto|].
    intros [|Hs]; [done|]. by destruct (stepped_empty start stop step v).
Qed.

Lemma insert_steps_total start stop step out :
  (1 ≤ step)%N → (stop ≤ u32_max)%N → ascending out →
  ∃ out', insert_steps (steps_fuel start stop) start stop step out = Ok out' ∧
    ascending out' ∧ ∀ v, v ∈ out' ↔ v ∈ out ∨ stepped start stop step v.
Proof. intros. apply insert_steps_spec; [done..|]. left. unfold steps_fuel. lia. Qed.

(** ** Every field: range and order of the values, errors *)

Definition field_in (lo hi : N) (f : CalendarFieldSpec) : Prop :=
  match f with
  | Any => True
  | Values l => l ≠ [] ∧ ascending l ∧ Forall (λ v, lo ≤ v ≤ hi)%N l
  end.

(** A call that answers, with [P] of the answer, or refuses the expression. *)
Definition answers {A} (P : A → Prop) (o : Outcome ScheduleDomainError A) : Prop :=
  match o with
  | Ok a => P a
  | Err (InvalidCron _) => True
  | _ => False
  end.

Lemma answers_bind {A B} (P : A → Prop) (Q : B → Prop) o (f : A → Outcome _ B) :
  answers P o → (∀ a, P a → answers Q (f a)) → answers Q (o ≫= f).
Proof. destruct o as [a|[]| |]; cbn; auto. Qed.

Lemma answers_token raw domain : answers (λ _, True) (normalize_field_value raw domain).
Proof. unfold normalize_field_value. by destruct (match domain with Month => _ | _ => _ end). Qed.

Lemma answers_step raw domain : answers (λ _, True) (part_step raw domain).
Proof.
  unfold part_step. destruct (split_once _ _) as [[base step]|]; [|done].
  eapply answers_bind; [apply answers_token|done].
Qed.

Lemma answers_range base lo hi domain : answers (λ _, True) (part_range base lo hi domain).
Proof.
  unfold part_range. destruct (_ == _); [done|].
  destruct (split_once _ _) as [[start stop]|].
  - eapply answers_bind; [apply answers_token|]. intros a _.
    eapply answers_bind; [apply answers_token|done].
  - eapply answers_bind; [apply answers_token|done].
Qed.

(** The set under construction: ascending, within the bounds of the field. *)
Definition set_in (lo hi : N) (l : list N) : Prop :=
  ascending l ∧ Forall (λ v, lo ≤ v ≤ hi)%N l.

Lemma answers_part raw lo hi domain out :
  (hi ≤ u32_max)%N → set_in lo hi out →
  answers (λ out', set_in lo hi out' ∧ out' ≠ []) (parse_part raw lo hi domain out).
Proof.
  intros Hhi [Hasc Hall]. unfold parse_part.
  eapply answers_bind; [apply answers_step|]. intros [base step] _.
  destruct (step == Some 0%N) eqn:Hstep; [done|].
  eapply answers_bind; [apply answers_range|]. intros [a b] _.
  destruct (_ || _) eqn:Hr; [done|]. prop_guards.
  destruct (insert_steps_total a b (default 1%N step) out) as (out' & -> & Hasc' & Hin);
    [destruct step as [[]|]; cbn; [done|lia..]|lia|done|].
  split; [split; [done|]|].
  - apply Forall_forall. intros v [Hv|(k & -> & Hk)]%Hin; [|nia].
    rewrite Forall_forall in Hall. by apply Hall.
  - assert (a ∈ out') by (apply Hin; right; exists 0%N; lia). intros ->. set_solver.
Qed.

Lemma answers_parts parts lo hi domain out :
  (hi ≤ u32_max)%N → set_in lo hi out →
  answers (set_in lo hi) (parse_parts parts lo hi domain out).
Proof.
  intros Hhi. revert out. induction parts as [|p parts IH]; intros out Hout; [done|].
  cbn [parse_parts]. eapply answers_bind; [by apply answers_part|].
  intros out' [Hout' _]. by apply IH.
Qed.

Lemma answers_field raw lo hi domain :
  (hi ≤ u32_max)%N → answers (field_in lo hi) (parse_field raw lo hi domain).
Proof.
  intros Hhi. unfold parse_field. destruct (_ == _); [done|].
  eapply answers_bind; [apply answers_parts; [done|repeat constructor]|].
  by intros [|v l] [Hasc Hall]; [|split].
Qed.

(** ** Calendars *)

Record well_formed `{Chrono} (c : CalendarTriggerSpec) : Prop := {
  wf_timezone : ∃ tz, c.(timezone) = tz_name tz;
  wf_minute : field_in 0 59 c.(spec_minute);
  wf_hour : field_in 0 23 c.(spec_hour);
  wf_day_of_month : field_in 1 31 c.(day_of_month);
  wf_month : field_in 1 12 c.(spec_month);
  wf_day_of_week : field_in 0 6 c.(day_of_week);
  wf_year : c.(spec_year) = None;
}.

(** The parse of one field: an answer within the bounds, or a refusal. *)
Ltac read_field f lo hi domain :=
  let Hin := fresh "Hin" in
  pose proof (answers_field f lo hi domain ltac:(done)) as Hin;
  destruct (parse_field f lo hi domain) as [?|[]| |]; cbn in Hin |- *;
  [|by destruct Hin|by eauto|by destruct Hin|by destruct Hin].

(** C36: cron authoring always answers.  An accepted expression gives a calendar
    whose fields are non-empty ascending lists of values in range and whose
    time zone resolves, so that no later scan of it is refused; the zone is
    blamed ([InvalidTrigger]) exactly when it does not parse, for an expression
    of five fields. *)
Theorem cron_authoring_well_formed `{Chrono} {HL : ChronoLaws} self :
  match into_calendar self with
  | Ok c => well_formed c ∧ is_Some (parse_tz c.(timezone))
  | Err (InvalidTrigger m) =>
      parse_tz self.(cron_timezone) = None ∧ length (split_whitespace self.(expression)) = 5%nat
  | Err (InvalidCron m) =>
      m = five_fields_message ∨ is_Some (parse_tz self.(cron_timezone))
  | _ => False
  end.
Proof.
  unfold into_calendar.
  destruct (split_whitespace _) as [|f0 [|f1 [|f2 [|f3 [|f4 [|]]]]]]; try (by left).
  unfold normalize_timezone. destruct (parse_tz _) as [tz|] eqn:Htz; [|done]. cbn [ok_or mbind Outcome_bind].
  read_field f0 0%N 59%N Minute. read_field f1 0%N 23%N Hour. read_field f2 1%N 31%N DayOfMonth.
  read_field f3 1%N 12%N Month. read_field f4 0%N 6%N DayOfWeek.
  rewrite parse_tz_name. split; [|eauto]. by split; eauto.
Qed.

(** ** The grammar of a field *)

Inductive cron_base :=
| Every
| Single (v : N)
| Between (start stop : N).

Record cron_part := {
  part_base : cron_base;
  part_every : option N;
}.

Definition print_base (b : cron_base) : str :=
  match b with
  | Every => STAR
  | Single v => decimal v
  | Between start stop => decimal start ++ DASH :: decimal stop
  end.

Definition print_part (p : cron_part) : str :=
  match p.(part_every) with
  | None => print_base p.(part_base)
  | Some step => print_base p.(part_base) ++ SLASH :: decimal step
  end.

Definition print_parts (parts : list cron_part) : str := join COMMA (map print_part parts).

Definition base_range (lo hi : N) (b : cron_base) : N * N :=
  match b with
  | Every => (lo, hi)
  | Single v => (v, v)
  | Between start stop => (start, stop)
  end.

(** The values a part denotes. *)
Definition denotes (lo hi : N) (p : cron_part) (v : N) : Prop :=
  let '(start, stop) := base_range lo hi p.(part_base) in
  stepped start stop (default 1%N p.(part_every)) v.

(** Seven is Sunday where a weekday is read, and steps are read as weekdays. *)
Definition token_ok (domain : ValueDomain) (v : N) : Prop :=
  (v ≤ u32_max)%N ∧ (domain = DayOfWeek → v ≠ 7%N).

Definition part_ok (lo hi : N) (domain : ValueDomain) (p : cron_part) : Prop :=
  let '(start, stop) := base_range lo hi p.(part_base) in
  (lo ≤ start ≤ stop)%N ∧ (stop ≤ hi)%N ∧
  match p.(part_every) with Some step => step ≠ 0%N ∧ token_ok domain step | None => True end.

(** *** Printed tokens parse back *)

Lemma decimal_nonempty v : decimal v ≠ [].
Proof. by apply decimal_digits_nonempty. Qed.

Lemma decimal_free sep v : (sep < 48)%N → free_of (N.eqb sep) (decimal v).
Proof.
  intros Hsep. apply digits_free; [|apply decimal_only]. intros c. by apply digits_eqb_false.
Qed.

Lemma decimal_no_space v : free_of is_whitespace (decimal v).
Proof. apply digits_free; [apply digits_not_whitespace|apply decimal_only]. Qed.

Lemma match_names_digits table s :
  Forall (λ e : string * N, ¬ digits_only (lit e.1)) table → digits_only s →
  match_names table s = None.
Proof.
  intros Ht Hs. unfold match_names. induction Ht as [|e table He _ IH]; [done|]. cbn [find].
  case_bool_decide as Heq; [by subst|exact IH].
Qed.

Ltac not_digits :=
  repeat (apply Forall_cons; split;
          [intros Hd; inversion Hd as [|? ? [_ Hc] ?]; by apply Hc|]);
  by apply Forall_nil.

Lemma month_name_digits s : digits_only s → month_name s = None.
Proof. apply match_names_digits. not_digits. Qed.

Lemma day_of_week_name_digits s : digits_only s → day_of_week_name s = None.
Proof. apply match_names_digits. not_digits. Qed.

Lemma token_decimal domain v :
  token_ok domain v → normalize_field_value (decimal v) domain = Ok v.
Proof.
  intros [Hv Hdow]. unfold normalize_field_value.
  rewrite (trim_free _ (decimal_no_space v)), (digits_uppercase _ (decimal_only v)).
  rewrite (month_name_digits _ (decimal_only v)), (day_of_week_name_digits _ (decimal_only v)).
  rewrite (parse_decimal v Hv).
  assert ((domain == DayOfWeek) && (v == 7%N) = false) as Hseven.
  { apply andb_false_iff. case_bool_decide; [right; apply bool_decide_eq_false; auto|by left]. }
  destruct domain; cbn [or_else ok_or mbind Outcome_bind]; by rewrite Hseven.
Qed.

Lemma decimal_not_star v : decimal v ≠ STAR.
Proof.
  intros Heq. pose proof (decimal_only v) as Hd. rewrite Heq in Hd.
  inversion Hd as [|? ? [Hc _] ?]. by apply Hc.
Qed.

Lemma print_base_free sep b :
  (sep < 48)%N → sep ≠ 42%N → sep ≠ DASH → free_of (N.eqb sep) (print_base b).
Proof.
  intros Hsep Hstar Hdash. destruct b as [|v|start stop]; cbn [print_base].
  - apply Forall_singleton. by apply N.eqb_neq.
  - by apply decimal_free.
  - apply Forall_app. split; [by apply decimal_free|].
    constructor; [by apply N.eqb_neq|]. by apply decimal_free.
Qed.

Lemma free_tail p s c rest :
  free_of p s → p c = false → free_of p rest → free_of p (s ++ c :: rest).
Proof. intros. apply Forall_app. split; [done|]. by constructor. Qed.

Lemma print_part_free_comma q : free_of (N.eqb COMMA) (print_part q).
Proof.
  destruct q as [b [step|]]; unfold print_part; cbn [part_every part_base].
  - apply free_tail; [by apply print_base_free|done|by apply decimal_free].
  - by apply print_base_free.
Qed.

Lemma print_part_no_space q : free_of is_whitespace (print_part q).
Proof.
  assert (Hb : ∀ b, free_of is_whitespace (print_base b)).
  { intros [|v|start stop]; cbn [print_base]; [by apply Forall_singleton|apply decimal_no_space|].
    apply free_tail; [apply decimal_no_space|done|apply decimal_no_space]. }
  destruct q as [b [step|]]; unfold print_part; cbn [part_every part_base]; [|apply Hb].
  apply free_tail; [apply Hb|done|apply decimal_no_space].
Qed.

Lemma part_step_print q domain :
  match q.(part_every) with Some step => token_ok domain step | None => True end →
  part_step (print_part q) domain = Ok (print_base q.(part_base), q.(part_every)).
Proof.
  intros Hq. unfold part_step, print_part. destruct (part_every q) as [step|].
  - rewrite split_once_app by (by apply print_base_free).
    unfold parse_step. by rewrite (token_decimal domain step Hq).
  - by rewrite split_once_free by (by apply print_base_free).
Qed.

Lemma part_range_print b lo hi domain :
  (let '(start, stop) := base_range lo hi b in lo ≤ start ≤ stop ∧ stop ≤ hi)%N →
  (hi ≤ u32_max)%N → (domain = DayOfWeek → hi < 7)%N →
  part_range (print_base b) lo hi domain = Ok (base_range lo hi b).
Proof.
  intros Hb Hhi Hdow.
  assert (Htok : ∀ v, (v ≤ hi)%N → normalize_field_value (decimal v) domain = Ok v).
  { intros v Hv. apply token_decimal. split; [lia|]. intros Hd. specialize (Hdow Hd). lia. }
  unfold part_range. destruct b as [|v|start stop]; cbn [print_base base_range] in *.
  - by rewrite bool_decide_eq_true_2.
  - rewrite bool_decide_eq_false_2 by apply decimal_not_star.
    rewrite split_once_free by (by apply decimal_free). by rewrite Htok by lia.
  - rewrite bool_decide_eq_false_2.
    + rewrite split_once_app by (by apply decimal_free).
      rewrite (Htok start), (Htok stop) by lia. done.
    + destruct (decimal start) as [|c [|c' s]] eqn:E; [by destruct (decimal_nonempty start)|done..].
Qed.

Lemma parse_part_print q lo hi domain out :
  (hi ≤ u32_max)%N → (domain = DayOfWeek → hi < 7)%N → part_ok lo hi domain q →
  ascending out →
  ∃ out', parse_part (print_part q) lo hi domain out = Ok out' ∧ ascending out' ∧
    ∀ v, v ∈ out' ↔ v ∈ out ∨ denotes lo hi q v.
Proof.
  intros Hhi Hdow Hq Hout. unfold part_ok in Hq. unfold denotes.
  destruct (base_range lo hi (part_base q)) as [start stop] eqn:Hr.
  destruct Hq as (Hlo & Hstop & Hstep).
  unfold parse_part. rewrite part_step_print by (destruct (part_every q); tauto).
  cbn [mbind Outcome_bind].
  rewrite bool_decide_eq_false_2 by (destruct (part_every q); naive_solver).
  rewrite part_range_print by (rewrite ?Hr; auto). rewrite Hr. cbn [mbind Outcome_bind].
  rewrite (proj2 (N.ltb_ge start lo)), (proj2 (N.ltb_ge hi stop)),
    (proj2 (N.ltb_ge stop start)) by lia. cbn [orb].
  apply insert_steps_total; [|lia|done].
  destruct (part_every q); cbn; [lia|done].
Qed.

Lemma parse_parts_print parts lo hi domain out :
  (hi ≤ u32_max)%N → (domain = DayOfWeek → hi < 7)%N → Forall (part_ok lo hi domain) parts →
  ascending out →
  ∃ out', parse_parts (map print_part parts) lo hi domain out = Ok out' ∧ ascending out' ∧
    ∀ v, v ∈ out' ↔ v ∈ out ∨ ∃ q, q ∈ parts ∧ denotes lo hi q v.
Proof.
  intros Hhi Hdow Hall. revert out. induction Hall as [|q parts Hq _ IH]; intros out Hout.
  - exists out. split_and!; [done|done|]. set_solver.
  - cbn [map parse_parts]. rewrite (trim_free _ (print_part_no_space q)).
    destruct (parse_part_print q lo hi domain out) as (out1 & -> & Hasc & Hin); [done..|].
    cbn [mbind Outcome_bind]. destruct (IH out1 Hasc) as (out' & -> & Hasc' & Hin').
    exists out'. split_and!; [done|done|]. intros v. rewrite Hin', Hin. set_solver.
Qed.

(** A part in range denotes a value: the start of its range. *)
Lemma denotes_start lo hi domain q :
  part_ok lo hi domain q → denotes lo hi q (base_range lo hi q.(part_base)).1.
Proof.
  unfold part_ok, denotes. destruct (base_range _ _ _) as [start stop]; cbn.
  intros ((_ & Hle) & _). exists 0%N. lia.
Qed.

Lemma parse_print_parts parts lo hi domain :
  parts ≠ [] → (hi ≤ u32_max)%N → (domain = DayOfWeek → hi < 7)%N →
  Forall (part_ok lo hi domain) parts → print_parts parts ≠ STAR →
  ∃ l, parse_field (print_parts parts) lo hi domain = Ok (Values l) ∧ ascending l ∧
    ∀ v, v ∈ l ↔ ∃ q, q ∈ parts ∧ denotes lo hi q v.
Proof.
  intros Hne Hhi Hdow Hall Hstar. unfold parse_field. rewrite bool_decide_eq_false_2 by done.
  unfold print_parts. rewrite split_join.
  2: by destruct parts.
  2: { apply Forall_fmap, Forall_true. intros q. apply print_part_free_comma. }
  destruct (parse_parts_print parts lo hi domain []) as (l & -> & Hasc & Hin);
    [done..|constructor|].
  cbn [mbind Outcome_bind]. exists l. split_and!; [|done|set_solver].
  destruct l as [|v l]; [|done]. destruct parts as [|q parts]; [done|].
  apply Forall_cons in Hall as [Hq _]. pose proof (denotes_start _ _ _ _ Hq).
  specialize (Hin (base_range lo hi (part_base q)).1). set_solver.
Qed.

(** the parser reads the cron grammar.  A field printed from parts whose
    ranges lie in the bounds of the field is read as the ascending list of
    exactly the values the parts denote - every [step]-th value of each range
    - except that the lone star is [Any]. *)
Theorem cron_field_denotes parts lo hi domain :
  parts ≠ [] → (hi ≤ u32_max)%N → (domain = DayOfWeek → hi < 7)%N →
  Forall (part_ok lo hi domain) parts → print_parts parts ≠ STAR →
  ∃ l, parse_field (print_parts parts) lo hi domain = Ok (Values l) ∧ ascending l ∧
    ∀ v, v ∈ l ↔ ∃ q, q ∈ parts ∧ denotes lo hi q v.
Proof. apply parse_print_parts. Qed.

Definition quarter_hours_and_forties : list cron_part :=
  [ {| part_base := Every; part_every := Some 15%N |};
    {| part_base := Between 40 42; part_every := None |} ].

Lemma cron_field_denotes_witness :
  ∃ l, parse_field (lit "*/15,40-42") 0 59 Minute = Ok (Values l) ∧ ascending l ∧
    ∀ v, v ∈ l ↔ ∃ q, q ∈ quarter_hours_and_forties ∧ denotes 0 59 q v.
Proof.
  apply (cron_field_denotes quarter_hours_and_forties 0 59 Minute); [done|done|done| |done].
  apply Forall_cons; split; [vm_compute; intuition congruence|].
  apply Forall_cons; split; [vm_compute; intuition congruence|by apply Forall_nil].
Defined.

(** ** The round trip of a calendar *)

Definition SPACE : N := 32.

Definition single (v : N) : cron_part := {| part_base := Single v; part_every := None |}.

Definition print_field (f : CalendarFieldSpec) : str :=
  match f with
  | Any => STAR
  | Values l => print_parts (map single l)
  end.

Definition print_calendar (c : CalendarTriggerSpec) : CronAuthoringSpec := {|
  expression := join SPACE
    [print_field c.(spec_minute); print_field c.(spec_hour); print_field c.(day_of_month);
     print_field c.(spec_month); print_field c.(day_of_week)];
  cron_timezone := c.(timezone);
|}.

Lemma join_free p sep pieces :
  p sep = false → Forall (free_of p) pieces → free_of p (join sep pieces).
Proof.
  intros Hsep. induction 1 as [|s pieces Hs Hall IH]; [constructor|].
  destruct pieces as [|s' pieces]; [done|]. by apply free_tail.
Qed.

Lemma print_field_no_space f : free_of is_whitespace (print_field f).
Proof.
  destruct f as [|l]; [by apply Forall_singleton|]. apply join_free; [done|].
  apply Forall_fmap, Forall_true. intros q. apply print_part_no_space.
Qed.

Lemma print_values_not_star v l : print_parts (map single (v :: l)) ≠ STAR.
Proof.
  unfold print_parts. destruct l as [|v' l]; [apply decimal_not_star|].
  change (decimal v ++ COMMA :: join COMMA (map print_part (map single (v' :: l))) ≠ STAR).
  pose proof (decimal_nonempty v). destruct (decimal v) as [|c [|c' s]]; done.
Qed.

Lemma print_field_nonempty lo hi f : field_in lo hi f → print_field f ≠ [].
Proof.
  destruct f as [|[|v l]]; [done|by intros []|]. intros _. cbn [print_field].
  unfold print_parts. destruct l as [|v' l]; [apply decimal_nonempty|].
  change (decimal v ++ COMMA :: join COMMA (map print_part (map single (v' :: l))) ≠ []).
  by destruct (decimal v).
Qed.

Lemma single_denotes lo hi v w : denotes lo hi (single v) w ↔ w = v.
Proof. cbn. split; [intros (k & -> & Hk); lia|intros ->; exists 0%N; lia]. Qed.

Lemma parse_print_field lo hi domain f :
  (hi ≤ u32_max)%N → (domain = DayOfWeek → hi < 7)%N → field_in lo hi f →
  parse_field (print_field f) lo hi domain = Ok f.
Proof.
  intros Hhi Hdow Hf. destruct f as [|[|v l]]; [done|by destruct Hf|].
  destruct Hf as (_ & Hasc & Hall).
  destruct (parse_print_parts (map single (v :: l)) lo hi domain) as (l' & Heq & Hasc' & Hin);
    [done|done|done| |apply print_values_not_star|].
  - apply Forall_fmap. eapply Forall_impl; [exact Hall|]. intros w Hw. unfold compose, part_ok. cbn.
    cbn in Hw. split_and!; [lia..|done].
  - cbn [print_field]. rewrite Heq. do 2 f_equal. apply ascending_ext; [done..|].
    intros w. rewrite Hin. setoid_rewrite list_elem_of_fmap. split.
    + intros (q & (u & -> & Hu) & Hw). by apply single_denotes in Hw as ->.
    + intros Hw. exists (single w). split; [eauto|by apply single_denotes].
Qed.

(** C35: a calendar survives its cron expression.  Authoring the expression
    printed from a well-formed calendar gives that calendar back, so authoring
    normalises: every calendar it returns is a fixed point. *)
Theorem cron_round_trip `{Chrono} {HL : ChronoLaws} c :
  well_formed c → into_calendar (print_calendar c) = Ok c.
Proof.
  intros [[tz Htz] Hmi Hh Hd Hmo Hw Hy].
  unfold into_calendar, split_whitespace. cbn [expression print_calendar].
  rewrite split_by_join; [|done|done|repeat (apply Forall_cons; split); [apply print_field_no_space..|by apply Forall_nil]].
  rewrite !filter_cons_True by (by eapply print_field_nonempty). rewrite filter_nil.
  cbn [cron_timezone print_calendar]. rewrite Htz. unfold normalize_timezone.
  rewrite parse_tz_name. cbn [ok_or mbind Outcome_bind].
  rewrite !parse_print_field by (first [done|by intros; lia]). cbn [mbind Outcome_bind].
  rewrite <- Htz, <- Hy. by destruct c.
Qed.

Definition working_hours : CronAuthoringSpec :=
  {| expression := lit " */15 9-17 * JAN,jun MON-fri"; cron_timezone := lit "UTC" |}.

Definition working_hours_calendar : CalendarTriggerSpec :=
  {| timezone := lit "UTC"; spec_minute := Values [0; 15; 30; 45]%N;
     spec_hour := Values [9; 10; 11; 12; 13; 14; 15; 16; 17]%N; day_of_month := Any;
     spec_month := Values [1; 6]%N; day_of_week := Values [1; 2; 3; 4; 5]%N;
     spec_year := None |}.

Lemma cron_authoring_well_formed_witness :
  into_calendar working_hours = Ok working_hours_calendar ∧
  well_formed working_hours_calendar.
Proof.
  assert (Heq : into_calendar working_hours = Ok working_hours_calendar) by (vm_compute; reflexivity).
  split; [exact Heq|].
  pose proof (cron_authoring_well_formed working_hours) as Hwf. rewrite Heq in Hwf. apply Hwf.
Defined.

(** Bounds and order of a concrete list of values, by evaluation. *)
Ltac concrete_field :=
  cbn; split_and!; try done;
  [repeat (constructor; [|repeat (apply Forall_cons; split; [lia|]); by apply Forall_nil]);
   constructor
  |repeat (apply Forall_cons; split; [lia|]); by apply Forall_nil].

Lemma working_hours_well_formed : well_formed working_hours_calendar.
Proof. split; [by exists false|..]; try done; concrete_field. Qed.

Lemma cron_round_trip_witness :
  well_formed working_hours_calendar ∧
  into_calendar (print_calendar working_hours_calendar) = Ok working_hours_calendar.
Proof. split; [|apply cron_round_trip]; apply working_hours_well_formed. Defined.

(** ** Where the parser departs from cron *)

Definition rejected (o : Outcome ScheduleDomainError CalendarFieldSpec) : bool :=
  match o with Err (InvalidCron _) => true | _ => false end.

(** [7] and [SUN] become [0] before the range is checked, so a range that ends
    on Sunday is empty and refused; steps are read as weekdays too, so a step
    of seven is a step of zero. *)
Lemma weekday_ranges_to_sunday_rejected :
  forallb (λ s, rejected (parse_field (lit s) 0 6 DayOfWeek))
    ["FRI-SUN"; "5-7"; "MON-7"; "*/7"] = true.
Proof. vm_compute. reflexivity. Qed.

(** The range of the whole week written with Sunday as seven is Sunday alone. *)
Lemma whole_week_is_sunday :
  parse_field (lit "0-7") 0 6 DayOfWeek = Ok (Values [0%N]).
Proof. vm_compute. reflexivity. Qed.

(** Steps are read as month names. *)
Lemma month_named_step_accepted :
  parse_field (lit "*/FEB") 1 12 Month = Ok (Values [1; 3; 5; 7; 9; 11]%N).
Proof. vm_compute. reflexivity. Qed.
