(* ===== verification/Trigger.v ===== *)
(** * Trigger: evaluation of triggers

    [meerkat-schedule/src/trigger.rs] below the cron codec: the next due time
    after a cursor and the due times up to a horizon.  The wall clock is the
    argument [now]; every [+] of the source that can panic is an [or_panic]. *)

From S2P Require Import Prelude Text Chrono ScheduleTypes Cron.

Section trigger.
Context `{Chrono} `{BuildProfile}.

Notation result := (Outcome ScheduleDomainError).

(** ** Clock arithmetic *)

Definition truncate_to_millis (value : DateTime) : DateTime :=
  default value (timestamp_millis_opt (timestamp_millis value)).

(** [t + d] for a [Duration] constructor call [d]. *)
Definition plus {E} (t : DateTime) (d : option TimeDelta) : Outcome E DateTime :=
  or_panic (d' ← d; add_signed t d').

Definition minus {E} (t : DateTime) (d : option TimeDelta) : Outcome E DateTime :=
  or_panic (d' ← d; sub_signed t d').

Definition truncate_to_minute (input : DateTime) : DateTime :=
  default input
    (with_ymd_and_hms (year input) (month input) (day input) (hour input) (minute input) 0).

Definition next_minute_boundary (after : DateTime) : result DateTime :=
  let truncated := truncate_to_minute after in
  if dt_leb truncated after then plus truncated (minutes 1) else Ok truncated.

(** ** Intervals *)

(** [start + Duration::seconds(intervals * step_seconds)]. *)
Definition interval_candidate (start : DateTime) (intervals step_seconds : Z)
  : result DateTime :=
  product ← or_panic (i64_result (intervals * step_seconds));
  plus start (seconds product).

(** [while candidate <= after { intervals += 1; candidate = .. }] *)
Fixpoint interval_loop (fuel : nat) (start : DateTime) (step_seconds : Z) (after : DateTime)
    (intervals : Z) (candidate : DateTime) : result DateTime :=
  match fuel with
  | O => OutOfFuel
  | S fuel' =>
      if dt_leb candidate after then
        intervals' ← or_panic (i64_result (intervals + 1));
        candidate' ← interval_candidate start intervals' step_seconds;
        interval_loop fuel' start step_seconds after intervals' candidate'
      else Ok candidate
  end.

(** One unit is enough: the loop's guard is false when it is first tested. *)
Definition interval_fuel : nat := 1.

Definition every_seconds_zero : ScheduleDomainError :=
  InvalidTrigger (lit "interval trigger requires every_seconds >= 1").
Definition every_seconds_too_large : ScheduleDomainError :=
  InvalidTrigger (lit "interval every_seconds exceeds i64 range").

Definition first_candidate (start : DateTime) (step_seconds : Z) (after_utc : option DateTime)
  : result DateTime :=
  match after_utc with
  | None => Ok start
  | Some after =>
      if dt_ltb after start then Ok start
      else
        let elapsed := signed_duration_since after start in
        intervals ← or_panic (i64_result (num_seconds elapsed / step_seconds + 1));
        candidate ← interval_candidate start intervals step_seconds;
        interval_loop interval_fuel start step_seconds after intervals candidate
  end.

Definition next_interval_due_after (spec : IntervalTriggerSpec) (after_utc : option DateTime)
  : result (option DateTime) :=
  if (spec.(every_seconds) =? 0)%N then Err every_seconds_zero
  else
    step_seconds ← ok_or (i64_try_from spec.(every_seconds)) every_seconds_too_large;
    candidate ← first_candidate spec.(start_at_utc) step_seconds after_utc;
    match spec.(end_at_utc) with
    | Some end_at => Ok (if dt_ltb end_at candidate then None else Some candidate)
    | None => Ok (Some candidate)
    end.

(** ** Calendars *)

Definition matches_calendar (spec : CalendarTriggerSpec) (local : LocalTime) : bool :=
  contains spec.(spec_minute) (local_minute local)
  && contains spec.(spec_hour) (local_hour local)
  && contains spec.(day_of_month) (local_day local)
  && contains spec.(spec_month) (local_month local)
  && contains spec.(day_of_week) (local_weekday_from_sunday local)
  && match spec.(spec_year) with
     | Some years => contains years (local_year_ce local)
     | None => true
     end.

(** The scan visits one minute after the other. *)
Fixpoint scan_loop (fuel : nat) (spec : CalendarTriggerSpec) (tz : Tz)
    (cursor end_utc : DateTime) (max_matches : nat) (found : list DateTime)
  : result (list DateTime) :=
  match fuel with
  | O => OutOfFuel
  | S fuel' =>
      if dt_leb cursor end_utc && (length found <? max_matches)%nat then
        let local := with_timezone cursor tz in
        let found' := if matches_calendar spec local then found ++ [cursor] else found in
        cursor' ← plus cursor (minutes 1);
        scan_loop fuel' spec tz cursor' end_utc max_matches found'
      else Ok found
  end.

(** The number of minutes between two instants, and two tests more. *)
Definition scan_fuel (start_utc end_utc : DateTime) : nat :=
  Z.to_nat ((ns end_utc - ns start_utc) / minute_ns) + 2.

Definition scan_calendar (spec : CalendarTriggerSpec) (tz : Tz)
    (start_utc end_utc : DateTime) (max_matches : nat) : result (list DateTime) :=
  if dt_ltb end_utc start_utc then Ok []
  else
    let cursor := truncate_to_minute start_utc in
    scan_loop (scan_fuel cursor end_utc) spec tz cursor end_utc max_matches [].

Definition next_calendar_due_after (spec : CalendarTriggerSpec) (after_utc : option DateTime)
    (now : DateTime) : result (option DateTime) :=
  tz ← normalize_timezone spec.(timezone);
  search_start ← next_minute_boundary (default now after_utc);
  search_end ← plus search_start (days (366 * 5));
  found ← scan_calendar spec tz search_start search_end 1;
  Ok (last found).

(** ** Triggers *)

Definition next_due_after (trigger : TriggerSpec) (after_utc : option DateTime)
    (now : DateTime) : result (option DateTime) :=
  match trigger with
  | Once due_at_utc =>
      let due_at_utc := truncate_to_millis due_at_utc in
      Ok (match after_utc with
          | Some after => if dt_ltb after due_at_utc then Some due_at_utc else None
          | None => Some due_at_utc
          end)
  | Interval spec =>
      next_interval_due_after
        {| start_at_utc := truncate_to_millis spec.(start_at_utc);
           every_seconds := spec.(every_seconds);
           end_at_utc := truncate_to_millis <$> spec.(end_at_utc) |} after_utc
  | Calendar spec => next_calendar_due_after spec after_utc now
  end.

Fixpoint horizon_loop (fuel : nat) (trigger : TriggerSpec) (cursor : option DateTime)
    (horizon_end_utc : DateTime) (max_occurrences : nat) (now : DateTime)
    (occurrences : list DateTime) : result (list DateTime) :=
  match fuel with
  | O => OutOfFuel
  | S fuel' =>
      if (length occurrences <? max_occurrences)%nat then
        next ← next_due_after trigger cursor now;
        match next with
        | None => Ok occurrences
        | Some next_due =>
            if dt_ltb horizon_end_utc next_due then Ok occurrences
            else horizon_loop fuel' trigger (Some next_due) horizon_end_utc max_occurrences now
                   (occurrences ++ [next_due])
        end
      else Ok occurrences
  end.

Definition occurrences_for_horizon (trigger : TriggerSpec) (cursor_utc : option DateTime)
    (horizon_end_utc : DateTime) (max_occurrences : nat) (now : DateTime)
  : result (list DateTime) :=
  if (max_occurrences =? 0)%nat then Ok []
  else match trigger with
       | Calendar spec =>
           tz ← normalize_timezone spec.(timezone);
           cursor ← match cursor_utc with
                    | Some cursor => Ok cursor
                    | None => minus now (minutes 1)
                    end;
           search_start ← next_minute_boundary cursor;
           scan_calendar spec tz search_start horizon_end_utc max_occurrences
       | _ =>
           horizon_loop (S max_occurrences) trigger cursor_utc horizon_end_utc
             max_occurrences now []
       end.
End trigger.
