(* ===== verification/FirstDue.v ===== *)
(** * FirstDue: the abstract specification of a horizon

    [First P lo hi n l]: [l] lists, in order, the first [n] instants that
    satisfy [P] between [lo] and [hi] - all of them if there are fewer.  Such
    a list is unique, and a prefix of it can be continued from its last
    element.  [due] is the set of instants a trigger fires at. *)

From Stdlib Require Import Sorted.
From S2P Require Import Prelude Text Chrono ScheduleTypes Cron Trigger.

Local Open Scope Z_scope.

Section first.
Context `{Chrono} {HL : ChronoLaws}.

Definition before (a b : DateTime) : Prop := ns a < ns b.

Record First (P : DateTime → Prop) (lo hi : Z) (n : nat) (l : list DateTime) : Prop := {
  first_sorted : StronglySorted before l;
  first_sound : Forall (λ t, P t ∧ lo ≤ ns t ≤ hi) l;
  first_length : (length l ≤ n)%nat;
  first_complete t :
    P t → lo ≤ ns t ≤ hi → t ∈ l ∨ length l = n ∧ Forall (λ d, ns d < ns t) l;
}.

Lemma First_nil P lo hi n :
  n = O ∨ (∀ t, P t → lo ≤ ns t ≤ hi → False) → First P lo hi n [].
Proof.
  intros Hn. split; [constructor|done|cbn; lia|]. intros t Ht Hr.
  destruct Hn as [->|Hn]; [by right|by destruct (Hn t)].
Qed.

(** [d] comes first if nothing satisfies [P] before it. *)
Lemma First_cons P lo hi n d l :
  P d → lo ≤ ns d ≤ hi → (∀ t, P t → lo ≤ ns t → ns d ≤ ns t) →
  First P (ns d + 1) hi n l → First P lo hi (S n) (d :: l).
Proof.
  intros Hd Hr Hleast [Hs Hsound Hlen Hcomp].
  split.
  - constructor; [done|]. eapply Forall_impl; [exact Hsound|]. unfold before. cbn. lia.
  - constructor; [done|]. eapply Forall_impl; [exact Hsound|]. cbn. intuition lia.
  - cbn. lia.
  - intros t Ht Htr. destruct (Z.eq_dec (ns t) (ns d)) as [Heq%(inj ns)|Hne].
    { left. subst. by left. }
    pose proof (Hleast t Ht ltac:(lia)).
    destruct (Hcomp t Ht ltac:(lia)) as [?|[<- ?]]; [left; by right|right].
    split; [done|]. constructor; [lia|done].
Qed.

Lemma First_lo P lo lo' hi n l :
  (∀ t, P t → lo ≤ ns t → lo' ≤ ns t) → lo ≤ lo' → First P lo' hi n l → First P lo hi n l.
Proof.
  intros Hskip Hle [Hs Hsound Hlen Hcomp]. split; [done| |done|].
  - eapply Forall_impl; [exact Hsound|]. cbn. intuition lia.
  - intros t Ht Htr. apply Hcomp; [done|]. specialize (Hskip t Ht). lia.
Qed.

Lemma First_impl P Q lo hi n l :
  (∀ t, lo ≤ ns t ≤ hi → P t ↔ Q t) → First P lo hi n l → First Q lo hi n l.
Proof.
  intros Heq [Hs Hsound Hlen Hcomp]. split; [done| |done|].
  - eapply Forall_impl; [exact Hsound|]. cbn. intros t [Ht Hr]. split; [by apply Heq|done].
  - intros t Ht Htr. apply Hcomp; [by apply Heq|done].
Qed.

Lemma sorted_after d l : StronglySorted before (d :: l) → Forall (λ t, ns d < ns t) l.
Proof. intros Hs. by inversion Hs. Qed.

(** The heads of two such lists agree, then their tails do. *)
Lemma First_tail P lo hi n d l :
  First P lo hi (S n) (d :: l) → First P (ns d + 1) hi n l.
Proof.
  intros [Hs Hsound Hlen Hcomp]. pose proof (sorted_after _ _ Hs) as Hafter.
  inversion Hs as [|? ? Hsl _]; subst. apply Forall_cons in Hsound as [[_ Hdr] Hsound].
  rewrite Forall_forall in Hafter. split; [done| |cbn in Hlen; lia|].
  - apply Forall_forall. rewrite Forall_forall in Hsound. intros t Ht.
    pose proof (Hafter t Ht). destruct (Hsound t Ht). split; [done|lia].
  - intros t Ht Htr. destruct (Hcomp t Ht ltac:(lia)) as [[->|]%elem_of_cons|[Hl Hall]];
      [lia|by left|].
    apply Forall_cons in Hall as [_ Hall]. right. split; [cbn in Hl; lia|done].
Qed.

Lemma First_head_least P lo hi n d l t :
  First P lo hi n (d :: l) → P t → lo ≤ ns t ≤ hi → ns d ≤ ns t.
Proof.
  intros HF Ht Hr. destruct (first_complete _ _ _ _ _ HF t Ht Hr) as [[->|Hin]%elem_of_cons|[_ Hall]].
  - lia.
  - pose proof (sorted_after _ _ (first_sorted _ _ _ _ _ HF)) as Hafter.
    rewrite Forall_forall in Hafter. specialize (Hafter t Hin). lia.
  - apply Forall_cons in Hall as [Hd _]. lia.
Qed.

Lemma First_head P lo hi n d l : First P lo hi n (d :: l) → P d ∧ lo ≤ ns d ≤ hi.
Proof. intros HF. by apply first_sound, Forall_cons in HF as [Hd _]. Qed.

Lemma First_empty P lo hi n t : First P lo hi (S n) [] → P t → lo ≤ ns t ≤ hi → False.
Proof. intros HF Ht Hr. destruct (first_complete _ _ _ _ _ HF t Ht Hr) as [?|[? _]]; [set_solver|done]. Qed.

Lemma First_unique P lo hi n l1 l2 : First P lo hi n l1 → First P lo hi n l2 → l1 = l2.
Proof.
  revert lo n l2. induction l1 as [|d1 l1 IH]; intros lo n l2 H1 H2.
  - destruct l2 as [|d2 l2]; [done|]. destruct (First_head _ _ _ _ _ _ H2) as [Hd Hr].
    destruct n; [by apply first_length in H2; cbn in H2; lia|].
    by destruct (First_empty _ _ _ _ _ H1 Hd Hr).
  - destruct (First_head _ _ _ _ _ _ H1) as [Hd1 Hr1].
    destruct n; [by apply first_length in H1; cbn in H1; lia|].
    destruct l2 as [|d2 l2]; [by destruct (First_empty _ _ _ _ _ H2 Hd1 Hr1)|].
    destruct (First_head _ _ _ _ _ _ H2) as [Hd2 Hr2].
    pose proof (First_head_least _ _ _ _ _ _ _ H1 Hd2 Hr2).
    pose proof (First_head_least _ _ _ _ _ _ _ H2 Hd1 Hr1).
    assert (d1 = d2) as -> by (apply (inj ns); lia). f_equal.
    eapply IH; eapply First_tail; eassumption.
Qed.

(** A list of the first [n] is continued from its last element. *)
Lemma First_app P lo hi n m l1 d l2 :
  First P lo hi n l1 → last l1 = Some d → First P (ns d + 1) hi m l2 →
  First P lo hi (n + m) (l1 ++ l2).
Proof.
  revert lo n. induction l1 as [|d1 l1 IH]; intros lo n H1 Hlast H2; [done|].
  destruct (First_head _ _ _ _ _ _ H1) as [Hd1 Hr1].
  destruct n; [by apply first_length in H1; cbn in H1; lia|].
  change (First P lo hi (S (n + m)) (d1 :: (l1 ++ l2))).
  apply First_cons; [done|done| |].
  { intros t Ht Hlo. destruct (Z.le_gt_cases (ns t) hi); [|lia].
    eapply First_head_least; [exact H1|done|lia]. }
  destruct l1 as [|d2 l1].
  - injection Hlast as ->. destruct n; [exact H2|]. apply First_tail in H1.
    destruct l2 as [|d2 l2].
    + apply First_nil. right. intros t Ht Hr. by destruct (First_empty _ _ _ _ t H1 Ht Hr).
    + destruct (First_head _ _ _ _ _ _ H2) as [Hd2 Hr2].
      by destruct (First_empty _ _ _ _ _ H1 Hd2 Hr2).
  - eapply IH; [eapply First_tail; exact H1|done|done].
Qed.
End first.

(** ** The instants a trigger fires at *)

Section due.
Context `{Chrono} {HL : ChronoLaws}.

(** Not past an optional end. *)
Definition until (end_utc : option DateTime) (c : Z) : Prop :=
  match end_utc with Some e => c ≤ ns e | None => True end.

(** A boundary of the intervals of length [step] from [start]. *)
Definition boundary (start step c : Z) : Prop := ∃ k, 0 ≤ k ∧ c = start + k * step.

Definition second_ns : Z := 10 ^ 9.

Definition due (trigger : TriggerSpec) (t : DateTime) : Prop :=
  match trigger with
  | Once due_at_utc => t = truncate_to_millis due_at_utc
  | Interval spec =>
      boundary (ns (truncate_to_millis spec.(start_at_utc)))
        (Z.of_N spec.(every_seconds) * second_ns) (ns t)
      ∧ until (truncate_to_millis <$> spec.(end_at_utc)) (ns t)
  | Calendar spec =>
      on_minute t ∧
      ∃ tz, parse_tz spec.(timezone) = Some tz
            ∧ matches_calendar spec (with_timezone t tz) = true
  end.

Lemma truncate_to_millis_ns t : ns (truncate_to_millis t) = ns t / milli_ns * milli_ns.
Proof.
  unfold truncate_to_millis. destruct (timestamp_millis_opt_some t) as [u Hu]. rewrite Hu. cbn.
  by rewrite (timestamp_millis_opt_ns _ _ Hu), timestamp_millis_ns.
Qed.

Lemma truncate_to_millis_grid t : on_millis (truncate_to_millis t).
Proof. unfold on_millis. rewrite truncate_to_millis_ns. by apply Z.mod_mul. Qed.

Lemma truncate_to_minute_ns t : ns (truncate_to_minute t) = ns t / minute_ns * minute_ns.
Proof.
  unfold truncate_to_minute. by destruct (with_ymd_and_hms_minute t) as (u & -> & Hu).
Qed.

(** Every due time lies on the millisecond grid of the persisted cursor. *)
Lemma due_on_millis trigger t : due trigger t → on_millis t.
Proof.
  destruct trigger as [d|spec|spec]; cbn.
  - intros ->. apply truncate_to_millis_grid.
  - intros [(k & _ & Hk) _]. unfold on_millis. rewrite Hk, truncate_to_millis_ns.
    unfold second_ns, milli_ns.
    replace (_ + _) with ((ns (start_at_utc spec) / 10 ^ 6
      + k * Z.of_N (every_seconds spec) * 1000) * 10 ^ 6) by lia.
    by apply Z.mod_mul.
  - intros [Hm _]. by apply on_minute_on_millis.
Qed.
End due.
