(* ===== verification/TriggerFacts.v ===== *)
(** * TriggerFacts: due times are the first instants the trigger fires at

    The interval arithmetic against the least boundary after the cursor, the
    calendar scan against the matching minutes, and the horizon of any trigger
    against [FirstDue.First]. *)

From Stdlib Require Import Sorted.
From S2P Require Import Prelude Text Chrono ScheduleTypes Cron Trigger FirstDue.

Local Open Scope Z_scope.

(** ** Clock arithmetic *)

Section clock.
Context `{Chrono} {HL : ChronoLaws} `{BuildProfile}.

Lemma plus_spec {E} t (d : option TimeDelta) z :
  (∀ d', d = Some d' → delta_ns d' = z) → (is_Some d ∨ max_utc_ns < ns t + z) → 0 ≤ z →
  match plus (E := E) t d with
  | Ok u => ns u = ns t + z
  | Panic => max_utc_ns < ns t + z
  | _ => False
  end.
Proof.
  intros Hz Hd Hpos. unfold plus. destruct d as [d|]; cbn.
  - specialize (Hz d eq_refl). destruct (add_signed t d) as [u|] eqn:Hu; cbn.
    + rewrite <- Hz. by apply add_signed_ns.
    + destruct (Z.lt_ge_cases max_utc_ns (ns t + z)) as [|Hle]; [done|].
      destruct (add_signed_some t d) as [u Hs]; [|congruence].
      pose proof (ns_range t). lia.
  - by destruct Hd as [[]|].
Qed.

Lemma plus_seconds {E} t z :
  0 ≤ z →
  match plus (E := E) t (seconds z) with
  | Ok u => ns u = ns t + z * second_ns
  | Panic => max_utc_ns < ns t + z * second_ns
  | _ => False
  end.
Proof.
  intros Hz. apply plus_spec; [apply seconds_ns| |unfold second_ns; lia].
  destruct (Z.le_gt_cases z (i64_max / 1000)) as [Hle|Hgt].
  - left. apply seconds_some. lia.
  - right. pose proof (ns_range t) as [Hmin _].
    change (i64_max / 1000) with 9223372036854775 in Hgt.
    unfold max_utc_ns, min_utc_ns, second_ns in *. lia.
Qed.

Lemma plus_minute {E} t :
  match plus (E := E) t (minutes 1) with
  | Ok u => ns u = ns t + minute_ns
  | Panic => max_utc_ns < ns t + minute_ns
  | _ => False
  end.
Proof.
  apply plus_spec; [|left|done].
  { intros d Hd. by rewrite (minutes_ns _ _ Hd), Z.mul_1_l. }
  by apply minutes_some.
Qed.

(** The first minute after an instant. *)
Definition minute_after (z : Z) : Z := (z / minute_ns + 1) * minute_ns.

Lemma minute_after_bounds z : z < minute_after z ≤ z + minute_ns.
Proof.
  unfold minute_after. pose proof (Z.div_mod z minute_ns ltac:(done)).
  pose proof (Z.mod_pos_bound z minute_ns ltac:(done)). lia.
Qed.

Lemma next_minute_boundary_spec t :
  match next_minute_boundary t with
  | Ok u => ns u = minute_after (ns t)
  | Panic => max_utc_ns < ns t + minute_ns
  | _ => False
  end.
Proof.
  unfold next_minute_boundary, dt_leb. rewrite truncate_to_minute_ns.
  pose proof (Z.div_mod (ns t) minute_ns ltac:(done)).
  pose proof (Z.mod_pos_bound (ns t) minute_ns ltac:(done)).
  destruct (Z.leb_spec (ns t / minute_ns * minute_ns) (ns t)); [|lia].
  pose proof (plus_minute (E := ScheduleDomainError) (truncate_to_minute t)) as Hp.
  rewrite truncate_to_minute_ns in Hp. unfold minute_after.
  destruct (plus _ _); cbn in *; [lia|done|lia|done].
Qed.

Lemma on_minute_after z t : on_minute t → z < ns t → minute_after z ≤ ns t.
Proof.
  unfold on_minute, minute_after. intros Ht Hlt.
  pose proof (Z.div_mod (ns t) minute_ns ltac:(done)) as Hdm. rewrite Ht in Hdm.
  assert (z / minute_ns < ns t / minute_ns); [|unfold minute_ns in *; lia].
  apply Z.div_lt_upper_bound; [done|]. lia.
Qed.
End clock.

(** ** Intervals *)

Section interval.
Context `{Chrono} {HL : ChronoLaws} `{BuildProfile}.

(** Strictly after an optional cursor. *)
Definition past (after : option DateTime) (c : Z) : Prop :=
  match after with Some a => ns a < c | None => True end.

(** [c] is the first boundary past the cursor. *)
Definition least_boundary (start step : Z) (after : option DateTime) (c : Z) : Prop :=
  boundary start step c ∧ past after c ∧
  ∀ c', boundary start step c' → past after c' → c ≤ c'.

(** The boundary the code computes, in seconds since the start. *)
Lemma least_boundary_after start step (a : DateTime) :
  0 < step → start ≤ ns a →
  least_boundary start (step * second_ns) (Some a)
    (start + (Z.quot (ns a - start) second_ns / step + 1) * step * second_ns).
Proof.
  intros Hstep Hle. set (e := Z.quot (ns a - start) second_ns).
  assert (He : e * second_ns ≤ ns a - start < (e + 1) * second_ns ∧ 0 ≤ e).
  { subst e. rewrite Z.quot_div_nonneg by (done || lia).
    pose proof (Z.div_mod (ns a - start) second_ns ltac:(done)).
    pose proof (Z.mod_pos_bound (ns a - start) second_ns ltac:(done)).
    pose proof (Z.div_pos (ns a - start) second_ns ltac:(lia) ltac:(done)). lia. }
  pose proof (Z.div_mod e step ltac:(lia)) as Hdm.
  pose proof (Z.mod_pos_bound e step Hstep) as Hmod.
  pose proof (Z.div_pos e step ltac:(lia) Hstep) as Hq.
  generalize dependent (e mod step). generalize dependent (e / step). intros q Hq m Hdm Hmod.
  assert (Hs : 0 < second_ns) by done. clearbody e. revert Hs He. generalize second_ns.
  intros s Hs [[He1 He2] He0].
  split_and!.
  - exists (q + 1). lia.
  - cbn. assert ((e + 1) * s ≤ (q + 1) * step * s) by (apply Z.mul_le_mono_nonneg_r; lia). lia.
  - intros c' (k & Hk & ->) Hc'. cbn in Hc'.
    assert (e < k * step).
    { apply (Z.mul_lt_mono_pos_r s); [done|]. lia. }
    assert (q < k) by (apply Z.nle_gt; intros Hkq; nia).
    assert ((q + 1) * step * s ≤ k * (step * s)); [|lia].
    rewrite Z.mul_assoc. apply Z.mul_le_mono_nonneg_r; [lia|].
    apply Z.mul_le_mono_nonneg_r; lia.
Qed.

Lemma least_boundary_start start step after :
  0 ≤ step → past after start → least_boundary start step after start.
Proof.
  intros Hstep Hpast. split_and!; [exists 0; lia|done|].
  intros c' (k & Hk & ->) _. nia.
Qed.

(** The elapsed seconds of two instants are small: no product overflows. *)
Lemma intervals_bounded (start a : DateTime) step :
  0 < step ≤ i64_max → ns start ≤ ns a →
  0 ≤ Z.quot (ns a - ns start) second_ns / step + 1 ≤ i64_max ∧
  0 ≤ (Z.quot (ns a - ns start) second_ns / step + 1) * step ≤ i64_max.
Proof.
  intros Hstep Hle. pose proof (ns_range start). pose proof (ns_range a).
  assert (He : 0 ≤ Z.quot (ns a - ns start) second_ns ≤ 2 ^ 44).
  { rewrite Z.quot_div_nonneg by (done || lia).
    split; [apply Z.div_pos; [lia|done]|].
    apply Z.div_le_upper_bound; [done|]. unfold min_utc_ns, max_utc_ns, second_ns in *. lia. }
  generalize dependent (Z.quot (ns a - ns start) second_ns). intros e He.
  pose proof (Z.div_mod e step ltac:(lia)). pose proof (Z.mod_pos_bound e step ltac:(lia)).
  pose proof (Z.div_pos e step ltac:(lia) ltac:(lia)).
  assert (e / step ≤ e) by (apply Z.div_le_upper_bound; nia).
  change (2 ^ 44) with 17592186044416 in He. unfold i64_max in *.
  split; [lia|]. split; [nia|].
  destruct (Z.eq_dec (e / step) 0) as [->|Hne]; [lia|].
  assert (step ≤ step * (e / step)) by nia. lia.
Qed.

Lemma interval_candidate_spec start n step :
  0 ≤ n * step ≤ i64_max →
  match interval_candidate start n step with
  | Ok u => ns u = ns start + n * step * second_ns
  | Panic => max_utc_ns < ns start + n * step * second_ns
  | _ => False
  end.
Proof.
  intros Hr. unfold interval_candidate. rewrite i64_result_small by (unfold i64_min; lia).
  cbn. apply plus_seconds. lia.
Qed.

Lemma first_candidate_spec start step after :
  0 < step ≤ i64_max →
  ∃ c, least_boundary (ns start) (step * second_ns) after c ∧
    match first_candidate start step after with
    | Ok t => ns t = c
    | Panic => max_utc_ns < c
    | _ => False
    end.
Proof.
  intros Hstep. assert (0 ≤ step * second_ns) by (unfold second_ns; lia).
  destruct after as [a|]; cbn [first_candidate].
  2: { exists (ns start). split; [by apply least_boundary_start|done]. }
  unfold dt_ltb. destruct (Z.ltb_spec (ns a) (ns start)).
  { exists (ns start). split; [by apply least_boundary_start|done]. }
  pose proof (least_boundary_after (ns start) step a ltac:(lia) ltac:(lia)) as Hleast.
  destruct (intervals_bounded start a step) as [Hn Hprod]; [done|lia|].
  eexists. split; [exact Hleast|].
  rewrite num_seconds_ns, signed_duration_since_ns. fold second_ns.
  rewrite i64_result_small by (unfold i64_min; lia). cbn [or_panic mbind Outcome_bind].
  pose proof (interval_candidate_spec start _ step Hprod) as Hc.
  destruct (interval_candidate _ _ _) as [t| | |]; cbn [mbind Outcome_bind]; try done.
  unfold interval_fuel. cbn [interval_loop]. unfold dt_leb.
  destruct Hleast as (_ & Hpast & _). cbn in Hpast. rewrite Hc.
  by rewrite (proj2 (Z.leb_gt _ _)).
Qed.

(** The outcome of [next_interval_due_after] in terms of the least boundary. *)
Definition interval_answer (spec : IntervalTriggerSpec) (c : Z)
    (o : Outcome ScheduleDomainError (option DateTime)) : Prop :=
  match o with
  | Ok (Some t) => ns t = c ∧ until spec.(end_at_utc) c
  | Ok None => ¬ until spec.(end_at_utc) c
  | Panic => max_utc_ns < c
  | _ => False
  end.

Lemma next_interval_spec spec after :
  spec.(every_seconds) ≠ 0%N → Z.of_N spec.(every_seconds) ≤ i64_max →
  ∃ c, least_boundary (ns spec.(start_at_utc)) (Z.of_N spec.(every_seconds) * second_ns) after c
       ∧ interval_answer spec c (next_interval_due_after spec after).
Proof.
  intros Hne Hle. unfold next_interval_due_after.
  rewrite (proj2 (N.eqb_neq _ _) Hne). unfold i64_try_from.
  rewrite (proj2 (Z.leb_le _ _) Hle). cbn [ok_or mbind Outcome_bind].
  destruct (first_candidate_spec (start_at_utc spec) (Z.of_N (every_seconds spec)) after)
    as (c & Hc & Hans); [lia|].
  exists c. split; [done|].
  destruct (first_candidate _ _ _) as [t| | |]; cbn [mbind Outcome_bind]; try done.
  destruct (end_at_utc spec) as [e|] eqn:Hend; unfold dt_ltb; cbn; [|by rewrite Hend].
  destruct (Z.ltb_spec (ns e) (ns t)); cbn; rewrite Hend; cbn; lia.
Qed.

(** C34: interval evaluation finds the least boundary.  A zero or over-long
    interval is refused.  Otherwise the answer is the first boundary
    [start + k * every_seconds] past the cursor - by arithmetic, the correcting
    loop never runs - or nothing when that boundary is past the end; the call
    panics exactly when the boundary is past the last instant chrono can
    represent. *)
Theorem interval_next_due_exact spec after :
  (spec.(every_seconds) = 0%N →
     next_interval_due_after spec after = Err every_seconds_zero) ∧
  (i64_max < Z.of_N spec.(every_seconds) →
     next_interval_due_after spec after = Err every_seconds_too_large) ∧
  (spec.(every_seconds) ≠ 0%N → Z.of_N spec.(every_seconds) ≤ i64_max →
     ∃ c, least_boundary (ns spec.(start_at_utc)) (Z.of_N spec.(every_seconds) * second_ns)
            after c
          ∧ interval_answer spec c (next_interval_due_after spec after)).
Proof.
  split_and!; [| |apply next_interval_spec]; intros Hev; unfold next_interval_due_after.
  - by rewrite Hev.
  - rewrite (proj2 (N.eqb_neq _ _)) by (intros Hz; rewrite Hz in Hev; done).
    unfold i64_try_from. by rewrite (proj2 (Z.leb_gt _ _) Hev).
Qed.
End interval.

(** ** Calendars *)

Section calendar.
Context `{Chrono} {HL : ChronoLaws} `{BuildProfile}.

(** The minutes a calendar fires at in a time zone. *)
Definition hit (spec : CalendarTriggerSpec) (tz : Tz) (t : DateTime) : Prop :=
  on_minute t ∧ matches_calendar spec (with_timezone t tz) = true.

Lemma on_minute_next c t :
  on_minute c → on_minute t → ns c < ns t → ns c + minute_ns ≤ ns t.
Proof.
  intros Hc Ht Hlt. pose proof (on_minute_after _ _ Ht Hlt) as Ha.
  unfold on_minute, minute_after in *. pose proof (Z.div_mod (ns c) minute_ns ltac:(done)). lia.
Qed.

Lemma on_minute_plus c u : on_minute c → ns u = ns c + minute_ns → on_minute u.
Proof.
  unfold on_minute. intros Hc ->.
  replace (ns c + minute_ns) with (ns c + 1 * minute_ns) by lia. by rewrite Z.mod_add.
Qed.

(** Enough fuel to pass the end of the scan. *)
Definition scan_fuel_enough (fuel : nat) (cursor end_utc : DateTime) : Prop :=
  (scan_fuel cursor end_utc ≤ fuel)%nat ∨ ns end_utc < ns cursor ∧ (1 ≤ fuel)%nat.

Lemma scan_fuel_step fuel cursor cursor' end_utc :
  scan_fuel_enough (S fuel) cursor end_utc → ns cursor ≤ ns end_utc →
  ns cursor' = ns cursor + minute_ns → scan_fuel_enough fuel cursor' end_utc.
Proof.
  unfold scan_fuel_enough, scan_fuel. intros [Hf|[? _]] Hle Heq; [|lia]. rewrite Heq.
  destruct (Z.lt_ge_cases (ns end_utc) (ns cursor + minute_ns)) as [|Hge]; [right; lia|left].
  replace (ns end_utc - ns cursor) with (ns end_utc - (ns cursor + minute_ns) + 1 * minute_ns)
    in Hf by lia.
  rewrite Z.div_add in Hf by done.
  pose proof (Z.div_pos (ns end_utc - (ns cursor + minute_ns)) minute_ns ltac:(lia) ltac:(done)).
  lia.
Qed.

(** The scan finds the matching minutes in order, [n] at most. *)
Lemma scan_loop_spec fuel spec tz cursor end_utc n found :
  on_minute cursor → (length found ≤ n)%nat → scan_fuel_enough fuel cursor end_utc →
  match scan_loop fuel spec tz cursor end_utc n found with
  | Ok l => ∃ l', l = found ++ l' ∧
      First (hit spec tz) (ns cursor) (ns end_utc) (n - length found) l'
  | Panic => max_utc_ns < ns end_utc + minute_ns
  | _ => False
  end.
Proof.
  revert cursor found. induction fuel as [|fuel IH]; intros cursor found Hm Hlen Hfuel.
  { unfold scan_fuel_enough, scan_fuel in Hfuel. lia. }
  cbn [scan_loop]. unfold dt_leb. assert (1 ≤ minute_ns) by done.
  destruct (Z.leb_spec (ns cursor) (ns end_utc)) as [Hle|Hlt]; cbn [andb].
  2: { exists []. rewrite app_nil_r. split; [done|]. apply First_nil. right. intros. lia. }
  destruct (Nat.ltb_spec (length found) n) as [Hn|Hn].
  2: { exists []. rewrite app_nil_r. split; [done|]. apply First_nil. left. lia. }
  pose proof (plus_minute (E := ScheduleDomainError) cursor) as Hp.
  destruct (plus cursor (minutes 1)) as [u| | |]; cbn [mbind Outcome_bind]; try done; [|lia].
  assert (Hskip : ∀ t, hit spec tz t → ns cursor < ns t → ns u ≤ ns t).
  { intros t [Ht _] Hlt. rewrite Hp. by apply on_minute_next. }
  destruct (matches_calendar spec (with_timezone cursor tz)) eqn:Hmatch.
  - assert (Hlen' : length (found ++ [cursor]) = S (length found)) by (rewrite length_app; cbn; lia).
    specialize (IH u (found ++ [cursor])).
    destruct (scan_loop _ _ _ u _ _ _) as [l| | |];
      try (apply IH; [by eapply on_minute_plus|lia|by eapply scan_fuel_step]).
    destruct IH as (l' & -> & HF); [by eapply on_minute_plus|lia|by eapply scan_fuel_step|].
    exists (cursor :: l'). split; [by rewrite <- app_assoc|].
    replace (n - length found)%nat with (S (n - length (found ++ [cursor]))) by lia.
    apply First_cons; [done|lia|done|].
    eapply First_lo; [|  |exact HF]; [intros t Ht ?; apply Hskip; [done|lia]|lia].
  - specialize (IH u found).
    destruct (scan_loop _ _ _ u _ _ _) as [l| | |];
      try (apply IH; [by eapply on_minute_plus|lia|by eapply scan_fuel_step]).
    destruct IH as (l' & -> & HF); [by eapply on_minute_plus|lia|by eapply scan_fuel_step|].
    exists l'. split; [done|].
    eapply First_lo; [| |exact HF]; [|lia]. intros t Ht Hlo. apply Hskip; [done|].
    destruct (Z.eq_dec (ns cursor) (ns t)) as [Heq%(inj ns)|]; [|lia].
    subst. destruct Ht as [_ Ht]. congruence.
Qed.

Lemma scan_calendar_spec spec tz start end_utc n :
  on_minute start →
  match scan_calendar spec tz start end_utc n with
  | Ok l => First (hit spec tz) (ns start) (ns end_utc) n l
  | Panic => max_utc_ns < ns end_utc + minute_ns
  | _ => False
  end.
Proof.
  intros Hm. unfold scan_calendar, dt_ltb.
  destruct (Z.ltb_spec (ns end_utc) (ns start)) as [Hlt|Hge].
  { apply First_nil. right. intros. lia. }
  assert (truncate_to_minute start = start) as ->.
  { apply (inj ns). rewrite truncate_to_minute_ns. unfold on_minute in Hm.
    pose proof (Z.div_mod (ns start) minute_ns ltac:(done)). lia. }
  pose proof (scan_loop_spec (scan_fuel start end_utc) spec tz start end_utc n [] Hm) as Hs.
  destruct (scan_loop _ _ _ _ _ _ _) as [l| | |];
    try (apply Hs; [cbn; lia|by left]).
  destruct Hs as (l' & -> & HF); [cbn; lia|by left|]. cbn in *. by rewrite Nat.sub_0_r in HF.
Qed.

Lemma hit_due spec tz t :
  parse_tz spec.(timezone) = Some tz → hit spec tz t ↔ due (Calendar spec) t.
Proof.
  intros Htz. cbn. unfold hit. rewrite Htz. split; [|naive_solver].
  intros [? ?]. eauto.
Qed.

(** A scan that starts at the first minute past an instant finds the first
    due times past that instant. *)
Lemma scan_after_spec spec tz a start end_utc n :
  parse_tz spec.(timezone) = Some tz → ns start = minute_after (ns a) →
  match scan_calendar spec tz start end_utc n with
  | Ok l => First (due (Calendar spec)) (ns a + 1) (ns end_utc) n l
  | Panic => max_utc_ns < ns end_utc + minute_ns
  | _ => False
  end.
Proof.
  intros Htz Hstart. pose proof (minute_after_bounds (ns a)).
  assert (Hm : on_minute start).
  { unfold on_minute. rewrite Hstart. by apply Z.mod_mul. }
  pose proof (scan_calendar_spec spec tz start end_utc n Hm) as Hs.
  destruct (scan_calendar _ _ _ _ _) as [l| | |]; [|done..].
  eapply First_impl; [intros t _; by apply hit_due|].
  eapply First_lo; [| |exact Hs]; [|lia].
  intros t [Ht _] Hlo. rewrite Hstart. apply on_minute_after; [done|lia].
Qed.
End calendar.

(** ** An example *)

Definition every_five_minutes : @IntervalTriggerSpec UniformClock.clock :=
  {| start_at_utc := UniformClock.at_seconds 1000; every_seconds := 300;
     end_at_utc := Some (UniformClock.at_seconds 1900) |}.

Lemma interval_next_due_exact_witness (bp := dev_profile) :
  next_interval_due_after every_five_minutes (Some (UniformClock.at_seconds 1650))
    = Ok (Some (UniformClock.at_seconds 1900)) ∧
  next_interval_due_after every_five_minutes (Some (UniformClock.at_seconds 1900)) = Ok None ∧
  ∃ c, least_boundary (ns (start_at_utc every_five_minutes))
         (Z.of_N (every_seconds every_five_minutes) * second_ns)
         (Some (UniformClock.at_seconds 1650)) c
       ∧ interval_answer every_five_minutes c
           (next_interval_due_after every_five_minutes (Some (UniformClock.at_seconds 1650))).
Proof.
  split_and!; [vm_compute; reflexivity..|].
  apply (interval_next_due_exact every_five_minutes (Some (UniformClock.at_seconds 1650)));
    vm_compute; congruence.
Defined.
