(* ===== verification/HorizonFacts.v ===== *)
(** * HorizonFacts: the horizon of a trigger

    [occurrences_for_horizon] refines [FirstDue.First]: it answers with the
    first due times after the cursor, whatever the trigger, and can be resumed
    from the millisecond cursor of its last answer. *)

From Stdlib Require Import Sorted.
From S2P Require Import Prelude Text Chrono ScheduleTypes Cron Trigger FirstDue TriggerFacts.

Local Open Scope Z_scope.

Section horizon.
Context `{Chrono} {HL : ChronoLaws} `{BuildProfile}.

(** Why a trigger is refused. *)
Definition trigger_refusal (trigger : TriggerSpec) : option ScheduleDomainError :=
  match trigger with
  | Once _ => None
  | Interval spec =>
      if (spec.(every_seconds) =? 0)%N then Some every_seconds_zero
      else if Z.of_N spec.(every_seconds) <=? i64_max then None
      else Some every_seconds_too_large
  | Calendar spec =>
      match parse_tz spec.(timezone) with
      | Some _ => None
      | None => Some (InvalidTrigger (lit "invalid IANA timezone: " ++ spec.(timezone)))
      end
  end.

(** How far past the cursor or the end an evaluation may look. *)
Definition span (trigger : TriggerSpec) : Z :=
  match trigger with
  | Once _ => 0
  | Interval spec => Z.of_N spec.(every_seconds) * second_ns
  | Calendar _ => minute_ns
  end.

Lemma least_boundary_near start step (a : DateTime) c :
  0 < step → least_boundary start step (Some a) c → c ≤ Z.max start (ns a + step).
Proof.
  intros Hstep (_ & _ & Hleast). destruct (Z.lt_ge_cases (ns a) start) as [Hlt|Hge].
  - specialize (Hleast start). cbn in Hleast. assert (c ≤ start); [|lia].
    apply Hleast; [exists 0; lia|lia].
  - set (k := (ns a - start) / step + 1).
    pose proof (Z.div_mod (ns a - start) step ltac:(lia)).
    pose proof (Z.mod_pos_bound (ns a - start) step Hstep).
    pose proof (Z.div_pos (ns a - start) step ltac:(lia) Hstep).
    assert (c ≤ start + k * step); [|lia].
    apply Hleast; [exists k; lia|cbn; lia].
Qed.

(** *** One answer *)

Definition answer_list (o : option DateTime) : list DateTime :=
  match o with Some t => [t] | None => [] end.

(** [next_due_after] of a one-off or interval trigger. *)
Lemma next_due_spec trigger c now :
  (∀ spec, trigger ≠ Calendar spec) → trigger_refusal trigger = None →
  match next_due_after trigger (Some c) now with
  | Ok r => First (due trigger) (ns c + 1) max_utc_ns 1 (answer_list r)
  | Panic => max_utc_ns < ns c + span trigger
  | _ => False
  end.
Proof.
  intros Hcal Hok. destruct trigger as [d|spec|spec]; [| |by destruct (Hcal spec)].
  - cbn [next_due_after]. unfold dt_ltb.
    destruct (Z.ltb_spec (ns c) (ns (truncate_to_millis d))); cbn [answer_list].
    + pose proof (ns_range (truncate_to_millis d)).
      apply First_cons; [done|lia|by intros t ->|]. apply First_nil. by left.
    + apply First_nil. right. intros t -> Hr. lia.
  - cbn [trigger_refusal] in Hok.
    destruct (N.eqb_spec (every_seconds spec) 0); [done|].
    destruct (Z.leb_spec (Z.of_N (every_seconds spec)) i64_max); [|done].
    cbn [next_due_after]. set (spec' := {| start_at_utc := _ |}).
    destruct (next_interval_spec spec' (Some c)) as (b & Hb & Hans); [done|done|].
    destruct (next_interval_due_after spec' (Some c)) as [[t|]| | |]; cbn in Hans; try done.
    + destruct Hans as [Ht Hend]. destruct Hb as (Hbound & Hpast & Hleast). cbn in Hpast.
      pose proof (ns_range t). rewrite <- Ht in *.
      apply First_cons; [done|lia| |apply First_nil; by left].
      intros t' [Hb' _] Hlo. apply Hleast; [done|cbn; lia].
    + apply First_nil. right. intros t' [Hb' Hu] Hr. apply Hans.
      destruct Hb as (_ & _ & Hleast). specialize (Hleast (ns t') Hb' ltac:(cbn; lia)).
      subst spec'. cbn in *. destruct (end_at_utc spec); cbn in *; [lia|done].
    + apply least_boundary_near in Hb; [|unfold second_ns; cbn; lia].
      pose proof (ns_range (truncate_to_millis (start_at_utc spec))). cbn in *. lia.
Qed.

Lemma next_due_refused trigger c now e :
  (∀ spec, trigger ≠ Calendar spec) → trigger_refusal trigger = Some e →
  next_due_after trigger c now = Err e.
Proof.
  intros Hcal Hr. destruct trigger as [d|spec|spec]; [done| |by destruct (Hcal spec)].
  cbn in *. unfold next_interval_due_after. cbn [every_seconds].
  destruct (every_seconds spec =? 0)%N; [congruence|]. unfold i64_try_from.
  destruct (_ <=? i64_max); [done|]. cbn. congruence.
Qed.

(** *** The horizon *)

Lemma horizon_loop_spec fuel trigger c end_utc n now found :
  (∀ spec, trigger ≠ Calendar spec) → trigger_refusal trigger = None →
  (length found ≤ n)%nat → (n - length found < fuel)%nat →
  match horizon_loop fuel trigger (Some c) end_utc n now found with
  | Ok l => ∃ l', l = found ++ l' ∧
      First (due trigger) (ns c + 1) (ns end_utc) (n - length found) l'
  | Panic => max_utc_ns < Z.max (ns c) (ns end_utc) + span trigger
  | _ => False
  end.
Proof.
  intros Hcal Hok. revert c found.
  induction fuel as [|fuel IH]; intros c found Hlen Hfuel; [lia|]. cbn [horizon_loop].
  destruct (Nat.ltb_spec (length found) n) as [Hn|Hn].
  2: { exists []. rewrite app_nil_r. split; [done|]. apply First_nil. left. lia. }
  pose proof (next_due_spec trigger c now Hcal Hok) as Hnext. pose proof (ns_range end_utc).
  destruct (next_due_after trigger (Some c) now) as [[d|]| | |];
    cbn [mbind Outcome_bind answer_list] in *; try done; [| |lia].
  2: { exists []. rewrite app_nil_r. split; [done|]. apply First_nil. right. intros t Ht Hr.
       by destruct (First_empty _ _ _ _ t Hnext Ht ltac:(lia)). }
  destruct (First_head _ _ _ _ _ _ Hnext) as [Hd Hdr]. unfold dt_ltb.
  destruct (Z.ltb_spec (ns end_utc) (ns d)) as [Hpast|Hin].
  { exists []. rewrite app_nil_r. split; [done|]. apply First_nil. right. intros t Ht Hr.
    pose proof (First_head_least _ _ _ _ _ _ t Hnext Ht ltac:(lia)). lia. }
  assert (Hlen' : length (found ++ [d]) = S (length found)) by (rewrite length_app; cbn; lia).
  specialize (IH d (found ++ [d]) ltac:(lia) ltac:(lia)).
  destruct (horizon_loop _ _ _ _ _ _ _) as [l| | |]; try done; [|lia].
  destruct IH as (l' & -> & HF). exists (d :: l'). split; [by rewrite <- app_assoc|].
  replace (n - length found)%nat with (S (n - length (found ++ [d]))) by lia.
  apply First_cons; [done|lia| |done]. intros t Ht Hlo. pose proof (ns_range t).
  eapply First_head_least; [exact Hnext|done|lia].
Qed.

Lemma calendar_horizon_spec spec c end_utc n now :
  n ≠ O →
  match occurrences_for_horizon (Calendar spec) (Some c) end_utc n now with
  | Ok l => First (due (Calendar spec)) (ns c + 1) (ns end_utc) n l
            ∧ trigger_refusal (Calendar spec) = None
  | Err e => trigger_refusal (Calendar spec) = Some e
  | Panic => max_utc_ns < Z.max (ns c) (ns end_utc) + minute_ns
  | OutOfFuel => False
  end.
Proof.
  intros Hn. unfold occurrences_for_horizon. rewrite (proj2 (Nat.eqb_neq _ _) Hn).
  cbn [trigger_refusal]. unfold normalize_timezone.
  destruct (parse_tz (timezone spec)) as [tz|] eqn:Htz; cbn [ok_or mbind Outcome_bind]; [|done].
  pose proof (next_minute_boundary_spec c) as Hb.
  destruct (next_minute_boundary c) as [start| | |]; cbn [mbind Outcome_bind]; try done; [|lia].
  pose proof (scan_after_spec spec tz c start end_utc n Htz Hb) as Hs.
  destruct (scan_calendar _ _ _ _ _); [done|done|lia|done].
Qed.

Lemma simple_horizon_spec trigger c end_utc n now :
  n ≠ O → (∀ spec, trigger ≠ Calendar spec) →
  match occurrences_for_horizon trigger (Some c) end_utc n now with
  | Ok l => First (due trigger) (ns c + 1) (ns end_utc) n l ∧ trigger_refusal trigger = None
  | Err e => trigger_refusal trigger = Some e
  | Panic => max_utc_ns < Z.max (ns c) (ns end_utc) + span trigger
  | OutOfFuel => False
  end.
Proof.
  intros Hn Hcal.
  assert (occurrences_for_horizon trigger (Some c) end_utc n now =
          horizon_loop (S n) trigger (Some c) end_utc n now []) as ->.
  { unfold occurrences_for_horizon. rewrite (proj2 (Nat.eqb_neq _ _) Hn).
    destruct trigger; [done..|by destruct (Hcal spec)]. }
  destruct (trigger_refusal trigger) as [e|] eqn:Hr.
  - cbn [horizon_loop length]. rewrite (proj2 (Nat.ltb_lt _ _)) by lia.
    by rewrite (next_due_refused _ _ _ e Hcal Hr).
  - pose proof (horizon_loop_spec (S n) trigger c end_utc n now [] Hcal Hr
      ltac:(cbn; lia) ltac:(cbn; lia)) as Hs.
    destruct (horizon_loop _ _ _ _ _ _ _); [|done..].
    destruct Hs as (l' & -> & HF). cbn in HF. by rewrite Nat.sub_0_r in HF.
Qed.

Lemma horizon_spec trigger c end_utc n now :
  match occurrences_for_horizon trigger (Some c) end_utc n now with
  | Ok l => First (due trigger) (ns c + 1) (ns end_utc) n l
            ∧ (n = O ∨ trigger_refusal trigger = None)
  | Err e => trigger_refusal trigger = Some e ∧ n ≠ O
  | Panic => max_utc_ns < Z.max (ns c) (ns end_utc) + span trigger
  | OutOfFuel => False
  end.
Proof.
  destruct (decide (n = O)) as [->|Hn].
  { split; [apply First_nil|]; by left. }
  assert (Hs : match occurrences_for_horizon trigger (Some c) end_utc n now with
    | Ok l => First (due trigger) (ns c + 1) (ns end_utc) n l ∧ trigger_refusal trigger = None
    | Err e => trigger_refusal trigger = Some e
    | Panic => max_utc_ns < Z.max (ns c) (ns end_utc) + span trigger
    | OutOfFuel => False
    end).
  { destruct trigger as [d|spec|spec];
      [by apply simple_horizon_spec..|by apply calendar_horizon_spec]. }
  destruct (occurrences_for_horizon _ _ _ _ _); [|done..]. destruct Hs; eauto.
Qed.

Lemma horizon_first trigger c end_utc n now l :
  occurrences_for_horizon trigger (Some c) end_utc n now = Ok l →
  First (due trigger) (ns c + 1) (ns end_utc) n l.
Proof.
  intros Hl. pose proof (horizon_spec trigger c end_utc n now) as Hs. rewrite Hl in Hs.
  by destruct Hs.
Qed.

(** C33: a horizon is the list of the first due times.  When
    [occurrences_for_horizon] answers, its answer lists in strictly ascending
    order the instants the trigger fires at after the cursor and up to the
    horizon's end - all of them if there are at most [n], else the first [n]:
    the one-off instant, the interval boundaries up to the trigger's end, or the
    minutes whose local time matches the calendar. *)
Theorem trigger_horizon_first_due trigger c end_utc n now l :
  occurrences_for_horizon trigger (Some c) end_utc n now = Ok l →
  First (due trigger) (ns c + 1) (ns end_utc) n l.
Proof. apply horizon_first. Qed.

(** planning a horizon terminates.  The loops always end; a call is refused
    exactly when the trigger is invalid (and anything was asked for); it panics
    only if cursor or end are within one interval - one minute for a calendar -
    of the last instant chrono can represent. *)
Theorem trigger_horizon_answers trigger c end_utc n now :
  match occurrences_for_horizon trigger (Some c) end_utc n now with
  | Ok l => n = O ∨ trigger_refusal trigger = None
  | Err e => trigger_refusal trigger = Some e ∧ n ≠ O
  | Panic => max_utc_ns < Z.max (ns c) (ns end_utc) + span trigger
  | OutOfFuel => False
  end.
Proof.
  pose proof (horizon_spec trigger c end_utc n now) as Hs.
  destruct (occurrences_for_horizon _ _ _ _ _); [|done..]. by destruct Hs.
Qed.

(** a horizon can be resumed.  Planning [n] occurrences, persisting the last
    of them as a millisecond cursor and planning [m] more from the cursor read
    back gives the occurrences of a single plan of [n + m]: none is planned
    twice and none is lost. *)
Theorem trigger_horizon_resumes trigger c end_utc n m now l1 d cursor l2 :
  occurrences_for_horizon trigger (Some c) end_utc n now = Ok l1 →
  last l1 = Some d →
  timestamp_millis_opt (timestamp_millis d) = Some cursor →
  occurrences_for_horizon trigger (Some cursor) end_utc m now = Ok l2 →
  ∀ l, occurrences_for_horizon trigger (Some c) end_utc (n + m) now = Ok l → l = l1 ++ l2.
Proof.
  intros H1 Hlast Hms H2 l Hl.
  pose proof (horizon_first _ _ _ _ _ _ H1) as HF1.
  assert (Hd : due trigger d).
  { pose proof (first_sound _ _ _ _ _ HF1) as Hs. rewrite Forall_forall in Hs.
    apply (Hs d). by eapply last_Some_elem_of. }
  rewrite on_millis_round_trip in Hms by (by eapply due_on_millis). injection Hms as <-.
  apply horizon_first in H2, Hl. eapply First_unique; [exact Hl|].
  by eapply First_app.
Qed.
End horizon.

(** ** Examples *)

Section examples.
Let bp : BuildProfile := dev_profile.
Existing Instance bp.

Definition instant_at : Z → DateTime := UniformClock.at_seconds.

Definition every_minute_and_a_half : TriggerSpec :=
  Interval {| start_at_utc := instant_at 1000; every_seconds := 90; end_at_utc := None |}.

Definition quarter_hours : TriggerSpec :=
  Calendar {| timezone := lit "+1"; spec_minute := Values [0; 15; 30; 45]%N;
              spec_hour := Values [1]%N; day_of_month := Any; spec_month := Any;
              day_of_week := Any; spec_year := None |}.

Lemma trigger_horizon_first_due_witness :
  First (due quarter_hours) (ns (instant_at 0) + 1) (ns (instant_at 7200)) 5
    [instant_at 900; instant_at 1800; instant_at 2700].
Proof.
  apply (trigger_horizon_first_due quarter_hours (instant_at 0) (instant_at 7200) 5 (instant_at 0)).
  vm_compute. reflexivity.
Defined.

Lemma trigger_horizon_answers_witness :
  occurrences_for_horizon quarter_hours (Some (instant_at 0)) (instant_at 7200) 5 (instant_at 0)
    = Ok [instant_at 900; instant_at 1800; instant_at 2700] ∧
  (5%nat = O ∨ trigger_refusal quarter_hours = None).
Proof.
  assert (Heq : occurrences_for_horizon quarter_hours (Some (instant_at 0)) (instant_at 7200) 5
    (instant_at 0) = Ok [instant_at 900; instant_at 1800; instant_at 2700])
    by (vm_compute; reflexivity).
  split; [exact Heq|].
  pose proof (trigger_horizon_answers quarter_hours (instant_at 0) (instant_at 7200) 5
    (instant_at 0)) as Ha.
  rewrite Heq in Ha. exact Ha.
Defined.

Lemma trigger_horizon_resumes_witness :
  [instant_at 1000; instant_at 1090; instant_at 1180; instant_at 1270]
    = [instant_at 1000; instant_at 1090] ++ [instant_at 1180; instant_at 1270].
Proof.
  apply (trigger_horizon_resumes every_minute_and_a_half (instant_at 0) (instant_at 7200) 2 2
    (instant_at 0) [instant_at 1000; instant_at 1090] (instant_at 1090) (instant_at 1090));
    vm_compute; reflexivity.
Defined.
End examples.
