(* ===== verification/Millis.v ===== *)
(** * Millis: instants at the boundary of the generated machines

    The machines keep instants as unsigned milliseconds.  The conversions of
    [meerkat-schedule/src/lifecycle.rs] between them and [DateTime], and the
    misfire deadline an occurrence is planned with. *)

From S2P Require Import Prelude Text Chrono ScheduleTypes Trigger FirstDue TriggerFacts.

Local Open Scope Z_scope.

Section millis.
Context `{Chrono}.

(** The variants of [ScheduleLifecycleError] and [OccurrenceLifecycleError]
    the conversions construct. *)
Inductive TimestampError :=
| InvalidInputTimestampMillis (field : string) (millis : Z)
| InvalidPlanningCursorUtcMillis (millis : N).

(** [u64::try_from] on an [i64]; the error is the millisecond count. *)
Definition datetime_to_millis (dt : DateTime) : Outcome Z N :=
  let millis := timestamp_millis dt in
  if (0 <=? millis) && (millis <=? Z.of_N u64_max) then Ok (Z.to_N millis) else Err millis.

Definition occurrence_datetime_to_millis (dt : DateTime) (field : string)
  : Outcome TimestampError N :=
  match datetime_to_millis dt with
  | Ok millis => Ok millis
  | Err millis => Err (InvalidInputTimestampMillis field millis)
  | Panic => Panic
  | OutOfFuel => OutOfFuel
  end.

Definition occurrence_misfire_deadline_to_millis (policy : MisfirePolicy)
    (due_at_utc : DateTime) : Outcome TimestampError N :=
  match misfire_deadline_utc policy due_at_utc with
  | Ok deadline =>
      deadline ← ok_or deadline
        (InvalidInputTimestampMillis "misfire_deadline_utc" (timestamp_millis due_at_utc));
      occurrence_datetime_to_millis deadline "misfire_deadline_utc"
  | _ => Panic
  end.

(** [DateTime::from_timestamp_millis] is [Utc.timestamp_millis_opt]. *)
Definition millis_to_datetime (ms : N) : option DateTime :=
  ms_i64 ← i64_try_from ms; timestamp_millis_opt ms_i64.

Definition schedule_planning_cursor_from_dsl (ms : option N)
  : Outcome TimestampError (option DateTime) :=
  match ms with
  | None => Ok None
  | Some millis =>
      dt ← ok_or (millis_to_datetime millis) (InvalidPlanningCursorUtcMillis millis);
      Ok (Some dt)
  end.

(** ** Properties *)

Context {HL : ChronoLaws}.

Lemma timestamp_millis_range t :
  -8334601228800000 ≤ timestamp_millis t ≤ 8210266876799999.
Proof.
  rewrite timestamp_millis_ns. pose proof (ns_range t) as [Hlo Hhi].
  apply (Z.div_le_mono _ _ milli_ns) in Hlo, Hhi; [exact (conj Hlo Hhi)|done..].
Qed.

Lemma datetime_to_millis_spec t :
  datetime_to_millis t =
    if 0 <=? timestamp_millis t then Ok (Z.to_N (timestamp_millis t))
    else Err (timestamp_millis t).
Proof.
  unfold datetime_to_millis. pose proof (timestamp_millis_range t).
  destruct (0 <=? timestamp_millis t); [|done]. cbn [andb].
  rewrite (proj2 (Z.leb_le _ _)); [done|]. change (Z.of_N u64_max) with 18446744073709551615. lia.
Qed.

(** the machine's milliseconds name instants.  An instant since 1970 is
    stored as its milliseconds and read back truncated to the millisecond - so
    unchanged when it is a due time; an earlier instant is refused with its own
    millisecond count, never stored. *)
Theorem millis_round_trip trigger t :
  (0 ≤ ns t → ∃ ms, datetime_to_millis t = Ok ms
     ∧ schedule_planning_cursor_from_dsl (Some ms) = Ok (Some (truncate_to_millis t))
     ∧ (due trigger t → truncate_to_millis t = t)) ∧
  (ns t < 0 → ∃ ms, ms < 0 ∧ datetime_to_millis t = Err ms).
Proof.
  rewrite datetime_to_millis_spec. pose proof (timestamp_millis_range t) as Hr.
  split; intros Ht.
  - assert (Hpos : 0 ≤ timestamp_millis t).
    { rewrite timestamp_millis_ns. by apply Z.div_pos. }
    rewrite (proj2 (Z.leb_le _ _) Hpos). eexists. split; [done|].
    unfold schedule_planning_cursor_from_dsl, millis_to_datetime, i64_try_from.
    rewrite Z2N.id by done. rewrite (proj2 (Z.leb_le _ _)) by (unfold i64_max; lia).
    cbn [mbind option_bind]. unfold truncate_to_millis.
    destruct (timestamp_millis_opt_some t) as [u Hu]. rewrite Hu. split; [done|].
    intros Hdue%due_on_millis%on_millis_round_trip. cbn. congruence.
  - exists (timestamp_millis t). assert (timestamp_millis t < 0); [|split; [done|]].
    { rewrite timestamp_millis_ns. by apply Z.div_lt_upper_bound. }
    by rewrite (proj2 (Z.leb_gt _ _)).
Qed.

(** The lateness a policy tolerates, in seconds. *)
Definition window_seconds (policy : MisfirePolicy) : Z :=
  match policy with
  | Skip => DEFAULT_SKIP_MISFIRE_GRACE_SECONDS
  | CatchUpWithin window => Z.of_N window
  end.

Lemma misfire_deadline_spec policy t :
  match misfire_deadline_utc policy t with
  | Ok (Some u) => ns u = ns t + window_seconds policy * second_ns
                   ∧ window_seconds policy ≤ i64_max / 1000
  | Ok None => max_utc_ns < ns t + window_seconds policy * second_ns
               ∧ window_seconds policy ≤ i64_max / 1000
  | Panic => i64_max / 1000 < window_seconds policy
  | _ => False
  end.
Proof.
  unfold misfire_deadline_utc.
  assert (Hw : 0 ≤ window_seconds policy) by (destruct policy; cbn; [done|lia]).
  set (z := match policy with Skip => 30 | CatchUpWithin w => default i64_max (i64_try_from w) end).
  assert (Hz : 0 ≤ z ∧ (z = window_seconds policy ∨ i64_max ≤ z ∧ i64_max < window_seconds policy)).
  { subst z. destruct policy as [|w]; cbn; [split; [done|by left]|]. unfold i64_try_from.
    destruct (Z.leb_spec (Z.of_N w) i64_max); cbn; [split; [lia|by left]|].
    split; [done|by right]. }
  assert (catch_up_window policy = seconds z) as -> by by destruct policy.
  destruct (seconds z) as [d|] eqn:Hs; cbn.
  - assert (Hle : z ≤ i64_max / 1000).
    { assert (is_Some (seconds z)) as Habs%seconds_some by eauto. lia. }
    change (i64_max / 1000) with 9223372036854775 in *. unfold i64_max in Hz.
    destruct Hz as [Hz0 [Hz|[? ?]]]; [|lia]. rewrite <- Hz.
    pose proof (seconds_ns _ _ Hs) as Hd. fold second_ns in Hd.
    destruct (add_signed t d) as [u|] eqn:Hu.
    + split; [|done]. rewrite <- Hd. by apply add_signed_ns.
    + split; [|done]. apply Z.nle_gt. intros Hle'. destruct (add_signed_some t d) as [u Hu'].
      { rewrite Hd. pose proof (ns_range t). unfold second_ns in *. lia. }
      congruence.
  - destruct (Z.lt_ge_cases (i64_max / 1000) z) as [Hlt|Hge].
    + destruct Hz as [_ [<-|[_ ?]]]; [done|]. change (i64_max / 1000) with 9223372036854775.
      unfold i64_max in *. lia.
    + destruct (proj2 (seconds_some z)) as [d Hd]; [lia|congruence].
Qed.

(** a misfire deadline is the due time plus the policy's window.  For an
    instant due since 1970 the stored deadline is that sum in milliseconds, not
    before the due time; a sum past chrono's last instant is refused with the
    due time's milliseconds; and the call panics exactly when the window exceeds
    [i64::MAX / 1000] seconds, before it could be refused. *)
Theorem misfire_deadline_exact policy t :
  0 ≤ ns t →
  match occurrence_misfire_deadline_to_millis policy t with
  | Ok ms => Z.of_N ms = (ns t + window_seconds policy * second_ns) / milli_ns
             ∧ timestamp_millis t ≤ Z.of_N ms
  | Err e => e = InvalidInputTimestampMillis "misfire_deadline_utc" (timestamp_millis t)
             ∧ max_utc_ns < ns t + window_seconds policy * second_ns
             ∧ window_seconds policy ≤ i64_max / 1000
  | Panic => i64_max / 1000 < window_seconds policy
  | OutOfFuel => False
  end.
Proof.
  intros Ht. unfold occurrence_misfire_deadline_to_millis.
  pose proof (misfire_deadline_spec policy t) as Hs.
  assert (Hw : 0 ≤ window_seconds policy) by (destruct policy; cbn; [done|lia]).
  destruct (misfire_deadline_utc policy t) as [[u|]| | |]; cbn; try done.
  destruct Hs as [Hu _]. unfold occurrence_datetime_to_millis. rewrite datetime_to_millis_spec.
  rewrite timestamp_millis_ns, Hu.
  assert (Hmono : ns t / milli_ns ≤ (ns t + window_seconds policy * second_ns) / milli_ns).
  { apply Z.div_le_mono; [done|]. unfold second_ns. lia. }
  assert (0 ≤ ns t / milli_ns) by by apply Z.div_pos.
  rewrite (proj2 (Z.leb_le _ _)) by lia. rewrite timestamp_millis_ns, Z2N.id by lia. done.
Qed.
End millis.

(** ** Examples *)

Definition noon : @DateTime UniformClock.clock := UniformClock.at_seconds 43200.

Lemma millis_round_trip_witness :
  datetime_to_millis noon = Ok 43200000%N ∧
  ∃ ms, datetime_to_millis noon = Ok ms
     ∧ schedule_planning_cursor_from_dsl (Some ms) = Ok (Some (truncate_to_millis noon))
     ∧ (due (Once noon) noon → truncate_to_millis noon = noon).
Proof.
  split; [vm_compute; reflexivity|].
  apply (proj1 (millis_round_trip (Once noon) noon)). vm_compute. congruence.
Defined.

Lemma misfire_deadline_exact_witness :
  occurrence_misfire_deadline_to_millis (CatchUpWithin 5) noon = Ok 43205000%N ∧
  occurrence_misfire_deadline_to_millis (CatchUpWithin 9223372036854776) noon = Panic ∧
  Z.of_N 43205000 = (ns noon + 5 * second_ns) / milli_ns.
Proof.
  assert (Heq : occurrence_misfire_deadline_to_millis (CatchUpWithin 5) noon = Ok 43205000%N)
    by (vm_compute; reflexivity).
  split_and!; [exact Heq|vm_compute; reflexivity|].
  pose proof (misfire_deadline_exact (CatchUpWithin 5) noon) as Hd. rewrite Heq in Hd.
  apply Hd. vm_compute. congruence.
Defined.
