(* ===== verification/ExecutorLease.v ===== *)
(** * ExecutorLease: the schedule executor's fenced lease

    [acquire_executor_lease], [renew_executor_lease], [release_executor_lease],
    [observe_executor_lease] and the lease screen of [claim_due_occurrences] in
    [meerkat-schedule/src/store.rs].  The store clock [now] and the fresh
    identifier [Uuid::now_v7()] are arguments. *)

From S2P Require Import Prelude Text Chrono.

Section lease.
Context `{Chrono}.

(** A [Uuid], by its 128 bits. *)
Definition Uuid := N.

Record ScheduleExecutorLease := {
  owner_id : str;
  lease_token : Uuid;
  fencing_token : N;
  acquired_at_utc : DateTime;
  expires_at_utc : DateTime;
}.

(** The variants of [ScheduleStoreError] the lease operations construct. *)
Inductive LeaseError :=
| InvalidExecutorLease (message : str)
| ExecutorLeaseStale
| FencingTokenExhausted.

(** The lease fields of [MemoryScheduleState]. *)
Record LeaseState := {
  executor_lease : option ScheduleExecutorLease;
  executor_fencing_high_water : N;
}.

Definition lease_init : LeaseState :=
  {| executor_lease := None; executor_fencing_high_water := 0 |}.

Inductive AcquireOutcome :=
| Acquired (lease : ScheduleExecutorLease)
| Busy (current_owner_id : str) (busy_until_utc : DateTime).

Inductive RenewOutcome :=
| Renewed (lease : ScheduleExecutorLease)
| Stale.

(** [==] on the five fields of two leases. *)
Definition same_lease (a b : ScheduleExecutorLease) : bool :=
  (a.(owner_id) == b.(owner_id)) && (a.(lease_token) =? b.(lease_token))%N
  && (a.(fencing_token) =? b.(fencing_token))%N
  && (ns a.(acquired_at_utc) =? ns b.(acquired_at_utc))%Z
  && (ns a.(expires_at_utc) =? ns b.(expires_at_utc))%Z.

Definition unexpired (lease : ScheduleExecutorLease) (now : DateTime) : bool :=
  dt_ltb now lease.(expires_at_utc).

Definition blank (s : str) : bool := trim s == [].

Definition lease_expiry (now : DateTime) (d : TimeDelta) : Outcome LeaseError DateTime :=
  ok_or (add_signed now d)
    (InvalidExecutorLease (lit "executor lease expiry is outside the supported UTC range")).

(** *** Operations: the new state and the result *)

Definition acquire_executor_lease (owner : str) (lease_duration : TimeDelta)
    (now : DateTime) (fresh : Uuid) (st : LeaseState)
  : LeaseState * Outcome LeaseError AcquireOutcome :=
  if blank owner || (num_milliseconds lease_duration <=? 0)%Z then
    (st, Err (InvalidExecutorLease
      (lit "executor owner must be non-empty and lease duration must be at least 1ms")))
  else
    let grant :=
      match lease_expiry now lease_duration with
      | Ok expires =>
          if (st.(executor_fencing_high_water) + 1 <=? u64_max)%N then
            let high_water := (st.(executor_fencing_high_water) + 1)%N in
            let lease := {| owner_id := owner; lease_token := fresh;
                            fencing_token := high_water; acquired_at_utc := now;
                            expires_at_utc := expires |} in
            ({| executor_lease := Some lease; executor_fencing_high_water := high_water |},
             Ok (Acquired lease))
          else (st, Err FencingTokenExhausted)
      | Err e => (st, Err e)
      | _ => (st, Panic)
      end in
    match st.(executor_lease) with
    | Some current =>
        if unexpired current now
        then (st, Ok (Busy current.(owner_id) current.(expires_at_utc)))
        else grant
    | None => grant
    end.

Definition renew_executor_lease (lease : ScheduleExecutorLease) (lease_duration : TimeDelta)
    (now : DateTime) (st : LeaseState) : LeaseState * Outcome LeaseError RenewOutcome :=
  if (num_milliseconds lease_duration <=? 0)%Z then
    (st, Err (InvalidExecutorLease (lit "executor lease duration must be at least 1ms")))
  else
    match st.(executor_lease) with
    | None => (st, Ok Stale)
    | Some current =>
        if negb (same_lease current lease) || negb (unexpired current now)
        then (st, Ok Stale)
        else
          match lease_expiry now lease_duration with
          | Ok expires =>
              let renewed := {| owner_id := current.(owner_id);
                                lease_token := current.(lease_token);
                                fencing_token := current.(fencing_token);
                                acquired_at_utc := current.(acquired_at_utc);
                                expires_at_utc := expires |} in
              ({| executor_lease := Some renewed;
                  executor_fencing_high_water := st.(executor_fencing_high_water) |},
               Ok (Renewed renewed))
          | Err e => (st, Err e)
          | _ => (st, Panic)
          end
    end.

Definition release_executor_lease (lease : ScheduleExecutorLease) (st : LeaseState)
  : LeaseState :=
  match st.(executor_lease) with
  | Some current =>
      if same_lease current lease
      then {| executor_lease := None;
              executor_fencing_high_water := st.(executor_fencing_high_water) |}
      else st
  | None => st
  end.

(** [ActiveScheduleExecutor]: the lease without its bearer token. *)
Definition observe_executor_lease (now : DateTime) (st : LeaseState)
  : option (str * N * DateTime * DateTime) :=
  match st.(executor_lease) with
  | Some lease =>
      if unexpired lease now
      then Some (lease.(owner_id), lease.(fencing_token), lease.(acquired_at_utc),
                 lease.(expires_at_utc))
      else None
  | None => None
  end.

(** The screen of [claim_due_occurrences]. *)
Definition authorized (lease : ScheduleExecutorLease) (now : DateTime) (st : LeaseState) : bool :=
  match st.(executor_lease) with
  | Some current => same_lease current lease && unexpired current now
  | None => false
  end.

(** ** Executions *)

Inductive lease_op :=
| OpAcquire (owner : str) (lease_duration : TimeDelta) (fresh : Uuid)
| OpRenew (lease : ScheduleExecutorLease) (lease_duration : TimeDelta)
| OpRelease (lease : ScheduleExecutorLease).

(** One operation at a store time: the next state and the lease it issues. *)
Definition lease_step (op : lease_op) (now : DateTime) (st : LeaseState)
  : LeaseState * option ScheduleExecutorLease :=
  match op with
  | OpAcquire owner d fresh =>
      match acquire_executor_lease owner d now fresh st with
      | (st', Ok (Acquired lease)) => (st', Some lease)
      | (st', _) => (st', None)
      end
  | OpRenew lease d =>
      match renew_executor_lease lease d now st with
      | (st', Ok (Renewed lease')) => (st', Some lease')
      | (st', _) => (st', None)
      end
  | OpRelease lease => (release_executor_lease lease st, None)
  end.

(** A run: the final state and the leases issued, oldest first. *)
Fixpoint lease_run (ops : list (lease_op * DateTime)) (st : LeaseState)
  : LeaseState * list ScheduleExecutorLease :=
  match ops with
  | [] => (st, [])
  | (op, now) :: ops' =>
      let '(st', issued) := lease_step op now st in
      let '(st'', rest) := lease_run ops' st' in
      (st'', option_list issued ++ rest)
  end.
End lease.

Arguments lease_op {_}.
Arguments LeaseState {_}.
