(* ===== verification/ExecutorLeaseFacts.v ===== *)
(** * ExecutorLeaseFacts: at most one executor holds firing authority

    Runs of the lease operations from the empty store: fencing tokens only
    grow, authority belongs to the last lease issued, and it passes to another
    executor only by release or expiry. *)

From Stdlib Require Import Sorted.
From S2P Require Import Prelude Text Chrono ExecutorLease.

Section facts.
Context `{Chrono}.

(** Two leases of one executor incarnation. *)
Definition same_grant (a b : ScheduleExecutorLease) : Prop :=
  a.(owner_id) = b.(owner_id) ∧ a.(lease_token) = b.(lease_token)
  ∧ a.(fencing_token) = b.(fencing_token) ∧ a.(acquired_at_utc) = b.(acquired_at_utc).

(** Issued before: a smaller fencing token, or the same grant renewed. *)
Definition issued_before (a b : ScheduleExecutorLease) : Prop :=
  (a.(fencing_token) < b.(fencing_token))%N ∨ same_grant a b.

Lemma same_lease_fields `{!ChronoLaws} a b : same_lease a b = true ↔ a = b.
Proof.
  unfold same_lease. rewrite !andb_true_iff, bool_decide_eq_true, !N.eqb_eq, !Z.eqb_eq.
  split; [|by intros ->]. destruct a, b; cbn. intros ((((-> & ->) & ->) & ->%(inj ns)) & ->%(inj ns)).
  done.
Qed.

(** What an operation does to the current lease. *)
Inductive lease_effect (now : DateTime) (st : LeaseState) :
    LeaseState → option ScheduleExecutorLease → lease_op → Prop :=
| effect_none op : lease_effect now st st None op
| effect_acquire lease op :
    (∀ current, st.(executor_lease) = Some current → (ns current.(expires_at_utc) ≤ ns now)%Z) →
    lease.(fencing_token) = (st.(executor_fencing_high_water) + 1)%N →
    lease_effect now st
      {| executor_lease := Some lease;
         executor_fencing_high_water := (st.(executor_fencing_high_water) + 1)%N |}
      (Some lease) op
| effect_renew current lease op :
    st.(executor_lease) = Some current → same_grant current lease →
    lease_effect now st
      {| executor_lease := Some lease;
         executor_fencing_high_water := st.(executor_fencing_high_water) |} (Some lease) op
| effect_release current lease :
    st.(executor_lease) = Some current → same_lease current lease = true →
    lease_effect now st
      {| executor_lease := None;
         executor_fencing_high_water := st.(executor_fencing_high_water) |} None (OpRelease lease).

Lemma lease_step_effect op now st :
  lease_effect now st (lease_step op now st).1 (lease_step op now st).2 op.
Proof.
  destruct op as [owner d fresh|lease d|lease]; cbn.
  - unfold acquire_executor_lease. destruct (_ || _); [constructor|].
    assert (Hgrant : ∀ P, (∀ current, executor_lease st = Some current →
        (ns (expires_at_utc current) ≤ ns now)%Z) → P = match lease_expiry now d with
      | Ok expires => if (executor_fencing_high_water st + 1 <=? u64_max)%N then
            ({| executor_lease := Some {| owner_id := owner; lease_token := fresh;
                  fencing_token := executor_fencing_high_water st + 1;
                  acquired_at_utc := now; expires_at_utc := expires |};
                executor_fencing_high_water := executor_fencing_high_water st + 1 |},
             Ok (Acquired {| owner_id := owner; lease_token := fresh;
                  fencing_token := executor_fencing_high_water st + 1;
                  acquired_at_utc := now; expires_at_utc := expires |}))
          else (st, Err FencingTokenExhausted)
      | Err e => (st, Err e) | _ => (st, Panic) end →
      lease_effect now st
        (match P with (st', Ok (Acquired l)) => (st', Some l) | (st', _) => (st', None) end).1
        (match P with (st', Ok (Acquired l)) => (st', Some l) | (st', _) => (st', None) end).2
        (OpAcquire owner d fresh)).
    { intros P Hexp ->. destruct (lease_expiry now d); try constructor.
      destruct (_ <=? _)%N; [|constructor]. cbn. by apply (effect_acquire now st _ _ Hexp). }
    destruct (executor_lease st) as [current|] eqn:Hc; [|by eapply Hgrant].
    unfold unexpired, dt_ltb. destruct (Z.ltb_spec (ns now) (ns (expires_at_utc current)));
      [constructor|]. apply (Hgrant _); [|reflexivity]. by intros ? [= <-].
  - unfold renew_executor_lease. destruct (_ <=? 0)%Z; [constructor|].
    destruct (executor_lease st) as [current|] eqn:Hc; [|constructor].
    destruct (_ || _); [constructor|]. destruct (lease_expiry now d); try constructor.
    cbn. by apply (effect_renew now st current).
  - unfold release_executor_lease. destruct (executor_lease st) as [current|] eqn:Hc; [|constructor].
    destruct (same_lease current lease) eqn:Hs; [|constructor].
    by apply (effect_release now st current).
Qed.

(** ** Fencing *)

(** The leases issued so far explain the state. *)
Record fenced (st : LeaseState) (issued : list ScheduleExecutorLease) : Prop := {
  fenced_sorted : StronglySorted issued_before issued;
  fenced_last lease :
    last issued = Some lease → lease.(fencing_token) = st.(executor_fencing_high_water);
  fenced_none : issued = [] → st.(executor_fencing_high_water) = 0%N;
  fenced_current lease : st.(executor_lease) = Some lease → last issued = Some lease;
}.

Lemma issued_before_trans a b c : issued_before a b → issued_before b c → issued_before a c.
Proof.
  unfold issued_before, same_grant. intros [?|(? & ? & ? & ?)] [?|(? & ? & ? & ?)];
    [left; lia|left; lia|left; lia|right; split_and!; congruence].
Qed.

Lemma sorted_snoc l x :
  StronglySorted issued_before l → (∀ y, last l = Some y → issued_before y x) →
  StronglySorted issued_before (l ++ [x]).
Proof.
  induction 1 as [|y l Hl IH Hy]; intros Hlast; [repeat constructor|]. cbn.
  constructor.
  - apply IH. intros z Hz. apply Hlast. destruct l; [done|exact Hz].
  - apply Forall_app. split; [done|]. apply Forall_singleton.
    destruct (last l) as [z|] eqn:Hz.
    + apply (issued_before_trans y z x).
      * rewrite Forall_forall in Hy. apply Hy. by apply last_Some_elem_of.
      * apply Hlast. destruct l; [done|exact Hz].
    + apply last_None in Hz as ->. by apply Hlast.
Qed.

Lemma fenced_step op now st issued :
  fenced st issued →
  fenced (lease_step op now st).1 (issued ++ option_list (lease_step op now st).2).
Proof.
  intros [Hs Hlast Hnone Hcur].
  destruct (lease_step_effect op now st) as [op|lease op Hexp Htok|current lease op Hc Hsame|current lease Hc Hsame].
  - cbn. by rewrite app_nil_r.
  - change (option_list (Some lease)) with [lease]. split; cbn [executor_lease executor_fencing_high_water].
    + apply sorted_snoc; [done|]. intros y Hy. left. rewrite Htok, (Hlast y Hy). lia.
    + intros l'. rewrite last_snoc. by intros [= <-].
    + intros Hnil. by destruct issued.
    + intros l' [= <-]. by rewrite last_snoc.
  - apply Hcur in Hc. change (option_list (Some lease)) with [lease]. split; cbn [executor_lease executor_fencing_high_water].
    + apply sorted_snoc; [done|]. intros y Hy. right. congruence.
    + intros l'. rewrite last_snoc. intros [= <-]. rewrite <- (Hlast _ Hc).
      by destruct Hsame as (_ & _ & <- & _).
    + by destruct issued.
    + intros l' [= <-]. by rewrite last_snoc.
  - cbn. rewrite app_nil_r. by split.
Qed.

Lemma lease_run_fenced ops st pre :
  fenced st pre → fenced (lease_run ops st).1 (pre ++ (lease_run ops st).2).
Proof.
  revert st pre. induction ops as [|[op now] ops IH]; intros st pre Hf; cbn.
  { by rewrite app_nil_r. }
  pose proof (fenced_step op now st pre Hf) as Hstep.
  destruct (lease_step op now st) as [st1 issued]. cbn in Hstep.
  specialize (IH st1 _ Hstep). destruct (lease_run ops st1) as [st2 rest]. cbn in *.
  by rewrite app_assoc.
Qed.

(** C38: executor leases are fenced.  In every run of the store the leases are
    issued with fencing tokens that never decrease, two leases with the same
    token are one grant and its renewals, and the only lease that authorizes a
    claim is the last one issued: a superseded executor can never claim again. *)
Theorem executor_lease_fenced {HL : ChronoLaws} ops :
  let '(st, issued) := lease_run ops lease_init in
  StronglySorted issued_before issued ∧
  ∀ lease now, authorized lease now st = true → last issued = Some lease.
Proof.
  assert (Hf : fenced lease_init []) by (split; [constructor|done..]).
  pose proof (lease_run_fenced ops lease_init [] Hf) as Hrun.
  destruct (lease_run ops lease_init) as [st issued]. cbn in Hrun.
  split; [apply Hrun|]. intros lease now Ha. unfold authorized in Ha.
  destruct (executor_lease st) as [current|] eqn:Hc; [|done].
  apply andb_true_iff in Ha as [->%same_lease_fields _]. by apply Hrun.
Qed.

(** ** Handover *)

Definition releases (f : N) (e : lease_op * DateTime) : Prop :=
  match e.1 with OpRelease lease => lease.(fencing_token) = f | _ => False end.

#[local] Instance releases_dec f e : Decision (releases f e).
Proof. unfold releases. destruct (e.1); apply _. Defined.

(** The lease of a fencing token survives until it is released or expires. *)
Lemma lease_kept {HL : ChronoLaws} ops st current :
  st.(executor_lease) = Some current →
  Forall (λ e, ¬ releases current.(fencing_token) e) ops →
  (∃ lease, (lease_run ops st).1.(executor_lease) = Some lease ∧
            lease.(fencing_token) = current.(fencing_token)) ∨
  (∃ lease e, lease ∈ current :: (lease_run ops st).2 ∧ e ∈ ops ∧
     lease.(fencing_token) = current.(fencing_token) ∧
     (ns lease.(expires_at_utc) ≤ ns e.2)%Z).
Proof.
  revert st current. induction ops as [|[op now] ops IH]; intros st current Hc Hrel.
  { left. by exists current. }
  apply Forall_cons in Hrel as [Hop Hrel]. cbn.
  pose proof (lease_step_effect op now st) as Heff.
  destruct (lease_step op now st) as [st1 issued]. cbn in Heff.
  inversion Heff as [op' E1 E2 E3|lease op' Hexp Htok E1 E2 E3|cur lease op' Hc' Hsame E1 E2 E3
    |cur lease Hc' Hsame E1 E2 E3]; subst.
  - destruct (IH st1 current Hc Hrel) as [Hk|(l & e & Hl & He & Hx)];
      destruct (lease_run ops st1) as [st2 rest]; cbn in *; [by left|right].
    exists l, e. split_and!; [done|by right|apply Hx..].
  - right. exists current, (op, now). split_and!; [by left|by left|done|by apply Hexp].
  - assert (cur = current) as -> by congruence. destruct Hsame as (_ & _ & Htok & _).
    match goal with |- context [lease_run ops ?s] =>
      destruct (IH s lease eq_refl) as [Hk|(l & e & Hl & He & Hf & Hx)];
      [by rewrite <- Htok| |]; destruct (lease_run ops s) as [st2 rest] end; cbn in *.
    + left. by rewrite Htok.
    + right. exists l, e. split_and!; [by right|by right|congruence|done].
  - destruct Hop. assert (cur = current) as -> by congruence.
    by apply same_lease_fields in Hsame as ->.
Qed.

(** C37: executor authority is exclusive.  If a lease authorizes claims in one
    state of a run and a lease of another grant authorizes claims later, then in
    between the first was released by a holder of its fencing token, or it had
    expired - by its last renewal - when one of the operations in between ran. *)
Theorem executor_lease_exclusive {HL : ChronoLaws} ops st lease now lease' now' :
  authorized lease now st = true →
  authorized lease' now' (lease_run ops st).1 = true →
  lease.(fencing_token) ≠ lease'.(fencing_token) →
  Exists (releases lease.(fencing_token)) ops ∨
  ∃ last e, last ∈ lease :: (lease_run ops st).2 ∧ e ∈ ops ∧
    last.(fencing_token) = lease.(fencing_token) ∧ (ns last.(expires_at_utc) ≤ ns e.2)%Z.
Proof.
  unfold authorized. destruct (executor_lease st) as [current|] eqn:Hc; [|done].
  intros [->%same_lease_fields _]%andb_true_iff Ha' Hne.
  destruct (executor_lease (lease_run ops st).1) as [current'|] eqn:Hc'; [|done].
  apply andb_true_iff in Ha' as [->%same_lease_fields _].
  destruct (decide (Exists (releases (fencing_token lease)) ops)) as [|Hno]; [by left|right].
  rewrite <- Forall_Exists_neg in Hno.
  destruct (lease_kept ops st lease Hc Hno) as [(l & Hl & Htok)|(l & e & Hl & He & Hf & Hx)].
  - congruence.
  - by exists l, e.
Qed.
End facts.

(** ** An example: a takeover after expiry *)

Definition host_lease (owner : string) (token fence since expiry : Z) : ScheduleExecutorLease := {|
  owner_id := lit owner; lease_token := Z.to_N token; fencing_token := Z.to_N fence;
  acquired_at_utc := UniformClock.at_seconds since;
  expires_at_utc := UniformClock.at_seconds expiry;
|}.

Definition thirty_seconds : @TimeDelta UniformClock.clock := (30 * 10 ^ 9)%Z.

(** Host b is refused while host a's lease runs and takes over when it ends. *)
Definition takeover : list (lease_op * DateTime) :=
  [(OpAcquire (lit "host-b") thirty_seconds 8%N, UniformClock.at_seconds 120);
   (OpAcquire (lit "host-b") thirty_seconds 9%N, UniformClock.at_seconds 130)].

Definition held_by_a : LeaseState :=
  {| executor_lease := Some (host_lease "host-a" 7 1 100 130); executor_fencing_high_water := 1 |}.

Definition takeover_run : list (lease_op * DateTime) :=
  (OpAcquire (lit "host-a") thirty_seconds 7%N, UniformClock.at_seconds 100) :: takeover.

Lemma executor_lease_fenced_witness :
  (λ lease, (owner_id lease, fencing_token lease)) <$> (lease_run takeover_run lease_init).2
    = [(lit "host-a", 1%N); (lit "host-b", 2%N)] ∧
  ∀ lease now, authorized lease now (lease_run takeover_run lease_init).1 = true →
    last (lease_run takeover_run lease_init).2 = Some lease.
Proof.
  split; [vm_compute; reflexivity|].
  pose proof (executor_lease_fenced takeover_run) as Hf.
  destruct (lease_run takeover_run lease_init) as [st issued]. exact (proj2 Hf).
Defined.

Lemma executor_lease_exclusive_witness :
  Exists (releases 1) takeover ∨
  ∃ last e, last ∈ host_lease "host-a" 7 1 100 130 :: (lease_run takeover held_by_a).2 ∧
    e ∈ takeover ∧ fencing_token last = 1%N ∧ (ns (expires_at_utc last) ≤ ns e.2)%Z.
Proof.
  apply (executor_lease_exclusive takeover held_by_a (host_lease "host-a" 7 1 100 130)
    (UniformClock.at_seconds 110) (host_lease "host-b" 9 2 130 160) (UniformClock.at_seconds 140));
    [vm_compute; reflexivity|vm_compute; reflexivity|vm_compute; discriminate].
Defined.
