(* ===== verification/Authority.v ===== *)
(** * The authority generated from a machine definition

    [crates/meerkat-machine-dsl-core] turns a [machine!] block into a Rust
    state type and an authority that applies inputs to it.  This file models
    what that generator emits, for an arbitrary machine: the guarded
    transition chains ([gen_dispatch.rs]), the [per_phase] expansion
    ([lib.rs]), the state-invariant checks, atomic input batches, and the
    prepare/commit protocol with its base-state precondition.  The machines
    themselves are instances of [Machine] in their own files. *)

From S2P Require Export Prelude.

(** ** Transitions *)

(** One [transition] block: its guards (conjoined), the state map in which
    they would read an absent key (such an arm misses: map reads in guards are
    strict), its update statements in order ([None] is an arithmetic-overflow
    panic), the [to] phase, and its [emit] lines, evaluated in the state after
    the updates and the phase change. *)
Record Transition (St Ph Ef : Type) := mkTransition {
  tr_name : string;
  tr_guard : St → bool;
  tr_absent : St → option string;
  tr_update : St → option St;
  tr_to : Ph;
  tr_emit : St → list Ef;
}.
Arguments mkTransition {_ _ _} _ _ _ _ _ _.
Arguments tr_name {_ _ _} _.
Arguments tr_guard {_ _ _} _ _.
Arguments tr_absent {_ _ _} _ _.
Arguments tr_update {_ _ _} _ _.
Arguments tr_to {_ _ _} _.
Arguments tr_emit {_ _ _} _ _.

(** The guards read no state map. *)
Definition no_map_read {St : Type} (s : St) : option string := None.

(** A guard whose conjuncts before a map read hold reads the key [o] looks up. *)
Definition strict_read {A : Type} (reached : bool) (o : option A) (field : string)
    : option string :=
  match o with
  | None => if reached then Some field else None
  | Some _ => None
  end.

(** The lifecycle-phase field of a machine state. *)
Class Phased (St Ph : Type) := {
  phase : St → Ph;
  set_phase : Ph → St → St;
  phase_name : Ph → string;
  #[global] phase_eq_dec :: EqDecision Ph;
}.

(** A transition with [per_phase [p1, ..., pn]] stands for [n] transitions:
    one per phase, named after it, guarded by it, and leading back to it. *)
Definition expand_per_phase {St Ph Ef} `{Phased St Ph}
    (phases : list Ph) (t : Transition St Ph Ef) : list (Transition St Ph Ef) :=
  (λ p, {| tr_name := tr_name t +:+ phase_name p;
           tr_guard := λ s, (phase s == p) && tr_guard t s;
           tr_absent := λ s, if phase s == p then tr_absent t s else None;
           tr_update := tr_update t;
           tr_to := p;
           tr_emit := tr_emit t |}) <$> phases.

(** A machine definition: its initial state, the transitions declared for
    each input in source order, and its named state invariants. *)
Class Machine (St Ph In Va Ef : Type) := {
  #[global] machine_phased :: Phased St Ph;
  #[global] state_eq_dec :: EqDecision St;
  variant : In → Va;
  init : St;
  transitions : In → list (Transition St Ph Ef);
  invariants : list (string * (St → bool));
}.

(** ** The generated authority *)

Section Authority.
Context {St Ph In Va Ef : Type} `{!Machine St Ph In Va Ef} {BP : BuildProfile}.

Inductive TransitionError :=
| NoMatchingTransition (from : Ph) (trigger : Va)
| GuardRejected (from : Ph) (trigger : Va)
| AbsentMapKey (from : Ph) (trigger : Va) (field : string)
| RecoveredStateInvariantRejected (from : Ph) (invariant : string).

Record TransitionRecord := mkTransitionRecord {
  from_phase : Ph;
  to_phase : Ph;
  effects : list Ef;
}.

(** A call on [&mut self]: it returns the receiver's new state with its
    result, or panics. *)
Inductive Call (S A : Type) :=
| Returned (state : S) (result : A)
| Panicked.
Arguments Returned {S A} _ _.
Arguments Panicked {S A}.

(** The arm of the generated [if]/[else if] chain that runs: the first one
    whose guards hold. *)
Definition select (ts : list (Transition St Ph Ef)) (s : St)
    : option (Transition St Ph Ef) :=
  List.find (λ t, tr_guard t s) ts.

(** The body of an arm: updates, then the phase field, then the effects. *)
Definition fire (t : Transition St Ph Ef) (s : St) : option (St * list Ef) :=
  s' ← tr_update t s;
  let s'' := set_phase (tr_to t) s' in
  Some (s'', tr_emit t s'').

(** The first absent key the arms recorded; reported when no arm runs. *)
Fixpoint absent_field (ts : list (Transition St Ph Ef)) (s : St) : option string :=
  match ts with
  | [] => None
  | t :: ts => match tr_absent t s with Some f => Some f | None => absent_field ts s end
  end.

Definition refusal (ts : list (Transition St Ph Ef)) (i : In) (s : St) : TransitionError :=
  match absent_field ts s with
  | Some field => AbsentMapKey (phase s) (variant i) field
  | None => GuardRejected (phase s) (variant i)
  end.

Definition run_chain (ts : list (Transition St Ph Ef)) (i : In) (s : St)
    : Call St (TransitionRecord + TransitionError) :=
  match ts with
  | [] => Returned s (inr (NoMatchingTransition (phase s) (variant i)))
  | _ =>
      match select ts s with
      | None => Returned s (inr (refusal ts i s))
      | Some t =>
          match fire t s with
          | None => Panicked
          | Some (s', es) =>
              Returned s' (inl {| from_phase := phase s;
                                  to_phase := phase s';
                                  effects := es |})
          end
      end
  end.

Definition apply_without_invariant_validation (i : In) (s : St)
    : Call St (TransitionRecord + TransitionError) :=
  run_chain (transitions i) i s.

(** All named invariants hold. *)
Definition invariants_hold (s : St) : bool :=
  forallb (λ inv, inv.2 s) invariants.

(** [debug_assert!] on every invariant: [false] is the panic. *)
Definition validate_debug_invariants (s : St) : bool :=
  if debug_assertions then invariants_hold s else true.

Definition apply (i : In) (s : St)
    : Call St (TransitionRecord + TransitionError) :=
  match apply_without_invariant_validation i s with
  | Returned s' (inl r) =>
      if validate_debug_invariants s' then Returned s' (inl r) else Panicked
  | c => c
  end.

(** The first invariant, in declaration order, that a recovered state
    violates refuses the recovery. *)
Definition recover_from_state (s : St) : St + TransitionError :=
  match List.find (λ inv, negb (inv.2 s)) invariants with
  | Some inv => inr (RecoveredStateInvariantRejected (phase s) inv.1)
  | None => inl s
  end.

(** *** Prepared authorities *)

Record PreparedAuthority := mkPrepared {
  base_state : St;
  prepared_state : St;
}.

Definition prepare_authority (live : St) : PreparedAuthority :=
  {| base_state := live; prepared_state := live |}.

Definition prepared_apply (i : In) (p : PreparedAuthority)
    : Call PreparedAuthority (TransitionRecord + TransitionError) :=
  match apply i (prepared_state p) with
  | Returned s r => Returned {| base_state := base_state p; prepared_state := s |} r
  | Panicked => Panicked
  end.

(** The loop of [apply_batch]: it stops at the first rejected input with
    the state reached so far. *)
Fixpoint batch_loop (inputs : list In) (s : St) (acc : list TransitionRecord)
    : Call St (list TransitionRecord + TransitionError) :=
  match inputs with
  | [] => Returned s (inl acc)
  | i :: inputs' =>
      match apply_without_invariant_validation i s with
      | Returned s' (inl r) => batch_loop inputs' s' (acc ++ [r])
      | Returned s' (inr e) => Returned s' (inr e)
      | Panicked => Panicked
      end
  end.

Definition apply_batch (inputs : list In) (p : PreparedAuthority)
    : Call PreparedAuthority (list TransitionRecord + TransitionError) :=
  let checkpoint := prepared_state p in
  match batch_loop inputs checkpoint [] with
  | Returned s (inl rs) =>
      if validate_debug_invariants s
      then Returned {| base_state := base_state p; prepared_state := s |} (inl rs)
      else Panicked
  | Returned _ (inr e) =>
      Returned {| base_state := base_state p; prepared_state := checkpoint |} (inr e)
  | Panicked => Panicked
  end.

Inductive PreparedCommitError := BaseChanged (current_phase base_phase : Ph).

Definition validate_commit_base (p : PreparedAuthority) (live : St)
    : option PreparedCommitError :=
  if live != base_state p then Some (BaseChanged (phase live) (phase (base_state p)))
  else None.

(** [commit_prepared_authority]: the live state is replaced only when it is
    still the state the transaction was prepared from. *)
Definition commit_prepared_authority (p : PreparedAuthority) (live : St)
    : St * option PreparedCommitError :=
  match validate_commit_base p live with
  | Some e => (live, Some e)
  | None => (prepared_state p, None)
  end.

(** [commit_prepared_authority_after]: the base check, then the effect,
    then the unchecked commit; the borrow of the authority is exclusive, so
    the effect cannot move the live state. *)
Inductive CommitAfterError {E : Type} :=
| CommitFailed (e : PreparedCommitError)
| EffectFailed (e : E).
Arguments CommitAfterError : clear implicits.

Definition commit_prepared_authority_after {T E} (p : PreparedAuthority)
    (effect : unit → T + E) (live : St) : St * (T + CommitAfterError E) :=
  match validate_commit_base p live with
  | Some e => (live, inr (CommitFailed e))
  | None =>
      match effect () with
      | inr e => (live, inr (EffectFailed e))
      | inl r => (prepared_state p, inl r)
      end
  end.
End Authority.

Arguments TransitionError : clear implicits.
Arguments TransitionRecord : clear implicits.
Arguments PreparedAuthority : clear implicits.
Arguments PreparedCommitError : clear implicits.
Arguments CommitAfterError : clear implicits.
Arguments Returned {S A} _ _.
Arguments Panicked {S A}.
Arguments CommitFailed {Ph E} _.
Arguments EffectFailed {Ph E} _.

(** ** Steps, executions and reachability *)

Lemma select_app {St Ph Ef} (ts us : list (Transition St Ph Ef)) (s : St) :
  select (ts ++ us) s =
    match select ts s with Some t => Some t | None => select us s end.
Proof.
  unfold select. induction ts as [|t ts IH]; cbn; [done|]. by destruct (tr_guard t s).
Qed.

(** The arm of a [per_phase] block that runs in a state. *)
Lemma select_per_phase {St Ph Ef} `{!Phased St Ph} phases (t : Transition St Ph Ef) (s : St) :
  select (expand_per_phase phases t) s =
    if existsb (λ p, phase s == p) phases && tr_guard t s
    then Some {| tr_name := tr_name t +:+ phase_name (phase s);
                 tr_guard := λ s', (phase s' == phase s) && tr_guard t s';
                 tr_absent := λ s', if phase s' == phase s then tr_absent t s' else None;
                 tr_update := tr_update t; tr_to := phase s; tr_emit := tr_emit t |}
    else None.
Proof.
  unfold select, expand_per_phase. induction phases as [|p phases IH]; cbn in *; [done|].
  destruct (decide (phase s = p)) as [<-|Hne].
  - rewrite bool_decide_true by done. cbn.
    destruct (tr_guard t s); [done|]. rewrite IH, andb_false_r. done.
  - rewrite bool_decide_false by done. cbn. by rewrite IH.
Qed.

Lemma existsb_phase {Ph} `{!EqDecision Ph} (p : Ph) phases :
  existsb (λ q, p == q) phases = bool_decide (p ∈ phases).
Proof.
  apply eq_true_iff_eq. rewrite existsb_exists, bool_decide_eq_true.
  setoid_rewrite bool_decide_eq_true. setoid_rewrite <-list_elem_of_In. naive_solver.
Qed.

Lemma elem_of_per_phase {St Ph Ef} `{!Phased St Ph} phases (t u : Transition St Ph Ef) (s : St) :
  u ∈ expand_per_phase phases t → tr_guard u s = true →
  phase s ∈ phases ∧ tr_guard t s = true ∧ tr_update u = tr_update t ∧
  tr_to u = phase s ∧ tr_emit u = tr_emit t.
Proof.
  intros (p & -> & Hp)%list_elem_of_fmap. cbn.
  intros [Hph%bool_decide_eq_true Hg]%andb_true_iff. by subst p.
Qed.

Section Steps.
Context {St Ph In Va Ef : Type} `{!Machine St Ph In Va Ef} {BP : BuildProfile}.

Implicit Types (s : St) (i : In) (t : Transition St Ph Ef).
Implicit Types (ts : list (Transition St Ph Ef)).

Lemma fire_Some t s s' es :
  fire t s = Some (s', es) →
  ∃ s1, tr_update t s = Some s1 ∧ s' = set_phase (tr_to t) s1 ∧ es = tr_emit t s'.
Proof.
  unfold fire. destruct (tr_update t s) as [s1|]; [|done]. cbn. intros [= <- <-]. eauto.
Qed.

(** The input [i] fires the transition [t] in [s]. *)
Record Fires (i : In) (t : Transition St Ph Ef) (s s' : St) (es : list Ef) : Prop :=
  { fires_declared : t ∈ transitions i;
    fires_guard : tr_guard t s = true;
    fires_fire : fire t s = Some (s', es) }.

(** A sequence of accepted inputs. *)
Inductive Execution : St → list (In * TransitionRecord Ph Ef) → St → Prop :=
| Execution_nil s : Execution s [] s
| Execution_cons s i s1 r l s2 :
    apply i s = Returned s1 (inl r) →
    Execution s1 l s2 →
    Execution s ((i, r) :: l) s2.

Definition Reachable (s : St) : Prop := ∃ l, Execution init l s.

(** No two declared arms of an input hold together, so the order in which
    the arms are written decides nothing. *)
Definition Unambiguous (ts : list (Transition St Ph Ef)) : Prop :=
  ∀ s : St, length (filter (λ t, tr_guard t s = true) ts) ≤ 1.

(** [I] survives every firing of [t]. *)
Definition Preserves (I : St → Prop) (t : Transition St Ph Ef) : Prop :=
  ∀ s s', I s → tr_guard t s = true → tr_update t s = Some s' →
          I (set_phase (tr_to t) s').

Lemma select_Some ts s t :
  select ts s = Some t → t ∈ ts ∧ tr_guard t s = true.
Proof.
  intros H. apply List.find_some in H as [H1 H2].
  by rewrite list_elem_of_In.
Qed.

Lemma select_None ts s t :
  select ts s = None → t ∈ ts → tr_guard t s = false.
Proof. intros H Ht%list_elem_of_In. by eapply List.find_none in H. Qed.

Lemma select_unambiguous ts s t :
  Unambiguous ts → t ∈ ts → tr_guard t s = true → select ts s = Some t.
Proof.
  intros Hu Ht Hg. specialize (Hu s).
  induction ts as [|u ts IH]; [by apply elem_of_nil in Ht|].
  simpl. destruct (tr_guard u s) eqn:Hgu.
  - rewrite filter_cons_True in Hu by done.
    apply elem_of_cons in Ht as [->|Ht]; [done|].
    assert (t ∈ filter (λ t, tr_guard t s = true) ts) as Hin
      by (by apply list_elem_of_filter).
    destruct (filter _ ts) as [|v vs]; [by apply elem_of_nil in Hin|].
    simpl in Hu. lia.
  - rewrite filter_cons_False in Hu by congruence.
    apply elem_of_cons in Ht as [->|Ht]; [congruence|]. by apply IH.
Qed.

Lemma apply_unchecked_accepted i s s' r :
  apply_without_invariant_validation i s = Returned s' (inl r) →
  ∃ t, Fires i t s s' (effects r) ∧ from_phase r = phase s ∧ to_phase r = phase s'.
Proof.
  unfold apply_without_invariant_validation, run_chain.
  destruct (transitions i) as [|t0 ts] eqn:Hts; [done|].
  destruct (select (t0 :: ts) s) as [t|] eqn:Hsel; [|done].
  destruct (fire t s) as [[s1 es]|] eqn:Hf; [|done].
  intros [= <- <-]. exists t.
  apply select_Some in Hsel as [Hin Hg]. simpl. split_and!; [|done..].
  constructor; [by rewrite Hts|done|done].
Qed.

Lemma apply_accepted_unchecked i s s' r :
  apply i s = Returned s' (inl r) →
  apply_without_invariant_validation i s = Returned s' (inl r).
Proof.
  unfold apply. destruct (apply_without_invariant_validation i s) as [s1 [r1|e]|]; [|done|done].
  destruct (validate_debug_invariants s1); [|done]. by intros [= <- <-].
Qed.

Lemma apply_accepted i s s' r :
  apply i s = Returned s' (inl r) →
  ∃ t, Fires i t s s' (effects r) ∧ from_phase r = phase s ∧ to_phase r = phase s'.
Proof. intros H. by apply apply_unchecked_accepted, apply_accepted_unchecked. Qed.

Lemma apply_unchecked_rejected i s s' e :
  apply_without_invariant_validation i s = Returned s' (inr e) → s' = s.
Proof.
  unfold apply_without_invariant_validation, run_chain.
  destruct (transitions i) as [|t0 ts]; [by intros [= <- _]|].
  destruct (select _ s) as [t|]; [|by intros [= <- _]].
  by destruct (fire t s) as [[s1 es]|].
Qed.

(** A rejected input leaves the state as it was. *)
Lemma apply_rejected i s s' e : apply i s = Returned s' (inr e) → s' = s.
Proof.
  unfold apply. destruct (apply_without_invariant_validation i s) as [s1 [r1|e1]|] eqn:H; [|..|done].
  - by destruct (validate_debug_invariants s1).
  - intros [= <- _]. by apply apply_unchecked_rejected in H.
Qed.

Lemma apply_rejected_inv i s s' e :
  apply i s = Returned s' (inr e) →
  s' = s ∧
  (transitions i = [] ∧ e = NoMatchingTransition (phase s) (variant i) ∨
   transitions i ≠ [] ∧ select (transitions i) s = None ∧
     e = refusal (transitions i) i s).
Proof.
  unfold apply, apply_without_invariant_validation, run_chain.
  destruct (transitions i) as [|t0 ts]; [intros [= <- <-]; auto|].
  destruct (select _ s) as [t|] eqn:Hsel.
  - destruct (fire t s) as [[s1 es]|]; [|done]. by destruct (validate_debug_invariants s1).
  - intros [= <- <-]. split; [done|right]. done.
Qed.

Lemma apply_panicked_inv i s :
  apply i s = Panicked →
  ∃ t, t ∈ transitions i ∧ tr_guard t s = true ∧
    (tr_update t s = None ∨
     ∃ s' es, Fires i t s s' es ∧ invariants_hold s' = false).
Proof.
  unfold apply, apply_without_invariant_validation, run_chain.
  destruct (transitions i) as [|t0 ts] eqn:Hts; [done|].
  destruct (select _ s) as [t|] eqn:Hsel; [|done].
  apply select_Some in Hsel as [Hin Hg].
  destruct (fire t s) as [[s1 es]|] eqn:Hf.
  - unfold validate_debug_invariants.
    destruct debug_assertions; [|done]. destruct (invariants_hold s1) eqn:Hinv; [done|].
    intros _. exists t. split_and!; [done..|right]. exists s1, es.
    split; [|done]. constructor; [by rewrite Hts|done|done].
  - intros _. exists t. split_and!; [done..|left].
    unfold fire in Hf. by destruct (tr_update t s).
Qed.

Lemma apply_unchecked_panicked i s :
  apply_without_invariant_validation i s = Panicked →
  ∃ t, t ∈ transitions i ∧ tr_guard t s = true ∧ tr_update t s = None.
Proof.
  unfold apply_without_invariant_validation, run_chain.
  destruct (transitions i) as [|t0 ts] eqn:Hts; [done|].
  destruct (select _ s) as [t|] eqn:Hsel; [|done].
  apply select_Some in Hsel as [Hin Hg]. unfold fire.
  destruct (tr_update t s) eqn:Hup; [done|]. eauto.
Qed.

Lemma fires_apply_unchecked i t s s' es :
  Unambiguous (transitions i) → Fires i t s s' es →
  apply_without_invariant_validation i s =
    Returned s' (inl {| from_phase := phase s; to_phase := phase s'; effects := es |}).
Proof.
  intros Hu [Hin Hg Hf]. unfold apply_without_invariant_validation, run_chain.
  destruct (transitions i) as [|t0 ts] eqn:Hts; [by apply elem_of_nil in Hin|].
  erewrite select_unambiguous by done. by rewrite Hf.
Qed.

(** An input whose guards all fail is refused. *)
Lemma apply_refused i s :
  transitions i ≠ [] → select (transitions i) s = None →
  apply i s = Returned s (inr (refusal (transitions i) i s)).
Proof.
  intros Hne Hsel. unfold apply, apply_without_invariant_validation, run_chain.
  destruct (transitions i) as [|t0 ts]; [done|]. by rewrite Hsel.
Qed.

Lemma absent_field_None ts s :
  Forall (λ t, tr_absent t s = None) ts → absent_field ts s = None.
Proof. induction 1 as [|t ts Ht _ IH]; [done|]. cbn. by rewrite Ht. Qed.

Lemma refusal_guard ts i s :
  Forall (λ t, tr_absent t s = None) ts → refusal ts i s = GuardRejected (phase s) (variant i).
Proof. intros H. unfold refusal. by rewrite absent_field_None. Qed.

Lemma Execution_app s l1 s1 l2 s2 :
  Execution s l1 s1 → Execution s1 l2 s2 → Execution s (l1 ++ l2) s2.
Proof. induction 1; [done|]. simpl. econstructor; eauto. Qed.

Lemma Execution_app_inv s l1 l2 s2 :
  Execution s (l1 ++ l2) s2 → ∃ s1, Execution s l1 s1 ∧ Execution s1 l2 s2.
Proof.
  revert s. induction l1 as [|[i r] l1 IH]; intros s; simpl.
  - exists s. by split; [constructor|].
  - inversion 1; subst. edestruct IH as (s1' & ? & ?); [done|].
    exists s1'. split; [econstructor; eauto|done].
Qed.

Lemma Execution_snoc_inv s l i r s2 :
  Execution s (l ++ [(i, r)]) s2 →
  ∃ s1, Execution s l s1 ∧ apply i s1 = Returned s2 (inl r).
Proof.
  intros (s1 & Hl & Hi)%Execution_app_inv. exists s1. split; [done|].
  inversion Hi as [|? ? ? ? ? ? Happ Hnil]; subst. by inversion Hnil; subst.
Qed.

(** Applies inputs in turn and collects the log; [None] at the first input
    that is not accepted. *)
Fixpoint run_inputs (inputs : list In) s
    : option (list (In * TransitionRecord Ph Ef) * St) :=
  match inputs with
  | [] => Some ([], s)
  | i :: inputs' =>
      match apply i s with
      | Returned s1 (inl r) =>
          match run_inputs inputs' s1 with
          | Some (l, s2) => Some ((i, r) :: l, s2)
          | None => None
          end
      | _ => None
      end
  end.

(** The log and the last state of a run whose inputs are all accepted. *)
Definition replay s (inputs : list In) : list (In * TransitionRecord Ph Ef) * St :=
  default ([], s) (run_inputs inputs s).

Lemma run_inputs_execution inputs s l s' :
  run_inputs inputs s = Some (l, s') → Execution s l s'.
Proof.
  revert s l. induction inputs as [|i inputs IH]; intros s l; simpl.
  - intros [= <- <-]. constructor.
  - destruct (apply i s) as [s1 [r|e]|] eqn:Happ; [|done|done].
    destruct (run_inputs inputs s1) as [[l1 s2]|] eqn:Hrun; [|done].
    intros [= <- <-]. econstructor; eauto.
Qed.

(** The accepted inputs determine the state they lead to. *)
Lemma Execution_deterministic s l s1 s2 :
  Execution s l s1 → Execution s l s2 → s1 = s2.
Proof.
  intros H. revert s2. induction H as [|s i s1 r l s2 Happ _ IH]; intros s3 H3.
  - by inversion H3.
  - inversion H3 as [|? ? s1' ? ? ? Happ' ?]; subst. apply IH.
    rewrite Happ in Happ'. by simplify_eq.
Qed.

(** Rule induction: a step-closed predicate holds along every execution. *)
Lemma Execution_ind_invariant (I : St → Prop) s l s' :
  (∀ i t s s' es, Fires i t s s' es → I s → I s') →
  Execution s l s' → I s → I s'.
Proof.
  intros Hstep. induction 1 as [|s i s1 r l s2 Happ _ IH]; [done|].
  intros HI. apply IH.
  apply apply_accepted in Happ as (t & HF & _). by eapply Hstep.
Qed.

Lemma Preserves_fires (I : St → Prop) i t s s' es :
  (∀ t, t ∈ transitions i → Preserves I t) → Fires i t s s' es → I s → I s'.
Proof.
  intros HP [Hin Hg Hf] HI. unfold fire in Hf.
  destruct (tr_update t s) as [s1|] eqn:Hup; [|done].
  simpl in Hf. simplify_eq. by eapply HP.
Qed.

Lemma Preserves_expand (I : St → Prop) phases t :
  (∀ n p, p ∈ phases → Preserves I
     {| tr_name := n; tr_guard := λ s, (phase s == p) && tr_guard t s;
        tr_absent := λ s, if phase s == p then tr_absent t s else None;
        tr_update := tr_update t; tr_to := p; tr_emit := tr_emit t |}) →
  Forall (Preserves I) (expand_per_phase phases t).
Proof. intros H. apply Forall_fmap, Forall_forall. intros p. apply H. Qed.

(** Runs a selected arm whose successor is known and valid. *)
Lemma apply_selects i t (s s' : St) es :
  transitions i ≠ [] → select (transitions i) s = Some t → fire t s = Some (s', es) →
  invariants_hold s' = true →
  apply i s = Returned s' (inl {| from_phase := phase s; to_phase := phase s'; effects := es |}).
Proof.
  intros Hne Hsel Hf HI. unfold apply, apply_without_invariant_validation, run_chain.
  destruct (transitions i) as [|t0 ts]; [done|]. rewrite Hsel, Hf.
  unfold validate_debug_invariants. by destruct debug_assertions; [rewrite HI|].
Qed.
End Steps.

Ltac head_of t := lazymatch t with ?f _ => head_of f | _ => t end.

(** A machine whose guards read no state map: a refusal is [GuardRejected]. *)
Class NoMapReads (St Ph In Va Ef : Type) `{!Machine St Ph In Va Ef} : Prop :=
  no_map_reads (i : In) (s : St) : Forall (λ t, tr_absent t s = None) (transitions i).

Lemma expand_no_map_reads {St Ph Ef} `{!Phased St Ph} phases (t : Transition St Ph Ef) (s : St) :
  tr_absent t s = None → Forall (λ t, tr_absent t s = None) (expand_per_phase phases t).
Proof.
  intros Ht. apply Forall_fmap, Forall_forall. intros p _. cbn. by destruct (bool_decide _).
Qed.

Ltac no_map_reads :=
  intros i s; destruct i; cbn -[app expand_per_phase];
  repeat lazymatch goal with
  | |- Forall _ (_ ++ _) => apply Forall_app_2
  | |- Forall _ (_ :: _) => apply Forall_cons_2
  | |- Forall _ [] => constructor
  | |- Forall _ (expand_per_phase _ _) => apply expand_no_map_reads
  | |- Forall _ ?l => let h := head_of l in unfold h
  | |- _ = None => reflexivity
  end.

Section NoMapReads.
Context {St Ph In Va Ef : Type} `{!Machine St Ph In Va Ef, !NoMapReads St Ph In Va Ef}.
Context {BP : BuildProfile}.
Implicit Types (s : St) (i : In).

Lemma refusal_guard_rejected i s :
  refusal (transitions i) i s = GuardRejected (phase s) (variant i).
Proof. apply refusal_guard, no_map_reads. Qed.

Lemma apply_guard_rejected i s :
  transitions i ≠ [] → select (transitions i) s = None →
  apply i s = Returned s (inr (GuardRejected (phase s) (variant i))).
Proof. intros. by rewrite apply_refused, refusal_guard_rejected. Qed.

Lemma apply_rejected_guard i s s' e :
  apply i s = Returned s' (inr e) → transitions i ≠ [] →
  s' = s ∧ select (transitions i) s = None ∧ e = GuardRejected (phase s) (variant i).
Proof.
  intros (-> & [[? _]|(_ & Hsel & ->)])%apply_rejected_inv Hne; [done|].
  by rewrite refusal_guard_rejected.
Qed.
End NoMapReads.

(** A machine whose declared invariants hold initially and survive every
    transition. *)
Class InductiveMachine (St Ph In Va Ef : Type) `{!Machine St Ph In Va Ef} : Prop := {
  init_invariants : invariants_hold (init : St) = true;
  transitions_preserve (i : In) :
    Forall (Preserves (λ s, invariants_hold s = true)) (transitions i);
}.

Section Inductive.
Context {St Ph In Va Ef : Type} `{!Machine St Ph In Va Ef, !InductiveMachine St Ph In Va Ef}.
Context {BP : BuildProfile}.

Implicit Types (s : St) (i : In) (t : Transition St Ph Ef).
Implicit Types (ts : list (Transition St Ph Ef)).

Lemma fires_invariants i t (s s' : St) es :
  Fires i t s s' es → invariants_hold s = true → invariants_hold s' = true.
Proof.
  intros HF. eapply (Preserves_fires (λ s, invariants_hold s = true)); [|done].
  intros u Hu. pose proof (transitions_preserve i) as HP.
  rewrite Forall_forall in HP. by apply HP.
Qed.

Lemma apply_debug_eq i (s : St) :
  invariants_hold s = true → apply i s = apply_without_invariant_validation i s.
Proof.
  intros HI. unfold apply.
  destruct (apply_without_invariant_validation i s) as [s' [r|e]|] eqn:Hap; [|done|done].
  apply apply_unchecked_accepted in Hap as (t & HF & _ & _).
  unfold validate_debug_invariants. destruct debug_assertions; [|done].
  by rewrite (fires_invariants _ _ _ _ _ HF HI).
Qed.

Lemma reachable_invariants (s : St) : Reachable s → invariants_hold s = true.
Proof.
  intros [l Hl]. eapply (Execution_ind_invariant (λ s, invariants_hold s = true)); [|done|].
  - intros. by eapply fires_invariants.
  - apply init_invariants.
Qed.

Lemma recover_ok (s : St) : recover_from_state s = inl s ↔ invariants_hold s = true.
Proof.
  unfold recover_from_state, invariants_hold.
  induction invariants as [|[n f] invs IH]; simpl; [done|].
  destruct (f s); simpl; [apply IH|done].
Qed.
End Inductive.

(** ** Automation

    [fires_cases H] splits a firing into one goal per declared transition of
    each input, with its guards as hypotheses and its successor state
    computed. *)
Ltac split_declared H :=
  lazymatch type of H with
  | _ ∈ _ ++ _ => apply elem_of_app in H as [H|H]; split_declared H
  | _ ∈ _ :: _ => apply elem_of_cons in H as [H|H]; split_declared H
  | _ ∈ [] => exfalso; by apply elem_of_nil in H
  | _ ∈ expand_per_phase _ _ => idtac
  | _ ∈ ?l => let h := head_of l in unfold h in H; split_declared H
  | _ => idtac
  end.

Create HintDb updates.

Ltac split_binds :=
  repeat match goal with
  | H : _ ≫= _ = Some _ |- _ => apply bind_Some in H as (? & ? & H)
  | H : Some _ = Some ?y |- _ => is_var y; injection H as H; subst y
  end; simplify_eq;
  repeat match goal with
  | H : u64_add _ _ = Some _ |- _ => progress cbn in H
  end.

(** The update of a declared arm, its name and its shared blocks unfolded.
    Only the head is reduced: the successor state stays a chain of record
    updates. *)
Ltac unfold_update H :=
  lazymatch type of H with
  | tr_update ?t _ = _ => let h := head_of t in try unfold h in H
  end;
  cbn [tr_update] in H; autounfold with updates in H; cbv beta zeta in H.

(** Replaces the fired transition by the arm it is, or by the [per_phase]
    block it comes from. *)
Ltac resolve_arm Hin Hg Hf Hs He :=
  lazymatch type of Hin with
  | ?t = _ => subst t
  | ?t ∈ expand_per_phase _ _ =>
      let Hu := fresh in let Ht := fresh in let Hm := fresh in
      destruct (elem_of_per_phase _ _ _ _ Hin Hg) as (? & Hg' & Hu & Ht & Hm);
      rewrite ?Hu in Hf; rewrite ?Ht in Hs; rewrite ?Hm in He;
      clear Hu Ht Hm Hin Hg; rename Hg' into Hg; try clear t
  end.

Ltac fires_cases H :=
  let Hin := fresh "Hin" in let Hg := fresh "Hg" in let Hf := fresh "Hf" in
  let Hs := fresh "Hs" in let He := fresh "He" in
  destruct H as [Hin Hg Hf];
  apply fire_Some in Hf as (? & Hf & Hs & He);
  match type of Hin with _ ∈ transitions ?i => destruct i end;
  cbn -[app expand_per_phase] in Hin; split_declared Hin;
  resolve_arm Hin Hg Hf Hs He; cbn in Hg, Hs, He;
  unfold_update Hf; prop_guards; split_binds.

(** [declared_cases H] splits [t ∈ transitions i] into the declared arms. *)
Ltac declared_cases H :=
  match type of H with _ ∈ transitions ?i => destruct i end;
  cbn -[app expand_per_phase] in H; split_declared H; subst; cbn in *; prop_guards.
