(* ===== verification/ScheduleLifecycle.v ===== *)
(** * ScheduleLifecycleMachine

    The schedule authority of [catalog/dsl/schedule_lifecycle.rs]: one
    definition per [transition] block, under the block's name, taking the
    input's bindings.  Enum variants are spelled [Enum_Variant], inputs
    [I_Variant] and effects [E_Variant]; the phases keep their bare names. *)

From S2P Require Export Authority.

(** ** Data *)

Abbreviation ScheduleId := string.
Abbreviation TriggerKey := string.
Abbreviation TargetBindingId := string.
Abbreviation OccurrenceId := string.

Inductive ScheduleLifecycleState := Active | Paused | Deleted.
Inductive MisfirePolicy := MisfirePolicy_Skip | MisfirePolicy_CatchUpWithin.
Inductive OverlapPolicy := OverlapPolicy_AllowConcurrent | OverlapPolicy_SkipIfRunning.
Inductive MissingTargetPolicy := MissingTargetPolicy_MarkMisfired | MissingTargetPolicy_Skip.

#[export] Instance ScheduleLifecycleState_eq_dec : EqDecision ScheduleLifecycleState.
Proof. solve_decision. Defined.
#[export] Instance MisfirePolicy_eq_dec : EqDecision MisfirePolicy.
Proof. solve_decision. Defined.
#[export] Instance OverlapPolicy_eq_dec : EqDecision OverlapPolicy.
Proof. solve_decision. Defined.
#[export] Instance MissingTargetPolicy_eq_dec : EqDecision MissingTargetPolicy.
Proof. solve_decision. Defined.

Record ScheduleLifecycleMachineState := mkSchedule {
  schedule_id : ScheduleId;
  lifecycle_phase : ScheduleLifecycleState;
  revision : N;
  trigger_key : TriggerKey;
  target_binding_key : TargetBindingId;
  misfire_policy : MisfirePolicy;
  overlap_policy : OverlapPolicy;
  missing_target_policy : MissingTargetPolicy;
  planning_horizon_days : N;
  planning_horizon_occurrences : N;
  planning_cursor_utc_ms : option N;
  next_occurrence_ordinal : N;
  superseded_ack_ids : gset OccurrenceId;
}.

#[export] Instance schedule_fields : Fields ScheduleLifecycleMachineState := λ s,
  mkSchedule (schedule_id s) (lifecycle_phase s) (revision s) (trigger_key s)
    (target_binding_key s) (misfire_policy s) (overlap_policy s)
    (missing_target_policy s) (planning_horizon_days s)
    (planning_horizon_occurrences s) (planning_cursor_utc_ms s)
    (next_occurrence_ordinal s) (superseded_ack_ids s).

#[export] Instance schedule_state_eq_dec : EqDecision ScheduleLifecycleMachineState.
Proof. solve_decision. Defined.

Definition schedule_init : ScheduleLifecycleMachineState := {|
  schedule_id := "schedule-0";
  lifecycle_phase := Active;
  revision := 1;
  trigger_key := "trigger-0";
  target_binding_key := "target-0";
  misfire_policy := MisfirePolicy_Skip;
  overlap_policy := OverlapPolicy_SkipIfRunning;
  missing_target_policy := MissingTargetPolicy_MarkMisfired;
  planning_horizon_days := 30;
  planning_horizon_occurrences := 64;
  planning_cursor_utc_ms := None;
  next_occurrence_ordinal := 0;
  superseded_ack_ids := ∅;
|}.

Inductive ScheduleLifecycleInput :=
| I_Create (schedule_id : ScheduleId) (trigger_key : TriggerKey)
    (target_binding_key : TargetBindingId) (misfire_policy : MisfirePolicy)
    (overlap_policy : OverlapPolicy) (missing_target_policy : MissingTargetPolicy)
    (planning_horizon_days planning_horizon_occurrences : option N)
| I_Revise (trigger_key : TriggerKey) (target_binding_key : TargetBindingId)
    (misfire_policy : MisfirePolicy) (overlap_policy : OverlapPolicy)
    (missing_target_policy : MissingTargetPolicy)
    (planning_horizon_days planning_horizon_occurrences : N) (at_utc_ms : N)
| I_UpdatePlanningConfig (planning_horizon_days planning_horizon_occurrences : N)
| I_RecordPlanningWindow (planning_cursor_utc_ms next_occurrence_ordinal : N)
| I_SyncTargetSnapshot (target_binding_key : TargetBindingId)
| I_Pause (at_utc_ms : N)
| I_Resume (at_utc_ms : N)
| I_Delete (at_utc_ms : N)
| I_ConfirmOccurrencesSuperseded (occurrence_id : OccurrenceId) (superseding_revision : N).

Inductive ScheduleLifecycleInputVariant :=
| V_Create | V_Revise | V_UpdatePlanningConfig | V_RecordPlanningWindow
| V_SyncTargetSnapshot | V_Pause | V_Resume | V_Delete
| V_ConfirmOccurrencesSuperseded.

Definition schedule_variant (i : ScheduleLifecycleInput) : ScheduleLifecycleInputVariant :=
  match i with
  | I_Create _ _ _ _ _ _ _ _ => V_Create
  | I_Revise _ _ _ _ _ _ _ _ => V_Revise
  | I_UpdatePlanningConfig _ _ => V_UpdatePlanningConfig
  | I_RecordPlanningWindow _ _ => V_RecordPlanningWindow
  | I_SyncTargetSnapshot _ => V_SyncTargetSnapshot
  | I_Pause _ => V_Pause
  | I_Resume _ => V_Resume
  | I_Delete _ => V_Delete
  | I_ConfirmOccurrencesSuperseded _ _ => V_ConfirmOccurrencesSuperseded
  end.

Inductive ScheduleLifecycleEffect :=
| E_EmitScheduleNotice (new_state : ScheduleLifecycleState) (revision : N)
| E_SupersedePendingOccurrences (superseding_revision at_utc_ms : N)
| E_PlanningWindowRecorded (planning_cursor_utc_ms next_occurrence_ordinal : N).

Definition schedule_terminal : list ScheduleLifecycleState := [Deleted].

(** ** Declared invariants *)

Definition revision_is_positive (s : ScheduleLifecycleMachineState) : bool :=
  (0 <? revision s)%N.

Definition deleted_has_no_planning_cursor (s : ScheduleLifecycleMachineState) : bool :=
  (lifecycle_phase s != Deleted) || (planning_cursor_utc_ms s == None).

Definition planning_cursor_requires_occurrence_progress
    (s : ScheduleLifecycleMachineState) : bool :=
  (planning_cursor_utc_ms s == None) || (0 <? next_occurrence_ordinal s)%N.

(** ** Transitions *)

#[export] Instance schedule_phased :
    Phased ScheduleLifecycleMachineState ScheduleLifecycleState := {|
  phase := lifecycle_phase;
  set_phase := λ p s, s <| lifecycle_phase := p |>;
  phase_name := λ p, match p with
    | Active => "Active" | Paused => "Paused" | Deleted => "Deleted" end;
|}.

Section Transitions.
Context {BP : BuildProfile}.

Abbreviation State := ScheduleLifecycleMachineState.
Abbreviation transition :=
  (Transition ScheduleLifecycleMachineState ScheduleLifecycleState ScheduleLifecycleEffect).

(** [emit EmitScheduleNotice { new_state: self.lifecycle_phase, revision: self.revision }] *)
Definition notice (s : State) : ScheduleLifecycleEffect :=
  E_EmitScheduleNotice (lifecycle_phase s) (revision s).

Definition CreateSchedule (sid : ScheduleId) (tk : TriggerKey) (tbk : TargetBindingId)
    (mp : MisfirePolicy) (op : OverlapPolicy) (mtp : MissingTargetPolicy)
    (phd pho : option N) : transition := {|
  tr_name := "CreateSchedule";
  tr_guard := λ s, lifecycle_phase s == Active;
  tr_absent := no_map_read;
  tr_update := λ s,
    let s := s <| schedule_id := sid |> <| trigger_key := tk |>
               <| target_binding_key := tbk |> <| misfire_policy := mp |>
               <| overlap_policy := op |> <| missing_target_policy := mtp |> in
    let s := if phd != None then s <| planning_horizon_days := get_value phd |> else s in
    let s := if pho != None then s <| planning_horizon_occurrences := get_value pho |> else s in
    Some s;
  tr_to := Active;
  tr_emit := λ s, [notice s];
|}.

(** The update block shared by [ReviseActive] and [RevisePaused]. *)
Definition revise_update (tk : TriggerKey) (tbk : TargetBindingId)
    (mp : MisfirePolicy) (op : OverlapPolicy) (mtp : MissingTargetPolicy)
    (phd pho : N) (s : State) : option State :=
  let s := s <| trigger_key := tk |> <| target_binding_key := tbk |>
             <| misfire_policy := mp |> <| overlap_policy := op |>
             <| missing_target_policy := mtp |> <| planning_horizon_days := phd |>
             <| planning_horizon_occurrences := pho |> in
  r ← u64_add (revision s) 1;
  Some (s <| revision := r |> <| planning_cursor_utc_ms := None |>
          <| superseded_ack_ids := ∅ |>).

Definition ReviseActive tk tbk mp op mtp phd pho (at_utc_ms : N) : transition := {|
  tr_name := "ReviseActive";
  tr_guard := λ s, lifecycle_phase s == Active;
  tr_absent := no_map_read;
  tr_update := revise_update tk tbk mp op mtp phd pho;
  tr_to := Active;
  tr_emit := λ s, [notice s; E_SupersedePendingOccurrences (revision s) at_utc_ms];
|}.

Definition RevisePaused tk tbk mp op mtp phd pho (at_utc_ms : N) : transition := {|
  tr_name := "RevisePaused";
  tr_guard := λ s, lifecycle_phase s == Paused;
  tr_absent := no_map_read;
  tr_update := revise_update tk tbk mp op mtp phd pho;
  tr_to := Paused;
  tr_emit := λ s, [notice s; E_SupersedePendingOccurrences (revision s) at_utc_ms];
|}.

Definition UpdatePlanningConfigActive (phd pho : N) : transition := {|
  tr_name := "UpdatePlanningConfigActive";
  tr_guard := λ s, lifecycle_phase s == Active;
  tr_absent := no_map_read;
  tr_update := λ s, Some (s <| planning_horizon_days := phd |>
                            <| planning_horizon_occurrences := pho |>);
  tr_to := Active;
  tr_emit := λ s, [notice s];
|}.

Definition UpdatePlanningConfigPaused (phd pho : N) : transition := {|
  tr_name := "UpdatePlanningConfigPaused";
  tr_guard := λ s, lifecycle_phase s == Paused;
  tr_absent := no_map_read;
  tr_update := λ s, Some (s <| planning_horizon_days := phd |>
                            <| planning_horizon_occurrences := pho |>);
  tr_to := Paused;
  tr_emit := λ s, [notice s];
|}.

Definition RecordPlanningWindowActive (cursor ordinal : N) : transition := {|
  tr_name := "RecordPlanningWindowActive";
  tr_guard := λ s,
    ((lifecycle_phase s == Active) && (0 <? ordinal)%N)
    && ((planning_cursor_utc_ms s == None)
        || (get_value (planning_cursor_utc_ms s) <? cursor)%N);
  tr_absent := no_map_read;
  tr_update := λ s, Some (s <| planning_cursor_utc_ms := Some cursor |>
                            <| next_occurrence_ordinal := ordinal |>);
  tr_to := Active;
  tr_emit := λ s, [notice s; E_PlanningWindowRecorded cursor ordinal];
|}.

Definition SyncTargetSnapshotActive (tbk : TargetBindingId) : transition := {|
  tr_name := "SyncTargetSnapshotActive";
  tr_guard := λ s, lifecycle_phase s == Active;
  tr_absent := no_map_read;
  tr_update := λ s, Some (s <| target_binding_key := tbk |>);
  tr_to := Active;
  tr_emit := λ s, [];
|}.

Definition SyncTargetSnapshotPaused (tbk : TargetBindingId) : transition := {|
  tr_name := "SyncTargetSnapshotPaused";
  tr_guard := λ s, lifecycle_phase s == Paused;
  tr_absent := no_map_read;
  tr_update := λ s, Some (s <| target_binding_key := tbk |>);
  tr_to := Paused;
  tr_emit := λ s, [];
|}.

Definition PauseActiveOrPaused : transition := {|
  tr_name := "PauseActiveOrPaused";
  tr_guard := λ s, (lifecycle_phase s == Active) || (lifecycle_phase s == Paused);
  tr_absent := no_map_read;
  tr_update := Some;
  tr_to := Paused;
  tr_emit := λ s, [notice s];
|}.

Definition ResumeActiveOrPaused : transition := {|
  tr_name := "ResumeActiveOrPaused";
  tr_guard := λ s, (lifecycle_phase s == Active) || (lifecycle_phase s == Paused);
  tr_absent := no_map_read;
  tr_update := Some;
  tr_to := Active;
  tr_emit := λ s, [notice s];
|}.

(** The update block shared by [DeleteActive] and [DeletePaused]. *)
Definition delete_update (s : State) : option State :=
  r ← u64_add (revision s) 1;
  Some (s <| revision := r |> <| planning_cursor_utc_ms := None |>
          <| superseded_ack_ids := ∅ |>).

Definition DeleteActive (at_utc_ms : N) : transition := {|
  tr_name := "DeleteActive";
  tr_guard := λ s, lifecycle_phase s == Active;
  tr_absent := no_map_read;
  tr_update := delete_update;
  tr_to := Deleted;
  tr_emit := λ s, [notice s; E_SupersedePendingOccurrences (revision s) at_utc_ms];
|}.

Definition DeletePaused (at_utc_ms : N) : transition := {|
  tr_name := "DeletePaused";
  tr_guard := λ s, lifecycle_phase s == Paused;
  tr_absent := no_map_read;
  tr_update := delete_update;
  tr_to := Deleted;
  tr_emit := λ s, [notice s; E_SupersedePendingOccurrences (revision s) at_utc_ms];
|}.

Definition DeleteDeleted : transition := {|
  tr_name := "DeleteDeleted";
  tr_guard := λ s, lifecycle_phase s == Deleted;
  tr_absent := no_map_read;
  tr_update := Some;
  tr_to := Deleted;
  tr_emit := λ s, [];
|}.

(** The update block shared by the three [ConfirmOccurrencesSuperseded] arms. *)
Definition confirm_update (oid : OccurrenceId) (rev : N) (s : State) : option State :=
  Some (if (rev =? revision s)%N
        then s <| superseded_ack_ids := {[oid]} ∪ superseded_ack_ids s |>
        else s).

Definition ConfirmOccurrencesSupersededActive oid rev : transition := {|
  tr_name := "ConfirmOccurrencesSupersededActive";
  tr_guard := λ s, lifecycle_phase s == Active;
  tr_absent := no_map_read;
  tr_update := confirm_update oid rev;
  tr_to := Active;
  tr_emit := λ s, [];
|}.

Definition ConfirmOccurrencesSupersededPaused oid rev : transition := {|
  tr_name := "ConfirmOccurrencesSupersededPaused";
  tr_guard := λ s, lifecycle_phase s == Paused;
  tr_absent := no_map_read;
  tr_update := confirm_update oid rev;
  tr_to := Paused;
  tr_emit := λ s, [];
|}.

Definition ConfirmOccurrencesSupersededDeleted oid rev : transition := {|
  tr_name := "ConfirmOccurrencesSupersededDeleted";
  tr_guard := λ s, lifecycle_phase s == Deleted;
  tr_absent := no_map_read;
  tr_update := confirm_update oid rev;
  tr_to := Deleted;
  tr_emit := λ s, [];
|}.

(** The arms of each input, in the order they are declared. *)
Definition schedule_transitions (i : ScheduleLifecycleInput) : list transition :=
  match i with
  | I_Create sid tk tbk mp op mtp phd pho =>
      [CreateSchedule sid tk tbk mp op mtp phd pho]
  | I_Revise tk tbk mp op mtp phd pho ms =>
      [ReviseActive tk tbk mp op mtp phd pho ms;
       RevisePaused tk tbk mp op mtp phd pho ms]
  | I_UpdatePlanningConfig phd pho =>
      [UpdatePlanningConfigActive phd pho; UpdatePlanningConfigPaused phd pho]
  | I_RecordPlanningWindow c o => [RecordPlanningWindowActive c o]
  | I_SyncTargetSnapshot tbk =>
      [SyncTargetSnapshotActive tbk; SyncTargetSnapshotPaused tbk]
  | I_Pause _ => [PauseActiveOrPaused]
  | I_Resume _ => [ResumeActiveOrPaused]
  | I_Delete ms => [DeleteActive ms; DeletePaused ms; DeleteDeleted]
  | I_ConfirmOccurrencesSuperseded oid rev =>
      [ConfirmOccurrencesSupersededActive oid rev;
       ConfirmOccurrencesSupersededPaused oid rev;
       ConfirmOccurrencesSupersededDeleted oid rev]
  end.

#[export] Instance ScheduleLifecycleMachine :
    Machine ScheduleLifecycleMachineState ScheduleLifecycleState
      ScheduleLifecycleInput ScheduleLifecycleInputVariant ScheduleLifecycleEffect := {|
  variant := schedule_variant;
  init := schedule_init;
  transitions := schedule_transitions;
  invariants :=
    [("revision_is_positive", revision_is_positive);
     ("deleted_has_no_planning_cursor", deleted_has_no_planning_cursor);
     ("planning_cursor_requires_occurrence_progress",
       planning_cursor_requires_occurrence_progress)];
|}.
End Transitions.

#[export] Hint Unfold revise_update delete_update confirm_update : updates.

#[export] Instance schedule_no_map_reads {BP : BuildProfile} :
  NoMapReads ScheduleLifecycleMachineState ScheduleLifecycleState
    ScheduleLifecycleInput ScheduleLifecycleInputVariant
    ScheduleLifecycleEffect.
Proof. no_map_reads. Qed.
