(* ===== verification/ScheduleFacts.v ===== *)
(** * Properties of the schedule authority

    The state invariants, the revision and acknowledgement accounting, the
    monotone planning window and the absorbing [Deleted] phase of the machine
    defined in [ScheduleLifecycle]. *)

From Stdlib Require Import Sorted.
From S2P Require Export ScheduleLifecycle.

(** ** Vocabulary of the statements *)

(** The inputs an authority in phase [p] accepts, window guard apart. *)
Definition phase_admits (p : ScheduleLifecycleState) (i : ScheduleLifecycleInput) : bool :=
  match i with
  | I_Create _ _ _ _ _ _ _ _ | I_RecordPlanningWindow _ _ => p == Active
  | I_Revise _ _ _ _ _ _ _ _ | I_UpdatePlanningConfig _ _ | I_SyncTargetSnapshot _
  | I_Pause _ | I_Resume _ => p != Deleted
  | I_Delete _ | I_ConfirmOccurrencesSuperseded _ _ => true
  end.

(** A recorded window names a first ordinal and moves the cursor forward. *)
Definition window_advances (s : ScheduleLifecycleMachineState)
    (i : ScheduleLifecycleInput) : Prop :=
  match i with
  | I_RecordPlanningWindow c o =>
      (0 < o)%N ∧ ∀ c0, planning_cursor_utc_ms s = Some c0 → (c0 < c)%N
  | _ => True
  end.

Definition is_supersession (e : ScheduleLifecycleEffect) : bool :=
  match e with E_SupersedePendingOccurrences _ _ => true | _ => false end.

(** The number of supersessions an execution emitted. *)
Definition supersessions
    (l : list (ScheduleLifecycleInput *
               TransitionRecord ScheduleLifecycleState ScheduleLifecycleEffect)) : nat :=
  length (List.filter is_supersession (l ≫= (λ ir, effects ir.2))).

(** The cursors an execution recorded, oldest first. *)
Definition recorded_cursors
    (l : list (ScheduleLifecycleInput *
               TransitionRecord ScheduleLifecycleState ScheduleLifecycleEffect)) : list N :=
  omap (λ ir, match ir.1 with I_RecordPlanningWindow c _ => Some c | _ => None end) l.

Definition well_formed (s : ScheduleLifecycleMachineState) : Prop :=
  (0 < revision s)%N ∧
  (lifecycle_phase s = Deleted → planning_cursor_utc_ms s = None) ∧
  (planning_cursor_utc_ms s ≠ None → 0 < next_occurrence_ordinal s)%N.

Section Facts.
Context {BP : BuildProfile}.
Implicit Types s : ScheduleLifecycleMachineState.

Lemma invariants_well_formed s : invariants_hold s = true ↔ well_formed s.
Proof.
  unfold invariants_hold, well_formed; cbn.
  unfold revision_is_positive, deleted_has_no_planning_cursor,
    planning_cursor_requires_occurrence_progress.
  rewrite !andb_true_iff, !orb_true_iff, N.ltb_lt, bool_neq_true,
    !bool_decide_eq_true, N.ltb_lt.
  destruct (planning_cursor_utc_ms s) as [c|], (decide (lifecycle_phase s = Deleted));
    intuition congruence.
Qed.

(** Every step keeps the state well formed, unless the revision counter
    wraps around. *)
Lemma fires_well_formed i t s s' es :
  Fires i t s s' es → well_formed s →
  (∀ r, u64_add (revision s) 1 = Some r → 0 < r)%N → well_formed s'.
Proof.
  intros HF (Hr & Hd & Hc) Hadd; unfold well_formed.
  fires_cases HF; cbn; split_and!; try done; try (by intros; naive_solver); try congruence.
  all: repeat (case_match; cbn); try done; eauto.
Qed.

Lemma fires_revision i t s s' es :
  Fires i t s s' es →
  (length (List.filter is_supersession es) = 0 ∧ revision s' = revision s) ∨
  (length (List.filter is_supersession es) = 1 ∧
   u64_add (revision s) 1 = Some (revision s') ∧
   superseded_ack_ids s' = ∅ ∧ planning_cursor_utc_ms s' = None ∧
   ∃ ms, E_SupersedePendingOccurrences (revision s') ms ∈ es).
Proof.
  intros HF. fires_cases HF; cbn;
    first [ left; repeat (case_match; cbn); done
          | right; split_and!; try done; eexists; apply list_elem_of_further, list_elem_of_here ].
Qed.

Lemma fires_revision_bound i t s s' es :
  Fires i t s s' es → (revision s < u64_max)%N →
  (revision s' ≤ revision s + 1)%N.
Proof.
  intros HF Hlt. apply fires_revision in HF as [[_ ->]|(_ & Hadd & _)]; [lia|].
  rewrite u64_add_small in Hadd by lia. simplify_eq. lia.
Qed.

Lemma execution_well_formed_bounded s l s' :
  Execution s l s' → well_formed s →
  (revision s + N.of_nat (length l) ≤ u64_max)%N →
  well_formed s' ∧ (revision s' ≤ revision s + N.of_nat (length l))%N.
Proof.
  induction 1 as [|s i s1 r l s2 Happ _ IH]; intros Hwf Hb; cbn in *; [split; [done|lia]|].
  apply apply_accepted in Happ as (t & HF & _).
  pose proof (fires_revision_bound _ _ _ _ _ HF ltac:(lia)).
  destruct IH as [IH1 IH2]; [|lia|split; [done|lia]].
  eapply fires_well_formed; [done..|]. intros r'. rewrite u64_add_small by lia.
  intros [= <-]. destruct Hwf. lia.
Qed.

Lemma execution_well_formed_checked `{!CheckedArithmetic} s l s' :
  Execution s l s' → well_formed s → well_formed s'.
Proof.
  intros HE. eapply (Execution_ind_invariant well_formed); [|done].
  intros i t s0 s1 es HF Hwf. eapply fires_well_formed; [done..|].
  intros r ->%u64_add_checked. lia.
Qed.

Lemma init_well_formed : well_formed (init : ScheduleLifecycleMachineState).
Proof. by apply invariants_well_formed. Qed.

#[export] Instance schedule_inductive `{!CheckedArithmetic} :
  InductiveMachine ScheduleLifecycleMachineState ScheduleLifecycleState
    ScheduleLifecycleInput ScheduleLifecycleInputVariant ScheduleLifecycleEffect.
Proof.
  split; [done|]. intros i. apply Forall_forall. intros t Ht s s' HI Hg Hup.
  apply invariants_well_formed. eapply (fires_well_formed i t s _ _).
  - split; [done..|]. unfold fire. rewrite Hup. reflexivity.
  - by apply invariants_well_formed.
  - intros r ->%u64_add_checked. lia.
Qed.

Lemma schedule_unambiguous_arms i : Unambiguous (schedule_transitions i).
Proof.
  intros s. destruct i; cbn; rewrite ?filter_cons, ?filter_nil;
    repeat case_decide; cbn in *; prop_guards; try congruence; cbn; lia.
Qed.

Lemma fires_acks i t s s' es :
  Fires i t s s' es →
  superseded_ack_ids s' = ∅ ∧ u64_add (revision s) 1 = Some (revision s') ∨
  revision s' = revision s ∧
    (superseded_ack_ids s' = superseded_ack_ids s ∧
       (∀ oid, i ≠ I_ConfirmOccurrencesSuperseded oid (revision s)) ∨
     ∃ oid, i = I_ConfirmOccurrencesSuperseded oid (revision s) ∧
            superseded_ack_ids s' = {[oid]} ∪ superseded_ack_ids s).
Proof.
  intros HF. fires_cases HF; cbn; try (by left); right; repeat (case_match; cbn);
    prop_guards; subst; split; try done; eauto; left; split; congruence.
Qed.

Lemma execution_revision_mono `{!CheckedArithmetic} s l s' :
  Execution s l s' → (revision s ≤ revision s')%N.
Proof.
  induction 1 as [|s i s1 r l s2 Happ _ IH]; [done|].
  apply apply_accepted in Happ as (t & HF & _).
  apply fires_revision in HF as [[_ Heq]|(_ & Hadd%u64_add_checked & _)]; lia.
Qed.

(** An acknowledgement recorded in [s] was confirmed at [s]'s revision, and
    nothing that came later dropped it. *)
Definition confirmed_at_revision (oid : OccurrenceId) (s : ScheduleLifecycleMachineState)
    (l : list (ScheduleLifecycleInput *
               TransitionRecord ScheduleLifecycleState ScheduleLifecycleEffect)) : Prop :=
  ∃ l1 r l2 s1,
    l = l1 ++ (I_ConfirmOccurrencesSuperseded oid (revision s), r) :: l2 ∧
    Execution init l1 s1 ∧ revision s1 = revision s.

Lemma confirmed_snoc oid s s0 l i r :
  revision s = revision s0 →
  confirmed_at_revision oid s0 l → confirmed_at_revision oid s (l ++ [(i, r)]).
Proof.
  intros Heq (l1 & r1 & l2 & s1 & -> & He & Hr).
  exists l1, r1, (l2 ++ [(i, r)]), s1. rewrite Heq.
  split_and!; [by rewrite <-app_assoc|done|done].
Qed.

Lemma confirmed_snoc_inv `{!CheckedArithmetic} oid s s0 l i r :
  Execution init l s0 → (revision s0 ≤ revision s)%N →
  confirmed_at_revision oid s (l ++ [(i, r)]) →
  revision s = revision s0 ∧
    (confirmed_at_revision oid s0 l ∨
     i = I_ConfirmOccurrencesSuperseded oid (revision s0)).
Proof.
  intros Hl Hle (l1 & r1 & l2 & s1 & Heq & He & Hr).
  destruct l2 as [|x l2 _] using rev_ind.
  - apply app_inj_tail in Heq as [-> [= -> ->]].
    assert (s1 = s0) as -> by (by eapply Execution_deterministic).
    rewrite Hr. auto.
  - rewrite app_comm_cons, app_assoc in Heq. apply app_inj_tail in Heq as [-> <-].
    apply Execution_app_inv in Hl as (s1' & He' & Hrest).
    assert (s1' = s1) as -> by (by eapply Execution_deterministic).
    apply execution_revision_mono in Hrest.
    assert (revision s = revision s0) as Hs by lia.
    split; [done|left]. exists l1, r1, l2, s1. rewrite <-Hs. done.
Qed.

Lemma acks_confirmed `{!CheckedArithmetic} l s oid :
  Execution init l s →
  oid ∈ superseded_ack_ids s ↔ confirmed_at_revision oid s l.
Proof.
  revert s. induction l as [|[i r] l IH] using rev_ind; intros s Hl.
  - inversion Hl; subst. cbn. split; [set_solver|].
    by intros ([|] & ? & ? & ? & ? & _).
  - apply Execution_snoc_inv in Hl as (s0 & Hl & Happ).
    apply apply_accepted in Happ as (t & HF & _).
    destruct (fires_acks _ _ _ _ _ HF) as
      [[-> Hr%u64_add_checked]|[Hr [[-> Hi]|(oid' & -> & ->)]]].
    + split; [set_solver|]. intros [Hs _]%(confirmed_snoc_inv _ _ s0); [lia|done|lia].
    + rewrite (IH s0) by done. split; [by apply confirmed_snoc|].
      intros [_ [Hc| ->]]%(confirmed_snoc_inv _ _ s0); [done| |done|lia].
      by destruct (Hi oid).
    + rewrite elem_of_union, elem_of_singleton, (IH s0) by done. split.
      * intros [->|?]; [|by eapply confirmed_snoc].
        exists l, r, [], s0. rewrite Hr. done.
      * intros [_ [Hc|Hc]]%(confirmed_snoc_inv _ _ s0); [by right| |done|lia].
        left. congruence.
Qed.

Lemma execution_revision_count `{!CheckedArithmetic} s l s' :
  Execution s l s' → (revision s' = revision s + N.of_nat (supersessions l))%N.
Proof.
  induction 1 as [|s i s1 r l s2 Happ _ IH]; [cbn; lia|].
  apply apply_accepted in Happ as (t & HF & _).
  assert (supersessions ((i, r) :: l) =
          length (List.filter is_supersession (effects r)) + supersessions l) as ->.
  { unfold supersessions. cbn. by rewrite List.filter_app, length_app. }
  apply fires_revision in HF as [[-> Heq]|(-> & Hadd%u64_add_checked & _)]; lia.
Qed.

Lemma fires_cursor i t s s' es :
  Fires i t s s' es → revision s' = revision s → (revision s < u64_max)%N →
  match i with
  | I_RecordPlanningWindow c _ =>
      planning_cursor_utc_ms s' = Some c ∧
      (∀ c0, planning_cursor_utc_ms s = Some c0 → (c0 < c)%N)
  | _ => planning_cursor_utc_ms s' = planning_cursor_utc_ms s
  end.
Proof.
  intros HF Hrev Hlt. fires_cases HF; cbn in *; repeat (case_match; cbn in *); try done;
    try (rewrite u64_add_small in * by lia; simplify_eq; lia).
  split; [done|]. intros c0 Hc0. case_guards; [congruence|]. by rewrite Hc0 in *.
Qed.

Lemma recover_well_formed s : recover_from_state s = inl s ↔ well_formed s.
Proof. rewrite <-invariants_well_formed. apply recover_ok. Qed.

Lemma fires_from_deleted i t s s' es :
  Fires i t s s' es → lifecycle_phase s = Deleted →
  es = [] ∧ s' = s <| superseded_ack_ids := superseded_ack_ids s' |>.
Proof.
  intros HF Hd. fires_cases HF; case_guards; try congruence; cbn; (split; [done|]);
    repeat case_match; destruct s; unfold field_update; cbn in *; congruence.
Qed.

Lemma execution_cursors s l s' :
  Execution s l s' → supersessions l = 0 → (revision s < u64_max)%N →
  StronglySorted N.lt (option_list (planning_cursor_utc_ms s) ++ recorded_cursors l) ∧
  last (option_list (planning_cursor_utc_ms s) ++ recorded_cursors l) =
    planning_cursor_utc_ms s'.
Proof.
  induction 1 as [s|s i s1 r l s2 Happ _ IH]; intros Hsup Hlt.
  { destruct (planning_cursor_utc_ms s); cbn; split; repeat constructor. }
  apply apply_accepted in Happ as (t & HF & _).
  unfold supersessions in *. cbn in Hsup.
  rewrite List.filter_app, length_app in Hsup.
  destruct (fires_revision _ _ _ _ _ HF) as [[_ Hrev]|(? & _)]; [|lia].
  pose proof (fires_cursor _ _ _ _ _ HF Hrev Hlt) as Hc.
  destruct IH as [IH1 IH2]; [lia|lia|].
  destruct i as [| | |c o| | | | |]; cbn in *; rewrite ?Hc in *; try done.
  destruct Hc as [Hc Hlt0]. rewrite Hc in *. cbn in *.
  destruct (planning_cursor_utc_ms s) as [c0|]; cbn; [|done].
  split; [|done]. constructor; [done|].
  specialize (Hlt0 c0 eq_refl). inversion IH1; subst. constructor; [done|].
  eapply Forall_impl; [done|]. intros; lia.
Qed.

Lemma fires_admitted i t s s' es :
  Fires i t s s' es → phase_admits (lifecycle_phase s) i = true ∧ window_advances s i.
Proof.
  intros HF. fires_cases HF; case_guards; cbn; rewrite ?Hg; try done;
    try (split; [done|]); try congruence.
  all: split; [by apply bool_decide_eq_true|split; [done|]]; intros c0 Hc0;
    first [congruence | by rewrite Hc0 in *].
Qed.

Lemma select_admitted i s :
  select (schedule_transitions i) s = None →
  ¬ (phase_admits (lifecycle_phase s) i = true ∧ window_advances s i).
Proof.
  intros Hsel [Hp Hw]. destruct (lifecycle_phase s) eqn:Hph, i; cbn in *;
    unfold select in Hsel; cbn in Hsel; rewrite ?Hph in Hsel; cbn in Hsel; try done.
  destruct Hw as [Ho%N.ltb_lt Hw]. rewrite Ho in Hsel.
  destruct (ScheduleLifecycle.planning_cursor_utc_ms s) as [c0|]; [|done].
  specialize (Hw c0 eq_refl). apply N.ltb_lt in Hw. cbn in Hsel. by rewrite Hw in Hsel.
Qed.

Lemma update_defined i t s :
  t ∈ transitions i → (revision s < u64_max)%N → tr_update t s ≠ None.
Proof.
  intros Hin Hlt. declared_cases Hin; unfold revise_update, delete_update; cbn;
    rewrite ?u64_add_small by lia; done.
Qed.
End Facts.

(** ** Properties *)

Section Properties.
Context {BP : BuildProfile}.
Implicit Types s : ScheduleLifecycleMachineState.

(** a schedule state reached from the initial one satisfies every
    declared invariant, so recovering the authority from the persisted
    state never fails; with wrapping arithmetic this holds for as long as
    fewer inputs were accepted than the revision counter can count. *)
Theorem schedule_states_recover s l :
  Execution init l s →
  overflow_checks = true ∨ (N.of_nat (length l) < u64_max)%N →
  recover_from_state s = inl s.
Proof.
  intros HE Hov. apply recover_well_formed. destruct Hov as [Hov|Hlen].
  - assert (CheckedArithmetic) by exact Hov.
    eapply execution_well_formed_checked; [done|apply init_well_formed].
  - eapply execution_well_formed_bounded; [done|apply init_well_formed|].
    cbn. unfold u64_max in *. lia.
Qed.

(** the revision counts the supersessions: along any execution it
    grows by exactly the number of [SupersedePendingOccurrences] effects
    emitted, so two different supersessions never share a revision. *)
Theorem schedule_revision_counts_supersessions `{!CheckedArithmetic} s l s' :
  Execution s l s' → (revision s' = revision s + N.of_nat (supersessions l))%N.
Proof. apply execution_revision_count. Qed.

(** C27: bounded retention of acknowledgements.  In every reachable state
    the recorded acknowledgement ids are exactly the occurrences confirmed
    with the current revision while the schedule was at that revision:
    no acknowledgement of an earlier supersession, none of a revision the
    schedule had not reached, and none of the current one lost. *)
Theorem schedule_acks_answer_latest_supersession `{!CheckedArithmetic} l s oid :
  Execution init l s →
  oid ∈ superseded_ack_ids s ↔ confirmed_at_revision oid s l.
Proof. apply acks_confirmed. Qed.

(** planning is monotone.  Between two supersessions the cursor the
    schedule started with and the cursors recorded since form a strictly
    increasing sequence, and the last of them is the schedule's cursor: no
    window is ever planned twice. *)
Theorem schedule_planning_cursor_advances s l s' :
  Execution s l s' → supersessions l = 0 → (revision s < u64_max)%N →
  StronglySorted N.lt (option_list (planning_cursor_utc_ms s) ++ recorded_cursors l) ∧
  last (option_list (planning_cursor_utc_ms s) ++ recorded_cursors l) =
    planning_cursor_utc_ms s'.
Proof. apply execution_cursors. Qed.

(** [Deleted] is absorbing and silent.  Whatever a deleted schedule
    accepts emits no effect and changes nothing but the set of recorded
    acknowledgements. *)
Theorem schedule_deleted_absorbing s l s' :
  Execution s l s' → lifecycle_phase s = Deleted →
  (l ≫= (λ ir, effects ir.2)) = [] ∧
  s' = s <| superseded_ack_ids := superseded_ack_ids s' |>.
Proof.
  induction 1 as [[]|s i s1 r l s2 Happ _ IH]; intros Hd; [done|].
  apply apply_accepted in Happ as (t & HF & _).
  destruct (fires_from_deleted _ _ _ _ _ HF Hd) as [Hes Hs1].
  destruct IH as [Hes2 Hs2]; [rewrite Hs1; done|].
  cbn. rewrite Hes, Hes2. split; [done|].
  rewrite Hs2, Hs1. by destruct s.
Qed.

(** which inputs a well-formed schedule answers.  The authority accepts
    an input exactly when its phase admits it and, for a planning window,
    the window advances; every other input is answered [GuardRejected] and
    leaves the state as it was.  (A revision at the top of its range is the
    only other way out: the increment then overflows.) *)
Theorem schedule_accepts_exactly s i :
  well_formed s → (revision s < u64_max)%N →
  match apply i s with
  | Returned _ (inl _) =>
      phase_admits (lifecycle_phase s) i = true ∧ window_advances s i
  | Returned s' (inr e) =>
      s' = s ∧ e = GuardRejected (lifecycle_phase s) (schedule_variant i) ∧
      ¬ (phase_admits (lifecycle_phase s) i = true ∧ window_advances s i)
  | Panicked => False
  end.
Proof.
  intros Hwf Hlt. destruct (apply i s) as [s' [r|e]|] eqn:Happ.
  - apply apply_accepted in Happ as (t & HF & _). by eapply fires_admitted.
  - apply apply_rejected_guard in Happ as (-> & Hsel & ->); [|by destruct i].
    split_and!; [done|done|]. by eapply select_admitted.
  - apply apply_panicked_inv in Happ as (t & Hin & Hg & [Hup|(s' & es & HF & Hinv)]).
    + by eapply update_defined in Hup.
    + apply not_true_iff_false in Hinv. apply Hinv, invariants_well_formed.
      eapply fires_well_formed; [done..|]. rewrite u64_add_small by lia.
      intros r [= <-]. lia.
Qed.

(** At most one declared arm of an input is enabled in any state, so
    the first-match rule of the generated dispatcher and the
    exactly-one-match rule of the schema interpreter pick the same
    transition. *)
Theorem schedule_unambiguous (i : ScheduleLifecycleInput) :
  Unambiguous (transitions i).
Proof. apply schedule_unambiguous_arms. Qed.
End Properties.

(** ** Witnesses *)

(** A schedule revised at revision 1, acknowledged, planned, and paused. *)
Definition demo_inputs : list ScheduleLifecycleInput :=
  [I_Revise "t" "b" MisfirePolicy_Skip OverlapPolicy_SkipIfRunning
     MissingTargetPolicy_Skip 7 3 100;
   I_ConfirmOccurrencesSuperseded "occ-a" 2;
   I_ConfirmOccurrencesSuperseded "occ-late" 1;
   I_RecordPlanningWindow 500 4;
   I_RecordPlanningWindow 900 6;
   I_Pause 950].

#[local] Existing Instance dev_profile.

#[local] Instance dev_checked : CheckedArithmetic.
Proof. reflexivity. Defined.

Definition demo_run :=
  default ([], schedule_init) (run_inputs (demo_inputs) (init : ScheduleLifecycleMachineState)).

Lemma demo_execution : Execution init demo_run.1 demo_run.2.
Proof. apply (run_inputs_execution demo_inputs). vm_compute. reflexivity. Qed.

Lemma schedule_states_recover_witness :
  recover_from_state demo_run.2 = inl demo_run.2.
Proof. apply (schedule_states_recover _ demo_run.1 demo_execution). left. reflexivity. Defined.

Lemma schedule_revision_counts_supersessions_witness :
  revision demo_run.2 = (1 + N.of_nat (supersessions demo_run.1))%N ∧
  supersessions demo_run.1 = 1.
Proof.
  split; [|by vm_compute].
  apply (schedule_revision_counts_supersessions init demo_run.1 demo_run.2 demo_execution).
Defined.

Lemma schedule_acks_answer_latest_supersession_witness :
  confirmed_at_revision "occ-a" demo_run.2 demo_run.1 ∧
  ¬ confirmed_at_revision "occ-late" demo_run.2 demo_run.1.
Proof.
  split.
  - apply (schedule_acks_answer_latest_supersession _ _ "occ-a" demo_execution).
    refine (bool_decide_unpack _ _). vm_compute. exact I.
  - rewrite <-(schedule_acks_answer_latest_supersession _ _ "occ-late" demo_execution).
    refine (bool_decide_unpack _ _). vm_compute. exact I.
Defined.

(** The planning steps of the demonstration, from the state they start in. *)
Definition demo_confirmed : ScheduleLifecycleMachineState :=
  (default ([], schedule_init) (run_inputs (take 3 demo_inputs) schedule_init)).2.

Definition demo_planned :=
  default ([], schedule_init) (run_inputs (drop 3 demo_inputs) demo_confirmed).

Lemma demo_planned_execution : Execution demo_confirmed demo_planned.1 demo_planned.2.
Proof. apply (run_inputs_execution (drop 3 demo_inputs)). vm_compute. reflexivity. Qed.

Lemma schedule_planning_cursor_advances_witness :
  recorded_cursors demo_planned.1 = [500; 900]%N ∧
  (StronglySorted N.lt (option_list (planning_cursor_utc_ms demo_confirmed)
                        ++ recorded_cursors demo_planned.1) ∧
   last (option_list (planning_cursor_utc_ms demo_confirmed)
         ++ recorded_cursors demo_planned.1) = planning_cursor_utc_ms demo_planned.2).
Proof.
  split; [by vm_compute|].
  apply (schedule_planning_cursor_advances demo_confirmed demo_planned.1 demo_planned.2).
  - exact demo_planned_execution.
  - vm_compute. reflexivity.
  - vm_compute. reflexivity.
Defined.

Definition demo_deleted : ScheduleLifecycleMachineState :=
  schedule_init <| lifecycle_phase := Deleted |> <| revision := 2%N |>.

Definition demo_late_acks :=
  default ([], demo_deleted)
    (run_inputs [I_ConfirmOccurrencesSuperseded "occ-b" 2; I_Delete 7;
                 I_ConfirmOccurrencesSuperseded "occ-a" 1] demo_deleted).

Lemma schedule_deleted_absorbing_witness :
  (demo_late_acks.1 ≫= (λ ir, effects ir.2)) = [] ∧
  demo_late_acks.2 =
    demo_deleted <| superseded_ack_ids := superseded_ack_ids demo_late_acks.2 |>.
Proof.
  apply (schedule_deleted_absorbing demo_deleted); [|reflexivity].
  apply (run_inputs_execution
    [I_ConfirmOccurrencesSuperseded "occ-b" 2; I_Delete 7;
     I_ConfirmOccurrencesSuperseded "occ-a" 1]).
  vm_compute. reflexivity.
Defined.

Lemma schedule_accepts_exactly_witness :
  match apply (I_RecordPlanningWindow 500 0) schedule_init with
  | Returned s' (inr e) =>
      s' = schedule_init ∧ e = GuardRejected Active V_RecordPlanningWindow
  | _ => False
  end.
Proof.
  pose proof (schedule_accepts_exactly schedule_init (I_RecordPlanningWindow 500 0)
    init_well_formed eq_refl) as H.
  destruct (apply _ _) as [s' [r|e]|]; [|by destruct H as (-> & -> & _)|done].
  destruct H as [_ [H _]]. discriminate H.
Defined.
