(* ===== verification/AuthorityFacts.v ===== *)
(** * Properties of every generated authority

    What [Authority] guarantees for an arbitrary machine: [per_phase]
    transitions are self-loops, batches are atomic, prepared authorities are
    serializable against one live authority, and in a machine with inductive
    invariants the debug assertions never fire.  The witnesses run the
    schedule machine. *)

From S2P Require Export ScheduleFacts.

(** ** Sequential runs *)

Section Runs.
Context {St Ph In Va Ef : Type} `{!Machine St Ph In Va Ef} {BP : BuildProfile}.

(** Inputs accepted one after the other without invariant checks in
    between, as inside a batch. *)
Inductive UncheckedRun : St → list In → list (TransitionRecord Ph Ef) → St → Prop :=
| UncheckedRun_nil s : UncheckedRun s [] [] s
| UncheckedRun_cons s i s1 r is' rs s2 :
    apply_without_invariant_validation i s = Returned s1 (inl r) →
    UncheckedRun s1 is' rs s2 →
    UncheckedRun s (i :: is') (r :: rs) s2.

Lemma batch_loop_accepted inputs (s : St) acc s' rs :
  batch_loop inputs s acc = Returned s' (inl rs) →
  ∃ rs', rs = acc ++ rs' ∧ UncheckedRun s inputs rs' s'.
Proof.
  revert s acc. induction inputs as [|i inputs IH]; intros s acc; cbn.
  - intros [= -> ->]. exists []. split; [by rewrite app_nil_r|constructor].
  - destruct (apply_without_invariant_validation i s) as [s1 [r|e]|] eqn:Ha; [|done|done].
    intros (rs' & -> & Hr)%IH. exists (r :: rs'). split; [by rewrite <-app_assoc|].
    econstructor; eauto.
Qed.

Lemma batch_loop_rejected inputs (s : St) acc s' e :
  batch_loop inputs s acc = Returned s' (inr e) →
  ∃ pre i post rs, inputs = pre ++ i :: post ∧ UncheckedRun s pre rs s' ∧
    apply_without_invariant_validation i s' = Returned s' (inr e).
Proof.
  revert s acc. induction inputs as [|i inputs IH]; intros s acc; cbn; [done|].
  destruct (apply_without_invariant_validation i s) as [s1 [r|e']|] eqn:Ha; [| |done].
  - intros (pre & j & post & rs & -> & Hr & He)%IH.
    exists (i :: pre), j, post, (r :: rs). split_and!; [done|econstructor; eauto|done].
  - intros [= <- <-]. pose proof (apply_unchecked_rejected _ _ _ _ Ha) as ->.
    exists [], i, inputs, []. split_and!; [done|constructor|done].
Qed.

Lemma batch_loop_panicked inputs (s : St) acc :
  batch_loop inputs s acc = Panicked →
  ∃ pre i post rs s1 t, inputs = pre ++ i :: post ∧ UncheckedRun s pre rs s1 ∧
    t ∈ transitions i ∧ tr_guard t s1 = true ∧ tr_update t s1 = None.
Proof.
  revert s acc. induction inputs as [|i inputs IH]; intros s acc; cbn; [done|].
  destruct (apply_without_invariant_validation i s) as [s1 [r|e']|] eqn:Ha; [|done|].
  - intros (pre & j & post & rs & s2 & t & -> & Hr & Ht)%IH.
    exists (i :: pre), j, post, (r :: rs), s2, t. split; [done|].
    split; [econstructor; eauto|done].
  - intros _. apply apply_unchecked_panicked in Ha as (t & Ht).
    exists [], i, inputs, [], s, t. split_and!; [done|constructor|apply Ht..].
Qed.
End Runs.

(** ** Transactions over one live authority

    Several callers hold prepared authorities of one live authority; each
    stages inputs on its own copy and tries to commit, others apply inputs to
    the live authority directly.  [step_world] is one such action;
    [committed] collects, in commit order, the inputs that reached the live
    state. *)

Section Transactions.
Context {St Ph In Va Ef : Type} `{!Machine St Ph In Va Ef} {BP : BuildProfile}.

Inductive Action :=
| Prepare (k : nat)
| Stage (k : nat) (i : In)
| Commit (k : nat)
| ApplyLive (i : In).

Abbreviation Log := (list (In * TransitionRecord Ph Ef)).

Record World := mkWorld {
  live : St;
  prepared : gmap nat (PreparedAuthority St * Log);
  committed : Log;
}.

Definition step_world (a : Action) (w : World) : option World :=
  match a with
  | Prepare k =>
      Some (mkWorld (live w) (<[k := (prepare_authority (live w), [])]> (prepared w))
              (committed w))
  | Stage k i =>
      '(p, l) ← prepared w !! k;
      match prepared_apply i p with
      | Returned p' (inl r) =>
          Some (mkWorld (live w) (<[k := (p', l ++ [(i, r)])]> (prepared w)) (committed w))
      | Returned p' (inr _) =>
          Some (mkWorld (live w) (<[k := (p', l)]> (prepared w)) (committed w))
      | Panicked => None
      end
  | Commit k =>
      '(p, l) ← prepared w !! k;
      match commit_prepared_authority p (live w) with
      | (s, None) => Some (mkWorld s (delete k (prepared w)) (committed w ++ l))
      | (s, Some _) => Some (mkWorld s (delete k (prepared w)) (committed w))
      end
  | ApplyLive i =>
      match apply i (live w) with
      | Returned s (inl r) => Some (mkWorld s (prepared w) (committed w ++ [(i, r)]))
      | Returned s (inr _) => Some (mkWorld s (prepared w) (committed w))
      | Panicked => None
      end
  end.

Fixpoint run_world (actions : list Action) (w : World) : option World :=
  match actions with
  | [] => Some w
  | a :: actions' => w' ← step_world a w; run_world actions' w'
  end.

Definition staged_ok (w : World) : Prop :=
  ∀ k p l, prepared w !! k = Some (p, l) → Execution (base_state p) l (prepared_state p).

Lemma prepared_apply_execution i p p' r l :
  prepared_apply i p = Returned p' (inl r) →
  Execution (base_state p) l (prepared_state p) →
  Execution (base_state p') (l ++ [(i, r)]) (prepared_state p').
Proof.
  unfold prepared_apply. destruct (apply i (prepared_state p)) as [s1 r1|] eqn:Ha; [|done].
  intros [= <- ->] Hl. cbn. eapply Execution_app; [done|].
  econstructor; [done|constructor].
Qed.

Lemma prepared_apply_rejected i p p' e :
  prepared_apply i p = Returned p' (inr e) → p' = p.
Proof.
  unfold prepared_apply. destruct (apply i (prepared_state p)) as [s1 r1|] eqn:Ha; [|done].
  intros [= <- ->]. apply apply_rejected in Ha as ->. by destruct p.
Qed.

Lemma step_world_staged a w w' :
  step_world a w = Some w' → staged_ok w → staged_ok w'.
Proof.
  intros Hs Hok k0 p0 l0. destruct a as [k|k i|k|i]; cbn in Hs.
  - simplify_eq. cbn. rewrite lookup_insert_Some. intros [[<- [= <- <-]]|[_ ?]]; [|by eapply Hok].
    constructor.
  - destruct (prepared w !! k) as [[p l]|] eqn:Hk; [|done]. cbn in Hs.
    destruct (prepared_apply i p) as [p' [r|e]|] eqn:Ha; simplify_eq; cbn;
      rewrite lookup_insert_Some; intros [[<- [= <- <-]]|[_ ?]]; try by eapply Hok.
    + eapply prepared_apply_execution; [done|]. by eapply Hok.
    + apply prepared_apply_rejected in Ha as ->. by eapply Hok.
  - destruct (prepared w !! k) as [[p l]|] eqn:Hk; [|done]. cbn in Hs.
    destruct (commit_prepared_authority p (live w)) as [s [e|]]; simplify_eq; cbn;
      rewrite lookup_delete_Some; intros [_ ?]; by eapply Hok.
  - destruct (apply i (live w)) as [s [r|e]|]; simplify_eq; by eapply Hok.
Qed.

Lemma commit_execution p l (s s' : St) :
  Execution (base_state p) l (prepared_state p) →
  commit_prepared_authority p s = (s', None) → Execution s l s'.
Proof.
  unfold commit_prepared_authority, validate_commit_base. intros Hl.
  destruct (s != base_state p) eqn:Hb; [done|]. intros [= <-].
  apply bool_neq_false in Hb as ->. done.
Qed.

Lemma step_world_execution a w w' s0 :
  step_world a w = Some w' → staged_ok w →
  Execution s0 (committed w) (live w) → Execution s0 (committed w') (live w').
Proof.
  intros Hs Hok HE. destruct a as [k|k i|k|i]; cbn in Hs.
  - by simplify_eq.
  - destruct (prepared w !! k) as [[p l]|]; [|done]. cbn in Hs.
    destruct (prepared_apply i p) as [p' [r|e]|]; by simplify_eq.
  - destruct (prepared w !! k) as [[p l]|] eqn:Hk; [|done]. cbn in Hs.
    destruct (commit_prepared_authority p (live w)) as [s [e|]] eqn:Hc; simplify_eq; cbn.
    + unfold commit_prepared_authority in Hc. by destruct (validate_commit_base _ _); simplify_eq.
    + eapply Execution_app; [done|]. eapply commit_execution; [|done]. by eapply Hok.
  - destruct (apply i (live w)) as [s [r|e]|] eqn:Ha; simplify_eq; cbn.
    + eapply Execution_app; [done|]. econstructor; [done|constructor].
    + by apply apply_rejected in Ha as ->.
Qed.

Lemma run_world_execution actions w w' s0 :
  run_world actions w = Some w' → staged_ok w →
  Execution s0 (committed w) (live w) → Execution s0 (committed w') (live w').
Proof.
  revert w. induction actions as [|a actions IH]; intros w; cbn; [by intros [= <-]|].
  destruct (step_world a w) as [w1|] eqn:Hs; [|done]. cbn. intros Hr Hok HE.
  eapply IH; [done|by eapply step_world_staged|by eapply step_world_execution].
Qed.
End Transactions.

Arguments Action : clear implicits.
Arguments World : clear implicits.

(** ** The first match and the only match *)

Section Choice.
Context {St Ph In Va Ef : Type} `{!Machine St Ph In Va Ef} {BP : BuildProfile}.

Lemma unambiguous_permutation (ts ts' : list (Transition St Ph Ef)) :
  Unambiguous ts → ts ≡ₚ ts' → Unambiguous ts'.
Proof. intros Hu Hp s. specialize (Hu s). by rewrite Hp in Hu. Qed.

Lemma select_permutation (ts ts' : list (Transition St Ph Ef)) (s : St) :
  Unambiguous ts → ts ≡ₚ ts' → select ts s = select ts' s.
Proof.
  intros Hu Hp. destruct (select ts' s) as [t|] eqn:Hs.
  - apply select_Some in Hs as [Hin Hg]. apply select_unambiguous; [done|by rewrite Hp|done].
  - destruct (select ts s) as [t|] eqn:Hs'; [|done].
    apply select_Some in Hs' as [Hin Hg]. rewrite Hp in Hin.
    by rewrite (select_None _ _ _ Hs Hin) in Hg.
Qed.
End Choice.

(** ** Properties *)

Section Properties.
Context {St Ph In Va Ef : Type} `{!Machine St Ph In Va Ef} {BP : BuildProfile}.

(** C6: prepared authorities are serializable.  Whatever transactions are
    prepared, staged and committed in whatever interleaving, together with
    inputs applied to the live authority directly, the live state is the
    one reached from the initial live state by executing one after the
    other, in commit order, exactly the inputs of the commits that
    succeeded and of the direct applications: a transaction whose base was
    overtaken leaves no trace. *)
Theorem authority_serializable (s0 : St) (actions : list (Action In))
    (w : World St Ph In Ef) :
  run_world actions (mkWorld s0 ∅ []) = Some w →
  Execution s0 (committed w) (live w).
Proof.
  intros Hr. eapply run_world_execution; [done| |constructor].
  intros k p l Hk. cbn in Hk. by rewrite lookup_empty in Hk.
Qed.

(** C10: a batch is all or nothing.  [apply_batch] either runs every input
    in order, each on the state the one before it left, and keeps the base
    of the transaction; or it stops at the first refused input, reports
    that input's error and restores the prepared state.  It panics only
    when an update overflows or when the invariants fail at the batch
    boundary. *)
Theorem authority_batch_atomic (inputs : list In) (p : PreparedAuthority St) :
  match apply_batch inputs p with
  | Returned p' (inl rs) =>
      base_state p' = base_state p ∧
      UncheckedRun (prepared_state p) inputs rs (prepared_state p') ∧
      validate_debug_invariants (prepared_state p') = true
  | Returned p' (inr e) =>
      p' = p ∧ ∃ pre i post rs s, inputs = pre ++ i :: post ∧
        UncheckedRun (prepared_state p) pre rs s ∧
        apply_without_invariant_validation i s = Returned s (inr e)
  | Panicked =>
      (∃ pre i post rs s t, inputs = pre ++ i :: post ∧
         UncheckedRun (prepared_state p) pre rs s ∧
         t ∈ transitions i ∧ tr_guard t s = true ∧ tr_update t s = None) ∨
      ∃ rs s, UncheckedRun (prepared_state p) inputs rs s ∧
        validate_debug_invariants s = false
  end.
Proof.
  unfold apply_batch.
  destruct (batch_loop inputs (prepared_state p) []) as [s [rs|e]|] eqn:Hb.
  - apply batch_loop_accepted in Hb as (rs' & -> & Hr). cbn.
    destruct (validate_debug_invariants s) eqn:Hv; [done|]. right; eauto.
  - apply batch_loop_rejected in Hb as (pre & i & post & rs & -> & Hr & He). cbn.
    split; [by destruct p|]. eauto 10.
  - left. by eapply batch_loop_panicked.
Qed.

(** a [per_phase] transition is a self-loop of each listed phase and is
    disabled in every other one: in a listed phase whose guard holds its
    arm runs the common update and leaves the machine in the phase it was
    in, whatever [to] phase the block names. *)
Theorem authority_per_phase_self_loop phases (t : Transition St Ph Ef) (s : St) :
  (bool_decide (phase s ∈ phases) && tr_guard t s = false →
   select (expand_per_phase phases t) s = None) ∧
  (phase s ∈ phases → tr_guard t s = true →
   ∃ u, select (expand_per_phase phases t) s = Some u ∧
     fire u s = (s' ← tr_update t s; let s'' := set_phase (phase s) s' in
                 Some (s'', tr_emit t s''))).
Proof.
  rewrite select_per_phase, existsb_phase. split; [by intros ->|].
  intros Hp Hg. rewrite (bool_decide_true _ Hp), Hg. cbn. eauto.
Qed.

(** when at most one arm of an input is enabled in any state, the order
    of the arms in the source does not matter: any permutation of them
    selects the same transition. *)
Theorem authority_order_irrelevant (ts ts' : list (Transition St Ph Ef)) (s : St) :
  Unambiguous ts → ts ≡ₚ ts' → select ts s = select ts' s.
Proof. apply select_permutation. Qed.
End Properties.

Section InductiveProperties.
Context {St Ph In Va Ef : Type} `{!Machine St Ph In Va Ef} {BP : BuildProfile}.

(** in a machine whose invariants are inductive no [debug_assert!] ever
    fires.  From a state that satisfies the invariants an applied input
    panics only when an update overflows, every accepted input leads to a
    state that can be recovered, and a build with debug assertions behaves
    like one without. *)
Theorem authority_debug_assertions_silent
    `{!InductiveMachine St Ph In Va Ef} (s : St) (i : In) :
  recover_from_state s = inl s →
  apply i s = apply_without_invariant_validation i s ∧
  match apply i s with
  | Returned s' _ => recover_from_state s' = inl s'
  | Panicked => ∃ t, t ∈ transitions i ∧ tr_guard t s = true ∧ tr_update t s = None
  end.
Proof.
  intros Hs%recover_ok. pose proof (apply_debug_eq i s Hs) as He. split; [done|].
  destruct (apply i s) as [s' [r|e]|] eqn:Ha.
  - apply apply_accepted in Ha as (t & HF & _). apply recover_ok.
    by eapply fires_invariants.
  - apply apply_rejected in Ha as ->. by apply recover_ok.
  - apply apply_panicked_inv in Ha as (t & Hin & Hg & [Hup|(s' & es & HF & Hinv)]); [eauto|].
    eapply fires_invariants in HF; [congruence|done].
Qed.
End InductiveProperties.

(** ** Witnesses *)

#[local] Existing Instance dev_profile.

#[local] Instance witness_checked : CheckedArithmetic.
Proof. reflexivity. Defined.

(** Two planners prepare from the same schedule; the first to commit wins,
    the second is refused, and a direct pause is applied in between. *)
Definition race : list (Action ScheduleLifecycleInput) :=
  [Prepare 0; Prepare 1;
   Stage 0 (I_RecordPlanningWindow 500 4); Stage 1 (I_RecordPlanningWindow 700 9);
   Stage 1 (I_RecordPlanningWindow 600 9); Commit 1; Commit 0;
   ApplyLive (I_Pause 10); Prepare 0; Stage 0 (I_Resume 11); Commit 0].

Definition race_world :=
  default (mkWorld schedule_init ∅ []) (run_world race (mkWorld schedule_init ∅ [])).

Lemma authority_serializable_witness :
  (fst <$> committed race_world) =
    [I_RecordPlanningWindow 700 9; I_Pause 10; I_Resume 11] ∧
  Execution schedule_init (committed race_world) (live race_world).
Proof.
  split; [by vm_compute|].
  apply (authority_serializable schedule_init race race_world).
  vm_compute. reflexivity.
Defined.

(** A configuration update written as one [per_phase] block. *)
Definition touch : Transition ScheduleLifecycleMachineState ScheduleLifecycleState
    ScheduleLifecycleEffect :=
  mkTransition "Touch" (λ s, (0 <? revision s)%N) no_map_read
    (λ s, Some (s <| next_occurrence_ordinal := 7%N |>)) Deleted (λ s, [notice s]).

Lemma authority_per_phase_self_loop_witness :
  ∃ u, select (expand_per_phase [Active; Paused] touch) schedule_init = Some u ∧
    fire u schedule_init =
      Some (schedule_init <| next_occurrence_ordinal := 7%N |>,
            [E_EmitScheduleNotice Active 1]).
Proof.
  refine (proj2 (authority_per_phase_self_loop [Active; Paused] touch schedule_init) _ _).
  - apply list_elem_of_here.
  - reflexivity.
Defined.

Lemma authority_order_irrelevant_witness :
  select [DeleteDeleted; DeletePaused 5; DeleteActive 5] schedule_init =
  select [DeleteActive 5; DeletePaused 5; DeleteDeleted] schedule_init.
Proof.
  apply (authority_order_irrelevant [DeleteDeleted; DeletePaused 5; DeleteActive 5]
    [DeleteActive 5; DeletePaused 5; DeleteDeleted] schedule_init).
  - eapply unambiguous_permutation; [apply (schedule_unambiguous_arms (I_Delete 5))|].
    apply (Permutation_rev [DeleteActive 5; DeletePaused 5; DeleteDeleted]).
  - apply (Permutation_rev [DeleteDeleted; DeletePaused 5; DeleteActive 5]).
Defined.

Lemma authority_debug_assertions_silent_witness :
  apply (I_Delete 5) schedule_init =
    apply_without_invariant_validation (I_Delete 5) schedule_init ∧
  match apply (I_Delete 5) schedule_init with
  | Returned s' _ => recover_from_state s' = inl s'
  | Panicked => False
  end.
Proof.
  pose proof (authority_debug_assertions_silent schedule_init (I_Delete 5) eq_refl) as [H1 H2].
  split; [exact H1|exact H2].
Defined.
