(* ===== verification/OccurrenceLifecycle.v ===== *)
(** * OccurrenceLifecycleMachine

    The occurrence authority of [catalog/dsl/occurrence_lifecycle.rs]: what one
    planned firing of a schedule may do, from planning over claiming under a
    lease, dispatch and completion to its terminal phase, with the typed
    records of deliveries that resolve after a supersession.  The conventions
    are those of [ScheduleLifecycle]; a binding that has the name of a state
    field carries a prime, and an update block that several arms repeat is
    defined once, before its first arm. *)

From S2P Require Export Authority.

(** ** Data *)

Abbreviation OccurrenceId := string.
Abbreviation TriggerKey := string.
Abbreviation TargetBindingId := string.
Abbreviation ClaimOwner := string.
Abbreviation CorrelationId := string.
Abbreviation ScheduleId := string.
Abbreviation ClaimToken := string.
Abbreviation SessionId := string.
Abbreviation RuntimeOutcomeKey := string.

Inductive OccurrenceLifecycleState := | Pending | Claimed | Dispatching | AwaitingCompletion
  | Completed | Skipped | Misfired | Superseded | DeliveryFailed.

Inductive MisfirePolicy := | MisfirePolicy_Skip | MisfirePolicy_CatchUpWithin.

Inductive OverlapPolicy := | OverlapPolicy_AllowConcurrent | OverlapPolicy_SkipIfRunning.

Inductive MissingTargetPolicy := | MissingTargetPolicy_MarkMisfired
  | MissingTargetPolicy_Skip.

Inductive OccurrenceFailureClass := | OccurrenceFailureClass_TargetMaterializationFailed
  | OccurrenceFailureClass_TargetMissing | OccurrenceFailureClass_TargetBusy
  | OccurrenceFailureClass_RuntimeRejected | OccurrenceFailureClass_MobRejected
  | OccurrenceFailureClass_LeaseLost | OccurrenceFailureClass_TransportError
  | OccurrenceFailureClass_InternalError | OccurrenceFailureClass_ScheduleMandateUnavailable.

Inductive RuntimeCompletionOutcome := | RuntimeCompletionOutcome_Completed
  | RuntimeCompletionOutcome_CallbackPending | RuntimeCompletionOutcome_Cancelled
  | RuntimeCompletionOutcome_Abandoned | RuntimeCompletionOutcome_FinalizationFailed
  | RuntimeCompletionOutcome_RuntimeTerminated.

Inductive DeliveryAdmissionOutcome := | DeliveryAdmissionOutcome_Accepted
  | DeliveryAdmissionOutcome_Deduplicated.

Inductive AdmissionEvidence := | AdmissionEvidence_Unrecorded | AdmissionEvidence_Started
  | AdmissionEvidence_Accepted.

Inductive DeliveryCompletionFailureReason :=
  | DeliveryCompletionFailureReason_CompletionFutureFailed
  | DeliveryCompletionFailureReason_RuntimeCompletionChannelClosed
  | DeliveryCompletionFailureReason_RuntimeCompletionAuthorityUnavailable
  | DeliveryCompletionFailureReason_RuntimeCompletionHandleMissing.

Inductive DeliveryFailureReason := | DeliveryFailureReason_TargetMaterializationFailed
  | DeliveryFailureReason_TargetMissing | DeliveryFailureReason_TargetBusy
  | DeliveryFailureReason_RuntimeRejected | DeliveryFailureReason_MobRejected
  | DeliveryFailureReason_TransportError | DeliveryFailureReason_InternalError
  | DeliveryFailureReason_ScheduleMandateUnavailable.

Inductive OccurrenceTargetProbeOutcome := | OccurrenceTargetProbeOutcome_Ready
  | OccurrenceTargetProbeOutcome_Busy | OccurrenceTargetProbeOutcome_Missing.

Inductive ClaimRedelivery := | ClaimRedelivery_Ordinary | ClaimRedelivery_AfterAdmission
  | ClaimRedelivery_AfterUnprovenDispatch.

Inductive ClaimedDispatchSchedulePhase := | ClaimedDispatchSchedulePhase_Active
  | ClaimedDispatchSchedulePhase_Paused | ClaimedDispatchSchedulePhase_Deleted.

Inductive ClaimedDispatchDisposition := | ClaimedDispatchDisposition_Frozen
  | ClaimedDispatchDisposition_Supersede | ClaimedDispatchDisposition_Ready
  | ClaimedDispatchDisposition_FutureRevision.

Inductive CompletionSupersessionDisposition := | CompletionSupersessionDisposition_Supersede
  | CompletionSupersessionDisposition_Proceed
  | CompletionSupersessionDisposition_AlreadySuperseded.

Inductive LateCompletionResolutionClass := | LateCompletionResolutionClass_DeliveryCompleted
  | LateCompletionResolutionClass_RuntimeCompleted
  | LateCompletionResolutionClass_RuntimeRejected
  | LateCompletionResolutionClass_RuntimeTransportError
  | LateCompletionResolutionClass_RuntimeInternalError
  | LateCompletionResolutionClass_DeliveryCompletionFailed
  | LateCompletionResolutionClass_DeliveryFailed.

Inductive DeliveryReceiptStage := | DeliveryReceiptStage_Planned
  | DeliveryReceiptStage_Claimed | DeliveryReceiptStage_DispatchStarted
  | DeliveryReceiptStage_DispatchAccepted | DeliveryReceiptStage_AwaitingCompletion
  | DeliveryReceiptStage_Completed | DeliveryReceiptStage_Skipped
  | DeliveryReceiptStage_Misfired | DeliveryReceiptStage_Superseded
  | DeliveryReceiptStage_DeliveryFailed | DeliveryReceiptStage_LeaseExpired.

Inductive OccurrenceTransitionFailureRefusalKind :=
  | OccurrenceTransitionFailureRefusalKind_NoMatchingTransition
  | OccurrenceTransitionFailureRefusalKind_GuardRejected.

Inductive OccurrenceTransitionFailureClassKind :=
  | OccurrenceTransitionFailureClassKind_PlanRejected
  | OccurrenceTransitionFailureClassKind_TargetSyncRejected
  | OccurrenceTransitionFailureClassKind_ReceiptRecordRejected
  | OccurrenceTransitionFailureClassKind_DueClassificationRejected
  | OccurrenceTransitionFailureClassKind_ClaimedDispatchClassificationRejected
  | OccurrenceTransitionFailureClassKind_CompletionSupersessionClassificationRejected
  | OccurrenceTransitionFailureClassKind_ClaimRejected
  | OccurrenceTransitionFailureClassKind_NotPendingForClaim
  | OccurrenceTransitionFailureClassKind_NotClaimed
  | OccurrenceTransitionFailureClassKind_NotDispatching
  | OccurrenceTransitionFailureClassKind_NotLeaseHolding
  | OccurrenceTransitionFailureClassKind_NotLiveForTerminal
  | OccurrenceTransitionFailureClassKind_StaleCompletionArrivalClassificationRejected.

Inductive OccurrenceLifecycleInputVariant := | V_PlanOccurrence | V_SyncTargetSnapshot
  | V_RecordReceipt | V_ClassifyDue | V_ClassifyOccurrenceTerminality
  | V_ClassifyClaimedDispatchDisposition | V_ClassifyCompletionSupersession | V_Claim
  | V_DispatchStarted | V_DispatchAccepted | V_AwaitCompletion | V_Complete
  | V_ResolveRuntimeCompletion | V_ResolveDeliveryCompletionFailure
  | V_ResolveDeliveryFailure | V_ResolveTargetProbe | V_ResolveDueMisfire | V_Supersede
  | V_RenewLease | V_LeaseExpired | V_ReleaseLeaseForPausedSchedule
  | V_ClassifyTransitionFailure | V_ClassifyStaleCompletionArrival
  | V_ResolveReclaimExhausted | V_ResolveUnprovenLateNotAdmitted.

#[export] Instance OccurrenceLifecycleState_eq_dec : EqDecision OccurrenceLifecycleState.
Proof. solve_decision. Defined.
#[export] Instance MisfirePolicy_eq_dec : EqDecision MisfirePolicy.
Proof. solve_decision. Defined.
#[export] Instance OverlapPolicy_eq_dec : EqDecision OverlapPolicy.
Proof. solve_decision. Defined.
#[export] Instance MissingTargetPolicy_eq_dec : EqDecision MissingTargetPolicy.
Proof. solve_decision. Defined.
#[export] Instance OccurrenceFailureClass_eq_dec : EqDecision OccurrenceFailureClass.
Proof. solve_decision. Defined.
#[export] Instance RuntimeCompletionOutcome_eq_dec : EqDecision RuntimeCompletionOutcome.
Proof. solve_decision. Defined.
#[export] Instance DeliveryAdmissionOutcome_eq_dec : EqDecision DeliveryAdmissionOutcome.
Proof. solve_decision. Defined.
#[export] Instance AdmissionEvidence_eq_dec : EqDecision AdmissionEvidence.
Proof. solve_decision. Defined.
#[export] Instance DeliveryCompletionFailureReason_eq_dec : EqDecision DeliveryCompletionFailureReason.
Proof. solve_decision. Defined.
#[export] Instance DeliveryFailureReason_eq_dec : EqDecision DeliveryFailureReason.
Proof. solve_decision. Defined.
#[export] Instance OccurrenceTargetProbeOutcome_eq_dec : EqDecision OccurrenceTargetProbeOutcome.
Proof. solve_decision. Defined.
#[export] Instance ClaimRedelivery_eq_dec : EqDecision ClaimRedelivery.
Proof. solve_decision. Defined.
#[export] Instance ClaimedDispatchSchedulePhase_eq_dec : EqDecision ClaimedDispatchSchedulePhase.
Proof. solve_decision. Defined.
#[export] Instance ClaimedDispatchDisposition_eq_dec : EqDecision ClaimedDispatchDisposition.
Proof. solve_decision. Defined.
#[export] Instance CompletionSupersessionDisposition_eq_dec : EqDecision CompletionSupersessionDisposition.
Proof. solve_decision. Defined.
#[export] Instance LateCompletionResolutionClass_eq_dec : EqDecision LateCompletionResolutionClass.
Proof. solve_decision. Defined.
#[export] Instance DeliveryReceiptStage_eq_dec : EqDecision DeliveryReceiptStage.
Proof. solve_decision. Defined.
#[export] Instance OccurrenceTransitionFailureRefusalKind_eq_dec : EqDecision OccurrenceTransitionFailureRefusalKind.
Proof. solve_decision. Defined.
#[export] Instance OccurrenceTransitionFailureClassKind_eq_dec : EqDecision OccurrenceTransitionFailureClassKind.
Proof. solve_decision. Defined.
#[export] Instance OccurrenceLifecycleInputVariant_eq_dec : EqDecision OccurrenceLifecycleInputVariant.
Proof. solve_decision. Defined.

Record OccurrenceLifecycleMachineState := mkOccurrence {
  lifecycle_phase : OccurrenceLifecycleState;
  occurrence_id : OccurrenceId;
  schedule_id : ScheduleId;
  schedule_revision : N;
  occurrence_ordinal : N;
  trigger_key : TriggerKey;
  target_binding_key : TargetBindingId;
  misfire_policy : MisfirePolicy;
  misfire_policy_key : string;
  overlap_policy : OverlapPolicy;
  overlap_policy_key : string;
  missing_target_policy : MissingTargetPolicy;
  missing_target_policy_key : string;
  due_at_utc_ms : N;
  misfire_deadline_utc_ms : N;
  claimed_by : option ClaimOwner;
  lease_expires_at_utc_ms : option N;
  claimed_at_utc_ms : option N;
  claim_token : option ClaimToken;
  delivery_correlation_id : option CorrelationId;
  target_materialized_session_id : option SessionId;
  receipt_recorded_at_utc_ms : option N;
  last_receipt_recorded_at_utc_ms : option N;
  last_receipt_attempt : option N;
  last_receipt_stage : option DeliveryReceiptStage;
  last_receipt_failure_class : option OccurrenceFailureClass;
  last_receipt_detail : option string;
  last_receipt_correlation_id : option CorrelationId;
  last_receipt_materialized_session_id : option SessionId;
  runtime_outcome_key : option RuntimeOutcomeKey;
  receipt_stage : option DeliveryReceiptStage;
  receipt_failure_class : option OccurrenceFailureClass;
  receipt_detail : option string;
  failure_class : option OccurrenceFailureClass;
  failure_detail : option string;
  dispatched_at_utc_ms : option N;
  completed_at_utc_ms : option N;
  attempt_count : N;
  superseded_by_revision : option N;
  late_completion_recorded_at_utc_ms : option N;
  late_completion_resolution : option LateCompletionResolutionClass;
  late_completion_detail : option string;
  stale_completion_arrivals : N;
}.

#[export] Instance occurrence_fields : Fields OccurrenceLifecycleMachineState := λ s,
  mkOccurrence
    (lifecycle_phase s) (occurrence_id s) (schedule_id s) (schedule_revision s)
    (occurrence_ordinal s) (trigger_key s) (target_binding_key s) (misfire_policy s)
    (misfire_policy_key s) (overlap_policy s) (overlap_policy_key s)
    (missing_target_policy s) (missing_target_policy_key s) (due_at_utc_ms s)
    (misfire_deadline_utc_ms s) (claimed_by s) (lease_expires_at_utc_ms s)
    (claimed_at_utc_ms s) (claim_token s) (delivery_correlation_id s)
    (target_materialized_session_id s) (receipt_recorded_at_utc_ms s)
    (last_receipt_recorded_at_utc_ms s) (last_receipt_attempt s) (last_receipt_stage s)
    (last_receipt_failure_class s) (last_receipt_detail s) (last_receipt_correlation_id s)
    (last_receipt_materialized_session_id s) (runtime_outcome_key s) (receipt_stage s)
    (receipt_failure_class s) (receipt_detail s) (failure_class s) (failure_detail s)
    (dispatched_at_utc_ms s) (completed_at_utc_ms s) (attempt_count s)
    (superseded_by_revision s) (late_completion_recorded_at_utc_ms s)
    (late_completion_resolution s) (late_completion_detail s) (stale_completion_arrivals s).

#[export] Instance occurrence_state_eq_dec : EqDecision OccurrenceLifecycleMachineState.
Proof. solve_decision. Defined.

Definition occurrence_init : OccurrenceLifecycleMachineState := {|
  lifecycle_phase := Pending;
  occurrence_id := "occurrence-0";
  schedule_id := "schedule-0";
  schedule_revision := 1;
  occurrence_ordinal := 0;
  trigger_key := "trigger-0";
  target_binding_key := "target-0";
  misfire_policy := MisfirePolicy_Skip;
  misfire_policy_key := "misfire:skip";
  overlap_policy := OverlapPolicy_SkipIfRunning;
  overlap_policy_key := "overlap:skip_if_running";
  missing_target_policy := MissingTargetPolicy_MarkMisfired;
  missing_target_policy_key := "missing_target:mark_misfired";
  due_at_utc_ms := 1;
  misfire_deadline_utc_ms := 1;
  claimed_by := None;
  lease_expires_at_utc_ms := None;
  claimed_at_utc_ms := None;
  claim_token := None;
  delivery_correlation_id := None;
  target_materialized_session_id := None;
  receipt_recorded_at_utc_ms := None;
  last_receipt_recorded_at_utc_ms := None;
  last_receipt_attempt := None;
  last_receipt_stage := None;
  last_receipt_failure_class := None;
  last_receipt_detail := None;
  last_receipt_correlation_id := None;
  last_receipt_materialized_session_id := None;
  runtime_outcome_key := None;
  receipt_stage := None;
  receipt_failure_class := None;
  receipt_detail := None;
  failure_class := None;
  failure_detail := None;
  dispatched_at_utc_ms := None;
  completed_at_utc_ms := None;
  attempt_count := 0;
  superseded_by_revision := None;
  late_completion_recorded_at_utc_ms := None;
  late_completion_resolution := None;
  late_completion_detail := None;
  stale_completion_arrivals := 0;
|}.

Inductive OccurrenceLifecycleInput :=
| I_PlanOccurrence (occurrence_id' : OccurrenceId) (schedule_id' : ScheduleId)
    (schedule_revision' : N) (occurrence_ordinal' : N) (trigger_key' : TriggerKey)
    (target_binding_key' : TargetBindingId) (misfire_policy' : MisfirePolicy)
    (misfire_policy_key' : string) (overlap_policy' : OverlapPolicy)
    (overlap_policy_key' : string) (missing_target_policy' : MissingTargetPolicy)
    (missing_target_policy_key' : string)
    (target_materialized_session_id' : option SessionId) (due_at_utc_ms' : N)
    (misfire_deadline_utc_ms' : N)
| I_SyncTargetSnapshot (target_binding_key' : TargetBindingId)
    (target_materialized_session_id' : option SessionId)
| I_RecordReceipt (correlation_id : option CorrelationId) (detail : option string)
    (materialized_session_id : option SessionId)
    (runtime_outcome_key' : option RuntimeOutcomeKey)
| I_ClassifyDue (now_utc_ms : N) (admission_evidence : AdmissionEvidence)
| I_ClassifyOccurrenceTerminality
| I_ClassifyClaimedDispatchDisposition (schedule_phase : ClaimedDispatchSchedulePhase)
    (current_schedule_revision : N)
| I_ClassifyCompletionSupersession (schedule_phase : ClaimedDispatchSchedulePhase)
    (current_schedule_revision : N)
| I_Claim (owner_id : ClaimOwner) (at_utc_ms : N) (lease_expires_at_utc_ms' : N)
    (claim_token' : ClaimToken) (admission_evidence : AdmissionEvidence)
| I_DispatchStarted (correlation_id : option CorrelationId) (at_utc_ms : N)
| I_DispatchAccepted (admission_outcome : DeliveryAdmissionOutcome) (at_utc_ms : N)
| I_AwaitCompletion (at_utc_ms : N)
| I_Complete (at_utc_ms : N)
| I_ResolveRuntimeCompletion (outcome : RuntimeCompletionOutcome) (detail : option string)
    (at_utc_ms : N)
| I_ResolveDeliveryCompletionFailure (reason : DeliveryCompletionFailureReason)
    (detail : option string) (at_utc_ms : N)
| I_ResolveDeliveryFailure (reason : DeliveryFailureReason) (detail : option string)
    (at_utc_ms : N)
| I_ResolveTargetProbe (outcome : OccurrenceTargetProbeOutcome)
    (redelivery : ClaimRedelivery) (detail : option string) (at_utc_ms : N)
| I_ResolveDueMisfire (detail : option string) (at_utc_ms : N)
| I_Supersede (superseded_by_revision' : N) (at_utc_ms : N)
| I_RenewLease (claim_token' : ClaimToken) (lease_expires_at_utc_ms' : N) (at_utc_ms : N)
| I_LeaseExpired (at_utc_ms : N)
| I_ReleaseLeaseForPausedSchedule (at_utc_ms : N)
| I_ClassifyTransitionFailure (refusal_kind : OccurrenceTransitionFailureRefusalKind)
    (trigger : OccurrenceLifecycleInputVariant)
| I_ClassifyStaleCompletionArrival (trigger : OccurrenceLifecycleInputVariant)
| I_ResolveReclaimExhausted (admission_evidence : AdmissionEvidence)
    (detail : option string) (at_utc_ms : N)
| I_ResolveUnprovenLateNotAdmitted (admission_evidence : AdmissionEvidence)
    (detail : option string) (at_utc_ms : N).

Inductive OccurrenceLifecycleEffect :=
| E_Claimed
| E_DispatchStarted
| E_DispatchAccepted
| E_AwaitingCompletion
| E_Completed
| E_Skipped
| E_Misfired
| E_Superseded
| E_OccurrencesSuperseded (occurrence_id : OccurrenceId) (superseding_revision : N)
| E_DueNoAction
| E_DueClaimEligible
| E_DueMisfireRequired
| E_DueLeaseExpired
| E_OccurrenceTerminalityClassified (terminal : bool)
| E_ClaimedDispatchDispositionClassified (disposition : ClaimedDispatchDisposition)
    (superseded_by_revision : option N)
| E_CompletionSupersessionClassified (disposition : CompletionSupersessionDisposition)
    (superseded_by_revision : option N)
| E_DeliveryFailed
| E_LeaseExpired
| E_LeaseRenewed
| E_TransitionFailureClassified (phase : OccurrenceLifecycleState)
    (refusal_kind : OccurrenceTransitionFailureRefusalKind)
    (trigger : OccurrenceLifecycleInputVariant)
    (public_class : OccurrenceTransitionFailureClassKind)
| E_LateCompletionResolutionRecorded (resolution : LateCompletionResolutionClass)
| E_StaleCompletionArrivalClassified (phase : OccurrenceLifecycleState)
    (trigger : OccurrenceLifecycleInputVariant)
| E_DueReclaimExhausted
| E_ReclaimedAfterAdmission
| E_ReclaimedAfterUnprovenDispatch.

Definition occurrence_variant (i : OccurrenceLifecycleInput)
    : OccurrenceLifecycleInputVariant :=
  match i with
  | I_PlanOccurrence _ _ _ _ _ _ _ _ _ _ _ _ _ _ _ => V_PlanOccurrence
  | I_SyncTargetSnapshot _ _ => V_SyncTargetSnapshot
  | I_RecordReceipt _ _ _ _ => V_RecordReceipt
  | I_ClassifyDue _ _ => V_ClassifyDue
  | I_ClassifyOccurrenceTerminality => V_ClassifyOccurrenceTerminality
  | I_ClassifyClaimedDispatchDisposition _ _ => V_ClassifyClaimedDispatchDisposition
  | I_ClassifyCompletionSupersession _ _ => V_ClassifyCompletionSupersession
  | I_Claim _ _ _ _ _ => V_Claim
  | I_DispatchStarted _ _ => V_DispatchStarted
  | I_DispatchAccepted _ _ => V_DispatchAccepted
  | I_AwaitCompletion _ => V_AwaitCompletion
  | I_Complete _ => V_Complete
  | I_ResolveRuntimeCompletion _ _ _ => V_ResolveRuntimeCompletion
  | I_ResolveDeliveryCompletionFailure _ _ _ => V_ResolveDeliveryCompletionFailure
  | I_ResolveDeliveryFailure _ _ _ => V_ResolveDeliveryFailure
  | I_ResolveTargetProbe _ _ _ _ => V_ResolveTargetProbe
  | I_ResolveDueMisfire _ _ => V_ResolveDueMisfire
  | I_Supersede _ _ => V_Supersede
  | I_RenewLease _ _ _ => V_RenewLease
  | I_LeaseExpired _ => V_LeaseExpired
  | I_ReleaseLeaseForPausedSchedule _ => V_ReleaseLeaseForPausedSchedule
  | I_ClassifyTransitionFailure _ _ => V_ClassifyTransitionFailure
  | I_ClassifyStaleCompletionArrival _ => V_ClassifyStaleCompletionArrival
  | I_ResolveReclaimExhausted _ _ _ => V_ResolveReclaimExhausted
  | I_ResolveUnprovenLateNotAdmitted _ _ _ => V_ResolveUnprovenLateNotAdmitted
  end.

Definition is_live_claim_phase (phase' : OccurrenceLifecycleState) : bool :=
  (phase' == Claimed)
  || (phase' == Dispatching)
  || (phase' == AwaitingCompletion).

Definition occurrence_terminal : list OccurrenceLifecycleState :=
  [Completed; Skipped; Misfired; Superseded; DeliveryFailed].

(** The attempts a late reclaim may use; the guards spell it as the literal. *)
Definition ADMITTED_RECLAIM_ATTEMPT_CAP : N := 5.

(** ** Declared invariants *)

Definition live_claim_requires_owner
    (s : OccurrenceLifecycleMachineState) : bool :=
  (negb (is_live_claim_phase (lifecycle_phase s))) || (claimed_by s != None).

Definition superseded_records_revision
    (s : OccurrenceLifecycleMachineState) : bool :=
  (lifecycle_phase s != Superseded) || (superseded_by_revision s != None).

Definition delivery_failed_records_failure_class
    (s : OccurrenceLifecycleMachineState) : bool :=
  (lifecycle_phase s != DeliveryFailed) || (failure_class s != None).

Definition misfire_deadline_not_before_due
    (s : OccurrenceLifecycleMachineState) : bool :=
  (due_at_utc_ms s <=? misfire_deadline_utc_ms s)%N.

Definition late_completion_only_after_supersession
    (s : OccurrenceLifecycleMachineState) : bool :=
  (late_completion_resolution s == None)
  || (lifecycle_phase s == Superseded).

Definition late_completion_resolution_requires_timestamp
    (s : OccurrenceLifecycleMachineState) : bool :=
  (late_completion_resolution s == None)
  || (late_completion_recorded_at_utc_ms s != None).

Definition late_completion_timestamp_requires_resolution
    (s : OccurrenceLifecycleMachineState) : bool :=
  (late_completion_recorded_at_utc_ms s == None)
  || (late_completion_resolution s != None).

Definition late_completion_detail_requires_resolution
    (s : OccurrenceLifecycleMachineState) : bool :=
  (late_completion_detail s == None)
  || (late_completion_resolution s != None).

(** ** Transitions *)

#[export] Instance occurrence_phased :
    Phased OccurrenceLifecycleMachineState OccurrenceLifecycleState := {|
  phase := lifecycle_phase;
  set_phase := λ p s, s <| lifecycle_phase := p |>;
  phase_name := λ p, match p with
   | Pending => "Pending" | Claimed => "Claimed" | Dispatching => "Dispatching"
    | AwaitingCompletion => "AwaitingCompletion" | Completed => "Completed"
    | Skipped => "Skipped" | Misfired => "Misfired" | Superseded => "Superseded"
    | DeliveryFailed => "DeliveryFailed" end;
|}.

Section Transitions.
Context {BP : BuildProfile}.

Abbreviation State := OccurrenceLifecycleMachineState.
Abbreviation transition :=
  (Transition OccurrenceLifecycleMachineState OccurrenceLifecycleState
     OccurrenceLifecycleEffect).

(** *** Transition failure classification *)

Definition ClassifyTransitionFailurePlanRejected
    (refusal_kind : OccurrenceTransitionFailureRefusalKind)
    (trigger : OccurrenceLifecycleInputVariant) : list transition :=
  expand_per_phase [Pending; Claimed; Dispatching; AwaitingCompletion; Completed;
    Skipped; Misfired; Superseded; DeliveryFailed] {|
  tr_name := "ClassifyTransitionFailurePlanRejected";
  tr_guard := λ s,
       (trigger == V_PlanOccurrence)
    && ((refusal_kind == OccurrenceTransitionFailureRefusalKind_GuardRejected)
        || (refusal_kind == OccurrenceTransitionFailureRefusalKind_NoMatchingTransition));
  tr_absent := no_map_read;
  tr_update := Some;
  tr_to := Pending;
  tr_emit := λ s,
      [E_TransitionFailureClassified (lifecycle_phase s) refusal_kind trigger
         OccurrenceTransitionFailureClassKind_PlanRejected];
|}.

Definition ClassifyTransitionFailureTargetSyncRejected
    (refusal_kind : OccurrenceTransitionFailureRefusalKind)
    (trigger : OccurrenceLifecycleInputVariant) : list transition :=
  expand_per_phase [Pending; Claimed; Dispatching; AwaitingCompletion; Completed;
    Skipped; Misfired; Superseded; DeliveryFailed] {|
  tr_name := "ClassifyTransitionFailureTargetSyncRejected";
  tr_guard := λ s,
       (trigger == V_SyncTargetSnapshot)
    && ((refusal_kind == OccurrenceTransitionFailureRefusalKind_GuardRejected)
        || (refusal_kind == OccurrenceTransitionFailureRefusalKind_NoMatchingTransition));
  tr_absent := no_map_read;
  tr_update := Some;
  tr_to := Pending;
  tr_emit := λ s,
      [E_TransitionFailureClassified (lifecycle_phase s) refusal_kind trigger
         OccurrenceTransitionFailureClassKind_TargetSyncRejected];
|}.

Definition ClassifyTransitionFailureReceiptRecordRejected
    (refusal_kind : OccurrenceTransitionFailureRefusalKind)
    (trigger : OccurrenceLifecycleInputVariant) : list transition :=
  expand_per_phase [Pending; Claimed; Dispatching; AwaitingCompletion; Completed;
    Skipped; Misfired; Superseded; DeliveryFailed] {|
  tr_name := "ClassifyTransitionFailureReceiptRecordRejected";
  tr_guard := λ s,
       (trigger == V_RecordReceipt)
    && ((refusal_kind == OccurrenceTransitionFailureRefusalKind_GuardRejected)
        || (refusal_kind == OccurrenceTransitionFailureRefusalKind_NoMatchingTransition));
  tr_absent := no_map_read;
  tr_update := Some;
  tr_to := Pending;
  tr_emit := λ s,
      [E_TransitionFailureClassified (lifecycle_phase s) refusal_kind trigger
         OccurrenceTransitionFailureClassKind_ReceiptRecordRejected];
|}.

Definition ClassifyTransitionFailureDueClassificationRejected
    (refusal_kind : OccurrenceTransitionFailureRefusalKind)
    (trigger : OccurrenceLifecycleInputVariant) : list transition :=
  expand_per_phase [Pending; Claimed; Dispatching; AwaitingCompletion; Completed;
    Skipped; Misfired; Superseded; DeliveryFailed] {|
  tr_name := "ClassifyTransitionFailureDueClassificationRejected";
  tr_guard := λ s,
       (trigger == V_ClassifyDue)
    && ((refusal_kind == OccurrenceTransitionFailureRefusalKind_GuardRejected)
        || (refusal_kind == OccurrenceTransitionFailureRefusalKind_NoMatchingTransition));
  tr_absent := no_map_read;
  tr_update := Some;
  tr_to := Pending;
  tr_emit := λ s,
      [E_TransitionFailureClassified (lifecycle_phase s) refusal_kind trigger
         OccurrenceTransitionFailureClassKind_DueClassificationRejected];
|}.

Definition ClassifyTransitionFailureClaimedDispatchDispositionRejected
    (refusal_kind : OccurrenceTransitionFailureRefusalKind)
    (trigger : OccurrenceLifecycleInputVariant) : list transition :=
  expand_per_phase [Pending; Claimed; Dispatching; AwaitingCompletion; Completed;
    Skipped; Misfired; Superseded; DeliveryFailed] {|
  tr_name := "ClassifyTransitionFailureClaimedDispatchDispositionRejected";
  tr_guard := λ s,
       (trigger == V_ClassifyClaimedDispatchDisposition)
    && ((refusal_kind == OccurrenceTransitionFailureRefusalKind_GuardRejected)
        || (refusal_kind == OccurrenceTransitionFailureRefusalKind_NoMatchingTransition));
  tr_absent := no_map_read;
  tr_update := Some;
  tr_to := Pending;
  tr_emit := λ s,
      [E_TransitionFailureClassified (lifecycle_phase s) refusal_kind trigger
         OccurrenceTransitionFailureClassKind_ClaimedDispatchClassificationRejected];
|}.

Definition ClassifyTransitionFailureCompletionSupersessionRejected
    (refusal_kind : OccurrenceTransitionFailureRefusalKind)
    (trigger : OccurrenceLifecycleInputVariant) : list transition :=
  expand_per_phase [Pending; Claimed; Dispatching; AwaitingCompletion; Completed;
    Skipped; Misfired; Superseded; DeliveryFailed] {|
  tr_name := "ClassifyTransitionFailureCompletionSupersessionRejected";
  tr_guard := λ s,
       (trigger == V_ClassifyCompletionSupersession)
    && ((refusal_kind == OccurrenceTransitionFailureRefusalKind_GuardRejected)
        || (refusal_kind == OccurrenceTransitionFailureRefusalKind_NoMatchingTransition));
  tr_absent := no_map_read;
  tr_update := Some;
  tr_to := Pending;
  tr_emit := λ s,
      [E_TransitionFailureClassified (lifecycle_phase s) refusal_kind trigger
         OccurrenceTransitionFailureClassKind_CompletionSupersessionClassificationRejected];
|}.

Definition ClassifyTransitionFailureClaimRejectedPending
    (refusal_kind : OccurrenceTransitionFailureRefusalKind)
    (trigger : OccurrenceLifecycleInputVariant) : list transition :=
  expand_per_phase [Pending] {|
  tr_name := "ClassifyTransitionFailureClaimRejectedPending";
  tr_guard := λ s,
       (trigger == V_Claim)
    && (refusal_kind == OccurrenceTransitionFailureRefusalKind_GuardRejected);
  tr_absent := no_map_read;
  tr_update := Some;
  tr_to := Pending;
  tr_emit := λ s,
      [E_TransitionFailureClassified (lifecycle_phase s) refusal_kind trigger
         OccurrenceTransitionFailureClassKind_ClaimRejected];
|}.

Definition ClassifyTransitionFailureNotPendingForClaim
    (refusal_kind : OccurrenceTransitionFailureRefusalKind)
    (trigger : OccurrenceLifecycleInputVariant) : list transition :=
  expand_per_phase [Claimed; Dispatching; AwaitingCompletion; Completed; Skipped;
    Misfired; Superseded; DeliveryFailed] {|
  tr_name := "ClassifyTransitionFailureNotPendingForClaim";
  tr_guard := λ s,
       (trigger == V_Claim)
    && ((refusal_kind == OccurrenceTransitionFailureRefusalKind_GuardRejected)
        || (refusal_kind == OccurrenceTransitionFailureRefusalKind_NoMatchingTransition));
  tr_absent := no_map_read;
  tr_update := Some;
  tr_to := Pending;
  tr_emit := λ s,
      [E_TransitionFailureClassified (lifecycle_phase s) refusal_kind trigger
         OccurrenceTransitionFailureClassKind_NotPendingForClaim];
|}.

Definition ClassifyTransitionFailureNotClaimed
    (refusal_kind : OccurrenceTransitionFailureRefusalKind)
    (trigger : OccurrenceLifecycleInputVariant) : list transition :=
  expand_per_phase [Pending; Claimed; Dispatching; AwaitingCompletion; Completed;
    Skipped; Misfired; Superseded; DeliveryFailed] {|
  tr_name := "ClassifyTransitionFailureNotClaimed";
  tr_guard := λ s,
       (trigger == V_DispatchStarted)
    && ((refusal_kind == OccurrenceTransitionFailureRefusalKind_GuardRejected)
        || (refusal_kind == OccurrenceTransitionFailureRefusalKind_NoMatchingTransition));
  tr_absent := no_map_read;
  tr_update := Some;
  tr_to := Pending;
  tr_emit := λ s,
      [E_TransitionFailureClassified (lifecycle_phase s) refusal_kind trigger
         OccurrenceTransitionFailureClassKind_NotClaimed];
|}.

Definition ClassifyTransitionFailureNotDispatching
    (refusal_kind : OccurrenceTransitionFailureRefusalKind)
    (trigger : OccurrenceLifecycleInputVariant) : list transition :=
  expand_per_phase [Pending; Claimed; Dispatching; AwaitingCompletion; Completed;
    Skipped; Misfired; Superseded; DeliveryFailed] {|
  tr_name := "ClassifyTransitionFailureNotDispatching";
  tr_guard := λ s,
       ((trigger == V_DispatchAccepted) || (trigger == V_AwaitCompletion))
    && ((refusal_kind == OccurrenceTransitionFailureRefusalKind_GuardRejected)
        || (refusal_kind == OccurrenceTransitionFailureRefusalKind_NoMatchingTransition));
  tr_absent := no_map_read;
  tr_update := Some;
  tr_to := Pending;
  tr_emit := λ s,
      [E_TransitionFailureClassified (lifecycle_phase s) refusal_kind trigger
         OccurrenceTransitionFailureClassKind_NotDispatching];
|}.

Definition ClassifyTransitionFailureNotLeaseHolding
    (refusal_kind : OccurrenceTransitionFailureRefusalKind)
    (trigger : OccurrenceLifecycleInputVariant) : list transition :=
  expand_per_phase [Pending; Claimed; Dispatching; AwaitingCompletion; Completed;
    Skipped; Misfired; Superseded; DeliveryFailed] {|
  tr_name := "ClassifyTransitionFailureNotLeaseHolding";
  tr_guard := λ s,
       ((trigger == V_LeaseExpired)
        || (trigger == V_ReleaseLeaseForPausedSchedule)
        || (trigger == V_RenewLease))
    && ((refusal_kind == OccurrenceTransitionFailureRefusalKind_GuardRejected)
        || (refusal_kind == OccurrenceTransitionFailureRefusalKind_NoMatchingTransition));
  tr_absent := no_map_read;
  tr_update := Some;
  tr_to := Pending;
  tr_emit := λ s,
      [E_TransitionFailureClassified (lifecycle_phase s) refusal_kind trigger
         OccurrenceTransitionFailureClassKind_NotLeaseHolding];
|}.

Definition ClassifyTransitionFailureNotLiveForTerminal
    (refusal_kind : OccurrenceTransitionFailureRefusalKind)
    (trigger : OccurrenceLifecycleInputVariant) : list transition :=
  expand_per_phase [Pending; Claimed; Dispatching; AwaitingCompletion; Completed;
    Skipped; Misfired; Superseded; DeliveryFailed] {|
  tr_name := "ClassifyTransitionFailureNotLiveForTerminal";
  tr_guard := λ s,
       ((trigger == V_Complete)
        || (trigger == V_ResolveRuntimeCompletion)
        || (trigger == V_ResolveDeliveryCompletionFailure)
        || (trigger == V_ResolveDeliveryFailure)
        || (trigger == V_ResolveTargetProbe)
        || (trigger == V_ResolveDueMisfire)
        || (trigger == V_ResolveReclaimExhausted)
        || (trigger == V_ResolveUnprovenLateNotAdmitted)
        || (trigger == V_Supersede))
    && ((refusal_kind == OccurrenceTransitionFailureRefusalKind_GuardRejected)
        || (refusal_kind == OccurrenceTransitionFailureRefusalKind_NoMatchingTransition));
  tr_absent := no_map_read;
  tr_update := Some;
  tr_to := Pending;
  tr_emit := λ s,
      [E_TransitionFailureClassified (lifecycle_phase s) refusal_kind trigger
         OccurrenceTransitionFailureClassKind_NotLiveForTerminal];
|}.

Definition ClassifyTransitionFailureStaleCompletionArrivalRejected
    (refusal_kind : OccurrenceTransitionFailureRefusalKind)
    (trigger : OccurrenceLifecycleInputVariant) : list transition :=
  expand_per_phase [Pending; Claimed; Dispatching; AwaitingCompletion; Completed;
    Skipped; Misfired; Superseded; DeliveryFailed] {|
  tr_name := "ClassifyTransitionFailureStaleCompletionArrivalRejected";
  tr_guard := λ s,
       (trigger == V_ClassifyStaleCompletionArrival)
    && ((refusal_kind == OccurrenceTransitionFailureRefusalKind_GuardRejected)
        || (refusal_kind == OccurrenceTransitionFailureRefusalKind_NoMatchingTransition));
  tr_absent := no_map_read;
  tr_update := Some;
  tr_to := Pending;
  tr_emit := λ s,
      [E_TransitionFailureClassified (lifecycle_phase s) refusal_kind trigger
         OccurrenceTransitionFailureClassKind_StaleCompletionArrivalClassificationRejected];
|}.

(** *** Stale completion arrival classification (0.7.2 D2a) *)

Definition ClassifyStaleCompletionArrivalObserved
    (trigger : OccurrenceLifecycleInputVariant) : list transition :=
  expand_per_phase [Pending; Claimed; Dispatching; AwaitingCompletion; Completed;
    Skipped; Misfired; Superseded; DeliveryFailed] {|
  tr_name := "ClassifyStaleCompletionArrivalObserved";
  tr_guard := λ s,
       (trigger == V_Complete)
    || (trigger == V_ResolveRuntimeCompletion)
    || (trigger == V_ResolveDeliveryCompletionFailure)
    || (trigger == V_ResolveDeliveryFailure)
    || (trigger == V_Supersede);
  tr_absent := no_map_read;
  tr_update := λ s,
    n ← u64_add (stale_completion_arrivals s) 1%N;
    Some (s <| stale_completion_arrivals := n |>);
  tr_to := Pending;
  tr_emit := λ s, [E_StaleCompletionArrivalClassified (lifecycle_phase s) trigger];
|}.

(** *** Plan occurrence *)

Definition PlanOccurrenceFromPending (occurrence_id' : OccurrenceId)
    (schedule_id' : ScheduleId) (schedule_revision' : N) (occurrence_ordinal' : N)
    (trigger_key' : TriggerKey) (target_binding_key' : TargetBindingId)
    (misfire_policy' : MisfirePolicy) (misfire_policy_key' : string)
    (overlap_policy' : OverlapPolicy) (overlap_policy_key' : string)
    (missing_target_policy' : MissingTargetPolicy) (missing_target_policy_key' : string)
    (target_materialized_session_id' : option SessionId) (due_at_utc_ms' : N)
    (misfire_deadline_utc_ms' : N) : transition := {|
  tr_name := "PlanOccurrenceFromPending";
  tr_guard := λ s,
       (lifecycle_phase s == Pending)
    && (attempt_count s =? 0)%N
    && (claimed_by s == None)
    && (claim_token s == None)
    && (delivery_correlation_id s == None)
    && (target_materialized_session_id s == None)
    && (completed_at_utc_ms s == None)
    && (superseded_by_revision s == None)
    && (due_at_utc_ms' <=? misfire_deadline_utc_ms')%N;
  tr_absent := no_map_read;
  tr_update := λ s,
    Some (s <| occurrence_id := occurrence_id' |> <| schedule_id := schedule_id' |>
         <| schedule_revision := schedule_revision' |>
         <| occurrence_ordinal := occurrence_ordinal' |> <| trigger_key := trigger_key' |>
         <| target_binding_key := target_binding_key' |>
         <| misfire_policy := misfire_policy' |>
         <| misfire_policy_key := misfire_policy_key' |>
         <| overlap_policy := overlap_policy' |>
         <| overlap_policy_key := overlap_policy_key' |>
         <| missing_target_policy := missing_target_policy' |>
         <| missing_target_policy_key := missing_target_policy_key' |>
         <| target_materialized_session_id := target_materialized_session_id' |>
         <| due_at_utc_ms := due_at_utc_ms' |>
         <| misfire_deadline_utc_ms := misfire_deadline_utc_ms' |> <| claimed_by := None |>
         <| lease_expires_at_utc_ms := None |> <| claimed_at_utc_ms := None |>
         <| claim_token := None |> <| delivery_correlation_id := None |>
         <| receipt_recorded_at_utc_ms := None |>
         <| last_receipt_recorded_at_utc_ms := None |> <| last_receipt_attempt := None |>
         <| last_receipt_stage := None |> <| last_receipt_failure_class := None |>
         <| last_receipt_detail := None |> <| last_receipt_correlation_id := None |>
         <| last_receipt_materialized_session_id := None |>
         <| runtime_outcome_key := None |> <| receipt_stage := None |>
         <| receipt_failure_class := None |> <| receipt_detail := None |>
         <| failure_class := None |> <| failure_detail := None |>
         <| dispatched_at_utc_ms := None |> <| completed_at_utc_ms := None |>
         <| attempt_count := 0%N |> <| superseded_by_revision := None |>
         <| late_completion_recorded_at_utc_ms := None |>
         <| late_completion_resolution := None |> <| late_completion_detail := None |>
         <| stale_completion_arrivals := 0%N |>);
  tr_to := Pending;
  tr_emit := λ s, [];
|}.

(** *** Due classification *)

Definition ClassifyDuePendingFuture (now_utc_ms : N)
    (admission_evidence : AdmissionEvidence) : transition := {|
  tr_name := "ClassifyDuePendingFuture";
  tr_guard := λ s, (lifecycle_phase s == Pending) && (now_utc_ms <? due_at_utc_ms s)%N;
  tr_absent := no_map_read;
  tr_update := Some;
  tr_to := Pending;
  tr_emit := λ s, [E_DueNoAction];
|}.

Definition ClassifyDuePendingMisfire (now_utc_ms : N)
    (admission_evidence : AdmissionEvidence) : transition := {|
  tr_name := "ClassifyDuePendingMisfire";
  tr_guard := λ s,
       (lifecycle_phase s == Pending)
    && (due_at_utc_ms s <=? now_utc_ms)%N
    && (misfire_deadline_utc_ms s <? now_utc_ms)%N
    && (admission_evidence == AdmissionEvidence_Unrecorded);
  tr_absent := no_map_read;
  tr_update := Some;
  tr_to := Pending;
  tr_emit := λ s, [E_DueMisfireRequired];
|}.

Definition ClassifyDuePendingClaimEligible (now_utc_ms : N)
    (admission_evidence : AdmissionEvidence) : transition := {|
  tr_name := "ClassifyDuePendingClaimEligible";
  tr_guard := λ s,
       (lifecycle_phase s == Pending)
    && (due_at_utc_ms s <=? now_utc_ms)%N
    && ((now_utc_ms <=? misfire_deadline_utc_ms s)%N
        || ((admission_evidence != AdmissionEvidence_Unrecorded) && (attempt_count s <? 5)%N));
  tr_absent := no_map_read;
  tr_update := Some;
  tr_to := Pending;
  tr_emit := λ s, [E_DueClaimEligible];
|}.

Definition ClassifyDuePendingReclaimExhausted (now_utc_ms : N)
    (admission_evidence : AdmissionEvidence) : transition := {|
  tr_name := "ClassifyDuePendingReclaimExhausted";
  tr_guard := λ s,
       (lifecycle_phase s == Pending)
    && (due_at_utc_ms s <=? now_utc_ms)%N
    && (misfire_deadline_utc_ms s <? now_utc_ms)%N
    && (admission_evidence != AdmissionEvidence_Unrecorded)
    && (5 <=? attempt_count s)%N;
  tr_absent := no_map_read;
  tr_update := Some;
  tr_to := Pending;
  tr_emit := λ s, [E_DueReclaimExhausted];
|}.

Definition ClassifyDueClaimedLeaseExpired (now_utc_ms : N)
    (admission_evidence : AdmissionEvidence) : transition := {|
  tr_name := "ClassifyDueClaimedLeaseExpired";
  tr_guard := λ s,
       (lifecycle_phase s == Claimed)
    && (lease_expires_at_utc_ms s != None)
    && (get_value (lease_expires_at_utc_ms s) <=? now_utc_ms)%N;
  tr_absent := no_map_read;
  tr_update := Some;
  tr_to := Claimed;
  tr_emit := λ s, [E_DueLeaseExpired];
|}.

Definition ClassifyDueDispatchingLeaseExpired (now_utc_ms : N)
    (admission_evidence : AdmissionEvidence) : transition := {|
  tr_name := "ClassifyDueDispatchingLeaseExpired";
  tr_guard := λ s,
       (lifecycle_phase s == Dispatching)
    && (lease_expires_at_utc_ms s != None)
    && (get_value (lease_expires_at_utc_ms s) <=? now_utc_ms)%N;
  tr_absent := no_map_read;
  tr_update := Some;
  tr_to := Dispatching;
  tr_emit := λ s, [E_DueLeaseExpired];
|}.

Definition ClassifyDueAwaitingCompletionLeaseExpired (now_utc_ms : N)
    (admission_evidence : AdmissionEvidence) : transition := {|
  tr_name := "ClassifyDueAwaitingCompletionLeaseExpired";
  tr_guard := λ s,
       (lifecycle_phase s == AwaitingCompletion)
    && (lease_expires_at_utc_ms s != None)
    && (get_value (lease_expires_at_utc_ms s) <=? now_utc_ms)%N;
  tr_absent := no_map_read;
  tr_update := Some;
  tr_to := AwaitingCompletion;
  tr_emit := λ s, [E_DueLeaseExpired];
|}.

Definition ClassifyDueClaimedLeaseCurrent (now_utc_ms : N)
    (admission_evidence : AdmissionEvidence) : transition := {|
  tr_name := "ClassifyDueClaimedLeaseCurrent";
  tr_guard := λ s,
       (lifecycle_phase s == Claimed)
    && ((lease_expires_at_utc_ms s == None)
        || (now_utc_ms <? get_value (lease_expires_at_utc_ms s))%N);
  tr_absent := no_map_read;
  tr_update := Some;
  tr_to := Claimed;
  tr_emit := λ s, [E_DueNoAction];
|}.

Definition ClassifyDueDispatchingLeaseCurrent (now_utc_ms : N)
    (admission_evidence : AdmissionEvidence) : transition := {|
  tr_name := "ClassifyDueDispatchingLeaseCurrent";
  tr_guard := λ s,
       (lifecycle_phase s == Dispatching)
    && ((lease_expires_at_utc_ms s == None)
        || (now_utc_ms <? get_value (lease_expires_at_utc_ms s))%N);
  tr_absent := no_map_read;
  tr_update := Some;
  tr_to := Dispatching;
  tr_emit := λ s, [E_DueNoAction];
|}.

Definition ClassifyDueAwaitingCompletionLeaseCurrent (now_utc_ms : N)
    (admission_evidence : AdmissionEvidence) : transition := {|
  tr_name := "ClassifyDueAwaitingCompletionLeaseCurrent";
  tr_guard := λ s,
       (lifecycle_phase s == AwaitingCompletion)
    && ((lease_expires_at_utc_ms s == None)
        || (now_utc_ms <? get_value (lease_expires_at_utc_ms s))%N);
  tr_absent := no_map_read;
  tr_update := Some;
  tr_to := AwaitingCompletion;
  tr_emit := λ s, [E_DueNoAction];
|}.

Definition ClassifyDueCompletedNoAction (now_utc_ms : N)
    (admission_evidence : AdmissionEvidence) : transition := {|
  tr_name := "ClassifyDueCompletedNoAction";
  tr_guard := λ s, lifecycle_phase s == Completed;
  tr_absent := no_map_read;
  tr_update := Some;
  tr_to := Completed;
  tr_emit := λ s, [E_DueNoAction];
|}.

Definition ClassifyDueSkippedNoAction (now_utc_ms : N)
    (admission_evidence : AdmissionEvidence) : transition := {|
  tr_name := "ClassifyDueSkippedNoAction";
  tr_guard := λ s, lifecycle_phase s == Skipped;
  tr_absent := no_map_read;
  tr_update := Some;
  tr_to := Skipped;
  tr_emit := λ s, [E_DueNoAction];
|}.

Definition ClassifyDueMisfiredNoAction (now_utc_ms : N)
    (admission_evidence : AdmissionEvidence) : transition := {|
  tr_name := "ClassifyDueMisfiredNoAction";
  tr_guard := λ s, lifecycle_phase s == Misfired;
  tr_absent := no_map_read;
  tr_update := Some;
  tr_to := Misfired;
  tr_emit := λ s, [E_DueNoAction];
|}.

Definition ClassifyDueSupersededNoAction (now_utc_ms : N)
    (admission_evidence : AdmissionEvidence) : transition := {|
  tr_name := "ClassifyDueSupersededNoAction";
  tr_guard := λ s, lifecycle_phase s == Superseded;
  tr_absent := no_map_read;
  tr_update := Some;
  tr_to := Superseded;
  tr_emit := λ s, [E_DueNoAction];
|}.

Definition ClassifyDueDeliveryFailedNoAction (now_utc_ms : N)
    (admission_evidence : AdmissionEvidence) : transition := {|
  tr_name := "ClassifyDueDeliveryFailedNoAction";
  tr_guard := λ s, lifecycle_phase s == DeliveryFailed;
  tr_absent := no_map_read;
  tr_update := Some;
  tr_to := DeliveryFailed;
  tr_emit := λ s, [E_DueNoAction];
|}.

(** *** Terminality classification *)

Definition ClassifyOccurrenceTerminalityTerminal : list transition :=
  expand_per_phase [Completed; Skipped; Misfired; Superseded; DeliveryFailed] {|
  tr_name := "ClassifyOccurrenceTerminalityTerminal";
  tr_guard := λ s, true;
  tr_absent := no_map_read;
  tr_update := Some;
  tr_to := Pending;
  tr_emit := λ s, [E_OccurrenceTerminalityClassified true];
|}.

Definition ClassifyOccurrenceTerminalityLive : list transition :=
  expand_per_phase [Pending; Claimed; Dispatching; AwaitingCompletion] {|
  tr_name := "ClassifyOccurrenceTerminalityLive";
  tr_guard := λ s, true;
  tr_absent := no_map_read;
  tr_update := Some;
  tr_to := Pending;
  tr_emit := λ s, [E_OccurrenceTerminalityClassified false];
|}.

(** *** Claimed-occurrence pre-dispatch disposition *)

Definition ClassifyClaimedDispatchDispositionFutureRevision
    (schedule_phase : ClaimedDispatchSchedulePhase) (current_schedule_revision : N)
    : transition := {|
  tr_name := "ClassifyClaimedDispatchDispositionFutureRevision";
  tr_guard := λ s,
       (lifecycle_phase s == Claimed)
    && (current_schedule_revision <? schedule_revision s)%N;
  tr_absent := no_map_read;
  tr_update := Some;
  tr_to := Claimed;
  tr_emit := λ s,
      [E_ClaimedDispatchDispositionClassified ClaimedDispatchDisposition_FutureRevision None];
|}.

Definition ClassifyClaimedDispatchDispositionFrozen
    (schedule_phase : ClaimedDispatchSchedulePhase) (current_schedule_revision : N)
    : transition := {|
  tr_name := "ClassifyClaimedDispatchDispositionFrozen";
  tr_guard := λ s,
       (lifecycle_phase s == Claimed)
    && (schedule_revision s <=? current_schedule_revision)%N
    && (schedule_phase == ClaimedDispatchSchedulePhase_Paused);
  tr_absent := no_map_read;
  tr_update := Some;
  tr_to := Claimed;
  tr_emit := λ s,
      [E_ClaimedDispatchDispositionClassified ClaimedDispatchDisposition_Frozen None];
|}.

Definition ClassifyClaimedDispatchDispositionSupersedeDeleted
    (schedule_phase : ClaimedDispatchSchedulePhase) (current_schedule_revision : N)
    : transition := {|
  tr_name := "ClassifyClaimedDispatchDispositionSupersedeDeleted";
  tr_guard := λ s,
       (lifecycle_phase s == Claimed)
    && (schedule_revision s <=? current_schedule_revision)%N
    && (schedule_phase == ClaimedDispatchSchedulePhase_Deleted);
  tr_absent := no_map_read;
  tr_update := Some;
  tr_to := Claimed;
  tr_emit := λ s,
      [E_ClaimedDispatchDispositionClassified ClaimedDispatchDisposition_Supersede
         (Some current_schedule_revision)];
|}.

Definition ClassifyClaimedDispatchDispositionSupersedeStale
    (schedule_phase : ClaimedDispatchSchedulePhase) (current_schedule_revision : N)
    : transition := {|
  tr_name := "ClassifyClaimedDispatchDispositionSupersedeStale";
  tr_guard := λ s,
       (lifecycle_phase s == Claimed)
    && (schedule_phase == ClaimedDispatchSchedulePhase_Active)
    && (schedule_revision s <? current_schedule_revision)%N;
  tr_absent := no_map_read;
  tr_update := Some;
  tr_to := Claimed;
  tr_emit := λ s,
      [E_ClaimedDispatchDispositionClassified ClaimedDispatchDisposition_Supersede
         (Some current_schedule_revision)];
|}.

Definition ClassifyClaimedDispatchDispositionReady
    (schedule_phase : ClaimedDispatchSchedulePhase) (current_schedule_revision : N)
    : transition := {|
  tr_name := "ClassifyClaimedDispatchDispositionReady";
  tr_guard := λ s,
       (lifecycle_phase s == Claimed)
    && (schedule_phase == ClaimedDispatchSchedulePhase_Active)
    && (schedule_revision s =? current_schedule_revision)%N;
  tr_absent := no_map_read;
  tr_update := Some;
  tr_to := Claimed;
  tr_emit := λ s,
      [E_ClaimedDispatchDispositionClassified ClaimedDispatchDisposition_Ready None];
|}.

(** *** Post-completion supersession disposition *)

Definition ClassifyCompletionSupersessionDeleted
    (schedule_phase : ClaimedDispatchSchedulePhase) (current_schedule_revision : N)
    : transition := {|
  tr_name := "ClassifyCompletionSupersessionDeleted";
  tr_guard := λ s,
       (lifecycle_phase s == AwaitingCompletion)
    && (schedule_phase == ClaimedDispatchSchedulePhase_Deleted);
  tr_absent := no_map_read;
  tr_update := Some;
  tr_to := AwaitingCompletion;
  tr_emit := λ s,
      [E_CompletionSupersessionClassified CompletionSupersessionDisposition_Supersede
         (Some current_schedule_revision)];
|}.

Definition ClassifyCompletionSupersessionStale
    (schedule_phase : ClaimedDispatchSchedulePhase) (current_schedule_revision : N)
    : transition := {|
  tr_name := "ClassifyCompletionSupersessionStale";
  tr_guard := λ s,
       (lifecycle_phase s == AwaitingCompletion)
    && (schedule_phase != ClaimedDispatchSchedulePhase_Deleted)
    && (schedule_revision s <? current_schedule_revision)%N;
  tr_absent := no_map_read;
  tr_update := Some;
  tr_to := AwaitingCompletion;
  tr_emit := λ s,
      [E_CompletionSupersessionClassified CompletionSupersessionDisposition_Supersede
         (Some current_schedule_revision)];
|}.

Definition ClassifyCompletionSupersessionProceed
    (schedule_phase : ClaimedDispatchSchedulePhase) (current_schedule_revision : N)
    : transition := {|
  tr_name := "ClassifyCompletionSupersessionProceed";
  tr_guard := λ s,
       (lifecycle_phase s == AwaitingCompletion)
    && (schedule_phase != ClaimedDispatchSchedulePhase_Deleted)
    && (current_schedule_revision <=? schedule_revision s)%N;
  tr_absent := no_map_read;
  tr_update := Some;
  tr_to := AwaitingCompletion;
  tr_emit := λ s,
      [E_CompletionSupersessionClassified CompletionSupersessionDisposition_Proceed None];
|}.

Definition ClassifyCompletionSupersessionAlreadySuperseded
    (schedule_phase : ClaimedDispatchSchedulePhase) (current_schedule_revision : N)
    : transition := {|
  tr_name := "ClassifyCompletionSupersessionAlreadySuperseded";
  tr_guard := λ s, lifecycle_phase s == Superseded;
  tr_absent := no_map_read;
  tr_update := Some;
  tr_to := Superseded;
  tr_emit := λ s,
      [E_CompletionSupersessionClassified CompletionSupersessionDisposition_AlreadySuperseded None];
|}.

(** *** Target snapshot sync *)

(** The update block of [SyncTargetSnapshotPending], [SyncTargetSnapshotClaimed], [SyncTargetSnapshotDispatching]. *)
Definition sync_target_update (target_binding_key' : TargetBindingId)
    (target_materialized_session_id' : option SessionId) (s : State) : option State :=
  Some (s <| target_binding_key := target_binding_key' |>
       <| target_materialized_session_id := target_materialized_session_id' |>).

Definition SyncTargetSnapshotPending (target_binding_key' : TargetBindingId)
    (target_materialized_session_id' : option SessionId) : transition := {|
  tr_name := "SyncTargetSnapshotPending";
  tr_guard := λ s, lifecycle_phase s == Pending;
  tr_absent := no_map_read;
  tr_update := sync_target_update target_binding_key' target_materialized_session_id';
  tr_to := Pending;
  tr_emit := λ s, [];
|}.

Definition SyncTargetSnapshotClaimed (target_binding_key' : TargetBindingId)
    (target_materialized_session_id' : option SessionId) : transition := {|
  tr_name := "SyncTargetSnapshotClaimed";
  tr_guard := λ s, lifecycle_phase s == Claimed;
  tr_absent := no_map_read;
  tr_update := sync_target_update target_binding_key' target_materialized_session_id';
  tr_to := Claimed;
  tr_emit := λ s, [];
|}.

Definition SyncTargetSnapshotDispatching (target_binding_key' : TargetBindingId)
    (target_materialized_session_id' : option SessionId) : transition := {|
  tr_name := "SyncTargetSnapshotDispatching";
  tr_guard := λ s,
       (lifecycle_phase s == Dispatching)
    && (target_materialized_session_id' != None)
    && ((target_materialized_session_id s == None)
        || ((target_materialized_session_id s == target_materialized_session_id') && (target_binding_key s == target_binding_key')));
  tr_absent := no_map_read;
  tr_update := sync_target_update target_binding_key' target_materialized_session_id';
  tr_to := Dispatching;
  tr_emit := λ s, [];
|}.

(** *** Receipt/result projection *)

(** The update block of [RecordReceiptPending] and the 8 arms that repeat it. *)
Definition record_receipt_update (correlation_id : option CorrelationId)
    (detail : option string) (materialized_session_id : option SessionId)
    (runtime_outcome_key' : option RuntimeOutcomeKey) (s : State) : option State :=
  Some (s <| last_receipt_recorded_at_utc_ms := receipt_recorded_at_utc_ms s |>
       <| last_receipt_attempt := Some (attempt_count s) |>
       <| last_receipt_stage := receipt_stage s |>
       <| last_receipt_failure_class := receipt_failure_class s |>
       <| last_receipt_detail := detail |>
       <| last_receipt_correlation_id := correlation_id |>
       <| last_receipt_materialized_session_id := materialized_session_id |>
       <| runtime_outcome_key := runtime_outcome_key' |>).

Definition RecordReceiptPending (correlation_id : option CorrelationId)
    (detail : option string) (materialized_session_id : option SessionId)
    (runtime_outcome_key' : option RuntimeOutcomeKey) : transition := {|
  tr_name := "RecordReceiptPending";
  tr_guard := λ s,
       (lifecycle_phase s == Pending)
    && (receipt_stage s != None)
    && (receipt_recorded_at_utc_ms s != None)
    && (receipt_detail s == detail)
    && (delivery_correlation_id s == correlation_id)
    && (target_materialized_session_id s == materialized_session_id);
  tr_absent := no_map_read;
  tr_update := record_receipt_update correlation_id detail materialized_session_id runtime_outcome_key';
  tr_to := Pending;
  tr_emit := λ s, [];
|}.

Definition RecordReceiptClaimed (correlation_id : option CorrelationId)
    (detail : option string) (materialized_session_id : option SessionId)
    (runtime_outcome_key' : option RuntimeOutcomeKey) : transition := {|
  tr_name := "RecordReceiptClaimed";
  tr_guard := λ s,
       (lifecycle_phase s == Claimed)
    && (receipt_stage s != None)
    && (receipt_recorded_at_utc_ms s != None)
    && (receipt_detail s == detail)
    && (delivery_correlation_id s == correlation_id)
    && (target_materialized_session_id s == materialized_session_id);
  tr_absent := no_map_read;
  tr_update := record_receipt_update correlation_id detail materialized_session_id runtime_outcome_key';
  tr_to := Claimed;
  tr_emit := λ s, [];
|}.

Definition RecordReceiptDispatching (correlation_id : option CorrelationId)
    (detail : option string) (materialized_session_id : option SessionId)
    (runtime_outcome_key' : option RuntimeOutcomeKey) : transition := {|
  tr_name := "RecordReceiptDispatching";
  tr_guard := λ s,
       (lifecycle_phase s == Dispatching)
    && (receipt_stage s != None)
    && (receipt_recorded_at_utc_ms s != None)
    && (receipt_detail s == detail)
    && (delivery_correlation_id s == correlation_id)
    && (target_materialized_session_id s == materialized_session_id);
  tr_absent := no_map_read;
  tr_update := record_receipt_update correlation_id detail materialized_session_id runtime_outcome_key';
  tr_to := Dispatching;
  tr_emit := λ s, [];
|}.

Definition RecordReceiptAwaitingCompletion (correlation_id : option CorrelationId)
    (detail : option string) (materialized_session_id : option SessionId)
    (runtime_outcome_key' : option RuntimeOutcomeKey) : transition := {|
  tr_name := "RecordReceiptAwaitingCompletion";
  tr_guard := λ s,
       (lifecycle_phase s == AwaitingCompletion)
    && (receipt_stage s != None)
    && (receipt_recorded_at_utc_ms s != None)
    && (receipt_detail s == detail)
    && (delivery_correlation_id s == correlation_id)
    && (target_materialized_session_id s == materialized_session_id);
  tr_absent := no_map_read;
  tr_update := record_receipt_update correlation_id detail materialized_session_id runtime_outcome_key';
  tr_to := AwaitingCompletion;
  tr_emit := λ s, [];
|}.

Definition RecordReceiptCompleted (correlation_id : option CorrelationId)
    (detail : option string) (materialized_session_id : option SessionId)
    (runtime_outcome_key' : option RuntimeOutcomeKey) : transition := {|
  tr_name := "RecordReceiptCompleted";
  tr_guard := λ s,
       (lifecycle_phase s == Completed)
    && (receipt_stage s != None)
    && (receipt_recorded_at_utc_ms s != None)
    && (receipt_detail s == detail)
    && (delivery_correlation_id s == correlation_id)
    && (target_materialized_session_id s == materialized_session_id);
  tr_absent := no_map_read;
  tr_update := record_receipt_update correlation_id detail materialized_session_id runtime_outcome_key';
  tr_to := Completed;
  tr_emit := λ s, [];
|}.

Definition RecordReceiptSkipped (correlation_id : option CorrelationId)
    (detail : option string) (materialized_session_id : option SessionId)
    (runtime_outcome_key' : option RuntimeOutcomeKey) : transition := {|
  tr_name := "RecordReceiptSkipped";
  tr_guard := λ s,
       (lifecycle_phase s == Skipped)
    && (receipt_stage s != None)
    && (receipt_recorded_at_utc_ms s != None)
    && (receipt_detail s == detail)
    && (delivery_correlation_id s == correlation_id)
    && (target_materialized_session_id s == materialized_session_id);
  tr_absent := no_map_read;
  tr_update := record_receipt_update correlation_id detail materialized_session_id runtime_outcome_key';
  tr_to := Skipped;
  tr_emit := λ s, [];
|}.

Definition RecordReceiptMisfired (correlation_id : option CorrelationId)
    (detail : option string) (materialized_session_id : option SessionId)
    (runtime_outcome_key' : option RuntimeOutcomeKey) : transition := {|
  tr_name := "RecordReceiptMisfired";
  tr_guard := λ s,
       (lifecycle_phase s == Misfired)
    && (receipt_stage s != None)
    && (receipt_recorded_at_utc_ms s != None)
    && (receipt_detail s == detail)
    && (delivery_correlation_id s == correlation_id)
    && (target_materialized_session_id s == materialized_session_id);
  tr_absent := no_map_read;
  tr_update := record_receipt_update correlation_id detail materialized_session_id runtime_outcome_key';
  tr_to := Misfired;
  tr_emit := λ s, [];
|}.

Definition RecordReceiptSuperseded (correlation_id : option CorrelationId)
    (detail : option string) (materialized_session_id : option SessionId)
    (runtime_outcome_key' : option RuntimeOutcomeKey) : transition := {|
  tr_name := "RecordReceiptSuperseded";
  tr_guard := λ s,
       (lifecycle_phase s == Superseded)
    && (receipt_stage s != None)
    && (receipt_recorded_at_utc_ms s != None)
    && (receipt_detail s == detail)
    && (delivery_correlation_id s == correlation_id)
    && (target_materialized_session_id s == materialized_session_id);
  tr_absent := no_map_read;
  tr_update := record_receipt_update correlation_id detail materialized_session_id runtime_outcome_key';
  tr_to := Superseded;
  tr_emit := λ s, [];
|}.

Definition RecordReceiptDeliveryFailed (correlation_id : option CorrelationId)
    (detail : option string) (materialized_session_id : option SessionId)
    (runtime_outcome_key' : option RuntimeOutcomeKey) : transition := {|
  tr_name := "RecordReceiptDeliveryFailed";
  tr_guard := λ s,
       (lifecycle_phase s == DeliveryFailed)
    && (receipt_stage s != None)
    && (receipt_recorded_at_utc_ms s != None)
    && (receipt_detail s == detail)
    && (delivery_correlation_id s == correlation_id)
    && (target_materialized_session_id s == materialized_session_id);
  tr_absent := no_map_read;
  tr_update := record_receipt_update correlation_id detail materialized_session_id runtime_outcome_key';
  tr_to := DeliveryFailed;
  tr_emit := λ s, [];
|}.

(** *** Claim *)

(** The update block of [ClaimPending], [ClaimPendingAfterAdmission], [ClaimPendingAfterUnprovenDispatch]. *)
Definition claim_update (owner_id : ClaimOwner) (at_utc_ms : N)
    (lease_expires_at_utc_ms' : N) (claim_token' : ClaimToken)
    (s : State) : option State :=
  let s := s <| claimed_by := Some owner_id |>
          <| lease_expires_at_utc_ms := Some lease_expires_at_utc_ms' |>
          <| claimed_at_utc_ms := Some at_utc_ms |> <| claim_token := Some claim_token' |>
          <| delivery_correlation_id := None |> <| receipt_recorded_at_utc_ms := None |>
          <| last_receipt_recorded_at_utc_ms := None |> <| last_receipt_attempt := None |>
          <| last_receipt_stage := None |> <| last_receipt_failure_class := None |>
          <| last_receipt_detail := None |> <| last_receipt_correlation_id := None |>
          <| last_receipt_materialized_session_id := None |>
          <| runtime_outcome_key := None |> <| receipt_stage := None |>
          <| receipt_failure_class := None |> <| receipt_detail := None |>
          <| failure_class := None |> <| failure_detail := None |>
          <| dispatched_at_utc_ms := None |> <| completed_at_utc_ms := None |> in
  n ← u64_add (attempt_count s) 1%N;
  Some (s <| attempt_count := n |>).

Definition ClaimPending (owner_id : ClaimOwner) (at_utc_ms : N)
    (lease_expires_at_utc_ms' : N) (claim_token' : ClaimToken)
    (admission_evidence : AdmissionEvidence) : transition := {|
  tr_name := "ClaimPending";
  tr_guard := λ s,
       (lifecycle_phase s == Pending)
    && (due_at_utc_ms s <=? at_utc_ms)%N
    && (at_utc_ms <=? misfire_deadline_utc_ms s)%N
    && (admission_evidence != AdmissionEvidence_Accepted);
  tr_absent := no_map_read;
  tr_update := claim_update owner_id at_utc_ms lease_expires_at_utc_ms' claim_token';
  tr_to := Claimed;
  tr_emit := λ s, [E_Claimed];
|}.

Definition ClaimPendingAfterAdmission (owner_id : ClaimOwner) (at_utc_ms : N)
    (lease_expires_at_utc_ms' : N) (claim_token' : ClaimToken)
    (admission_evidence : AdmissionEvidence) : transition := {|
  tr_name := "ClaimPendingAfterAdmission";
  tr_guard := λ s,
       (lifecycle_phase s == Pending)
    && (due_at_utc_ms s <=? at_utc_ms)%N
    && (admission_evidence == AdmissionEvidence_Accepted)
    && ((at_utc_ms <=? misfire_deadline_utc_ms s)%N || (attempt_count s <? 5)%N);
  tr_absent := no_map_read;
  tr_update := claim_update owner_id at_utc_ms lease_expires_at_utc_ms' claim_token';
  tr_to := Claimed;
  tr_emit := λ s, [E_Claimed; E_ReclaimedAfterAdmission];
|}.

Definition ClaimPendingAfterUnprovenDispatch (owner_id : ClaimOwner) (at_utc_ms : N)
    (lease_expires_at_utc_ms' : N) (claim_token' : ClaimToken)
    (admission_evidence : AdmissionEvidence) : transition := {|
  tr_name := "ClaimPendingAfterUnprovenDispatch";
  tr_guard := λ s,
       (lifecycle_phase s == Pending)
    && (due_at_utc_ms s <=? at_utc_ms)%N
    && (admission_evidence == AdmissionEvidence_Started)
    && (misfire_deadline_utc_ms s <? at_utc_ms)%N
    && (attempt_count s <? 5)%N;
  tr_absent := no_map_read;
  tr_update := claim_update owner_id at_utc_ms lease_expires_at_utc_ms' claim_token';
  tr_to := Claimed;
  tr_emit := λ s, [E_Claimed; E_ReclaimedAfterUnprovenDispatch];
|}.

(** *** Dispatch *)

Definition DispatchStartedFromClaimed (correlation_id : option CorrelationId)
    (at_utc_ms : N) : transition := {|
  tr_name := "DispatchStartedFromClaimed";
  tr_guard := λ s, lifecycle_phase s == Claimed;
  tr_absent := no_map_read;
  tr_update := λ s,
    Some (s <| delivery_correlation_id := correlation_id |>
         <| dispatched_at_utc_ms := Some at_utc_ms |>
         <| receipt_recorded_at_utc_ms := Some at_utc_ms |>
         <| receipt_stage := Some DeliveryReceiptStage_DispatchStarted |>
         <| receipt_failure_class := None |> <| receipt_detail := None |>);
  tr_to := Dispatching;
  tr_emit := λ s, [E_DispatchStarted];
|}.

(** The update block of [DispatchAcceptedFromDispatching], [DispatchDeduplicatedFromDispatching]. *)
Definition dispatch_accepted_update (at_utc_ms : N) (s : State) : option State :=
  Some (s <| receipt_recorded_at_utc_ms := Some at_utc_ms |>
       <| receipt_stage := Some DeliveryReceiptStage_DispatchAccepted |>
       <| receipt_failure_class := None |> <| receipt_detail := None |>).

Definition DispatchAcceptedFromDispatching (admission_outcome : DeliveryAdmissionOutcome)
    (at_utc_ms : N) : transition := {|
  tr_name := "DispatchAcceptedFromDispatching";
  tr_guard := λ s,
       (lifecycle_phase s == Dispatching)
    && (delivery_correlation_id s != None)
    && (admission_outcome == DeliveryAdmissionOutcome_Accepted);
  tr_absent := no_map_read;
  tr_update := dispatch_accepted_update at_utc_ms;
  tr_to := Dispatching;
  tr_emit := λ s, [E_DispatchAccepted];
|}.

Definition DispatchDeduplicatedFromDispatching
    (admission_outcome : DeliveryAdmissionOutcome) (at_utc_ms : N) : transition := {|
  tr_name := "DispatchDeduplicatedFromDispatching";
  tr_guard := λ s,
       (lifecycle_phase s == Dispatching)
    && (delivery_correlation_id s != None)
    && (admission_outcome == DeliveryAdmissionOutcome_Deduplicated);
  tr_absent := no_map_read;
  tr_update := dispatch_accepted_update at_utc_ms;
  tr_to := Dispatching;
  tr_emit := λ s, [E_DispatchAccepted];
|}.

(** *** Await completion *)

Definition AwaitCompletionFromDispatching (at_utc_ms : N) : transition := {|
  tr_name := "AwaitCompletionFromDispatching";
  tr_guard := λ s, lifecycle_phase s == Dispatching;
  tr_absent := no_map_read;
  tr_update := λ s,
    Some (s <| dispatched_at_utc_ms := Some at_utc_ms |>);
  tr_to := AwaitingCompletion;
  tr_emit := λ s, [E_AwaitingCompletion];
|}.

Definition AwaitCompletionAfterSupersession (at_utc_ms : N) : transition := {|
  tr_name := "AwaitCompletionAfterSupersession";
  tr_guard := λ s, lifecycle_phase s == Superseded;
  tr_absent := no_map_read;
  tr_update := Some;
  tr_to := Superseded;
  tr_emit := λ s, [];
|}.

(** *** Complete *)

Definition CompleteFromDispatchingOrAwaiting (at_utc_ms : N) : transition := {|
  tr_name := "CompleteFromDispatchingOrAwaiting";
  tr_guard := λ s,
       (lifecycle_phase s == Dispatching)
    || (lifecycle_phase s == AwaitingCompletion);
  tr_absent := no_map_read;
  tr_update := λ s,
    Some (s <| completed_at_utc_ms := Some at_utc_ms |>
         <| receipt_recorded_at_utc_ms := Some at_utc_ms |>
         <| receipt_stage := Some DeliveryReceiptStage_Completed |>
         <| receipt_failure_class := None |> <| receipt_detail := None |>);
  tr_to := Completed;
  tr_emit := λ s, [E_Completed];
|}.

Definition RuntimeCompletionCompleted (outcome : RuntimeCompletionOutcome)
    (detail : option string) (at_utc_ms : N) : transition := {|
  tr_name := "RuntimeCompletionCompleted";
  tr_guard := λ s,
       ((lifecycle_phase s == Dispatching)
        || (lifecycle_phase s == AwaitingCompletion))
    && (outcome == RuntimeCompletionOutcome_Completed);
  tr_absent := no_map_read;
  tr_update := λ s,
    Some (s <| completed_at_utc_ms := Some at_utc_ms |>
         <| receipt_recorded_at_utc_ms := Some at_utc_ms |>
         <| receipt_stage := Some DeliveryReceiptStage_Completed |>
         <| receipt_failure_class := None |> <| receipt_detail := None |>);
  tr_to := Completed;
  tr_emit := λ s, [E_Completed];
|}.

Definition RuntimeCompletionRuntimeRejected (outcome : RuntimeCompletionOutcome)
    (detail : option string) (at_utc_ms : N) : transition := {|
  tr_name := "RuntimeCompletionRuntimeRejected";
  tr_guard := λ s,
       ((lifecycle_phase s == Dispatching)
        || (lifecycle_phase s == AwaitingCompletion))
    && ((outcome == RuntimeCompletionOutcome_CallbackPending)
        || (outcome == RuntimeCompletionOutcome_Cancelled)
        || (outcome == RuntimeCompletionOutcome_Abandoned));
  tr_absent := no_map_read;
  tr_update := λ s,
    Some (s <| failure_class := Some OccurrenceFailureClass_RuntimeRejected |>
         <| failure_detail := detail |> <| completed_at_utc_ms := Some at_utc_ms |>
         <| receipt_recorded_at_utc_ms := Some at_utc_ms |>
         <| receipt_stage := Some DeliveryReceiptStage_DeliveryFailed |>
         <| receipt_failure_class := Some OccurrenceFailureClass_RuntimeRejected |>
         <| receipt_detail := detail |>);
  tr_to := DeliveryFailed;
  tr_emit := λ s, [E_DeliveryFailed];
|}.

Definition RuntimeCompletionTransportError (outcome : RuntimeCompletionOutcome)
    (detail : option string) (at_utc_ms : N) : transition := {|
  tr_name := "RuntimeCompletionTransportError";
  tr_guard := λ s,
       ((lifecycle_phase s == Dispatching)
        || (lifecycle_phase s == AwaitingCompletion))
    && (outcome == RuntimeCompletionOutcome_RuntimeTerminated);
  tr_absent := no_map_read;
  tr_update := λ s,
    Some (s <| failure_class := Some OccurrenceFailureClass_TransportError |>
         <| failure_detail := detail |> <| completed_at_utc_ms := Some at_utc_ms |>
         <| receipt_recorded_at_utc_ms := Some at_utc_ms |>
         <| receipt_stage := Some DeliveryReceiptStage_DeliveryFailed |>
         <| receipt_failure_class := Some OccurrenceFailureClass_TransportError |>
         <| receipt_detail := detail |>);
  tr_to := DeliveryFailed;
  tr_emit := λ s, [E_DeliveryFailed];
|}.

Definition RuntimeCompletionInternalError (outcome : RuntimeCompletionOutcome)
    (detail : option string) (at_utc_ms : N) : transition := {|
  tr_name := "RuntimeCompletionInternalError";
  tr_guard := λ s,
       ((lifecycle_phase s == Dispatching)
        || (lifecycle_phase s == AwaitingCompletion))
    && (outcome == RuntimeCompletionOutcome_FinalizationFailed);
  tr_absent := no_map_read;
  tr_update := λ s,
    Some (s <| failure_class := Some OccurrenceFailureClass_InternalError |>
         <| failure_detail := detail |> <| completed_at_utc_ms := Some at_utc_ms |>
         <| receipt_recorded_at_utc_ms := Some at_utc_ms |>
         <| receipt_stage := Some DeliveryReceiptStage_DeliveryFailed |>
         <| receipt_failure_class := Some OccurrenceFailureClass_InternalError |>
         <| receipt_detail := detail |>);
  tr_to := DeliveryFailed;
  tr_emit := λ s, [E_DeliveryFailed];
|}.

Definition DeliveryCompletionFailureTransportError
    (reason : DeliveryCompletionFailureReason) (detail : option string) (at_utc_ms : N)
    : transition := {|
  tr_name := "DeliveryCompletionFailureTransportError";
  tr_guard := λ s,
       ((lifecycle_phase s == Dispatching)
        || (lifecycle_phase s == AwaitingCompletion))
    && (reason == DeliveryCompletionFailureReason_CompletionFutureFailed);
  tr_absent := no_map_read;
  tr_update := λ s,
    Some (s <| failure_class := Some OccurrenceFailureClass_TransportError |>
         <| failure_detail := detail |> <| completed_at_utc_ms := Some at_utc_ms |>
         <| receipt_recorded_at_utc_ms := Some at_utc_ms |>
         <| receipt_stage := Some DeliveryReceiptStage_DeliveryFailed |>
         <| receipt_failure_class := Some OccurrenceFailureClass_TransportError |>
         <| receipt_detail := detail |>);
  tr_to := DeliveryFailed;
  tr_emit := λ s, [E_DeliveryFailed];
|}.

Definition DeliveryCompletionFailureInternalError
    (reason : DeliveryCompletionFailureReason) (detail : option string) (at_utc_ms : N)
    : transition := {|
  tr_name := "DeliveryCompletionFailureInternalError";
  tr_guard := λ s,
       ((lifecycle_phase s == Dispatching)
        || (lifecycle_phase s == AwaitingCompletion))
    && ((reason == DeliveryCompletionFailureReason_RuntimeCompletionChannelClosed)
        || (reason == DeliveryCompletionFailureReason_RuntimeCompletionAuthorityUnavailable)
        || (reason == DeliveryCompletionFailureReason_RuntimeCompletionHandleMissing));
  tr_absent := no_map_read;
  tr_update := λ s,
    Some (s <| failure_class := Some OccurrenceFailureClass_InternalError |>
         <| failure_detail := detail |> <| completed_at_utc_ms := Some at_utc_ms |>
         <| receipt_recorded_at_utc_ms := Some at_utc_ms |>
         <| receipt_stage := Some DeliveryReceiptStage_DeliveryFailed |>
         <| receipt_failure_class := Some OccurrenceFailureClass_InternalError |>
         <| receipt_detail := detail |>);
  tr_to := DeliveryFailed;
  tr_emit := λ s, [E_DeliveryFailed];
|}.

Definition DeliveryFailureTargetMaterializationFailed (reason : DeliveryFailureReason)
    (detail : option string) (at_utc_ms : N) : transition := {|
  tr_name := "DeliveryFailureTargetMaterializationFailed";
  tr_guard := λ s,
       ((lifecycle_phase s == Claimed)
        || (lifecycle_phase s == Dispatching)
        || (lifecycle_phase s == AwaitingCompletion))
    && (reason == DeliveryFailureReason_TargetMaterializationFailed);
  tr_absent := no_map_read;
  tr_update := λ s,
    Some (s <| failure_class := Some OccurrenceFailureClass_TargetMaterializationFailed |>
         <| failure_detail := detail |> <| completed_at_utc_ms := Some at_utc_ms |>
         <| receipt_recorded_at_utc_ms := Some at_utc_ms |>
         <| receipt_stage := Some DeliveryReceiptStage_DeliveryFailed |>
         <| receipt_failure_class := Some OccurrenceFailureClass_TargetMaterializationFailed |>
         <| receipt_detail := detail |>);
  tr_to := DeliveryFailed;
  tr_emit := λ s, [E_DeliveryFailed];
|}.

Definition DeliveryFailureTargetMissing (reason : DeliveryFailureReason)
    (detail : option string) (at_utc_ms : N) : transition := {|
  tr_name := "DeliveryFailureTargetMissing";
  tr_guard := λ s,
       ((lifecycle_phase s == Claimed)
        || (lifecycle_phase s == Dispatching)
        || (lifecycle_phase s == AwaitingCompletion))
    && (reason == DeliveryFailureReason_TargetMissing);
  tr_absent := no_map_read;
  tr_update := λ s,
    Some (s <| failure_class := Some OccurrenceFailureClass_TargetMissing |>
         <| failure_detail := detail |> <| completed_at_utc_ms := Some at_utc_ms |>
         <| receipt_recorded_at_utc_ms := Some at_utc_ms |>
         <| receipt_stage := Some DeliveryReceiptStage_DeliveryFailed |>
         <| receipt_failure_class := Some OccurrenceFailureClass_TargetMissing |>
         <| receipt_detail := detail |>);
  tr_to := DeliveryFailed;
  tr_emit := λ s, [E_DeliveryFailed];
|}.

Definition DeliveryFailureTargetBusy (reason : DeliveryFailureReason)
    (detail : option string) (at_utc_ms : N) : transition := {|
  tr_name := "DeliveryFailureTargetBusy";
  tr_guard := λ s,
       ((lifecycle_phase s == Claimed)
        || (lifecycle_phase s == Dispatching)
        || (lifecycle_phase s == AwaitingCompletion))
    && (reason == DeliveryFailureReason_TargetBusy);
  tr_absent := no_map_read;
  tr_update := λ s,
    Some (s <| failure_class := Some OccurrenceFailureClass_TargetBusy |>
         <| failure_detail := detail |> <| completed_at_utc_ms := Some at_utc_ms |>
         <| receipt_recorded_at_utc_ms := Some at_utc_ms |>
         <| receipt_stage := Some DeliveryReceiptStage_DeliveryFailed |>
         <| receipt_failure_class := Some OccurrenceFailureClass_TargetBusy |>
         <| receipt_detail := detail |>);
  tr_to := DeliveryFailed;
  tr_emit := λ s, [E_DeliveryFailed];
|}.

Definition DeliveryFailureRuntimeRejected (reason : DeliveryFailureReason)
    (detail : option string) (at_utc_ms : N) : transition := {|
  tr_name := "DeliveryFailureRuntimeRejected";
  tr_guard := λ s,
       ((lifecycle_phase s == Claimed)
        || (lifecycle_phase s == Dispatching)
        || (lifecycle_phase s == AwaitingCompletion))
    && (reason == DeliveryFailureReason_RuntimeRejected);
  tr_absent := no_map_read;
  tr_update := λ s,
    Some (s <| failure_class := Some OccurrenceFailureClass_RuntimeRejected |>
         <| failure_detail := detail |> <| completed_at_utc_ms := Some at_utc_ms |>
         <| receipt_recorded_at_utc_ms := Some at_utc_ms |>
         <| receipt_stage := Some DeliveryReceiptStage_DeliveryFailed |>
         <| receipt_failure_class := Some OccurrenceFailureClass_RuntimeRejected |>
         <| receipt_detail := detail |>);
  tr_to := DeliveryFailed;
  tr_emit := λ s, [E_DeliveryFailed];
|}.

Definition DeliveryFailureMobRejected (reason : DeliveryFailureReason)
    (detail : option string) (at_utc_ms : N) : transition := {|
  tr_name := "DeliveryFailureMobRejected";
  tr_guard := λ s,
       ((lifecycle_phase s == Claimed)
        || (lifecycle_phase s == Dispatching)
        || (lifecycle_phase s == AwaitingCompletion))
    && (reason == DeliveryFailureReason_MobRejected);
  tr_absent := no_map_read;
  tr_update := λ s,
    Some (s <| failure_class := Some OccurrenceFailureClass_MobRejected |>
         <| failure_detail := detail |> <| completed_at_utc_ms := Some at_utc_ms |>
         <| receipt_recorded_at_utc_ms := Some at_utc_ms |>
         <| receipt_stage := Some DeliveryReceiptStage_DeliveryFailed |>
         <| receipt_failure_class := Some OccurrenceFailureClass_MobRejected |>
         <| receipt_detail := detail |>);
  tr_to := DeliveryFailed;
  tr_emit := λ s, [E_DeliveryFailed];
|}.

Definition DeliveryFailureTransportError (reason : DeliveryFailureReason)
    (detail : option string) (at_utc_ms : N) : transition := {|
  tr_name := "DeliveryFailureTransportError";
  tr_guard := λ s,
       ((lifecycle_phase s == Claimed)
        || (lifecycle_phase s == Dispatching)
        || (lifecycle_phase s == AwaitingCompletion))
    && (reason == DeliveryFailureReason_TransportError);
  tr_absent := no_map_read;
  tr_update := λ s,
    Some (s <| failure_class := Some OccurrenceFailureClass_TransportError |>
         <| failure_detail := detail |> <| completed_at_utc_ms := Some at_utc_ms |>
         <| receipt_recorded_at_utc_ms := Some at_utc_ms |>
         <| receipt_stage := Some DeliveryReceiptStage_DeliveryFailed |>
         <| receipt_failure_class := Some OccurrenceFailureClass_TransportError |>
         <| receipt_detail := detail |>);
  tr_to := DeliveryFailed;
  tr_emit := λ s, [E_DeliveryFailed];
|}.

Definition DeliveryFailureInternalError (reason : DeliveryFailureReason)
    (detail : option string) (at_utc_ms : N) : transition := {|
  tr_name := "DeliveryFailureInternalError";
  tr_guard := λ s,
       ((lifecycle_phase s == Claimed)
        || (lifecycle_phase s == Dispatching)
        || (lifecycle_phase s == AwaitingCompletion))
    && (reason == DeliveryFailureReason_InternalError);
  tr_absent := no_map_read;
  tr_update := λ s,
    Some (s <| failure_class := Some OccurrenceFailureClass_InternalError |>
         <| failure_detail := detail |> <| completed_at_utc_ms := Some at_utc_ms |>
         <| receipt_recorded_at_utc_ms := Some at_utc_ms |>
         <| receipt_stage := Some DeliveryReceiptStage_DeliveryFailed |>
         <| receipt_failure_class := Some OccurrenceFailureClass_InternalError |>
         <| receipt_detail := detail |>);
  tr_to := DeliveryFailed;
  tr_emit := λ s, [E_DeliveryFailed];
|}.

Definition DeliveryFailureScheduleMandateUnavailable (reason : DeliveryFailureReason)
    (detail : option string) (at_utc_ms : N) : transition := {|
  tr_name := "DeliveryFailureScheduleMandateUnavailable";
  tr_guard := λ s,
       ((lifecycle_phase s == Claimed)
        || (lifecycle_phase s == Dispatching)
        || (lifecycle_phase s == AwaitingCompletion))
    && (reason == DeliveryFailureReason_ScheduleMandateUnavailable);
  tr_absent := no_map_read;
  tr_update := λ s,
    Some (s <| failure_class := Some OccurrenceFailureClass_ScheduleMandateUnavailable |>
         <| failure_detail := detail |> <| completed_at_utc_ms := Some at_utc_ms |>
         <| receipt_recorded_at_utc_ms := Some at_utc_ms |>
         <| receipt_stage := Some DeliveryReceiptStage_DeliveryFailed |>
         <| receipt_failure_class := Some OccurrenceFailureClass_ScheduleMandateUnavailable |>
         <| receipt_detail := detail |>);
  tr_to := DeliveryFailed;
  tr_emit := λ s, [E_DeliveryFailed];
|}.

(** *** Target probe resolution *)

Definition TargetProbeReadyClaimed (outcome : OccurrenceTargetProbeOutcome)
    (redelivery : ClaimRedelivery) (detail : option string) (at_utc_ms : N)
    : transition := {|
  tr_name := "TargetProbeReadyClaimed";
  tr_guard := λ s,
       (lifecycle_phase s == Claimed)
    && (outcome == OccurrenceTargetProbeOutcome_Ready);
  tr_absent := no_map_read;
  tr_update := Some;
  tr_to := Claimed;
  tr_emit := λ s, [];
|}.

Definition TargetProbeBusyAllowedByPolicy (outcome : OccurrenceTargetProbeOutcome)
    (redelivery : ClaimRedelivery) (detail : option string) (at_utc_ms : N)
    : transition := {|
  tr_name := "TargetProbeBusyAllowedByPolicy";
  tr_guard := λ s,
       (lifecycle_phase s == Claimed)
    && (outcome == OccurrenceTargetProbeOutcome_Busy)
    && (overlap_policy s == OverlapPolicy_AllowConcurrent);
  tr_absent := no_map_read;
  tr_update := Some;
  tr_to := Claimed;
  tr_emit := λ s, [];
|}.

Definition TargetProbeBusyExistingRedelivery (outcome : OccurrenceTargetProbeOutcome)
    (redelivery : ClaimRedelivery) (detail : option string) (at_utc_ms : N)
    : transition := {|
  tr_name := "TargetProbeBusyExistingRedelivery";
  tr_guard := λ s,
       (lifecycle_phase s == Claimed)
    && (outcome == OccurrenceTargetProbeOutcome_Busy)
    && (overlap_policy s == OverlapPolicy_SkipIfRunning)
    && (redelivery != ClaimRedelivery_Ordinary);
  tr_absent := no_map_read;
  tr_update := Some;
  tr_to := Claimed;
  tr_emit := λ s, [];
|}.

Definition TargetProbeBusySkipByPolicy (outcome : OccurrenceTargetProbeOutcome)
    (redelivery : ClaimRedelivery) (detail : option string) (at_utc_ms : N)
    : transition := {|
  tr_name := "TargetProbeBusySkipByPolicy";
  tr_guard := λ s,
       (lifecycle_phase s == Claimed)
    && (outcome == OccurrenceTargetProbeOutcome_Busy)
    && (overlap_policy s == OverlapPolicy_SkipIfRunning)
    && (redelivery == ClaimRedelivery_Ordinary);
  tr_absent := no_map_read;
  tr_update := λ s,
    Some (s <| failure_detail := detail |>
         <| failure_class := Some OccurrenceFailureClass_TargetBusy |>
         <| completed_at_utc_ms := Some at_utc_ms |>
         <| receipt_recorded_at_utc_ms := Some at_utc_ms |>
         <| receipt_stage := Some DeliveryReceiptStage_Skipped |>
         <| receipt_failure_class := Some OccurrenceFailureClass_TargetBusy |>
         <| receipt_detail := detail |> <| claimed_by := None |>
         <| lease_expires_at_utc_ms := None |> <| claim_token := None |>
         <| delivery_correlation_id := None |>);
  tr_to := Skipped;
  tr_emit := λ s, [E_Skipped];
|}.

Definition TargetProbeMissingSkipByPolicy (outcome : OccurrenceTargetProbeOutcome)
    (redelivery : ClaimRedelivery) (detail : option string) (at_utc_ms : N)
    : transition := {|
  tr_name := "TargetProbeMissingSkipByPolicy";
  tr_guard := λ s,
       (lifecycle_phase s == Claimed)
    && (outcome == OccurrenceTargetProbeOutcome_Missing)
    && (missing_target_policy s == MissingTargetPolicy_Skip);
  tr_absent := no_map_read;
  tr_update := λ s,
    Some (s <| failure_detail := detail |>
         <| failure_class := Some OccurrenceFailureClass_TargetMissing |>
         <| completed_at_utc_ms := Some at_utc_ms |>
         <| receipt_recorded_at_utc_ms := Some at_utc_ms |>
         <| receipt_stage := Some DeliveryReceiptStage_Skipped |>
         <| receipt_failure_class := Some OccurrenceFailureClass_TargetMissing |>
         <| receipt_detail := detail |> <| claimed_by := None |>
         <| lease_expires_at_utc_ms := None |> <| claim_token := None |>
         <| delivery_correlation_id := None |>);
  tr_to := Skipped;
  tr_emit := λ s, [E_Skipped];
|}.

Definition TargetProbeMissingMisfireByPolicy (outcome : OccurrenceTargetProbeOutcome)
    (redelivery : ClaimRedelivery) (detail : option string) (at_utc_ms : N)
    : transition := {|
  tr_name := "TargetProbeMissingMisfireByPolicy";
  tr_guard := λ s,
       (lifecycle_phase s == Claimed)
    && (outcome == OccurrenceTargetProbeOutcome_Missing)
    && (missing_target_policy s == MissingTargetPolicy_MarkMisfired);
  tr_absent := no_map_read;
  tr_update := λ s,
    Some (s <| failure_detail := detail |>
         <| failure_class := Some OccurrenceFailureClass_TargetMissing |>
         <| completed_at_utc_ms := Some at_utc_ms |>
         <| receipt_recorded_at_utc_ms := Some at_utc_ms |>
         <| receipt_stage := Some DeliveryReceiptStage_Misfired |>
         <| receipt_failure_class := Some OccurrenceFailureClass_TargetMissing |>
         <| receipt_detail := detail |> <| claimed_by := None |>
         <| lease_expires_at_utc_ms := None |> <| claim_token := None |>
         <| delivery_correlation_id := None |>);
  tr_to := Misfired;
  tr_emit := λ s, [E_Misfired];
|}.

(** *** Due misfire *)

Definition DueMisfirePending (detail : option string) (at_utc_ms : N) : transition := {|
  tr_name := "DueMisfirePending";
  tr_guard := λ s,
       (lifecycle_phase s == Pending)
    && (due_at_utc_ms s <=? at_utc_ms)%N
    && (misfire_deadline_utc_ms s <? at_utc_ms)%N;
  tr_absent := no_map_read;
  tr_update := λ s,
    Some (s <| failure_detail := detail |> <| failure_class := None |>
         <| completed_at_utc_ms := Some at_utc_ms |>
         <| receipt_recorded_at_utc_ms := Some at_utc_ms |>
         <| receipt_stage := Some DeliveryReceiptStage_Misfired |>
         <| receipt_failure_class := None |> <| receipt_detail := detail |>
         <| claimed_by := None |> <| lease_expires_at_utc_ms := None |>
         <| claim_token := None |> <| delivery_correlation_id := None |>);
  tr_to := Misfired;
  tr_emit := λ s, [E_Misfired];
|}.

(** *** Reclaims exhausted *)

Definition ReclaimExhaustedAfterAdmission (admission_evidence : AdmissionEvidence)
    (detail : option string) (at_utc_ms : N) : transition := {|
  tr_name := "ReclaimExhaustedAfterAdmission";
  tr_guard := λ s,
       (lifecycle_phase s == Pending)
    && (due_at_utc_ms s <=? at_utc_ms)%N
    && (misfire_deadline_utc_ms s <? at_utc_ms)%N
    && (5 <=? attempt_count s)%N
    && (admission_evidence == AdmissionEvidence_Accepted);
  tr_absent := no_map_read;
  tr_update := λ s,
    Some (s <| failure_class := Some OccurrenceFailureClass_LeaseLost |>
         <| failure_detail := detail |> <| completed_at_utc_ms := Some at_utc_ms |>
         <| receipt_recorded_at_utc_ms := Some at_utc_ms |>
         <| receipt_stage := Some DeliveryReceiptStage_DeliveryFailed |>
         <| receipt_failure_class := Some OccurrenceFailureClass_LeaseLost |>
         <| receipt_detail := detail |> <| claimed_by := None |>
         <| lease_expires_at_utc_ms := None |> <| claim_token := None |>
         <| delivery_correlation_id := None |>);
  tr_to := DeliveryFailed;
  tr_emit := λ s, [E_DeliveryFailed];
|}.

Definition ReclaimExhaustedAfterUnprovenDispatch (admission_evidence : AdmissionEvidence)
    (detail : option string) (at_utc_ms : N) : transition := {|
  tr_name := "ReclaimExhaustedAfterUnprovenDispatch";
  tr_guard := λ s,
       (lifecycle_phase s == Pending)
    && (due_at_utc_ms s <=? at_utc_ms)%N
    && (misfire_deadline_utc_ms s <? at_utc_ms)%N
    && (5 <=? attempt_count s)%N
    && (admission_evidence == AdmissionEvidence_Started);
  tr_absent := no_map_read;
  tr_update := λ s,
    Some (s <| failure_detail := detail |> <| failure_class := None |>
         <| completed_at_utc_ms := Some at_utc_ms |>
         <| receipt_recorded_at_utc_ms := Some at_utc_ms |>
         <| receipt_stage := Some DeliveryReceiptStage_Misfired |>
         <| receipt_failure_class := None |> <| receipt_detail := detail |>
         <| claimed_by := None |> <| lease_expires_at_utc_ms := None |>
         <| claim_token := None |> <| delivery_correlation_id := None |>);
  tr_to := Misfired;
  tr_emit := λ s, [E_Misfired];
|}.

(** *** Unproven late redelivery not admitted *)

(** The update block of [UnprovenLateNotAdmittedFromClaimed], [UnprovenLateNotAdmittedFromDispatching]. *)
Definition unproven_late_update (detail : option string) (at_utc_ms : N)
    (s : State) : option State :=
  Some (s <| failure_detail := detail |> <| failure_class := None |>
       <| completed_at_utc_ms := Some at_utc_ms |>
       <| receipt_recorded_at_utc_ms := Some at_utc_ms |>
       <| receipt_stage := Some DeliveryReceiptStage_Misfired |>
       <| receipt_failure_class := None |> <| receipt_detail := detail |>
       <| claimed_by := None |> <| lease_expires_at_utc_ms := None |>
       <| claim_token := None |> <| delivery_correlation_id := None |>).

Definition UnprovenLateNotAdmittedFromClaimed (admission_evidence : AdmissionEvidence)
    (detail : option string) (at_utc_ms : N) : transition := {|
  tr_name := "UnprovenLateNotAdmittedFromClaimed";
  tr_guard := λ s,
       (lifecycle_phase s == Claimed)
    && (admission_evidence == AdmissionEvidence_Started)
    && (misfire_deadline_utc_ms s <? at_utc_ms)%N;
  tr_absent := no_map_read;
  tr_update := unproven_late_update detail at_utc_ms;
  tr_to := Misfired;
  tr_emit := λ s, [E_Misfired];
|}.

Definition UnprovenLateNotAdmittedFromDispatching (admission_evidence : AdmissionEvidence)
    (detail : option string) (at_utc_ms : N) : transition := {|
  tr_name := "UnprovenLateNotAdmittedFromDispatching";
  tr_guard := λ s,
       (lifecycle_phase s == Dispatching)
    && (admission_evidence == AdmissionEvidence_Started)
    && (misfire_deadline_utc_ms s <? at_utc_ms)%N;
  tr_absent := no_map_read;
  tr_update := unproven_late_update detail at_utc_ms;
  tr_to := Misfired;
  tr_emit := λ s, [E_Misfired];
|}.

(** *** Supersede *)

Definition SupersedePendingOrLive (superseded_by_revision' : N) (at_utc_ms : N)
    : transition := {|
  tr_name := "SupersedePendingOrLive";
  tr_guard := λ s,
       (lifecycle_phase s == Pending)
    || (lifecycle_phase s == Claimed)
    || (lifecycle_phase s == Dispatching)
    || (lifecycle_phase s == AwaitingCompletion);
  tr_absent := no_map_read;
  tr_update := λ s,
    Some (s <| superseded_by_revision := Some superseded_by_revision' |>
         <| completed_at_utc_ms := Some at_utc_ms |>
         <| receipt_recorded_at_utc_ms := Some at_utc_ms |>
         <| receipt_stage := Some DeliveryReceiptStage_Superseded |>
         <| receipt_failure_class := None |> <| receipt_detail := None |>);
  tr_to := Superseded;
  tr_emit := λ s,
      [E_Superseded;
       E_OccurrencesSuperseded (occurrence_id s) superseded_by_revision'];
|}.

Definition SupersedeAlreadySuperseded (superseded_by_revision' : N) (at_utc_ms : N)
    : transition := {|
  tr_name := "SupersedeAlreadySuperseded";
  tr_guard := λ s, lifecycle_phase s == Superseded;
  tr_absent := no_map_read;
  tr_update := Some;
  tr_to := Superseded;
  tr_emit := λ s, [];
|}.

(** *** Late delivery resolutions after supersession (0.7.2 D2a) *)

Definition LateCompleteAfterSupersession (at_utc_ms : N) : transition := {|
  tr_name := "LateCompleteAfterSupersession";
  tr_guard := λ s, lifecycle_phase s == Superseded;
  tr_absent := no_map_read;
  tr_update := λ s,
    Some (s <| late_completion_recorded_at_utc_ms := Some at_utc_ms |>
         <| late_completion_resolution := Some LateCompletionResolutionClass_DeliveryCompleted |>
         <| late_completion_detail := None |>);
  tr_to := Superseded;
  tr_emit := λ s,
      [E_LateCompletionResolutionRecorded LateCompletionResolutionClass_DeliveryCompleted];
|}.

Definition LateRuntimeCompletionCompletedAfterSupersession
    (outcome : RuntimeCompletionOutcome) (detail : option string) (at_utc_ms : N)
    : transition := {|
  tr_name := "LateRuntimeCompletionCompletedAfterSupersession";
  tr_guard := λ s,
       (lifecycle_phase s == Superseded)
    && (outcome == RuntimeCompletionOutcome_Completed);
  tr_absent := no_map_read;
  tr_update := λ s,
    Some (s <| late_completion_recorded_at_utc_ms := Some at_utc_ms |>
         <| late_completion_resolution := Some LateCompletionResolutionClass_RuntimeCompleted |>
         <| late_completion_detail := detail |>);
  tr_to := Superseded;
  tr_emit := λ s,
      [E_LateCompletionResolutionRecorded LateCompletionResolutionClass_RuntimeCompleted];
|}.

Definition LateRuntimeCompletionRejectedAfterSupersession
    (outcome : RuntimeCompletionOutcome) (detail : option string) (at_utc_ms : N)
    : transition := {|
  tr_name := "LateRuntimeCompletionRejectedAfterSupersession";
  tr_guard := λ s,
       (lifecycle_phase s == Superseded)
    && ((outcome == RuntimeCompletionOutcome_CallbackPending)
        || (outcome == RuntimeCompletionOutcome_Cancelled)
        || (outcome == RuntimeCompletionOutcome_Abandoned));
  tr_absent := no_map_read;
  tr_update := λ s,
    Some (s <| late_completion_recorded_at_utc_ms := Some at_utc_ms |>
         <| late_completion_resolution := Some LateCompletionResolutionClass_RuntimeRejected |>
         <| late_completion_detail := detail |>);
  tr_to := Superseded;
  tr_emit := λ s,
      [E_LateCompletionResolutionRecorded LateCompletionResolutionClass_RuntimeRejected];
|}.

Definition LateRuntimeCompletionTransportErrorAfterSupersession
    (outcome : RuntimeCompletionOutcome) (detail : option string) (at_utc_ms : N)
    : transition := {|
  tr_name := "LateRuntimeCompletionTransportErrorAfterSupersession";
  tr_guard := λ s,
       (lifecycle_phase s == Superseded)
    && (outcome == RuntimeCompletionOutcome_RuntimeTerminated);
  tr_absent := no_map_read;
  tr_update := λ s,
    Some (s <| late_completion_recorded_at_utc_ms := Some at_utc_ms |>
         <| late_completion_resolution := Some LateCompletionResolutionClass_RuntimeTransportError |>
         <| late_completion_detail := detail |>);
  tr_to := Superseded;
  tr_emit := λ s,
      [E_LateCompletionResolutionRecorded LateCompletionResolutionClass_RuntimeTransportError];
|}.

Definition LateRuntimeCompletionInternalErrorAfterSupersession
    (outcome : RuntimeCompletionOutcome) (detail : option string) (at_utc_ms : N)
    : transition := {|
  tr_name := "LateRuntimeCompletionInternalErrorAfterSupersession";
  tr_guard := λ s,
       (lifecycle_phase s == Superseded)
    && (outcome == RuntimeCompletionOutcome_FinalizationFailed);
  tr_absent := no_map_read;
  tr_update := λ s,
    Some (s <| late_completion_recorded_at_utc_ms := Some at_utc_ms |>
         <| late_completion_resolution := Some LateCompletionResolutionClass_RuntimeInternalError |>
         <| late_completion_detail := detail |>);
  tr_to := Superseded;
  tr_emit := λ s,
      [E_LateCompletionResolutionRecorded LateCompletionResolutionClass_RuntimeInternalError];
|}.

Definition LateDeliveryCompletionFailureAfterSupersession
    (reason : DeliveryCompletionFailureReason) (detail : option string) (at_utc_ms : N)
    : transition := {|
  tr_name := "LateDeliveryCompletionFailureAfterSupersession";
  tr_guard := λ s, lifecycle_phase s == Superseded;
  tr_absent := no_map_read;
  tr_update := λ s,
    Some (s <| late_completion_recorded_at_utc_ms := Some at_utc_ms |>
         <| late_completion_resolution := Some LateCompletionResolutionClass_DeliveryCompletionFailed |>
         <| late_completion_detail := detail |>);
  tr_to := Superseded;
  tr_emit := λ s,
      [E_LateCompletionResolutionRecorded LateCompletionResolutionClass_DeliveryCompletionFailed];
|}.

Definition LateDeliveryFailureAfterSupersession (reason : DeliveryFailureReason)
    (detail : option string) (at_utc_ms : N) : transition := {|
  tr_name := "LateDeliveryFailureAfterSupersession";
  tr_guard := λ s, lifecycle_phase s == Superseded;
  tr_absent := no_map_read;
  tr_update := λ s,
    Some (s <| late_completion_recorded_at_utc_ms := Some at_utc_ms |>
         <| late_completion_resolution := Some LateCompletionResolutionClass_DeliveryFailed |>
         <| late_completion_detail := detail |>);
  tr_to := Superseded;
  tr_emit := λ s,
      [E_LateCompletionResolutionRecorded LateCompletionResolutionClass_DeliveryFailed];
|}.

(** *** Lease renewal (one per in-flight phase, self-loop) *)

Definition RenewLeaseFromDispatching (claim_token' : ClaimToken)
    (lease_expires_at_utc_ms' : N) (at_utc_ms : N) : transition := {|
  tr_name := "RenewLeaseFromDispatching";
  tr_guard := λ s,
       (lifecycle_phase s == Dispatching)
    && (claim_token s == Some claim_token')
    && ((lease_expires_at_utc_ms s == None)
        || (get_value (lease_expires_at_utc_ms s) <=? lease_expires_at_utc_ms')%N);
  tr_absent := no_map_read;
  tr_update := λ s,
    Some (s <| lease_expires_at_utc_ms := Some lease_expires_at_utc_ms' |>);
  tr_to := Dispatching;
  tr_emit := λ s, [E_LeaseRenewed];
|}.

Definition RenewLeaseFromAwaitingCompletion (claim_token' : ClaimToken)
    (lease_expires_at_utc_ms' : N) (at_utc_ms : N) : transition := {|
  tr_name := "RenewLeaseFromAwaitingCompletion";
  tr_guard := λ s,
       (lifecycle_phase s == AwaitingCompletion)
    && (claim_token s == Some claim_token')
    && ((lease_expires_at_utc_ms s == None)
        || (get_value (lease_expires_at_utc_ms s) <=? lease_expires_at_utc_ms')%N);
  tr_absent := no_map_read;
  tr_update := λ s,
    Some (s <| lease_expires_at_utc_ms := Some lease_expires_at_utc_ms' |>);
  tr_to := AwaitingCompletion;
  tr_emit := λ s, [E_LeaseRenewed];
|}.

(** *** Lease expired (one per source phase, returns to Pending) *)

(** The update block of [LeaseExpiredFromClaimed], [LeaseExpiredFromDispatching], [LeaseExpiredFromAwaitingCompletion]. *)
Definition lease_expired_update (at_utc_ms : N) (s : State) : option State :=
  Some (s <| claimed_by := None |> <| lease_expires_at_utc_ms := None |>
       <| claim_token := None |> <| delivery_correlation_id := None |>
       <| claimed_at_utc_ms := None |> <| dispatched_at_utc_ms := None |>
       <| receipt_recorded_at_utc_ms := Some at_utc_ms |>
       <| receipt_stage := Some DeliveryReceiptStage_LeaseExpired |>
       <| receipt_failure_class := Some OccurrenceFailureClass_LeaseLost |>
       <| receipt_detail := Some "lease expired before completion" |>).

Definition LeaseExpiredFromClaimed (at_utc_ms : N) : transition := {|
  tr_name := "LeaseExpiredFromClaimed";
  tr_guard := λ s, lifecycle_phase s == Claimed;
  tr_absent := no_map_read;
  tr_update := lease_expired_update at_utc_ms;
  tr_to := Pending;
  tr_emit := λ s, [E_LeaseExpired];
|}.

Definition LeaseExpiredFromDispatching (at_utc_ms : N) : transition := {|
  tr_name := "LeaseExpiredFromDispatching";
  tr_guard := λ s, lifecycle_phase s == Dispatching;
  tr_absent := no_map_read;
  tr_update := lease_expired_update at_utc_ms;
  tr_to := Pending;
  tr_emit := λ s, [E_LeaseExpired];
|}.

Definition LeaseExpiredFromAwaitingCompletion (at_utc_ms : N) : transition := {|
  tr_name := "LeaseExpiredFromAwaitingCompletion";
  tr_guard := λ s, lifecycle_phase s == AwaitingCompletion;
  tr_absent := no_map_read;
  tr_update := lease_expired_update at_utc_ms;
  tr_to := Pending;
  tr_emit := λ s, [E_LeaseExpired];
|}.

(** The update block of [ReleaseLeaseForPausedScheduleFromClaimed], [ReleaseLeaseForPausedScheduleFromDispatching], [ReleaseLeaseForPausedScheduleFromAwaitingCompletion]. *)
Definition release_lease_update (at_utc_ms : N) (s : State) : option State :=
  Some (s <| claimed_by := None |> <| lease_expires_at_utc_ms := None |>
       <| claim_token := None |> <| delivery_correlation_id := None |>
       <| claimed_at_utc_ms := None |> <| dispatched_at_utc_ms := None |>
       <| receipt_recorded_at_utc_ms := Some at_utc_ms |>
       <| receipt_stage := Some DeliveryReceiptStage_LeaseExpired |>
       <| receipt_failure_class := Some OccurrenceFailureClass_LeaseLost |>
       <| receipt_detail := Some "lease released because schedule was paused before dispatch" |>).

Definition ReleaseLeaseForPausedScheduleFromClaimed (at_utc_ms : N) : transition := {|
  tr_name := "ReleaseLeaseForPausedScheduleFromClaimed";
  tr_guard := λ s, lifecycle_phase s == Claimed;
  tr_absent := no_map_read;
  tr_update := release_lease_update at_utc_ms;
  tr_to := Pending;
  tr_emit := λ s, [E_LeaseExpired];
|}.

Definition ReleaseLeaseForPausedScheduleFromDispatching (at_utc_ms : N) : transition := {|
  tr_name := "ReleaseLeaseForPausedScheduleFromDispatching";
  tr_guard := λ s, lifecycle_phase s == Dispatching;
  tr_absent := no_map_read;
  tr_update := release_lease_update at_utc_ms;
  tr_to := Pending;
  tr_emit := λ s, [E_LeaseExpired];
|}.

Definition ReleaseLeaseForPausedScheduleFromAwaitingCompletion (at_utc_ms : N)
    : transition := {|
  tr_name := "ReleaseLeaseForPausedScheduleFromAwaitingCompletion";
  tr_guard := λ s, lifecycle_phase s == AwaitingCompletion;
  tr_absent := no_map_read;
  tr_update := release_lease_update at_utc_ms;
  tr_to := Pending;
  tr_emit := λ s, [E_LeaseExpired];
|}.

Definition ReleaseLeaseForPausedScheduleAfterSupersession (at_utc_ms : N)
    : transition := {|
  tr_name := "ReleaseLeaseForPausedScheduleAfterSupersession";
  tr_guard := λ s, lifecycle_phase s == Superseded;
  tr_absent := no_map_read;
  tr_update := Some;
  tr_to := Superseded;
  tr_emit := λ s, [];
|}.

(** The arms of each input, in the order they are declared. *)
Definition occurrence_transitions (i : OccurrenceLifecycleInput) : list transition :=
  match i with
  | I_PlanOccurrence occurrence_id' schedule_id' schedule_revision' occurrence_ordinal'
      trigger_key' target_binding_key' misfire_policy' misfire_policy_key' overlap_policy'
      overlap_policy_key' missing_target_policy' missing_target_policy_key'
      target_materialized_session_id' due_at_utc_ms' misfire_deadline_utc_ms' =>
      [PlanOccurrenceFromPending occurrence_id' schedule_id' schedule_revision' occurrence_ordinal'
         trigger_key' target_binding_key' misfire_policy' misfire_policy_key'
         overlap_policy' overlap_policy_key' missing_target_policy'
         missing_target_policy_key' target_materialized_session_id' due_at_utc_ms'
         misfire_deadline_utc_ms']
  | I_SyncTargetSnapshot target_binding_key' target_materialized_session_id' =>
      [SyncTargetSnapshotPending target_binding_key' target_materialized_session_id';
       SyncTargetSnapshotClaimed target_binding_key' target_materialized_session_id';
       SyncTargetSnapshotDispatching target_binding_key' target_materialized_session_id']
  | I_RecordReceipt correlation_id detail materialized_session_id runtime_outcome_key' =>
      [RecordReceiptPending correlation_id detail materialized_session_id runtime_outcome_key';
       RecordReceiptClaimed correlation_id detail materialized_session_id runtime_outcome_key';
       RecordReceiptDispatching correlation_id detail materialized_session_id runtime_outcome_key';
       RecordReceiptAwaitingCompletion correlation_id detail materialized_session_id
         runtime_outcome_key';
       RecordReceiptCompleted correlation_id detail materialized_session_id runtime_outcome_key';
       RecordReceiptSkipped correlation_id detail materialized_session_id runtime_outcome_key';
       RecordReceiptMisfired correlation_id detail materialized_session_id runtime_outcome_key';
       RecordReceiptSuperseded correlation_id detail materialized_session_id runtime_outcome_key';
       RecordReceiptDeliveryFailed correlation_id detail materialized_session_id
         runtime_outcome_key']
  | I_ClassifyDue now_utc_ms admission_evidence =>
      [ClassifyDuePendingFuture now_utc_ms admission_evidence;
       ClassifyDuePendingMisfire now_utc_ms admission_evidence;
       ClassifyDuePendingClaimEligible now_utc_ms admission_evidence;
       ClassifyDuePendingReclaimExhausted now_utc_ms admission_evidence;
       ClassifyDueClaimedLeaseExpired now_utc_ms admission_evidence;
       ClassifyDueDispatchingLeaseExpired now_utc_ms admission_evidence;
       ClassifyDueAwaitingCompletionLeaseExpired now_utc_ms admission_evidence;
       ClassifyDueClaimedLeaseCurrent now_utc_ms admission_evidence;
       ClassifyDueDispatchingLeaseCurrent now_utc_ms admission_evidence;
       ClassifyDueAwaitingCompletionLeaseCurrent now_utc_ms admission_evidence;
       ClassifyDueCompletedNoAction now_utc_ms admission_evidence;
       ClassifyDueSkippedNoAction now_utc_ms admission_evidence;
       ClassifyDueMisfiredNoAction now_utc_ms admission_evidence;
       ClassifyDueSupersededNoAction now_utc_ms admission_evidence;
       ClassifyDueDeliveryFailedNoAction now_utc_ms admission_evidence]
  | I_ClassifyOccurrenceTerminality =>
      ClassifyOccurrenceTerminalityTerminal
      ++ ClassifyOccurrenceTerminalityLive
  | I_ClassifyClaimedDispatchDisposition schedule_phase current_schedule_revision =>
      [ClassifyClaimedDispatchDispositionFutureRevision schedule_phase current_schedule_revision;
       ClassifyClaimedDispatchDispositionFrozen schedule_phase current_schedule_revision;
       ClassifyClaimedDispatchDispositionSupersedeDeleted schedule_phase current_schedule_revision;
       ClassifyClaimedDispatchDispositionSupersedeStale schedule_phase current_schedule_revision;
       ClassifyClaimedDispatchDispositionReady schedule_phase current_schedule_revision]
  | I_ClassifyCompletionSupersession schedule_phase current_schedule_revision =>
      [ClassifyCompletionSupersessionDeleted schedule_phase current_schedule_revision;
       ClassifyCompletionSupersessionStale schedule_phase current_schedule_revision;
       ClassifyCompletionSupersessionProceed schedule_phase current_schedule_revision;
       ClassifyCompletionSupersessionAlreadySuperseded schedule_phase current_schedule_revision]
  | I_Claim owner_id at_utc_ms lease_expires_at_utc_ms' claim_token' admission_evidence =>
      [ClaimPending owner_id at_utc_ms lease_expires_at_utc_ms' claim_token' admission_evidence;
       ClaimPendingAfterAdmission owner_id at_utc_ms lease_expires_at_utc_ms' claim_token'
         admission_evidence;
       ClaimPendingAfterUnprovenDispatch owner_id at_utc_ms lease_expires_at_utc_ms' claim_token'
         admission_evidence]
  | I_DispatchStarted correlation_id at_utc_ms =>
      [DispatchStartedFromClaimed correlation_id at_utc_ms]
  | I_DispatchAccepted admission_outcome at_utc_ms =>
      [DispatchAcceptedFromDispatching admission_outcome at_utc_ms;
       DispatchDeduplicatedFromDispatching admission_outcome at_utc_ms]
  | I_AwaitCompletion at_utc_ms =>
      [AwaitCompletionFromDispatching at_utc_ms;
       AwaitCompletionAfterSupersession at_utc_ms]
  | I_Complete at_utc_ms =>
      [CompleteFromDispatchingOrAwaiting at_utc_ms;
       LateCompleteAfterSupersession at_utc_ms]
  | I_ResolveRuntimeCompletion outcome detail at_utc_ms =>
      [RuntimeCompletionCompleted outcome detail at_utc_ms;
       RuntimeCompletionRuntimeRejected outcome detail at_utc_ms;
       RuntimeCompletionTransportError outcome detail at_utc_ms;
       RuntimeCompletionInternalError outcome detail at_utc_ms;
       LateRuntimeCompletionCompletedAfterSupersession outcome detail at_utc_ms;
       LateRuntimeCompletionRejectedAfterSupersession outcome detail at_utc_ms;
       LateRuntimeCompletionTransportErrorAfterSupersession outcome detail at_utc_ms;
       LateRuntimeCompletionInternalErrorAfterSupersession outcome detail at_utc_ms]
  | I_ResolveDeliveryCompletionFailure reason detail at_utc_ms =>
      [DeliveryCompletionFailureTransportError reason detail at_utc_ms;
       DeliveryCompletionFailureInternalError reason detail at_utc_ms;
       LateDeliveryCompletionFailureAfterSupersession reason detail at_utc_ms]
  | I_ResolveDeliveryFailure reason detail at_utc_ms =>
      [DeliveryFailureTargetMaterializationFailed reason detail at_utc_ms;
       DeliveryFailureTargetMissing reason detail at_utc_ms;
       DeliveryFailureTargetBusy reason detail at_utc_ms;
       DeliveryFailureRuntimeRejected reason detail at_utc_ms;
       DeliveryFailureMobRejected reason detail at_utc_ms;
       DeliveryFailureTransportError reason detail at_utc_ms;
       DeliveryFailureInternalError reason detail at_utc_ms;
       DeliveryFailureScheduleMandateUnavailable reason detail at_utc_ms;
       LateDeliveryFailureAfterSupersession reason detail at_utc_ms]
  | I_ResolveTargetProbe outcome redelivery detail at_utc_ms =>
      [TargetProbeReadyClaimed outcome redelivery detail at_utc_ms;
       TargetProbeBusyAllowedByPolicy outcome redelivery detail at_utc_ms;
       TargetProbeBusyExistingRedelivery outcome redelivery detail at_utc_ms;
       TargetProbeBusySkipByPolicy outcome redelivery detail at_utc_ms;
       TargetProbeMissingSkipByPolicy outcome redelivery detail at_utc_ms;
       TargetProbeMissingMisfireByPolicy outcome redelivery detail at_utc_ms]
  | I_ResolveDueMisfire detail at_utc_ms =>
      [DueMisfirePending detail at_utc_ms]
  | I_Supersede superseded_by_revision' at_utc_ms =>
      [SupersedePendingOrLive superseded_by_revision' at_utc_ms;
       SupersedeAlreadySuperseded superseded_by_revision' at_utc_ms]
  | I_RenewLease claim_token' lease_expires_at_utc_ms' at_utc_ms =>
      [RenewLeaseFromDispatching claim_token' lease_expires_at_utc_ms' at_utc_ms;
       RenewLeaseFromAwaitingCompletion claim_token' lease_expires_at_utc_ms' at_utc_ms]
  | I_LeaseExpired at_utc_ms =>
      [LeaseExpiredFromClaimed at_utc_ms;
       LeaseExpiredFromDispatching at_utc_ms;
       LeaseExpiredFromAwaitingCompletion at_utc_ms]
  | I_ReleaseLeaseForPausedSchedule at_utc_ms =>
      [ReleaseLeaseForPausedScheduleFromClaimed at_utc_ms;
       ReleaseLeaseForPausedScheduleFromDispatching at_utc_ms;
       ReleaseLeaseForPausedScheduleFromAwaitingCompletion at_utc_ms;
       ReleaseLeaseForPausedScheduleAfterSupersession at_utc_ms]
  | I_ClassifyTransitionFailure refusal_kind trigger =>
      ClassifyTransitionFailurePlanRejected refusal_kind trigger
      ++ ClassifyTransitionFailureTargetSyncRejected refusal_kind trigger
      ++ ClassifyTransitionFailureReceiptRecordRejected refusal_kind trigger
      ++ ClassifyTransitionFailureDueClassificationRejected refusal_kind trigger
      ++ ClassifyTransitionFailureClaimedDispatchDispositionRejected refusal_kind trigger
      ++ ClassifyTransitionFailureCompletionSupersessionRejected refusal_kind trigger
      ++ ClassifyTransitionFailureClaimRejectedPending refusal_kind trigger
      ++ ClassifyTransitionFailureNotPendingForClaim refusal_kind trigger
      ++ ClassifyTransitionFailureNotClaimed refusal_kind trigger
      ++ ClassifyTransitionFailureNotDispatching refusal_kind trigger
      ++ ClassifyTransitionFailureNotLeaseHolding refusal_kind trigger
      ++ ClassifyTransitionFailureNotLiveForTerminal refusal_kind trigger
      ++ ClassifyTransitionFailureStaleCompletionArrivalRejected refusal_kind trigger
  | I_ClassifyStaleCompletionArrival trigger =>
      ClassifyStaleCompletionArrivalObserved trigger
  | I_ResolveReclaimExhausted admission_evidence detail at_utc_ms =>
      [ReclaimExhaustedAfterAdmission admission_evidence detail at_utc_ms;
       ReclaimExhaustedAfterUnprovenDispatch admission_evidence detail at_utc_ms]
  | I_ResolveUnprovenLateNotAdmitted admission_evidence detail at_utc_ms =>
      [UnprovenLateNotAdmittedFromClaimed admission_evidence detail at_utc_ms;
       UnprovenLateNotAdmittedFromDispatching admission_evidence detail at_utc_ms]
  end.

#[export] Instance OccurrenceLifecycleMachine :
    Machine OccurrenceLifecycleMachineState OccurrenceLifecycleState OccurrenceLifecycleInput
      OccurrenceLifecycleInputVariant OccurrenceLifecycleEffect := {|
  variant := occurrence_variant;
  init := occurrence_init;
  transitions := occurrence_transitions;
  invariants :=
    [("live_claim_requires_owner", live_claim_requires_owner);
     ("superseded_records_revision", superseded_records_revision);
     ("delivery_failed_records_failure_class", delivery_failed_records_failure_class);
     ("misfire_deadline_not_before_due", misfire_deadline_not_before_due);
     ("late_completion_only_after_supersession", late_completion_only_after_supersession);
     ("late_completion_resolution_requires_timestamp", late_completion_resolution_requires_timestamp);
     ("late_completion_timestamp_requires_resolution", late_completion_timestamp_requires_resolution);
     ("late_completion_detail_requires_resolution", late_completion_detail_requires_resolution)];
|}.
End Transitions.

#[export] Hint Unfold sync_target_update record_receipt_update claim_update
  dispatch_accepted_update unproven_late_update lease_expired_update release_lease_update
  : updates.

#[export] Instance occurrence_no_map_reads {BP : BuildProfile} :
  NoMapReads OccurrenceLifecycleMachineState OccurrenceLifecycleState
    OccurrenceLifecycleInput OccurrenceLifecycleInputVariant
    OccurrenceLifecycleEffect.
Proof. no_map_reads. Qed.
