(* ===== verification/OccurrenceFacts.v ===== *)
(** * Properties of the occurrence authority

    The invariants, the claim and lease discipline, the due verdicts, the
    terminal phases and the failure classification of the machine defined in
    [OccurrenceLifecycle]. *)

From S2P Require Export OccurrenceLifecycle.

(** ** Vocabulary of the statements *)

Abbreviation Occurrence := OccurrenceLifecycleMachineState.
Abbreviation OccurrenceLog :=
  (list (OccurrenceLifecycleInput *
         TransitionRecord OccurrenceLifecycleState OccurrenceLifecycleEffect)).

Definition is_terminal (p : OccurrenceLifecycleState) : bool :=
  bool_decide (p ∈ occurrence_terminal).

(** The receipt stages an occurrence in phase [p] can have pending. *)
Definition receipt_explains (p : OccurrenceLifecycleState)
    (stage : option DeliveryReceiptStage) : bool :=
  match p, stage with
  | Pending, (None | Some DeliveryReceiptStage_LeaseExpired)
  | Claimed, None
  | (Dispatching | AwaitingCompletion),
      Some (DeliveryReceiptStage_DispatchStarted | DeliveryReceiptStage_DispatchAccepted)
  | Completed, Some DeliveryReceiptStage_Completed
  | Skipped, Some DeliveryReceiptStage_Skipped
  | Misfired, Some DeliveryReceiptStage_Misfired
  | Superseded, Some DeliveryReceiptStage_Superseded
  | DeliveryFailed, Some DeliveryReceiptStage_DeliveryFailed => true
  | _, _ => false
  end.

(** What the declared invariants leave implicit. *)
Record Shape (s : Occurrence) : Prop := {
  shape_idle : lifecycle_phase s = Pending →
    claimed_by s = None ∧ claim_token s = None ∧
    lease_expires_at_utc_ms s = None ∧ delivery_correlation_id s = None;
  shape_live : is_live_claim_phase (lifecycle_phase s) = true →
    claimed_by s ≠ None ∧ claim_token s ≠ None ∧ lease_expires_at_utc_ms s ≠ None;
  shape_ended : is_terminal (lifecycle_phase s) = true ↔ completed_at_utc_ms s ≠ None;
  shape_superseded : lifecycle_phase s = Superseded ↔ superseded_by_revision s ≠ None;
  shape_failed : lifecycle_phase s = DeliveryFailed → failure_class s ≠ None;
  shape_deadline : (due_at_utc_ms s ≤ misfire_deadline_utc_ms s)%N;
  shape_late : late_completion_resolution s ≠ None →
    lifecycle_phase s = Superseded ∧ late_completion_recorded_at_utc_ms s ≠ None;
  shape_late_time : late_completion_recorded_at_utc_ms s ≠ None →
    late_completion_resolution s ≠ None;
  shape_late_detail : late_completion_detail s ≠ None →
    late_completion_resolution s ≠ None;
  shape_receipt : receipt_explains (lifecycle_phase s) (receipt_stage s) = true;
}.

Definition is_claim (i : OccurrenceLifecycleInput) : bool :=
  match i with I_Claim _ _ _ _ _ => true | _ => false end.

(** The inputs that take a live claim back to [Pending]. *)
Definition is_release (i : OccurrenceLifecycleInput) : bool :=
  match i with I_LeaseExpired _ | I_ReleaseLeaseForPausedSchedule _ => true | _ => false end.

(** The claims an execution accepted. *)
Definition claims (l : OccurrenceLog) : nat :=
  length (List.filter (λ ir, is_claim ir.1) l).

Lemma set_phase_same (s : Occurrence) p : lifecycle_phase s = p → s <| lifecycle_phase := p |> = s.
Proof. intros <-. by destruct s. Qed.

Lemma is_terminal_spec p :
  is_terminal p = match p with
    Pending | Claimed | Dispatching | AwaitingCompletion => false | _ => true end.
Proof. by destruct p. Qed.

Lemma is_live_spec p :
  is_live_claim_phase p = match p with
    Claimed | Dispatching | AwaitingCompletion => true | _ => false end.
Proof. by destruct p. Qed.

(** Splits a firing; the arms that change nothing are closed by [tac]. *)
Ltac occurrence_cases HF tac :=
  fires_cases HF; case_guards;
  try (rewrite set_phase_same by (assumption || reflexivity); tac).

Section Facts.
Context {BP : BuildProfile}.
Implicit Types s : Occurrence.

Lemma shape_invariants s : Shape s → invariants_hold s = true.
Proof.
  intros [_ Wl _ Ws Wf Wd Wlc Wlt Wld _]. unfold invariants_hold. cbn.
  unfold live_claim_requires_owner, superseded_records_revision,
    delivery_failed_records_failure_class, misfire_deadline_not_before_due,
    late_completion_only_after_supersession, late_completion_resolution_requires_timestamp,
    late_completion_timestamp_requires_resolution,
    late_completion_detail_requires_resolution.
  prop_goal; prop_guards; auto.
  - by apply Wl.
  - by apply Ws.
  - by apply Wlc.
  - by apply Wlc.
Qed.

(** The proof obligations of an arm, one per clause of the invariant. *)
Ltac shape_arm :=
  try match goal with H : lifecycle_phase _ = _ |- _ => rewrite H in * end;
  split; cbn in *; rewrite ?is_live_spec, ?is_terminal_spec in *; cbn in *;
  try assumption;
  try (intros; first [congruence | lia]);
  try solve [intuition congruence].

Lemma fires_shape i t s s' es : Fires i t s s' es → Shape s → Shape s'.
Proof.
  intros HF Hwf. occurrence_cases HF ltac:(exact Hwf).
  all: destruct Hwf as [Wi Wl We Ws Wf Wd Wlc Wlt Wld Wr].
  all: rewrite is_live_spec, is_terminal_spec in *.
  all: shape_arm.
Qed.

(** The declared invariants alone, as propositions. *)
Record Declared (s : Occurrence) : Prop := {
  declared_owner : is_live_claim_phase (lifecycle_phase s) = true → claimed_by s ≠ None;
  declared_superseded : lifecycle_phase s = Superseded → superseded_by_revision s ≠ None;
  declared_failed : lifecycle_phase s = DeliveryFailed → failure_class s ≠ None;
  declared_deadline : (due_at_utc_ms s ≤ misfire_deadline_utc_ms s)%N;
  declared_late : late_completion_resolution s ≠ None → lifecycle_phase s = Superseded;
  declared_late_time : late_completion_resolution s ≠ None →
    late_completion_recorded_at_utc_ms s ≠ None;
  declared_time_late : late_completion_recorded_at_utc_ms s ≠ None →
    late_completion_resolution s ≠ None;
  declared_detail : late_completion_detail s ≠ None → late_completion_resolution s ≠ None;
}.

Lemma invariants_declared s : invariants_hold s = true ↔ Declared s.
Proof.
  unfold invariants_hold. cbn.
  unfold live_claim_requires_owner, superseded_records_revision,
    delivery_failed_records_failure_class, misfire_deadline_not_before_due,
    late_completion_only_after_supersession, late_completion_resolution_requires_timestamp,
    late_completion_timestamp_requires_resolution,
    late_completion_detail_requires_resolution.
  split.
  - intros H. prop_guards. split; intros; case_guards; congruence.
  - intros []. prop_goal; prop_guards; auto.
Qed.

Lemma fires_declared i t s s' es : Fires i t s s' es → Declared s → Declared s'.
Proof.
  intros HF Hwf. occurrence_cases HF ltac:(exact Hwf).
  all: destruct Hwf as [Wo Ws Wf Wd Wl Wlt Wtl Wld].
  all: rewrite is_live_spec in *.
  all: try match goal with H : lifecycle_phase _ = _ |- _ => rewrite H in * end.
  all: split; cbn in *; rewrite ?is_live_spec in *; cbn in *; try assumption.
  all: try (intros; first [congruence | lia]).
  all: try solve [intuition congruence].
Qed.

#[export] Instance occurrence_inductive :
  InductiveMachine Occurrence OccurrenceLifecycleState OccurrenceLifecycleInput
    OccurrenceLifecycleInputVariant OccurrenceLifecycleEffect.
Proof.
  split; [done|]. intros i. apply Forall_forall. intros t Ht s s' HI Hg Hup.
  apply invariants_declared. eapply (fires_declared i t s _ _).
  - split; [done..|]. unfold fire. rewrite Hup. reflexivity.
  - by apply invariants_declared.
Qed.

Lemma init_shape : Shape (init : Occurrence).
Proof. by split; cbn. Qed.

Lemma execution_shape l s : Execution init l s → Shape s.
Proof.
  intros HE. eapply (Execution_ind_invariant Shape); [|done|apply init_shape].
  intros. by eapply fires_shape.
Qed.

(** *** Claims *)

(** What a step does to the phase and to the claim counter. *)
Lemma fires_attempts i t s s' es :
  Fires i t s s' es →
  if is_claim i
  then lifecycle_phase s = Pending ∧ lifecycle_phase s' = Claimed ∧
       u64_add (attempt_count s) 1 = Some (attempt_count s')
  else attempt_count s' = attempt_count s ∧
       (lifecycle_phase s' = Pending → lifecycle_phase s ≠ Pending → is_release i = true).
Proof.
  intros HF. occurrence_cases HF ltac:(done). all: cbn; try done.
  all: split; [try done; congruence|congruence].
Qed.

(** What a step does to a claim that it does not end. *)
Lemma fires_lease i t s s' es :
  Fires i t s s' es →
  is_live_claim_phase (lifecycle_phase s) = true →
  is_live_claim_phase (lifecycle_phase s') = true →
  claimed_by s' = claimed_by s ∧ claim_token s' = claim_token s ∧
  match i with
  | I_RenewLease tok lease _ =>
      claim_token s = Some tok ∧ lease_expires_at_utc_ms s' = Some lease ∧
      (∀ old, lease_expires_at_utc_ms s = Some old → (old ≤ lease)%N) ∧
      lifecycle_phase s ≠ Claimed
  | _ => lease_expires_at_utc_ms s' = lease_expires_at_utc_ms s
  end.
Proof.
  rewrite !is_live_spec. intros HF Hl Hl'. occurrence_cases HF ltac:(done).
  all: cbn in *; try done; try (by match goal with H : lifecycle_phase _ = _ |- _ => rewrite H in Hl end).
  all: split_and!; try done; try congruence.
  all: intros old Hold; rewrite Hold in *; cbn in *; congruence || done.
Qed.
End Facts.
