(* ===== verification/OccurrenceClaims.v ===== *)
(** * Claims and leases of an occurrence

    At most one executor holds an occurrence, every claim is counted, late
    reclaims are bounded, and a lease is moved only by its holder. *)

From S2P Require Export OccurrenceFacts.

Section Claims.
Context {BP : BuildProfile}.
Implicit Types s : Occurrence.
Implicit Types l : OccurrenceLog.

Lemma claims_cons i r l : claims ((i, r) :: l) = (if is_claim i then 1 else 0) + claims l.
Proof. unfold claims. cbn. by destruct (is_claim i). Qed.

Lemma claims_app l1 l2 : claims (l1 ++ l2) = claims l1 + claims l2.
Proof. unfold claims. by rewrite List.filter_app, length_app. Qed.

Lemma claim_accepted i s s' r :
  apply i s = Returned s' (inl r) → is_claim i = true →
  lifecycle_phase s = Pending ∧ lifecycle_phase s' = Claimed.
Proof.
  intros (t & HF & _)%apply_accepted Hi. apply fires_attempts in HF.
  rewrite Hi in HF. naive_solver.
Qed.

(** Without a release an occurrence that left [Pending] does not come back. *)
Lemma execution_not_pending l s s' :
  Execution s l s' → lifecycle_phase s ≠ Pending →
  (∀ ir, ir ∈ l → is_release ir.1 = true → to_phase ir.2 ≠ Pending) →
  lifecycle_phase s' ≠ Pending.
Proof.
  induction 1 as [|s i s1 r l s2 Happ _ IH]; [done|]. intros Hp Hrel.
  apply IH; [|intros ir Hir; apply Hrel; by right].
  intros Hp1. apply apply_accepted in Happ as (t & HF & _ & Hto). apply fires_attempts in HF.
  pose proof (Hrel (i, r) (list_elem_of_here _ _)) as Hir. cbn in Hir, Hto. rewrite Hto in Hir.
  destruct (is_claim i); [destruct HF as (_ & ? & _); congruence|].
  destruct HF as [_ Hr]. exact (Hir (Hr Hp1 Hp) Hp1).
Qed.

Lemma execution_attempts `{!CheckedArithmetic} l s s' :
  Execution s l s' → attempt_count s' = (attempt_count s + N.of_nat (claims l))%N.
Proof.
  induction 1 as [|s i s1 r l s2 Happ _ IH]; [cbn; lia|].
  apply apply_accepted in Happ as (t & HF & _). apply fires_attempts in HF.
  rewrite claims_cons. destruct (is_claim i).
  - destruct HF as (_ & _ & Ha%u64_add_checked). lia.
  - destruct HF as [Ha _]. lia.
Qed.

(** A claim accepted past the misfire deadline needs recorded evidence of an
    earlier dispatch and one of the five attempts. *)
Lemma fires_late_claim o at_ms lease tok ev t s s' es :
  Fires (I_Claim o at_ms lease tok ev) t s s' es →
  misfire_deadline_utc_ms s' = misfire_deadline_utc_ms s ∧
  ((misfire_deadline_utc_ms s < at_ms)%N →
   ev ≠ AdmissionEvidence_Unrecorded ∧ (attempt_count s < ADMITTED_RECLAIM_ATTEMPT_CAP)%N).
Proof.
  intros [Hin Hg Hf]. apply fire_Some in Hf as (s1 & Hf & Hs & _).
  cbn -[app] in Hin. unfold ADMITTED_RECLAIM_ATTEMPT_CAP.
  split_declared Hin; subst t; cbn in Hg, Hs; unfold_update Hf; case_guards;
    split_binds; (split; [reflexivity|intros ?; split; [first [congruence | lia]|lia]]).
Qed.

Lemma execution_lease l s s' :
  Execution s l s' →
  is_live_claim_phase (lifecycle_phase s) = true →
  (∀ ir, ir ∈ l → is_live_claim_phase (to_phase ir.2) = true) →
  claimed_by s' = claimed_by s ∧ claim_token s' = claim_token s ∧
  ∀ old, lease_expires_at_utc_ms s = Some old →
    ∃ new, lease_expires_at_utc_ms s' = Some new ∧ (old ≤ new)%N ∧
      ((old < new)%N → ∃ tok at_ms r,
         claim_token s = Some tok ∧ (I_RenewLease tok new at_ms, r) ∈ l).
Proof.
  induction 1 as [|s i s1 r l s2 Happ _ IH]; intros Hl Hall.
  { split_and!; try done. intros old Ho. exists old. split_and!; [done|lia|lia]. }
  pose proof (Hall (i, r) (list_elem_of_here _ _)) as Hl1.
  apply apply_accepted in Happ as (t & HF & _ & Hto). cbn in Hl1. rewrite Hto in Hl1.
  destruct (fires_lease _ _ _ _ _ HF Hl Hl1) as (Hc & Ht & Hlease).
  destruct IH as (Hc2 & Ht2 & Hold2); [done|intros; apply Hall; by right|].
  split_and!; [congruence|congruence|]. intros old Ho.
  assert (∃ mid, lease_expires_at_utc_ms s1 = Some mid ∧ (old ≤ mid)%N ∧
    ((old < mid)%N → ∃ tok at_ms, claim_token s = Some tok ∧ i = I_RenewLease tok mid at_ms))
    as (mid & Hmid & Hle & Hwhy).
  { destruct i; try (exists old; split_and!; [congruence|lia|lia]).
    destruct Hlease as (Htok & Hs1 & Hmono & _). eexists. split; [done|].
    split; [by apply Hmono|]. eauto. }
  destruct (Hold2 mid Hmid) as (new & Hnew & Hle2 & Hwhy2).
  exists new. split_and!; [done|lia|]. intros Hlt.
  destruct (decide (mid = new)) as [->|Hne].
  - destruct Hwhy as (tok & at_ms & Htok & ->); [lia|].
    exists tok, at_ms, r. split; [done|left].
  - destruct Hwhy2 as (tok & at_ms & r' & Htok & Hin); [lia|].
    exists tok, at_ms, r'. split; [congruence|by right].
Qed.
End Claims.

(** ** Properties *)

Section Properties.
Context {BP : BuildProfile}.
Implicit Types s : Occurrence.

(** C28: claims are exclusive.  Between two claims an occurrence accepts there
    is always a release of the first one, an expired or released lease that
    took it back to [Pending]: no two executors hold the occurrence at
    once. *)
Theorem occurrence_claims_exclusive l1 i1 r1 l2 i2 r2 l3 s :
  Execution init (l1 ++ (i1, r1) :: l2 ++ (i2, r2) :: l3) s →
  is_claim i1 = true → is_claim i2 = true →
  ∃ ir, ir ∈ l2 ∧ is_release ir.1 = true ∧ to_phase ir.2 = Pending.
Proof.
  intros (s1 & _ & H)%Execution_app_inv H1 H2.
  inversion H as [|? ? s2 ? ? ? Ha1 Hrest]; subst.
  apply Execution_app_inv in Hrest as (s3 & Hl2 & Hrest).
  inversion Hrest as [|? ? s4 ? ? ? Ha2 _]; subst.
  apply claim_accepted in Ha1 as [_ Hp2]; [|done]. apply claim_accepted in Ha2 as [Hp3 _]; [|done].
  destruct (Exists_dec (λ ir, is_release ir.1 = true ∧ to_phase ir.2 = Pending) l2)
    as [(ir & Hin & Hr & Hp)%Exists_exists|Hno]; [eauto|].
  exfalso. apply (execution_not_pending _ _ _ Hl2); [by rewrite Hp2| |done].
  intros ir Hir Hr Hp. apply Hno, Exists_exists. eauto.
Qed.

(** C30: reclaims are bounded.  The attempt counter of a reachable occurrence
    is the number of claims it ever accepted; and a claim accepted after the
    misfire deadline carries evidence of an earlier dispatch and is at most
    the fifth, so a late occurrence is not redelivered forever. *)
Theorem occurrence_late_claims_bounded `{!CheckedArithmetic} l o at_ms lease tok ev r s :
  Execution init (l ++ [(I_Claim o at_ms lease tok ev, r)]) s →
  attempt_count s = N.of_nat (S (claims l)) ∧
  ((misfire_deadline_utc_ms s < at_ms)%N →
   ev ≠ AdmissionEvidence_Unrecorded ∧ (attempt_count s ≤ ADMITTED_RECLAIM_ATTEMPT_CAP)%N).
Proof.
  intros HE. pose proof (execution_attempts _ _ _ HE) as Hc.
  rewrite claims_app, claims_cons in Hc. cbn in Hc.
  apply Execution_snoc_inv in HE as (s0 & HE & Ha).
  apply execution_attempts in HE. cbn in HE.
  apply apply_accepted in Ha as (t & HF & _).
  apply fires_late_claim in HF as [-> Hlate].
  split; [unfold claims in *; cbn in *; lia|]. intros Hl. destruct (Hlate Hl) as [? ?].
  split; [done|]. unfold claims in *. cbn in *. lia.
Qed.

(** a lease belongs to its holder.  While a claim is held, whatever else
    is applied, owner and claim token stay, the lease never shrinks, and if
    it grew the new expiry was asked for by a [RenewLease] that presented the
    claim's own token. *)
Theorem occurrence_lease_moved_by_holder l s s' :
  Execution s l s' →
  is_live_claim_phase (lifecycle_phase s) = true →
  (∀ ir, ir ∈ l → is_live_claim_phase (to_phase ir.2) = true) →
  claimed_by s' = claimed_by s ∧ claim_token s' = claim_token s ∧
  ∀ old, lease_expires_at_utc_ms s = Some old →
    ∃ new, lease_expires_at_utc_ms s' = Some new ∧ (old ≤ new)%N ∧
      ((old < new)%N → ∃ tok at_ms r,
         claim_token s = Some tok ∧ (I_RenewLease tok new at_ms, r) ∈ l).
Proof. apply execution_lease. Qed.
End Properties.

(** ** Witnesses *)

#[local] Existing Instance dev_profile.

#[local] Instance claims_checked : CheckedArithmetic.
Proof. reflexivity. Defined.

(** Planned for 100 with a window to 200, claimed, dispatched, lost, and
    reclaimed past the deadline on the evidence of the started dispatch. *)
Definition demo_plan : OccurrenceLifecycleInput :=
  I_PlanOccurrence "occ-1" "sched-1" 3 7 "t" "b" MisfirePolicy_Skip "misfire:skip"
    OverlapPolicy_SkipIfRunning "overlap:skip_if_running" MissingTargetPolicy_Skip
    "missing_target:skip" None 100 200.

Definition first_claim := I_Claim "host-a" 110 170 "tok-a" AdmissionEvidence_Unrecorded.
Definition late_claim := I_Claim "host-b" 400 460 "tok-b" AdmissionEvidence_Started.

Definition demo_inputs : list OccurrenceLifecycleInput :=
  [I_DispatchStarted (Some "corr-1") 111; I_RenewLease "tok-a" 230 165; I_LeaseExpired 300].

Definition demo_reclaim := replay init (demo_plan :: first_claim :: demo_inputs ++ [late_claim]).

Definition noted (from to : OccurrenceLifecycleState) (es : list OccurrenceLifecycleEffect) :=
  {| from_phase := from; to_phase := to; effects := es |}.

Definition planned := noted Pending Pending [].
Definition claimed := noted Pending Claimed [E_Claimed].
Definition reclaimed := noted Pending Claimed [E_Claimed; E_ReclaimedAfterUnprovenDispatch].
Definition between := take 3 (drop 2 demo_reclaim.1).

Lemma demo_reclaim_execution :
  Execution init ([(demo_plan, planned)] ++ (first_claim, claimed) :: between ++
    [(late_claim, reclaimed)]) demo_reclaim.2.
Proof.
  apply (run_inputs_execution (demo_plan :: first_claim :: demo_inputs ++ [late_claim])).
  vm_compute. reflexivity.
Qed.

Lemma occurrence_claims_exclusive_witness :
  ∃ ir, ir ∈ between ∧ is_release ir.1 = true ∧ to_phase ir.2 = Pending.
Proof.
  apply (occurrence_claims_exclusive [(demo_plan, planned)] first_claim claimed between late_claim
    reclaimed [] demo_reclaim.2).
  - exact demo_reclaim_execution.
  - reflexivity.
  - reflexivity.
Defined.

Definition before_reclaim : OccurrenceLog :=
  [(demo_plan, planned); (first_claim, claimed)] ++ between.

Lemma demo_late_execution :
  Execution init
    (before_reclaim ++
     [(I_Claim "host-b" 400 460 "tok-b" AdmissionEvidence_Started, reclaimed)])
    demo_reclaim.2.
Proof.
  apply (run_inputs_execution (demo_plan :: first_claim :: demo_inputs ++ [late_claim])).
  vm_compute. reflexivity.
Qed.

Lemma occurrence_late_claims_bounded_witness :
  attempt_count demo_reclaim.2 = N.of_nat (S (claims before_reclaim)) ∧
  ((misfire_deadline_utc_ms demo_reclaim.2 < 400)%N →
   AdmissionEvidence_Started ≠ AdmissionEvidence_Unrecorded ∧
   (attempt_count demo_reclaim.2 ≤ ADMITTED_RECLAIM_ATTEMPT_CAP)%N).
Proof.
  apply (occurrence_late_claims_bounded before_reclaim "host-b" 400 460 "tok-b"
    AdmissionEvidence_Started reclaimed demo_reclaim.2).
  exact demo_late_execution.
Defined.

Definition demo_claimed := replay init [demo_plan; first_claim].
Definition demo_renewed := replay demo_claimed.2 (take 2 demo_inputs).

Lemma demo_renewed_execution : Execution demo_claimed.2 demo_renewed.1 demo_renewed.2.
Proof. apply (run_inputs_execution (take 2 demo_inputs)). vm_compute. reflexivity. Qed.

Lemma occurrence_lease_moved_by_holder_witness :
  lease_expires_at_utc_ms demo_renewed.2 = Some 230%N ∧
  claim_token demo_renewed.2 = claim_token demo_claimed.2.
Proof.
  destruct (occurrence_lease_moved_by_holder demo_renewed.1 demo_claimed.2 demo_renewed.2)
    as (_ & Htok & _).
  - exact demo_renewed_execution.
  - vm_compute. reflexivity.
  - intros ir Hir. assert (Forall (λ ir, is_live_claim_phase (to_phase ir.2) = true)
      demo_renewed.1) as Hall by (vm_compute; repeat constructor).
    rewrite Forall_forall in Hall. by apply Hall.
  - split; [vm_compute; reflexivity|exact Htok].
Defined.
