(* ===== verification/OccurrenceTerminal.v ===== *)
(** * How an occurrence ends

    The shape of every reachable occurrence, the terminal phases, and the
    deliveries that resolve after a supersession. *)

From S2P Require Export OccurrenceFacts.

(** ** Vocabulary of the statements *)

(** What a terminal occurrence may still change: the projection of its last
    receipt, the late-arrival record, and the count of stale arrivals. *)
Definition same_outcome (s s' : Occurrence) : Prop :=
  s' = s <| last_receipt_recorded_at_utc_ms := last_receipt_recorded_at_utc_ms s' |>
         <| last_receipt_attempt := last_receipt_attempt s' |>
         <| last_receipt_stage := last_receipt_stage s' |>
         <| last_receipt_failure_class := last_receipt_failure_class s' |>
         <| last_receipt_detail := last_receipt_detail s' |>
         <| last_receipt_correlation_id := last_receipt_correlation_id s' |>
         <| last_receipt_materialized_session_id := last_receipt_materialized_session_id s' |>
         <| runtime_outcome_key := runtime_outcome_key s' |>
         <| late_completion_recorded_at_utc_ms := late_completion_recorded_at_utc_ms s' |>
         <| late_completion_resolution := late_completion_resolution s' |>
         <| late_completion_detail := late_completion_detail s' |>
         <| stale_completion_arrivals := stale_completion_arrivals s' |>.

(** The effects that report a classification or a record and start nothing. *)
Definition is_report (e : OccurrenceLifecycleEffect) : bool :=
  match e with
  | E_DueNoAction | E_OccurrenceTerminalityClassified true
  | E_CompletionSupersessionClassified CompletionSupersessionDisposition_AlreadySuperseded None
  | E_TransitionFailureClassified _ _ _ _ | E_LateCompletionResolutionRecorded _
  | E_StaleCompletionArrivalClassified _ _ => true
  | _ => false
  end.

(** What a delivery resolution that arrives late says the delivery did. *)
Definition late_resolution (i : OccurrenceLifecycleInput)
    : option (LateCompletionResolutionClass * option string * N) :=
  match i with
  | I_Complete at_ms => Some (LateCompletionResolutionClass_DeliveryCompleted, None, at_ms)
  | I_ResolveRuntimeCompletion outcome d at_ms =>
      Some (match outcome with
            | RuntimeCompletionOutcome_Completed =>
                LateCompletionResolutionClass_RuntimeCompleted
            | RuntimeCompletionOutcome_RuntimeTerminated =>
                LateCompletionResolutionClass_RuntimeTransportError
            | RuntimeCompletionOutcome_FinalizationFailed =>
                LateCompletionResolutionClass_RuntimeInternalError
            | _ => LateCompletionResolutionClass_RuntimeRejected
            end, d, at_ms)
  | I_ResolveDeliveryCompletionFailure _ d at_ms =>
      Some (LateCompletionResolutionClass_DeliveryCompletionFailed, d, at_ms)
  | I_ResolveDeliveryFailure _ d at_ms =>
      Some (LateCompletionResolutionClass_DeliveryFailed, d, at_ms)
  | _ => None
  end.

Section Terminal.
Context {BP : BuildProfile}.
Implicit Types s : Occurrence.

Lemma same_outcome_refl s : same_outcome s s.
Proof. by destruct s. Qed.

Lemma same_outcome_trans s s1 s2 : same_outcome s s1 → same_outcome s1 s2 → same_outcome s s2.
Proof. unfold same_outcome. intros H1 H2. rewrite H2, H1. by destruct s. Qed.

Lemma same_outcome_phase s s' :
  same_outcome s s' →
  lifecycle_phase s' = lifecycle_phase s ∧
  superseded_by_revision s' = superseded_by_revision s ∧
  completed_at_utc_ms s' = completed_at_utc_ms s ∧
  failure_class s' = failure_class s ∧ receipt_stage s' = receipt_stage s.
Proof. intros ->. done. Qed.

Lemma fires_terminal i t s s' es :
  Fires i t s s' es → is_terminal (lifecycle_phase s) = true →
  same_outcome s s' ∧ forallb is_report es = true.
Proof.
  rewrite is_terminal_spec. intros HF Ht.
  occurrence_cases HF ltac:(split; [apply same_outcome_refl|]).
  all: try match goal with H : lifecycle_phase _ = _ |- _ => rewrite H in Ht; discriminate Ht end.
  all: try match goal with H : phase _ ∈ [Pending; _; _; _] |- _ =>
    cbn in H; split_declared H; rewrite H in Ht; discriminate Ht end.
  all: try reflexivity.
  all: split; [|reflexivity].
  all: unfold same_outcome; destruct s; cbn in *; subst; vm_compute; reflexivity.
Qed.

(** A late delivery resolution is accepted in [Superseded] and recorded. *)
Lemma late_resolution_select i s c d at_ms :
  lifecycle_phase s = Superseded → late_resolution i = Some (c, d, at_ms) →
  ∃ t, select (transitions i) s = Some t ∧
    tr_to t = Superseded ∧
    tr_update t s = Some (s <| late_completion_recorded_at_utc_ms := Some at_ms |>
                            <| late_completion_resolution := Some c |>
                            <| late_completion_detail := d |>) ∧
    (∀ s', tr_emit t s' = [E_LateCompletionResolutionRecorded c]).
Proof.
  intros Hp Hi. unfold select.
  destruct i as [| | | | | | | | | | |?|outcome ? ?| | | | | | | | | | | |]; try done;
    cbn in Hi; simplify_eq; try (destruct outcome);
    cbn; rewrite Hp; cbn; eexists; split_and!; done.
Qed.
End Terminal.

(** ** Properties *)

Section Properties.
Context {BP : BuildProfile}.
Implicit Types s : Occurrence.

(** C31: every reachable occurrence can be recovered, and its fields fit its
    phase beyond what the declared invariants say: [Pending] holds no owner,
    token or lease, a live phase holds all three, exactly the terminal phases
    have a completion time, exactly [Superseded] names a superseding
    revision, and the pending receipt is one of the phase's own stages. *)
Theorem occurrence_shape l s :
  Execution init l s → Shape s ∧ recover_from_state s = inl s.
Proof.
  intros HE%execution_shape. split; [done|]. by apply recover_ok, shape_invariants.
Qed.

(** terminal phases are absorbing.  Whatever a terminal occurrence
    accepts leaves its phase, its owner, its failure class, its completion
    time and its superseding revision alone, and emits only reports: nothing
    is claimed, dispatched or terminalized again. *)
Theorem occurrence_terminal_absorbing l s s' :
  Execution s l s' → is_terminal (lifecycle_phase s) = true →
  same_outcome s s' ∧ lifecycle_phase s' = lifecycle_phase s ∧
  forallb is_report (l ≫= (λ ir, effects ir.2)) = true.
Proof.
  induction 1 as [s|s i s1 r l s2 Happ _ IH]; intros Ht.
  { split_and!; [apply same_outcome_refl|done|done]. }
  apply apply_accepted in Happ as (t & HF & _).
  destruct (fires_terminal _ _ _ _ _ HF Ht) as [Hs1 Hes].
  destruct (same_outcome_phase _ _ Hs1) as [Hp _].
  destruct IH as (Hs2 & Hp2 & Hes2); [by rewrite Hp|].
  split; [exact (same_outcome_trans _ _ _ Hs1 Hs2)|]. split; [by rewrite Hp2|].
  cbn. by rewrite forallb_app, Hes, Hes2.
Qed.

(** a delivery that resolves after its occurrence was superseded is
    never refused: each of the four delivery resolutions is accepted in
    [Superseded], keeps the recorded supersession, and records what the
    delivery did under the class of the resolution. *)
Theorem occurrence_late_resolution_recorded i s c d at_ms :
  recover_from_state s = inl s → lifecycle_phase s = Superseded →
  late_resolution i = Some (c, d, at_ms) →
  let s' := s <| late_completion_recorded_at_utc_ms := Some at_ms |>
              <| late_completion_resolution := Some c |>
              <| late_completion_detail := d |> in
  apply i s = Returned s' (inl {| from_phase := Superseded; to_phase := Superseded;
                                  effects := [E_LateCompletionResolutionRecorded c] |}).
Proof.
  intros Hrec%recover_ok Hp Hi s'. rewrite apply_debug_eq by done.
  destruct (late_resolution_select _ _ _ _ _ Hp Hi) as (t & Hsel & Hto & Hup & Hem).
  unfold apply_without_invariant_validation, run_chain.
  destruct (transitions i) as [|t0 ts] eqn:Hts; [done|]. rewrite Hsel.
  unfold fire. rewrite Hup, Hto. cbn -[field_update]. rewrite Hem.
  rewrite set_phase_same by done. cbn. by rewrite Hp.
Qed.
End Properties.

(** ** Witnesses *)

#[local] Existing Instance dev_profile.

(** Claimed, superseded by revision 4 while claimed, then resolved late. *)
Definition demo_life : list OccurrenceLifecycleInput :=
  [I_Claim "host" 1 60 "tok" AdmissionEvidence_Unrecorded; I_Supersede 4 5].

Definition demo_superseded := replay init demo_life.

Lemma demo_superseded_execution : Execution init demo_superseded.1 demo_superseded.2.
Proof. apply (run_inputs_execution demo_life). vm_compute. reflexivity. Qed.

Lemma occurrence_shape_witness :
  lifecycle_phase demo_superseded.2 = Superseded ∧
  Shape demo_superseded.2 ∧ recover_from_state demo_superseded.2 = inl demo_superseded.2.
Proof.
  split; [vm_compute; reflexivity|].
  apply (occurrence_shape demo_superseded.1 demo_superseded.2 demo_superseded_execution).
Defined.

Definition demo_afterlife : list OccurrenceLifecycleInput :=
  [I_ClassifyDue 9 AdmissionEvidence_Started; I_Complete 10; I_Supersede 5 11;
   I_ClassifyStaleCompletionArrival V_Complete].

Definition demo_late := replay demo_superseded.2 demo_afterlife.

Lemma demo_afterlife_execution : Execution demo_superseded.2 demo_late.1 demo_late.2.
Proof. apply (run_inputs_execution demo_afterlife). vm_compute. reflexivity. Qed.

Lemma occurrence_terminal_absorbing_witness :
  length demo_late.1 = 4 ∧ superseded_by_revision demo_late.2 = Some 4%N ∧
  same_outcome demo_superseded.2 demo_late.2 ∧
  lifecycle_phase demo_late.2 = lifecycle_phase demo_superseded.2 ∧
  forallb is_report (demo_late.1 ≫= (λ ir, effects ir.2)) = true.
Proof.
  split; [vm_compute; reflexivity|]. split; [vm_compute; reflexivity|].
  apply (occurrence_terminal_absorbing demo_late.1 demo_superseded.2 demo_late.2).
  - exact demo_afterlife_execution.
  - vm_compute. reflexivity.
Defined.

Lemma occurrence_late_resolution_recorded_witness :
  apply (I_ResolveRuntimeCompletion RuntimeCompletionOutcome_Cancelled (Some "gone") 12)
    demo_superseded.2 =
  Returned
    (demo_superseded.2 <| late_completion_recorded_at_utc_ms := Some 12%N |>
       <| late_completion_resolution := Some LateCompletionResolutionClass_RuntimeRejected |>
       <| late_completion_detail := Some "gone" |>)
    (inl {| from_phase := Superseded; to_phase := Superseded;
            effects := [E_LateCompletionResolutionRecorded
                          LateCompletionResolutionClass_RuntimeRejected] |}).
Proof.
  apply (occurrence_late_resolution_recorded
    (I_ResolveRuntimeCompletion RuntimeCompletionOutcome_Cancelled (Some "gone") 12)
    demo_superseded.2 LateCompletionResolutionClass_RuntimeRejected (Some "gone") 12).
  - vm_compute. reflexivity.
  - vm_compute. reflexivity.
  - reflexivity.
Defined.
