(* ===== verification/OccurrenceVerdicts.v ===== *)
(** * The verdicts of the occurrence authority

    Classification inputs change nothing and answer a question: what is due,
    what becomes of a claim before its dispatch and after its delivery, and
    which public class a refusal has.  The store and the driver act on the
    answers, so the answers are total and agree with what the authority then
    accepts. *)

From S2P Require Export OccurrenceFacts.

(** ** Vocabulary of the statements *)

(** What is due at [now], as a function of the phase. *)
Definition due_verdict (s : Occurrence) (now : N) (ev : AdmissionEvidence)
    : OccurrenceLifecycleEffect :=
  match lifecycle_phase s with
  | Pending =>
      if (now <? due_at_utc_ms s)%N then E_DueNoAction
      else if (now <=? misfire_deadline_utc_ms s)%N then E_DueClaimEligible
      else match ev with
           | AdmissionEvidence_Unrecorded => E_DueMisfireRequired
           | _ => if (attempt_count s <? ADMITTED_RECLAIM_ATTEMPT_CAP)%N
                  then E_DueClaimEligible else E_DueReclaimExhausted
           end
  | Claimed | Dispatching | AwaitingCompletion =>
      match lease_expires_at_utc_ms s with
      | Some lease => if (lease <=? now)%N then E_DueLeaseExpired else E_DueNoAction
      | None => E_DueNoAction
      end
  | _ => E_DueNoAction
  end.

(** Where a claim goes before its dispatch, given the schedule's phase and
    revision. *)
Definition dispatch_disposition (claimed_revision : N) (phase : ClaimedDispatchSchedulePhase)
    (current : N) : ClaimedDispatchDisposition * option N :=
  if (current <? claimed_revision)%N then (ClaimedDispatchDisposition_FutureRevision, None)
  else match phase with
       | ClaimedDispatchSchedulePhase_Paused => (ClaimedDispatchDisposition_Frozen, None)
       | ClaimedDispatchSchedulePhase_Deleted =>
           (ClaimedDispatchDisposition_Supersede, Some current)
       | ClaimedDispatchSchedulePhase_Active =>
           if (claimed_revision <? current)%N
           then (ClaimedDispatchDisposition_Supersede, Some current)
           else (ClaimedDispatchDisposition_Ready, None)
       end.

(** Whether a completed delivery still counts. *)
Definition completion_disposition (claimed_revision : N)
    (phase : ClaimedDispatchSchedulePhase) (current : N)
    : CompletionSupersessionDisposition * option N :=
  match phase with
  | ClaimedDispatchSchedulePhase_Deleted =>
      (CompletionSupersessionDisposition_Supersede, Some current)
  | _ => if (claimed_revision <? current)%N
         then (CompletionSupersessionDisposition_Supersede, Some current)
         else (CompletionSupersessionDisposition_Proceed, None)
  end.

(** The public class of a refusal; [None] where the authority has none. *)
Definition failure_class_of (p : OccurrenceLifecycleState)
    (kind : OccurrenceTransitionFailureRefusalKind) (trigger : OccurrenceLifecycleInputVariant)
    : option OccurrenceTransitionFailureClassKind :=
  match trigger with
  | V_PlanOccurrence => Some OccurrenceTransitionFailureClassKind_PlanRejected
  | V_SyncTargetSnapshot => Some OccurrenceTransitionFailureClassKind_TargetSyncRejected
  | V_RecordReceipt => Some OccurrenceTransitionFailureClassKind_ReceiptRecordRejected
  | V_ClassifyDue => Some OccurrenceTransitionFailureClassKind_DueClassificationRejected
  | V_ClassifyClaimedDispatchDisposition =>
      Some OccurrenceTransitionFailureClassKind_ClaimedDispatchClassificationRejected
  | V_ClassifyCompletionSupersession =>
      Some OccurrenceTransitionFailureClassKind_CompletionSupersessionClassificationRejected
  | V_Claim =>
      match p, kind with
      | Pending, OccurrenceTransitionFailureRefusalKind_GuardRejected =>
          Some OccurrenceTransitionFailureClassKind_ClaimRejected
      | Pending, OccurrenceTransitionFailureRefusalKind_NoMatchingTransition => None
      | _, _ => Some OccurrenceTransitionFailureClassKind_NotPendingForClaim
      end
  | V_DispatchStarted => Some OccurrenceTransitionFailureClassKind_NotClaimed
  | V_DispatchAccepted | V_AwaitCompletion =>
      Some OccurrenceTransitionFailureClassKind_NotDispatching
  | V_LeaseExpired | V_ReleaseLeaseForPausedSchedule | V_RenewLease =>
      Some OccurrenceTransitionFailureClassKind_NotLeaseHolding
  | V_Complete | V_ResolveRuntimeCompletion | V_ResolveDeliveryCompletionFailure
  | V_ResolveDeliveryFailure | V_ResolveTargetProbe | V_ResolveDueMisfire | V_Supersede
  | V_ResolveReclaimExhausted | V_ResolveUnprovenLateNotAdmitted =>
      Some OccurrenceTransitionFailureClassKind_NotLiveForTerminal
  | V_ClassifyStaleCompletionArrival =>
      Some OccurrenceTransitionFailureClassKind_StaleCompletionArrivalClassificationRejected
  | V_ClassifyOccurrenceTerminality | V_ClassifyTransitionFailure => None
  end.

(** Decides the comparisons of a goal one by one. *)
Ltac decide_tests :=
  repeat (match goal with
  | |- context [(?a <? ?b)%N] => destruct (N.ltb_spec a b); cbn
  | |- context [(?a <=? ?b)%N] => destruct (N.leb_spec a b); cbn
  | |- context [(?a =? ?b)%N] => destruct (N.eqb_spec a b); cbn
  end; try (exfalso; lia)).

(** Runs the chain of an input in the phase that [H] names. *)
Ltac run_select H :=
  unfold select; cbn; rewrite H; cbn; decide_tests; reflexivity.

Section Verdicts.
Context {BP : BuildProfile}.
Implicit Types s : Occurrence.

(** Runs a selected arm whose successor is known. *)
Lemma apply_selected i t s s' es :
  recover_from_state s = inl s → transitions i ≠ [] →
  select (transitions i) s = Some t → fire t s = Some (s', es) →
  apply i s = Returned s' (inl {| from_phase := lifecycle_phase s;
                                  to_phase := lifecycle_phase s'; effects := es |}).
Proof.
  intros Hrec%recover_ok Hne Hsel Hf. apply (apply_selects i t s s' es Hne Hsel Hf).
  eapply fires_invariants; [|done]. split; [|by apply select_Some in Hsel as [_ ?]|done].
  by apply select_Some in Hsel as [? _].
Qed.

Definition accepts (i : OccurrenceLifecycleInput) (s : Occurrence)
    (p : OccurrenceLifecycleState) : Prop :=
  ∃ s' r, apply i s = Returned s' (inl r) ∧ lifecycle_phase s' = p.

Definition refuses (i : OccurrenceLifecycleInput) (s : Occurrence) : Prop :=
  ∃ e, apply i s = Returned s (inr e).

(** A classification answers [e] and changes nothing. *)
Definition answers (i : OccurrenceLifecycleInput) (s : Occurrence)
    (e : OccurrenceLifecycleEffect) : Prop :=
  apply i s = Returned s (inl {| from_phase := lifecycle_phase s;
                                 to_phase := lifecycle_phase s; effects := [e] |}).

Lemma select_accepts i t s s1 p :
  recover_from_state s = inl s → transitions i ≠ [] →
  select (transitions i) s = Some t → tr_update t s = Some s1 → tr_to t = p →
  accepts i s p.
Proof.
  intros Hrec Hne Hsel Hup <-. eexists _, _. split.
  - eapply apply_selected; [done..|]. unfold fire. by rewrite Hup.
  - reflexivity.
Qed.

Lemma select_refuses i s :
  transitions i ≠ [] → select (transitions i) s = None → refuses i s.
Proof. intros Hne Hsel. eexists. by apply apply_guard_rejected. Qed.

Lemma select_answers i t s e :
  recover_from_state s = inl s → transitions i ≠ [] →
  select (transitions i) s = Some t → tr_update t = Some →
  tr_to t = lifecycle_phase s → tr_emit t s = [e] → answers i s e.
Proof.
  intros Hrec Hne Hsel Hup Hto Hem. eapply apply_selected; [done..|].
  unfold fire. rewrite Hup, Hto. cbn -[field_update].
  rewrite set_phase_same by done. by rewrite Hem.
Qed.


Lemma due_verdict_answered s now ev :
  recover_from_state s = inl s → answers (I_ClassifyDue now ev) s (due_verdict s now ev).
Proof.
  intros Hrec. pose proof Hrec as Hwf. apply recover_ok, invariants_declared in Hwf as [_ _ _ Hd _ _ _ _].
  unfold due_verdict, ADMITTED_RECLAIM_ATTEMPT_CAP.
  destruct (lifecycle_phase s) eqn:Hp; destruct ev.
  all: try (destruct (lease_expires_at_utc_ms s) as [lease|] eqn:Hl).
  all: decide_tests.
  all: eapply select_answers; [done|done|unfold select; cbn; rewrite ?Hp, ?Hl; cbn; decide_tests; reflexivity|done|done|done].
Qed.

Lemma verdict_claimable s now ev o lease tok :
  recover_from_state s = inl s → (attempt_count s < u64_max)%N →
  due_verdict s now ev = E_DueClaimEligible →
  accepts (I_Claim o now lease tok ev) s Claimed.
Proof.
  intros Hrec Hmax. unfold due_verdict, ADMITTED_RECLAIM_ATTEMPT_CAP.
  destruct (lifecycle_phase s) eqn:Hp; try done;
    try (by repeat case_match).
  destruct (u64_add (attempt_count s) 1) as [n|] eqn:Hn;
    [|rewrite u64_add_small in Hn by lia; done].
  assert (∀ s1, claim_update o now lease tok s = Some s1 → True) as _ by done.
  assert (∃ s1, claim_update o now lease tok s = Some s1) as [s1 Hs1].
  { unfold claim_update. cbn. rewrite Hn. eexists. reflexivity. }
  destruct ev; decide_tests; try done; intros _;
    (eapply (select_accepts _ _ _ s1); [done|done|run_select Hp|exact Hs1|reflexivity]).
Qed.

Lemma verdict_misfired s now ev d :
  recover_from_state s = inl s → due_verdict s now ev = E_DueMisfireRequired →
  accepts (I_ResolveDueMisfire d now) s Misfired.
Proof.
  intros Hrec. pose proof Hrec as Hwf. apply recover_ok, invariants_declared in Hwf as [_ _ _ Hd _ _ _ _].
  unfold due_verdict. destruct (lifecycle_phase s) eqn:Hp; try done; try (by repeat case_match).
  destruct ev; decide_tests; try (by repeat case_match); intros _;
    (eapply select_accepts; [done|done|run_select Hp|reflexivity|reflexivity]).
Qed.

Lemma verdict_exhausted s now ev d :
  recover_from_state s = inl s → due_verdict s now ev = E_DueReclaimExhausted →
  accepts (I_ResolveReclaimExhausted ev d now) s
    (if ev == AdmissionEvidence_Accepted then DeliveryFailed else Misfired).
Proof.
  intros Hrec. pose proof Hrec as Hwf. apply recover_ok, invariants_declared in Hwf as [_ _ _ Hd _ _ _ _].
  unfold due_verdict, ADMITTED_RECLAIM_ATTEMPT_CAP.
  destruct (lifecycle_phase s) eqn:Hp; try done; try (by repeat case_match).
  destruct ev; decide_tests; try (by repeat case_match); intros _;
    (eapply select_accepts; [done|done|run_select Hp|reflexivity|reflexivity]).
Qed.

Lemma verdict_expired s now ev :
  recover_from_state s = inl s → due_verdict s now ev = E_DueLeaseExpired →
  accepts (I_LeaseExpired now) s Pending.
Proof.
  intros Hrec. unfold due_verdict.
  destruct (lifecycle_phase s) eqn:Hp; try done; try (by repeat case_match); intros _;
    (eapply select_accepts; [done|done|run_select Hp|reflexivity|reflexivity]).
Qed.

Lemma verdict_idle s now ev :
  due_verdict s now ev = E_DueNoAction →
  (∀ o lease tok, refuses (I_Claim o now lease tok ev) s) ∧
  (∀ d, refuses (I_ResolveDueMisfire d now) s) ∧
  (∀ d, refuses (I_ResolveReclaimExhausted ev d now) s).
Proof.
  unfold due_verdict, ADMITTED_RECLAIM_ATTEMPT_CAP. intros Hv.
  assert (lifecycle_phase s ≠ Pending ∨ (due_at_utc_ms s <=? now)%N = false) as Hno.
  { destruct (lifecycle_phase s); try (by left). right. revert Hv.
    decide_tests; try done; destruct ev; decide_tests; done. }
  split_and!; intros; (apply select_refuses; [done|]); unfold select; cbn;
    (destruct Hno as [Hp| ->]; [rewrite (bool_decide_false _ Hp)|rewrite !andb_false_r]; reflexivity).
Qed.

(** *** Dispositions *)

Lemma dispatch_disposition_answered s phase current :
  recover_from_state s = inl s → lifecycle_phase s = Claimed →
  answers (I_ClassifyClaimedDispatchDisposition phase current) s
    (let '(d, r) := dispatch_disposition (schedule_revision s) phase current in
     E_ClaimedDispatchDispositionClassified d r).
Proof.
  intros Hrec Hp. unfold dispatch_disposition.
  destruct phase; decide_tests;
    (eapply select_answers; [done|done|run_select Hp|reflexivity|by rewrite Hp|reflexivity]).
Qed.

Lemma completion_disposition_answered s phase current :
  recover_from_state s = inl s → lifecycle_phase s = AwaitingCompletion →
  answers (I_ClassifyCompletionSupersession phase current) s
    (let '(d, r) := completion_disposition (schedule_revision s) phase current in
     E_CompletionSupersessionClassified d r).
Proof.
  intros Hrec Hp. unfold completion_disposition.
  destruct phase; decide_tests;
    (eapply select_answers; [done|done|run_select Hp|reflexivity|by rewrite Hp|reflexivity]).
Qed.

(** *** Failure classes *)

Definition failure_arms (kind : OccurrenceTransitionFailureRefusalKind)
    (trigger : OccurrenceLifecycleInputVariant) :=
  transitions (I_ClassifyTransitionFailure kind trigger).

Lemma failure_class_selected s kind trigger :
  match failure_class_of (lifecycle_phase s) kind trigger with
  | Some c => ∃ t, select (failure_arms kind trigger) s = Some t ∧
      tr_update t = Some ∧ tr_to t = lifecycle_phase s ∧
      tr_emit t s = [E_TransitionFailureClassified (lifecycle_phase s) kind trigger c]
  | None => select (failure_arms kind trigger) s = None
  end.
Proof.
  unfold failure_arms. cbn -[select app expand_per_phase failure_class_of].
  rewrite !select_app.
  unfold ClassifyTransitionFailurePlanRejected, ClassifyTransitionFailureTargetSyncRejected,
    ClassifyTransitionFailureReceiptRecordRejected,
    ClassifyTransitionFailureDueClassificationRejected,
    ClassifyTransitionFailureClaimedDispatchDispositionRejected,
    ClassifyTransitionFailureCompletionSupersessionRejected,
    ClassifyTransitionFailureClaimRejectedPending, ClassifyTransitionFailureNotPendingForClaim,
    ClassifyTransitionFailureNotClaimed, ClassifyTransitionFailureNotDispatching,
    ClassifyTransitionFailureNotLeaseHolding, ClassifyTransitionFailureNotLiveForTerminal,
    ClassifyTransitionFailureStaleCompletionArrivalRejected.
  rewrite !select_per_phase. cbn -[failure_class_of].
  destruct (lifecycle_phase s) eqn:Hp; destruct trigger, kind; cbn;
    first [reflexivity | eexists; split_and!; [reflexivity..|cbn; by rewrite Hp]].
Qed.

Lemma failure_class_answered s kind trigger :
  recover_from_state s = inl s →
  match failure_class_of (lifecycle_phase s) kind trigger with
  | Some c => answers (I_ClassifyTransitionFailure kind trigger) s
                (E_TransitionFailureClassified (lifecycle_phase s) kind trigger c)
  | None => refuses (I_ClassifyTransitionFailure kind trigger) s
  end.
Proof.
  intros Hrec. pose proof (failure_class_selected s kind trigger) as H.
  destruct (failure_class_of _ _ _) as [c|].
  - destruct H as (t & Hsel & Hup & Hto & Hem). by eapply select_answers.
  - by apply select_refuses.
Qed.
End Verdicts.

(** ** Properties *)

Section Properties.
Context {BP : BuildProfile}.
Implicit Types s : Occurrence.

(** C29: the due verdict is total and actionable.  [ClassifyDue] answers in
    every phase with exactly the verdict of [due_verdict] and changes
    nothing; the input the verdict calls for, sent at the same instant with
    the same evidence, is accepted and ends where the verdict says; and when
    nothing is due, no claim and no late resolution is accepted. *)
Theorem occurrence_due_verdict_actionable s now ev :
  recover_from_state s = inl s → (attempt_count s < u64_max)%N →
  answers (I_ClassifyDue now ev) s (due_verdict s now ev) ∧
  match due_verdict s now ev with
  | E_DueClaimEligible =>
      ∀ o lease tok, accepts (I_Claim o now lease tok ev) s Claimed
  | E_DueMisfireRequired => ∀ d, accepts (I_ResolveDueMisfire d now) s Misfired
  | E_DueReclaimExhausted =>
      ∀ d, accepts (I_ResolveReclaimExhausted ev d now) s
             (if ev == AdmissionEvidence_Accepted then DeliveryFailed else Misfired)
  | E_DueLeaseExpired => accepts (I_LeaseExpired now) s Pending
  | E_DueNoAction =>
      (∀ o lease tok, refuses (I_Claim o now lease tok ev) s) ∧
      (∀ d, refuses (I_ResolveDueMisfire d now) s) ∧
      (∀ d, refuses (I_ResolveReclaimExhausted ev d now) s)
  | _ => False
  end.
Proof.
  intros Hrec Hmax. split; [by apply due_verdict_answered|].
  pose proof (λ o lease tok, verdict_claimable s now ev o lease tok Hrec Hmax) as Hc.
  pose proof (λ d, verdict_misfired s now ev d Hrec) as Hm.
  pose proof (λ d, verdict_exhausted s now ev d Hrec) as He.
  pose proof (verdict_expired s now ev Hrec) as Hx.
  pose proof (verdict_idle s now ev) as Hi.
  assert (due_verdict s now ev ∈ [E_DueClaimEligible; E_DueMisfireRequired;
    E_DueReclaimExhausted; E_DueLeaseExpired; E_DueNoAction]) as Hin.
  { unfold due_verdict. repeat case_match; repeat constructor. }
  split_declared Hin; rewrite Hin in *; auto.
Qed.

(** a claim's way is decided by the occurrence authority.  Before the
    dispatch every claim is frozen, superseded, ready or flagged as ahead of
    its schedule, and after the delivery superseded or allowed to proceed,
    as the two decision tables say, for every phase and revision of the
    schedule. *)
Theorem occurrence_dispositions_total s phase current :
  recover_from_state s = inl s →
  (lifecycle_phase s = Claimed →
   answers (I_ClassifyClaimedDispatchDisposition phase current) s
     (let '(d, r) := dispatch_disposition (schedule_revision s) phase current in
      E_ClaimedDispatchDispositionClassified d r)) ∧
  (lifecycle_phase s = AwaitingCompletion →
   answers (I_ClassifyCompletionSupersession phase current) s
     (let '(d, r) := completion_disposition (schedule_revision s) phase current in
      E_CompletionSupersessionClassified d r)).
Proof.
  intros Hrec. split; intros Hp.
  - by apply dispatch_disposition_answered.
  - by apply completion_disposition_answered.
Qed.

(** C32: every refusal has exactly one public class.  The failure classifier
    answers in every phase as the table says, and any input the authority
    refuses, other than a request to classify a refusal, has a class for
    that refusal. *)
Theorem occurrence_refusals_classified s :
  recover_from_state s = inl s →
  (∀ kind trigger,
     match failure_class_of (lifecycle_phase s) kind trigger with
     | Some c => answers (I_ClassifyTransitionFailure kind trigger) s
                   (E_TransitionFailureClassified (lifecycle_phase s) kind trigger c)
     | None => refuses (I_ClassifyTransitionFailure kind trigger) s
     end) ∧
  (∀ i e, apply i s = Returned s (inr e) →
     occurrence_variant i ≠ V_ClassifyTransitionFailure →
     ∃ c, failure_class_of (lifecycle_phase s)
            OccurrenceTransitionFailureRefusalKind_GuardRejected (occurrence_variant i) = Some c ∧
          e = GuardRejected (lifecycle_phase s) (occurrence_variant i)).
Proof.
  intros Hrec. split; [intros; by apply failure_class_answered|].
  intros i e Ha Hne. apply apply_rejected_guard in Ha as (_ & Hsel & ->); [|by destruct i].
  destruct i; try done; try (by eexists); cbn.
  - exfalso. cbn -[select app expand_per_phase] in Hsel.
    unfold ClassifyOccurrenceTerminalityTerminal, ClassifyOccurrenceTerminalityLive in Hsel.
    rewrite select_app, !select_per_phase in Hsel. cbn in Hsel.
    by destruct (lifecycle_phase s).
  - destruct (lifecycle_phase s); by eexists.
Qed.
End Properties.

(** ** Witnesses *)

#[local] Existing Instance dev_profile.

(** A lost occurrence, back in [Pending] past its deadline at 200. *)
Definition lost : Occurrence :=
  occurrence_init <| due_at_utc_ms := 100%N |> <| misfire_deadline_utc_ms := 200%N |>
    <| attempt_count := 2%N |>.

Lemma occurrence_due_verdict_actionable_witness :
  due_verdict lost 300 AdmissionEvidence_Started = E_DueClaimEligible ∧
  accepts (I_Claim "host" 300 360 "tok" AdmissionEvidence_Started) lost Claimed.
Proof.
  split; [reflexivity|].
  apply (proj2 (occurrence_due_verdict_actionable lost 300 AdmissionEvidence_Started
    eq_refl eq_refl)).
Defined.

Definition held : Occurrence :=
  occurrence_init <| lifecycle_phase := Claimed |> <| claimed_by := Some "host" |>
    <| schedule_revision := 3%N |>.

Lemma occurrence_dispositions_total_witness :
  answers (I_ClassifyClaimedDispatchDisposition ClaimedDispatchSchedulePhase_Active 4) held
    (E_ClaimedDispatchDispositionClassified ClaimedDispatchDisposition_Supersede (Some 4%N)).
Proof.
  apply (proj1 (occurrence_dispositions_total held ClaimedDispatchSchedulePhase_Active 4
    eq_refl) eq_refl).
Defined.

Lemma occurrence_refusals_classified_witness :
  refuses (I_ClassifyTransitionFailure OccurrenceTransitionFailureRefusalKind_NoMatchingTransition
             V_Claim) lost ∧
  answers (I_ClassifyTransitionFailure OccurrenceTransitionFailureRefusalKind_GuardRejected
             V_Claim) held
    (E_TransitionFailureClassified Claimed OccurrenceTransitionFailureRefusalKind_GuardRejected
       V_Claim OccurrenceTransitionFailureClassKind_NotPendingForClaim).
Proof.
  split.
  - apply (proj1 (occurrence_refusals_classified lost eq_refl)
      OccurrenceTransitionFailureRefusalKind_NoMatchingTransition V_Claim).
  - apply (proj1 (occurrence_refusals_classified held eq_refl)
      OccurrenceTransitionFailureRefusalKind_GuardRejected V_Claim).
Defined.
