(* ===== verification/Rows.v ===== *)
(** * Rows: schedules and occurrences between the store and their machines

    [Schedule] and [Occurrence] of [meerkat-schedule/src/types.rs] carry the
    generated machine state, the payloads the machine only knows by their keys,
    and display fields that are functions of the machine state, which the model
    leaves out.  [Schedule::apply] and [Occurrence::apply] of [lifecycle.rs]
    validate a row against its machine, apply one input and write the state
    back.  Identifiers are their canonical texts; serialization is a parameter
    ([RowData], [RowCodec]). *)

From stdpp Require Import pretty.
From S2P Require Import Prelude Text Chrono ScheduleTypes Targets Millis Authority.
From S2P Require Import ScheduleLifecycle OccurrenceLifecycle.

Abbreviation ScheduleState := ScheduleLifecycle.ScheduleLifecycleMachineState.
Abbreviation ScheduleInput := ScheduleLifecycle.ScheduleLifecycleInput.
Abbreviation ScheduleEffect := ScheduleLifecycle.ScheduleLifecycleEffect.
Abbreviation SchedulePhase := ScheduleLifecycle.ScheduleLifecycleState.
Abbreviation OccurrenceState := OccurrenceLifecycle.OccurrenceLifecycleMachineState.
Abbreviation OccurrencePhase := OccurrenceLifecycle.OccurrenceLifecycleState.
Abbreviation OccurrenceEffect := OccurrenceLifecycle.OccurrenceLifecycleEffect.

#[export] Instance policy_eq_dec : EqDecision ScheduleTypes.MisfirePolicy.
Proof. solve_decision. Defined.

(** ** Payloads *)

(** What a target reported of a delivery. *)
Inductive RuntimeDeliveryOutcome `{TargetData} :=
| AdmissionAccepted
| AdmissionDeduplicated
| AdmissionRejected (detail : string)
| CompletionAbandoned (detail : string)
| CompletionCallbackPending (tool_name : string) (payload : JsonValue)
| CompletionRuntimeTerminated (detail : string).

#[export] Instance runtime_outcome_eq_dec `{TargetData} : EqDecision RuntimeDeliveryOutcome.
Proof. solve_decision. Defined.

(** The JSON keys the machines know payloads by ([trigger_stable_key],
    [TargetBinding::stable_key], [policy_key], [runtime_outcome_authority_key]). *)
Class RowData `{Chrono} `{TargetData} := {
  runtime_outcome_authority_key : RuntimeDeliveryOutcome → RuntimeOutcomeKey;
  target_stable_key : TargetBinding → TargetBindingId;
  trigger_stable_key : TriggerSpec → TriggerKey;
  misfire_policy_stable_key : ScheduleTypes.MisfirePolicy → string;
  overlap_policy_stable_key : OccurrenceLifecycle.OverlapPolicy → string;
  missing_target_policy_stable_key : OccurrenceLifecycle.MissingTargetPolicy → string;
}.

(** [==] on triggers: instants are compared as instants. *)
Definition same_trigger `{Chrono} (a b : TriggerSpec) : bool :=
  let same x y := (ns x =? ns y)%Z in
  match a, b with
  | Once x, Once y => same x y
  | Interval x, Interval y =>
      same (start_at_utc x) (start_at_utc y) && (every_seconds x =? every_seconds y)%N
      && match end_at_utc x, end_at_utc y with
         | Some x, Some y => same x y
         | None, None => true
         | _, _ => false
         end
  | Calendar x, Calendar y => x == y
  | _, _ => false
  end.

(** ** Row data *)

(** [receipt_id] is a function of the other fields and is left out. *)
Record DeliveryReceipt `{RowData} := {
  r_occurrence_id : OccurrenceId;
  r_attempt : N;
  r_stage : DeliveryReceiptStage;
  r_recorded_at_utc_ms : N;
  r_correlation_id : option CorrelationId;
  r_detail : option string;
  r_failure_class : option OccurrenceFailureClass;
  r_runtime_outcome : option RuntimeDeliveryOutcome;
  r_materialized_session_id : option SessionId;
}.

#[export] Instance DeliveryReceipt_eq_dec `{RowData} : EqDecision DeliveryReceipt.
Proof. solve_decision. Defined.

(** The fields of [ScheduleConfig] that are not the machine's. *)
Record ScheduleConfig `{Chrono} `{TargetData} := mkConfig {
  config_name : option string;
  config_description : option string;
  config_labels : gmap string string;
  created_at_utc : DateTime;
  updated_at_utc : DateTime;
  deleted_at_utc : option DateTime;
  commissioning_agent : option PrincipalRef;
}.

Arguments mkConfig {_ _}.
#[export] Instance config_fields `{Chrono} `{TargetData} : Fields ScheduleConfig := λ c,
  mkConfig (config_name c) (config_description c) (config_labels c) (created_at_utc c)
    (updated_at_utc c) (deleted_at_utc c) (commissioning_agent c).

Record Schedule `{RowData} := mkSchedule {
  schedule_machine : ScheduleState;
  schedule_trigger : TriggerSpec;
  schedule_target : TargetBinding;
  schedule_misfire_policy : ScheduleTypes.MisfirePolicy;
  schedule_config : ScheduleConfig;
}.

Record Occurrence `{RowData} := mkOccurrence {
  occurrence_machine : OccurrenceState;
  trigger_snapshot : TriggerSpec;
  target_snapshot : TargetBinding;
  occurrence_policy : ScheduleTypes.MisfirePolicy;
  last_receipt : option DeliveryReceipt;
  runtime_outcome : option RuntimeDeliveryOutcome;
}.

Arguments mkSchedule {_ _ _}.
Arguments mkOccurrence {_ _ _}.

#[export] Instance schedule_row_fields `{RowData} : Fields Schedule := λ s,
  mkSchedule (schedule_machine s) (schedule_trigger s) (schedule_target s)
    (schedule_misfire_policy s) (schedule_config s).
#[export] Instance occurrence_row_fields `{RowData} : Fields Occurrence := λ o,
  mkOccurrence (occurrence_machine o) (trigger_snapshot o) (target_snapshot o)
    (occurrence_policy o) (last_receipt o) (runtime_outcome o).

(** [serde_json::to_vec] of a row. *)
Class RowCodec `{RowData} := {
  Fingerprint : Type;
  #[global] fingerprint_eq_dec :: EqDecision Fingerprint;
  schedule_bytes : Schedule → Fingerprint;
  occurrence_bytes : Occurrence → Fingerprint;
}.

(** ** Errors *)

Inductive RowError :=
| ProjectionMismatch (reason : string)
| AuthorityRecoveryRejected
| TransitionRefused
| InvalidTimestamp (field : string)
| InvalidAttemptCount (value : N)
| InvalidPlanningHorizon (value : N)
| KeyMismatch (fact : string)
| MissingReceiptAuthority
| RuntimeOutcomeKeyMismatch
| ReceiptMismatch
| AmbiguousDueClassification
| AmbiguousDispatchDisposition
| AmbiguousCompletionSupersession
| SupersedeWithoutRevision
| MissingSchedule
| RevisionMismatch (expected actual : N).

Section rows.
Context `{RowCodec} {BP : BuildProfile}.

Notation result := (Outcome RowError).

Definition expect (b : bool) (e : RowError) : result unit := if b then Ok tt else Err e.

(** A [u64] millisecond count of an instant, for the input field [field]. *)
Definition to_millis (dt : DateTime) (field : string) : result N :=
  match occurrence_datetime_to_millis dt field with
  | Ok ms => Ok ms
  | Err _ => Err (InvalidTimestamp field)
  | Panic => Panic
  | OutOfFuel => OutOfFuel
  end.

Definition deadline_to_millis (p : ScheduleTypes.MisfirePolicy) (due : DateTime) : result N :=
  match occurrence_misfire_deadline_to_millis p due with
  | Ok ms => Ok ms
  | Err _ => Err (InvalidTimestamp "misfire_deadline_utc")
  | Panic => Panic
  | OutOfFuel => OutOfFuel
  end.

Definition from_millis (ms : N) (field : string) : result DateTime :=
  ok_or (millis_to_datetime ms) (InvalidTimestamp field).

(** [occurrence_optional_datetime_from_dsl] *)
Definition from_optional_millis (ms : option N) (field : string) : result (option DateTime) :=
  match ms with
  | Some ms => dt ← from_millis ms field; Ok (Some dt)
  | None => Ok None
  end.

Definition attempt_count_from_dsl (value : N) : result N :=
  if (value <=? u32_max)%N then Ok value else Err (InvalidAttemptCount value).

(** [planning_horizon_days_from_dsl] and its twin. *)
Definition planning_horizon_from_dsl (value : N) : result N :=
  if (value <=? u32_max)%N then Ok value else Err (InvalidPlanningHorizon value).

(** Recover an authority from a row's state and apply one input. *)
Definition run_dsl {St Ph In Va Ef} `{!Machine St Ph In Va Ef} (s : St) (i : In)
  : result (list Ef * St) :=
  match recover_from_state s with
  | inr _ => Err AuthorityRecoveryRejected
  | inl s =>
      match apply i s with
      | Returned s' (inl r) => Ok (effects r, s')
      | Returned _ (inr _) => Err TransitionRefused
      | Panicked => Panic
      end
  end.

(** ** Receipts *)

Definition receipt_from_pending_authority (dsl : OccurrenceState)
    (outcome : option RuntimeDeliveryOutcome) : result DeliveryReceipt :=
  stage ← ok_or (receipt_stage dsl) MissingReceiptAuthority;
  recorded_at_utc_ms ← ok_or (receipt_recorded_at_utc_ms dsl) MissingReceiptAuthority;
  _ ← from_millis recorded_at_utc_ms "receipt_recorded_at_utc";
  attempt ← attempt_count_from_dsl (attempt_count dsl);
  Ok {| r_occurrence_id := occurrence_id dsl; r_attempt := attempt; r_stage := stage;
        r_recorded_at_utc_ms := recorded_at_utc_ms;
        r_correlation_id := delivery_correlation_id dsl; r_detail := receipt_detail dsl;
        r_failure_class := receipt_failure_class dsl; r_runtime_outcome := outcome;
        r_materialized_session_id := target_materialized_session_id dsl |}.

Definition delivery_receipt_from_authority (o : Occurrence)
    (outcome : option RuntimeDeliveryOutcome) : result DeliveryReceipt :=
  receipt_from_pending_authority (occurrence_machine o) outcome.

Definition receipt_from_recorded_authority (dsl : OccurrenceState)
    (outcome : option RuntimeDeliveryOutcome) : result DeliveryReceipt :=
  stage ← ok_or (last_receipt_stage dsl) MissingReceiptAuthority;
  recorded_at_utc_ms ← ok_or (last_receipt_recorded_at_utc_ms dsl) MissingReceiptAuthority;
  _ ← from_millis recorded_at_utc_ms "last_receipt_recorded_at_utc";
  attempt ← ok_or (last_receipt_attempt dsl) MissingReceiptAuthority;
  attempt ← attempt_count_from_dsl attempt;
  _ ← expect (runtime_outcome_key dsl == (runtime_outcome_authority_key <$> outcome))
        RuntimeOutcomeKeyMismatch;
  Ok {| r_occurrence_id := occurrence_id dsl; r_attempt := attempt; r_stage := stage;
        r_recorded_at_utc_ms := recorded_at_utc_ms;
        r_correlation_id := last_receipt_correlation_id dsl;
        r_detail := last_receipt_detail dsl;
        r_failure_class := last_receipt_failure_class dsl; r_runtime_outcome := outcome;
        r_materialized_session_id := last_receipt_materialized_session_id dsl |}.

Definition validate_receipt_against_authority (dsl : OccurrenceState)
    (supplied : DeliveryReceipt) (outcome : option RuntimeDeliveryOutcome)
  : result DeliveryReceipt :=
  expected ← receipt_from_recorded_authority dsl outcome;
  _ ← expect (supplied == expected) ReceiptMismatch;
  Ok expected.

(** ** Projections

    The display fields of a row exist, and its payloads are those its machine
    names: the tests of [validate_machine_projection] that do not hold by the
    choice of fields. *)

Definition has_last_receipt (dsl : OccurrenceState) : bool :=
  (last_receipt_stage dsl != None) || (last_receipt_recorded_at_utc_ms dsl != None)
  || (last_receipt_attempt dsl != None) || (last_receipt_failure_class dsl != None)
  || (last_receipt_detail dsl != None) || (last_receipt_correlation_id dsl != None)
  || (last_receipt_materialized_session_id dsl != None) || (runtime_outcome_key dsl != None).

Definition last_receipt_from_machine_projection (dsl : OccurrenceState)
    (outcome : option RuntimeDeliveryOutcome) : result (option DeliveryReceipt) :=
  if has_last_receipt dsl then
    r ← receipt_from_recorded_authority dsl outcome; Ok (Some r)
  else
    match outcome with
    | Some _ => Err (ProjectionMismatch "runtime_outcome without machine receipt authority")
    | None => Ok None
    end.

Definition validate_recovery {St Ph In Va Ef} `{!Machine St Ph In Va Ef} (s : St) : result unit :=
  match recover_from_state s with inl _ => Ok tt | inr _ => Err AuthorityRecoveryRejected end.

Definition schedule_misfire_policy_to_machine (p : ScheduleTypes.MisfirePolicy)
  : ScheduleLifecycle.MisfirePolicy :=
  match p with
  | Skip => ScheduleLifecycle.MisfirePolicy_Skip
  | CatchUpWithin _ => ScheduleLifecycle.MisfirePolicy_CatchUpWithin
  end.

Definition occurrence_misfire_policy_to_machine (p : ScheduleTypes.MisfirePolicy)
  : OccurrenceLifecycle.MisfirePolicy :=
  match p with
  | Skip => MisfirePolicy_Skip
  | CatchUpWithin _ => MisfirePolicy_CatchUpWithin
  end.

(** The conversions of the display fields, which can refuse a state. *)
Definition schedule_display_fields (dsl : ScheduleState) : result unit :=
  _ ← planning_horizon_from_dsl (ScheduleLifecycle.planning_horizon_days dsl);
  _ ← planning_horizon_from_dsl (ScheduleLifecycle.planning_horizon_occurrences dsl);
  _ ← from_optional_millis (ScheduleLifecycle.planning_cursor_utc_ms dsl) "planning_cursor_utc";
  Ok tt.

Definition display_fields (dsl : OccurrenceState) : result unit :=
  _ ← from_millis (due_at_utc_ms dsl) "due_at_utc";
  _ ← attempt_count_from_dsl (attempt_count dsl);
  _ ← from_optional_millis (lease_expires_at_utc_ms dsl) "lease_expires_at_utc";
  _ ← from_optional_millis (claimed_at_utc_ms dsl) "claimed_at_utc";
  _ ← from_optional_millis (dispatched_at_utc_ms dsl) "dispatched_at_utc";
  _ ← from_optional_millis (completed_at_utc_ms dsl) "completed_at_utc";
  Ok tt.

Definition validate_schedule_machine_projection (s : Schedule) : result unit :=
  let dsl := schedule_machine s in
  _ ← validate_recovery dsl;
  _ ← expect (trigger_stable_key (schedule_trigger s) == ScheduleLifecycle.trigger_key dsl)
        (KeyMismatch "trigger");
  _ ← expect (target_stable_key (schedule_target s) == ScheduleLifecycle.target_binding_key dsl)
        (KeyMismatch "target");
  _ ← expect (schedule_misfire_policy_to_machine (schedule_misfire_policy s)
              == ScheduleLifecycle.misfire_policy dsl) (ProjectionMismatch "misfire policy");
  schedule_display_fields dsl.

(** The payloads of an occurrence, which no arm but planning and a target sync
    replaces. *)
Definition payloads_match (o : Occurrence) : bool :=
  let dsl := occurrence_machine o in
  (trigger_stable_key (trigger_snapshot o) == trigger_key dsl)
  && (target_stable_key (target_snapshot o) == target_binding_key dsl)
  && (target_session_id (target_snapshot o) == target_materialized_session_id dsl)
  && (occurrence_misfire_policy_to_machine (occurrence_policy o) == misfire_policy dsl)
  && (misfire_policy_stable_key (occurrence_policy o) == misfire_policy_key dsl)
  && (overlap_policy_stable_key (overlap_policy dsl) == overlap_policy_key dsl)
  && (missing_target_policy_stable_key (missing_target_policy dsl)
      == missing_target_policy_key dsl).

Definition validate_occurrence_machine_projection (o : Occurrence) : result unit :=
  let dsl := occurrence_machine o in
  _ ← validate_recovery dsl;
  _ ← expect (payloads_match o) (ProjectionMismatch "snapshot or policy");
  _ ← display_fields dsl;
  due ← from_millis (due_at_utc_ms dsl) "due_at_utc";
  deadline ← deadline_to_millis (occurrence_policy o) due;
  _ ← expect (deadline == misfire_deadline_utc_ms dsl) (ProjectionMismatch "misfire deadline");
  receipt ← last_receipt_from_machine_projection dsl (runtime_outcome o);
  expect (last_receipt o == receipt) (ProjectionMismatch "delivery").

(** ** Write preconditions *)

Definition schedule_write_fingerprint (s : Schedule) : result Fingerprint :=
  _ ← validate_schedule_machine_projection s; Ok (schedule_bytes s).

Definition occurrence_write_fingerprint (o : Occurrence) : result Fingerprint :=
  _ ← validate_occurrence_machine_projection o; Ok (occurrence_bytes o).

(** [OccurrenceWritePrecondition] and its schedule twin. *)
Inductive WritePrecondition :=
| Absent (id : string)
| Matches (id : string) (fingerprint : Fingerprint).

Definition occurrence_precondition (o : Occurrence) : result WritePrecondition :=
  fingerprint ← occurrence_write_fingerprint o;
  Ok (Matches (occurrence_id (occurrence_machine o)) fingerprint).

Definition schedule_precondition (s : Schedule) : result WritePrecondition :=
  fingerprint ← schedule_write_fingerprint s;
  Ok (Matches (ScheduleLifecycle.schedule_id (schedule_machine s)) fingerprint).

(** [check_current] on a row's identifier and fingerprint; the messages are shortened. *)
Definition check_current (p : WritePrecondition) (current : option (string * result Fingerprint))
  : result unit :=
  match p, current with
  | Absent _, None => Ok tt
  | Absent _, Some _ => Err (ProjectionMismatch "expected absent row")
  | Matches _ _, None => Err (ProjectionMismatch "expected durable row")
  | Matches id fingerprint, Some (current_id, current_fingerprint) =>
      _ ← expect (current_id == id) (ProjectionMismatch "precondition id did not match");
      current_fingerprint ← current_fingerprint;
      expect (current_fingerprint == fingerprint)
        (ProjectionMismatch "precondition did not match durable machine authority state")
  end.

Definition occurrence_key (o : Occurrence) : string * result Fingerprint :=
  (occurrence_id (occurrence_machine o), occurrence_write_fingerprint o).

Definition schedule_key (s : Schedule) : string * result Fingerprint :=
  (ScheduleLifecycle.schedule_id (schedule_machine s), schedule_write_fingerprint s).

(** ** Occurrence inputs *)

(** [OccurrenceLifecycleInput]; fields of machine types are the machine's. *)
Inductive OccurrenceInput :=
| PlanOccurrence (occurrence_id : OccurrenceId) (schedule_id : ScheduleId)
    (schedule_revision occurrence_ordinal : N) (trigger : TriggerSpec) (target : TargetBinding)
    (policy : ScheduleTypes.MisfirePolicy) (overlap : OccurrenceLifecycle.OverlapPolicy)
    (missing_target : OccurrenceLifecycle.MissingTargetPolicy) (due_at_utc : DateTime)
| SyncTargetSnapshot (target : TargetBinding)
| RecordReceipt (receipt : DeliveryReceipt) (outcome : option RuntimeDeliveryOutcome)
| ClassifyDue (now_utc : DateTime) (admission_evidence : AdmissionEvidence)
| ClassifyOccurrenceTerminality
| ClassifyClaimedDispatchDisposition (schedule_phase : ClaimedDispatchSchedulePhase)
    (current_schedule_revision : N)
| ClassifyCompletionSupersession (schedule_phase : ClaimedDispatchSchedulePhase)
    (current_schedule_revision : N)
| Claim (owner : ClaimOwner) (at_utc lease_expires_at_utc : DateTime) (token : ClaimToken)
    (admission_evidence : AdmissionEvidence)
| DispatchStarted (correlation_id : option CorrelationId) (at_utc : DateTime)
| DispatchAccepted (admission_outcome : DeliveryAdmissionOutcome) (at_utc : DateTime)
| AwaitCompletion (at_utc : DateTime)
| Complete (at_utc : DateTime)
| ResolveRuntimeCompletion (outcome : RuntimeCompletionOutcome) (detail : option string)
    (at_utc : DateTime)
| ResolveDeliveryCompletionFailure (reason : DeliveryCompletionFailureReason)
    (detail : option string) (at_utc : DateTime)
| ResolveDeliveryFailure (reason : DeliveryFailureReason) (detail : option string)
    (at_utc : DateTime)
| ResolveTargetProbe (outcome : OccurrenceTargetProbeOutcome) (redelivery : ClaimRedelivery)
    (detail : option string) (at_utc : DateTime)
| ResolveDueMisfire (detail : option string) (at_utc : DateTime)
| ResolveReclaimExhausted (admission_evidence : AdmissionEvidence) (detail : option string)
    (at_utc : DateTime)
| ResolveUnprovenLateNotAdmitted (admission_evidence : AdmissionEvidence)
    (detail : option string) (at_utc : DateTime)
| Supersede (superseding_revision : N) (at_utc : DateTime)
| RenewLease (token : ClaimToken) (lease_expires_at_utc at_utc : DateTime)
| LeaseExpired (at_utc : DateTime)
| ReleaseLeaseForPausedSchedule (at_utc : DateTime)
| ClassifyStaleCompletionArrival (trigger : OccurrenceLifecycleInputVariant).

Definition convert_occurrence_input (i : OccurrenceInput) : result OccurrenceLifecycleInput :=
  match i with
  | PlanOccurrence oid sid revision ordinal trigger target policy overlap missing due_at_utc =>
      due ← to_millis due_at_utc "due_at_utc";
      deadline ← deadline_to_millis policy due_at_utc;
      Ok (I_PlanOccurrence oid sid revision ordinal (trigger_stable_key trigger)
            (target_stable_key target) (occurrence_misfire_policy_to_machine policy)
            (misfire_policy_stable_key policy) overlap (overlap_policy_stable_key overlap)
            missing (missing_target_policy_stable_key missing) (target_session_id target)
            due deadline)
  | SyncTargetSnapshot target =>
      Ok (I_SyncTargetSnapshot (target_stable_key target) (target_session_id target))
  | RecordReceipt receipt outcome =>
      Ok (I_RecordReceipt (r_correlation_id receipt) (r_detail receipt)
            (r_materialized_session_id receipt) (runtime_outcome_authority_key <$> outcome))
  | ClassifyDue now_utc evidence =>
      now ← to_millis now_utc "now_utc"; Ok (I_ClassifyDue now evidence)
  | ClassifyOccurrenceTerminality => Ok I_ClassifyOccurrenceTerminality
  | ClassifyClaimedDispatchDisposition phase revision =>
      Ok (I_ClassifyClaimedDispatchDisposition phase revision)
  | ClassifyCompletionSupersession phase revision =>
      Ok (I_ClassifyCompletionSupersession phase revision)
  | Claim owner at_utc lease_expires_at_utc token evidence =>
      ms ← to_millis at_utc "at_utc";
      lease ← to_millis lease_expires_at_utc "lease_expires_at_utc";
      Ok (I_Claim owner ms lease token evidence)
  | DispatchStarted correlation_id at_utc =>
      ms ← to_millis at_utc "at_utc"; Ok (I_DispatchStarted correlation_id ms)
  | DispatchAccepted outcome at_utc =>
      ms ← to_millis at_utc "at_utc"; Ok (I_DispatchAccepted outcome ms)
  | AwaitCompletion at_utc => ms ← to_millis at_utc "at_utc"; Ok (I_AwaitCompletion ms)
  | Complete at_utc => ms ← to_millis at_utc "at_utc"; Ok (I_Complete ms)
  | ResolveRuntimeCompletion outcome detail at_utc =>
      ms ← to_millis at_utc "at_utc"; Ok (I_ResolveRuntimeCompletion outcome detail ms)
  | ResolveDeliveryCompletionFailure reason detail at_utc =>
      ms ← to_millis at_utc "at_utc"; Ok (I_ResolveDeliveryCompletionFailure reason detail ms)
  | ResolveDeliveryFailure reason detail at_utc =>
      ms ← to_millis at_utc "at_utc"; Ok (I_ResolveDeliveryFailure reason detail ms)
  | ResolveTargetProbe outcome redelivery detail at_utc =>
      ms ← to_millis at_utc "at_utc"; Ok (I_ResolveTargetProbe outcome redelivery detail ms)
  | ResolveDueMisfire detail at_utc =>
      ms ← to_millis at_utc "at_utc"; Ok (I_ResolveDueMisfire detail ms)
  | ResolveReclaimExhausted evidence detail at_utc =>
      ms ← to_millis at_utc "at_utc"; Ok (I_ResolveReclaimExhausted evidence detail ms)
  | ResolveUnprovenLateNotAdmitted evidence detail at_utc =>
      ms ← to_millis at_utc "at_utc"; Ok (I_ResolveUnprovenLateNotAdmitted evidence detail ms)
  | Supersede revision at_utc =>
      ms ← to_millis at_utc "at_utc"; Ok (I_Supersede revision ms)
  | RenewLease token lease_expires_at_utc at_utc =>
      lease ← to_millis lease_expires_at_utc "lease_expires_at_utc";
      ms ← to_millis at_utc "at_utc";
      Ok (I_RenewLease token lease ms)
  | LeaseExpired at_utc => ms ← to_millis at_utc "at_utc"; Ok (I_LeaseExpired ms)
  | ReleaseLeaseForPausedSchedule at_utc =>
      ms ← to_millis at_utc "at_utc"; Ok (I_ReleaseLeaseForPausedSchedule ms)
  | ClassifyStaleCompletionArrival trigger => Ok (I_ClassifyStaleCompletionArrival trigger)
  end.

(** ** Writing the state back *)

Definition verify_target (dsl : OccurrenceState) (target : TargetBinding) : result unit :=
  _ ← expect (target_binding_key dsl == target_stable_key target) (KeyMismatch "target");
  expect (target_materialized_session_id dsl == target_session_id target)
    (KeyMismatch "target session").

Definition verify_occurrence_policy_keys (dsl : OccurrenceState)
    (policy : ScheduleTypes.MisfirePolicy) (overlap : OccurrenceLifecycle.OverlapPolicy)
    (missing : OccurrenceLifecycle.MissingTargetPolicy) : result unit :=
  _ ← expect (misfire_policy_key dsl == misfire_policy_stable_key policy)
        (KeyMismatch "misfire policy");
  _ ← expect (overlap_policy_key dsl == overlap_policy_stable_key overlap)
        (KeyMismatch "overlap policy");
  expect (missing_target_policy_key dsl == missing_target_policy_stable_key missing)
    (KeyMismatch "missing-target policy").

Definition write_back_occurrence (dsl : OccurrenceState) (o : Occurrence) (i : OccurrenceInput)
  : result Occurrence :=
  _ ← display_fields dsl;
  let o := o <| occurrence_machine := dsl |> in
  match i with
  | PlanOccurrence _ _ _ _ trigger target policy overlap missing _ =>
      _ ← verify_target dsl target;
      _ ← expect (trigger_key dsl == trigger_stable_key trigger) (KeyMismatch "trigger");
      _ ← verify_occurrence_policy_keys dsl policy overlap missing;
      Ok (o <| target_snapshot := target |> <| trigger_snapshot := trigger |>
            <| occurrence_policy := policy |> <| runtime_outcome := None |>
            <| last_receipt := None |>)
  | SyncTargetSnapshot target =>
      _ ← verify_target dsl target;
      Ok (o <| target_snapshot := target |>)
  | RecordReceipt receipt outcome =>
      receipt ← validate_receipt_against_authority dsl receipt outcome;
      Ok (o <| last_receipt := Some receipt |> <| runtime_outcome := outcome |>)
  | Claim _ _ _ _ _ => Ok (o <| runtime_outcome := None |> <| last_receipt := None |>)
  | _ => Ok o
  end.

(** ** Occurrence writes *)

Record OccurrenceSupersessionAck := {
  ack_schedule_id : ScheduleId;
  ack_occurrence_id : OccurrenceId;
  ack_superseding_revision : N;
}.

Definition from_occurrence_authority (o : Occurrence) (e : OccurrenceEffect)
  : option OccurrenceSupersessionAck :=
  match e with
  | E_OccurrencesSuperseded oid revision =>
      let dsl := occurrence_machine o in
      if (lifecycle_phase dsl != Superseded) || (superseded_by_revision dsl != Some revision)
         || (occurrence_id dsl != oid)
      then None
      else Some {| ack_schedule_id := schedule_id dsl; ack_occurrence_id := oid;
                   ack_superseding_revision := revision |}
  | _ => None
  end.

(** [OccurrenceLifecycleMutator]; [into_authorized_write] and
    [into_transition_commit_after_store_commit] only rename its fields. *)
Record OccurrenceWrite := {
  ow_occurrence : Occurrence;
  ow_effects : list OccurrenceEffect;
  ow_precondition : WritePrecondition;
  ow_acks : list OccurrenceSupersessionAck;
}.

(** A refusal is one error instead of the class the machine assigns it. *)
Definition occurrence_apply (o : Occurrence) (i : OccurrenceInput) : result OccurrenceWrite :=
  precondition ← occurrence_precondition o;
  dsl_input ← convert_occurrence_input i;
  '(effects, dsl) ← run_dsl (occurrence_machine o) dsl_input;
  o' ← write_back_occurrence dsl o i;
  Ok {| ow_occurrence := o'; ow_effects := effects; ow_precondition := precondition;
        ow_acks := omap (from_occurrence_authority o') effects |}.

Definition absorb_followup (w followup : OccurrenceWrite) : result OccurrenceWrite :=
  _ ← check_current (ow_precondition followup) (Some (occurrence_key (ow_occurrence w)));
  Ok {| ow_occurrence := ow_occurrence followup;
        ow_effects := ow_effects w ++ ow_effects followup;
        ow_precondition := ow_precondition w;
        ow_acks := ow_acks w ++ ow_acks followup |}.

Definition has_generated_outputs (w : OccurrenceWrite) : bool :=
  (match ow_effects w with [] => false | _ => true end)
  || (match ow_acks w with [] => false | _ => true end).

(** ** Verdicts *)

Inductive OccurrenceDueAction :=
| ClaimEligible | MisfireRequired | LeaseExpiredDue | ReclaimExhausted.

Definition due_classification (e : OccurrenceEffect) : option (option OccurrenceDueAction) :=
  match e with
  | E_DueNoAction => Some None
  | E_DueClaimEligible => Some (Some ClaimEligible)
  | E_DueMisfireRequired => Some (Some MisfireRequired)
  | E_DueLeaseExpired => Some (Some LeaseExpiredDue)
  | E_DueReclaimExhausted => Some (Some ReclaimExhausted)
  | _ => None
  end.

Definition due_action_from_effects (effects : list OccurrenceEffect)
  : result (option OccurrenceDueAction) :=
  match omap due_classification effects with
  | [action] => Ok action
  | _ => Err AmbiguousDueClassification
  end.

Definition classify_due_action (o : Occurrence) (now_utc : DateTime)
    (admission_evidence : AdmissionEvidence) : result (option OccurrenceDueAction) :=
  w ← occurrence_apply o (ClassifyDue now_utc admission_evidence);
  due_action_from_effects (ow_effects w).

(** The single verdict of its kind; one that supersedes names the revision. *)
Definition claimed_dispatch_verdict_from_effects (effects : list OccurrenceEffect)
  : result (ClaimedDispatchDisposition * option N) :=
  match omap (λ e, match e with
                   | E_ClaimedDispatchDispositionClassified d r => Some (d, r)
                   | _ => None
                   end) effects with
  | [(ClaimedDispatchDisposition_Supersede, None)] => Err SupersedeWithoutRevision
  | [verdict] => Ok verdict
  | _ => Err AmbiguousDispatchDisposition
  end.

Definition completion_supersession_verdict_from_effects (effects : list OccurrenceEffect)
  : result (CompletionSupersessionDisposition * option N) :=
  match omap (λ e, match e with
                   | E_CompletionSupersessionClassified d r => Some (d, r)
                   | _ => None
                   end) effects with
  | [(CompletionSupersessionDisposition_Supersede, None)] => Err SupersedeWithoutRevision
  | [verdict] => Ok verdict
  | _ => Err AmbiguousCompletionSupersession
  end.

Definition classify_claimed_dispatch_disposition (o : Occurrence)
    (schedule_phase : ClaimedDispatchSchedulePhase) (current_schedule_revision : N)
  : result (ClaimedDispatchDisposition * option N) :=
  w ← occurrence_apply o
        (ClassifyClaimedDispatchDisposition schedule_phase current_schedule_revision);
  claimed_dispatch_verdict_from_effects (ow_effects w).

Definition classify_completion_supersession (o : Occurrence)
    (schedule_phase : ClaimedDispatchSchedulePhase) (current_schedule_revision : N)
  : result (CompletionSupersessionDisposition * option N) :=
  w ← occurrence_apply o (ClassifyCompletionSupersession schedule_phase current_schedule_revision);
  completion_supersession_verdict_from_effects (ow_effects w).

(** The [TerminalityClassified] verdict; a missing one fails closed. *)
Definition terminality (effects : list OccurrenceEffect) : option bool :=
  match omap (λ e, match e with E_OccurrenceTerminalityClassified b => Some b | _ => None end)
          effects with
  | [terminal] => Some terminal
  | _ => None
  end.

(** [is_terminal]: a row the machine refuses counts as terminal.  [None] is a panic. *)
Definition occurrence_is_terminal (o : Occurrence) : option bool :=
  match occurrence_apply o ClassifyOccurrenceTerminality with
  | Ok w => Some (default true (terminality (ow_effects w)))
  | Err _ => Some true
  | _ => None
  end.

(** ** Schedule inputs *)

Record CreateScheduleRequest := {
  create_name : option string;
  create_description : option string;
  create_labels : gmap string string;
  create_trigger : TriggerSpec;
  create_target : TargetBinding;
  create_misfire_policy : ScheduleTypes.MisfirePolicy;
  create_overlap_policy : ScheduleLifecycle.OverlapPolicy;
  create_missing_target_policy : ScheduleLifecycle.MissingTargetPolicy;
  create_horizon_days : option N;
  create_horizon_occurrences : option N;
}.

Record UpdateScheduleRequest := {
  expected_revision : option N;
  update_name : option string;
  update_description : option string;
  update_labels : option (gmap string string);
  update_trigger : option TriggerSpec;
  update_target : option TargetBinding;
  update_misfire_policy : option ScheduleTypes.MisfirePolicy;
  update_overlap_policy : option ScheduleLifecycle.OverlapPolicy;
  update_missing_target_policy : option ScheduleLifecycle.MissingTargetPolicy;
  update_horizon_days : option N;
  update_horizon_occurrences : option N;
}.

(** [ScheduleLifecycleInput] of the domain. *)
Inductive ScheduleRequest :=
| Create (request : CreateScheduleRequest)
| Update (request : UpdateScheduleRequest) (at_utc : DateTime)
| RecordPlanningWindow (planning_cursor_utc : DateTime) (next_occurrence_ordinal : N)
| SyncTarget (target : TargetBinding)
| Pause (at_utc : DateTime)
| Resume (at_utc : DateTime)
| Delete (at_utc : DateTime)
| ConfirmSuperseded (ack : OccurrenceSupersessionAck).

(** ** Schedule writes *)

Record PendingSupersession := {
  supersession_at_utc : DateTime;
  superseded_by : N;
}.

(** [map_schedule_effect]: the instants an effect carries must exist. *)
Definition schedule_effect_instants (e : ScheduleEffect) : result unit :=
  match e with
  | ScheduleLifecycle.E_EmitScheduleNotice _ _ => Ok tt
  | ScheduleLifecycle.E_SupersedePendingOccurrences _ ms =>
      _ ← from_millis ms "at_utc_ms"; Ok tt
  | ScheduleLifecycle.E_PlanningWindowRecorded ms _ =>
      _ ← from_millis ms "planning_cursor_utc_ms"; Ok tt
  end.

Fixpoint map_schedule_effects (effects : list ScheduleEffect) : result unit :=
  match effects with
  | [] => Ok tt
  | e :: effects => _ ← schedule_effect_instants e; map_schedule_effects effects
  end.

(** [PendingSupersession::from_schedule_effect] on mapped effects. *)
Definition from_schedule_effect (e : ScheduleEffect) : option PendingSupersession :=
  match e with
  | ScheduleLifecycle.E_SupersedePendingOccurrences revision ms =>
      at_utc ← millis_to_datetime ms;
      Some {| supersession_at_utc := at_utc; superseded_by := revision |}
  | _ => None
  end.

Record ScheduleWrite := {
  sw_schedule : Schedule;
  sw_effects : list ScheduleEffect;
  sw_revision_bumped : bool;
  sw_precondition : WritePrecondition;
  sw_pending_supersession : option PendingSupersession;
}.

Definition schedule_lifecycle_mutator (s : Schedule) (effects : list ScheduleEffect)
    (revision_bumped : bool) (precondition : WritePrecondition) : ScheduleWrite :=
  {| sw_schedule := s; sw_effects := effects; sw_revision_bumped := revision_bumped;
     sw_precondition := precondition;
     sw_pending_supersession := head (omap from_schedule_effect effects) |}.

(** ** Applying an input to a schedule *)

Definition write_back_schedule (dsl : ScheduleState) (s : Schedule) : result Schedule :=
  _ ← schedule_display_fields dsl; Ok (s <| schedule_machine := dsl |>).

(** [run_schedule_dsl]: the row is validated first. *)
Definition run_schedule_dsl (s : Schedule) (i : ScheduleInput)
  : result (list ScheduleEffect * ScheduleState) :=
  _ ← validate_schedule_machine_projection s; run_dsl (schedule_machine s) i.

(** The steps the inputs share: run, write back, map the effects. *)
Definition drive_schedule (s : Schedule) (i : ScheduleInput)
  : result (Schedule * list ScheduleEffect) :=
  '(effects, dsl) ← run_schedule_dsl s i;
  s' ← write_back_schedule dsl s;
  _ ← map_schedule_effects effects;
  Ok (s', effects).

Definition verify_schedule_snapshot_keys (dsl : ScheduleState) (trigger : TriggerSpec)
    (target : TargetBinding) : result unit :=
  _ ← expect (ScheduleLifecycle.trigger_key dsl == trigger_stable_key trigger)
        (KeyMismatch "trigger");
  expect (ScheduleLifecycle.target_binding_key dsl == target_stable_key target)
    (KeyMismatch "target").

Definition with_config (f : ScheduleConfig → ScheduleConfig) (s : Schedule) : Schedule :=
  s <| schedule_config := f (schedule_config s) |>.

Definition touch (now : DateTime) : Schedule → Schedule :=
  with_config (λ c, c <| updated_at_utc := now |>).

Definition mark_deleted (at_utc : DateTime) : Schedule → Schedule :=
  with_config (λ c, c <| updated_at_utc := at_utc |> <| deleted_at_utc := Some at_utc |>).

Definition apply_non_machine_schedule_config (request : UpdateScheduleRequest)
  : Schedule → Schedule :=
  with_config (λ c,
    let c := match update_name request with
             | Some name => c <| config_name := Some name |> | None => c end in
    let c := match update_description request with
             | Some description => c <| config_description := Some description |>
             | None => c end in
    match update_labels request with
    | Some labels => c <| config_labels := labels |> | None => c
    end).

Definition create_schedule_via_dsl (fresh : ScheduleId) (now : DateTime)
    (request : CreateScheduleRequest) : result ScheduleWrite :=
  '(effects, dsl) ←
    run_dsl (ScheduleLifecycle.schedule_init)
      (ScheduleLifecycle.I_Create fresh (trigger_stable_key (create_trigger request))
         (target_stable_key (create_target request))
         (schedule_misfire_policy_to_machine (create_misfire_policy request))
         (create_overlap_policy request) (create_missing_target_policy request)
         (create_horizon_days request) (create_horizon_occurrences request));
  _ ← verify_schedule_snapshot_keys dsl (create_trigger request) (create_target request);
  _ ← schedule_display_fields dsl;
  _ ← map_schedule_effects effects;
  Ok (schedule_lifecycle_mutator
        {| schedule_machine := dsl; schedule_trigger := create_trigger request;
           schedule_target := create_target request;
           schedule_misfire_policy := create_misfire_policy request;
           schedule_config := {| config_name := create_name request;
             config_description := create_description request;
             config_labels := create_labels request; created_at_utc := now;
             updated_at_utc := now; deleted_at_utc := None; commissioning_agent := None |} |}
        effects false (Absent (ScheduleLifecycle.schedule_id dsl))).

(** Whether a request changes what occurrences were planned from. *)
Definition revision_affecting (s : Schedule) (trigger : TriggerSpec) (target : TargetBinding)
    (policy : ScheduleTypes.MisfirePolicy) (overlap : ScheduleLifecycle.OverlapPolicy)
    (missing : ScheduleLifecycle.MissingTargetPolicy) : bool :=
  negb (same_trigger trigger (schedule_trigger s)) || (target != schedule_target s)
  || (policy != schedule_misfire_policy s)
  || (overlap != ScheduleLifecycle.overlap_policy (schedule_machine s))
  || (missing != ScheduleLifecycle.missing_target_policy (schedule_machine s)).

Definition apply_update (s : Schedule) (request : UpdateScheduleRequest) (at_utc now : DateTime)
  : result (Schedule * bool * list ScheduleEffect) :=
  let dsl := schedule_machine s in
  _ ← match expected_revision request with
      | Some expected =>
          expect (expected == ScheduleLifecycle.revision dsl)
            (RevisionMismatch expected (ScheduleLifecycle.revision dsl))
      | None => Ok tt
      end;
  let trigger := default (schedule_trigger s) (update_trigger request) in
  let target := default (schedule_target s) (update_target request) in
  let policy := default (schedule_misfire_policy s) (update_misfire_policy request) in
  let overlap := default (ScheduleLifecycle.overlap_policy dsl) (update_overlap_policy request) in
  let missing :=
    default (ScheduleLifecycle.missing_target_policy dsl) (update_missing_target_policy request) in
  let days := default (ScheduleLifecycle.planning_horizon_days dsl) (update_horizon_days request) in
  let horizon := default (ScheduleLifecycle.planning_horizon_occurrences dsl)
                   (update_horizon_occurrences request) in
  if revision_affecting s trigger target policy overlap missing then
    ms ← to_millis at_utc "at_utc";
    '(effects, dsl') ← run_schedule_dsl s
      (ScheduleLifecycle.I_Revise (trigger_stable_key trigger) (target_stable_key target)
         (schedule_misfire_policy_to_machine policy) overlap missing days horizon ms);
    _ ← verify_schedule_snapshot_keys dsl' trigger target;
    s' ← write_back_schedule dsl' s;
    _ ← map_schedule_effects effects;
    Ok (apply_non_machine_schedule_config request
          (touch now (s' <| schedule_trigger := trigger |> <| schedule_target := target |>
                         <| schedule_misfire_policy := policy |>)), true, effects)
  else
    '(s', effects) ←
      if (days != ScheduleLifecycle.planning_horizon_days dsl)
         || (horizon != ScheduleLifecycle.planning_horizon_occurrences dsl)
      then drive_schedule s (ScheduleLifecycle.I_UpdatePlanningConfig days horizon)
      else Ok (s, []);
    Ok (apply_non_machine_schedule_config request (touch now s'), false, effects).

(** [Schedule::apply]; [fresh] is [ScheduleId::new()] and [now] is [Utc::now()]. *)
Definition schedule_apply (fresh : ScheduleId) (now : DateTime) (schedule : option Schedule)
    (request : ScheduleRequest) : result ScheduleWrite :=
  match request with
  | Create request => create_schedule_via_dsl fresh now request
  | Update request at_utc =>
      s ← ok_or schedule MissingSchedule;
      precondition ← schedule_precondition s;
      '(s', revision_bumped, effects) ← apply_update s request at_utc now;
      Ok (schedule_lifecycle_mutator s' effects revision_bumped precondition)
  | RecordPlanningWindow cursor ordinal =>
      s ← ok_or schedule MissingSchedule;
      precondition ← schedule_precondition s;
      ms ← to_millis cursor "planning_cursor_utc";
      '(s', effects) ← drive_schedule s (ScheduleLifecycle.I_RecordPlanningWindow ms ordinal);
      Ok (schedule_lifecycle_mutator s' effects false precondition)
  | SyncTarget target =>
      s ← ok_or schedule MissingSchedule;
      precondition ← schedule_precondition s;
      '(effects, dsl) ← run_schedule_dsl s
        (ScheduleLifecycle.I_SyncTargetSnapshot (target_stable_key target));
      _ ← expect (ScheduleLifecycle.target_binding_key dsl == target_stable_key target)
            (KeyMismatch "target");
      s' ← write_back_schedule dsl s;
      _ ← map_schedule_effects effects;
      Ok (schedule_lifecycle_mutator (touch now (s' <| schedule_target := target |>)) effects
            false precondition)
  | Pause at_utc =>
      s ← ok_or schedule MissingSchedule;
      precondition ← schedule_precondition s;
      ms ← to_millis at_utc "at_utc";
      '(s', effects) ← drive_schedule s (ScheduleLifecycle.I_Pause ms);
      Ok (schedule_lifecycle_mutator (touch at_utc s') effects false precondition)
  | Resume at_utc =>
      s ← ok_or schedule MissingSchedule;
      precondition ← schedule_precondition s;
      ms ← to_millis at_utc "at_utc";
      '(s', effects) ← drive_schedule s (ScheduleLifecycle.I_Resume ms);
      Ok (schedule_lifecycle_mutator (touch at_utc s') effects false precondition)
  | Delete at_utc =>
      s ← ok_or schedule MissingSchedule;
      precondition ← schedule_precondition s;
      ms ← to_millis at_utc "at_utc";
      '(s', effects) ← drive_schedule s (ScheduleLifecycle.I_Delete ms);
      Ok (schedule_lifecycle_mutator (mark_deleted at_utc s') effects
            (ScheduleLifecycle.revision (schedule_machine s')
             != ScheduleLifecycle.revision (schedule_machine s)) precondition)
  | ConfirmSuperseded ack =>
      s ← ok_or schedule MissingSchedule;
      precondition ← schedule_precondition s;
      _ ← expect (ack_schedule_id ack == ScheduleLifecycle.schedule_id (schedule_machine s))
            (ProjectionMismatch "supersession feedback of another schedule");
      '(s', effects) ← drive_schedule s
        (ScheduleLifecycle.I_ConfirmOccurrencesSuperseded (ack_occurrence_id ack)
           (ack_superseding_revision ack));
      Ok (schedule_lifecycle_mutator s' effects false precondition)
  end.

Definition into_effectless_schedule (w : ScheduleWrite) : result Schedule :=
  match sw_effects w, sw_revision_bumped w, sw_pending_supersession w with
  | [], false, None => Ok (sw_schedule w)
  | _, _, _ => Err (ProjectionMismatch "effectless schedule projection produced effects")
  end.

(** [apply_supersession_feedback] of [store.rs]; a confirmation uses neither
    [fresh] nor [now]. *)
Fixpoint apply_supersession_feedback (fresh : ScheduleId) (now : DateTime) (s : Schedule)
    (acks : list OccurrenceSupersessionAck) : result Schedule :=
  match acks with
  | [] => Ok s
  | ack :: acks =>
      w ← schedule_apply fresh now (Some s) (ConfirmSuperseded ack);
      s' ← into_effectless_schedule w;
      apply_supersession_feedback fresh now s' acks
  end.
End rows.
