(* ===== verification/StoreTypes.v ===== *)
(** * StoreTypes: what schedule stores are asked and answer

    The data of [meerkat-schedule/src/store.rs] every store shares: errors, the
    commits a store answers with, the filters of its listings and the
    candidates for planning. *)

From stdpp Require Import gmap.
From S2P Require Import Prelude Text Chrono ScheduleTypes Authority ExecutorLease.
From S2P Require Import ScheduleLifecycle OccurrenceLifecycle Rows.

Section types.
Context `{RowCodec} {BP : BuildProfile}.

Definition sched_id (s : Schedule) : ScheduleId :=
  ScheduleLifecycle.schedule_id (schedule_machine s).
Definition sched_phase (s : Schedule) : SchedulePhase :=
  ScheduleLifecycle.lifecycle_phase (schedule_machine s).
Definition sched_revision (s : Schedule) : N :=
  ScheduleLifecycle.revision (schedule_machine s).

Definition occ_id (o : Occurrence) : OccurrenceId := occurrence_id (occurrence_machine o).

(** ** Errors *)

(** [ScheduleStoreError]; a failed row operation is kept as it is where the
    source formats it. *)
Inductive StoreError :=
| UnsupportedBackend
| DurableWakeUnsupported
| ScheduleNotFound (id : ScheduleId)
| OccurrenceNotFound (id : OccurrenceId)
| Serialization (reason : string)
| Io (reason : string)
| Transient (reason : string)
| Concurrency (reason : string)
| ConcurrencyRow (e : RowError)
| InvalidLease (reason : str)
| ExecutorLeaseIsStale
| Internal (reason : string)
| InternalRow (e : RowError).

(** ** Commits *)

Record ScheduleTransitionCommit := {
  tc_prior : WritePrecondition;
  tc_successor : Schedule;
  tc_effects : list ScheduleEffect;
  tc_revision_bumped : bool;
}.

(** [into_transition_commit_after_store_commit] *)
Definition transition_commit (w : ScheduleWrite) (schedule : Schedule) : ScheduleTransitionCommit :=
  {| tc_prior := sw_precondition w; tc_successor := schedule; tc_effects := sw_effects w;
     tc_revision_bumped := sw_revision_bumped w |}.

(** The committed schedule and the rows the same transaction superseded. *)
Record ScheduleMutationCommit := {
  schedule_commit : ScheduleTransitionCommit;
  occurrence_commits : list OccurrenceWrite;
}.

Definition mc_schedule (mc : ScheduleMutationCommit) : Schedule := tc_successor (schedule_commit mc).

(** ** Reads *)

Record ScheduleFilter := {
  filter_schedule_phase : option SchedulePhase;
  include_deleted : bool;
  schedule_limit : option nat;
}.

Record OccurrenceFilter := {
  filter_schedule_id : option ScheduleId;
  filter_phase : option OccurrencePhase;
  include_terminal : bool;
  due_after_utc : option DateTime;
  due_before_utc : option DateTime;
  occurrence_limit : option nat;
}.

Record ScheduleRefillCandidate := {
  candidate_schedule : Schedule;
  pending_occurrences : list Occurrence;
  candidate_refill_at_utc : DateTime;
}.
Record ClaimDueRequest := {
  request_owner_id : ClaimOwner;
  limit : nat;
  lease_duration : TimeDelta;
}.

(** The stage of a fault is shortened to the call that failed. *)
Record ScheduleStoreRowFault := {
  fault_schedule_id : ScheduleId;
  fault_occurrence_id : OccurrenceId;
  fault_stage : string;
  fault_error : RowError;
}.

(** The commits of a scan of the due rows, in the order they were made. *)
Record ClaimDueResult := {
  claimed_store_now_utc : DateTime;
  claimed_transitions : list OccurrenceWrite;
  claimed_row_faults : list ScheduleStoreRowFault;
}.

Record ScheduleRefillBatch := {
  batch_store_now_utc : DateTime;
  batch_candidates : list ScheduleRefillCandidate;
  batch_row_faults : list ScheduleStoreRowFault;
}.

Record RenewOccurrenceLeaseRequest := {
  renew_occurrence_id : OccurrenceId;
  expected_attempt : N;
  renew_claim_token : ClaimToken;
  expected_owner_id : ClaimOwner;
  renew_lease_duration : TimeDelta;
}.

(** The outcome [None] is [StaleClaim]. *)
Record RenewOccurrenceLeaseResult := {
  renewed_store_now_utc : DateTime;
  renewal : option OccurrenceWrite;
}.

(** A lease as it is observed: without its bearer token. *)
Record ScheduleExecutorLeaseObservation := {
  observed_store_now_utc : DateTime;
  observed_active : option (str * N * DateTime * DateTime);
}.
End types.
