(* ===== verification/RowFacts.v ===== *)
(** * RowFacts: what applying an input does to a row

    A valid row is one whose payloads and display fields are those its machine
    state names.  An input applied to it fires an arm of the machine, and each
    arm leaves the fields it does not own. *)

From stdpp Require Import gmap.
From S2P Require Import Prelude Text Chrono ScheduleTypes Trigger FirstDue TriggerFacts Millis Authority.
From S2P Require ScheduleFacts.
From S2P Require Import ScheduleLifecycle OccurrenceLifecycle OccurrenceFacts OccurrenceVerdicts Rows.

Section rows.
Context `{RowCodec} {HL : ChronoLaws} {BP : BuildProfile}.

(** ** Valid rows *)

Definition row_ok (o : Occurrence) : Prop := validate_occurrence_machine_projection o = Ok tt.

(** What the validation establishes. *)
Record row_valid (o : Occurrence) : Prop := {
  row_recovers : recover_from_state (occurrence_machine o) = inl (occurrence_machine o);
  row_payloads : payloads_match o = true;
  row_displays : display_fields (occurrence_machine o) = Ok tt;
  row_deadline : ∃ due, from_millis (due_at_utc_ms (occurrence_machine o)) "due_at_utc" = Ok due ∧
    deadline_to_millis (occurrence_policy o) due =
      Ok (misfire_deadline_utc_ms (occurrence_machine o));
  row_receipt :
    last_receipt_from_machine_projection (occurrence_machine o) (runtime_outcome o) =
      Ok (last_receipt o);
}.

Lemma recover_cases {St Ph In Va Ef} `{!Machine St Ph In Va Ef} (s : St) :
  recover_from_state s = inl s ∨ ∃ e, recover_from_state s = inr e.
Proof. unfold recover_from_state. destruct (List.find _ _); eauto. Qed.

Lemma validate_recovery_Ok {St Ph In Va Ef} `{!Machine St Ph In Va Ef} (s : St) u :
  validate_recovery s = Ok u → recover_from_state s = inl s.
Proof. unfold validate_recovery. destruct (recover_cases s) as [->|[e ->]]; done. Qed.

Lemma expect_Ok b e u : expect b e = Ok u → b = true.
Proof. by destruct b. Qed.

Lemma row_ok_valid o : row_ok o ↔ row_valid o.
Proof.
  unfold row_ok, validate_occurrence_machine_projection. split.
  - intros (? & Hrec%validate_recovery_Ok & Hv)%Outcome_bind_Ok.
    apply Outcome_bind_Ok in Hv as (? & Hpay%expect_Ok & Hv).
    apply Outcome_bind_Ok in Hv as ([] & Hd & Hv).
    apply Outcome_bind_Ok in Hv as (due & Hdue & Hv).
    apply Outcome_bind_Ok in Hv as (deadline & Hdl & Hv).
    apply Outcome_bind_Ok in Hv as (? & Heq%expect_Ok%bool_decide_eq_true & Hv).
    apply Outcome_bind_Ok in Hv as (r & Hr & Heq'%expect_Ok%bool_decide_eq_true).
    split; [done..| |congruence]. exists due. by rewrite Hdl, Heq.
  - intros [Hrec Hpay Hd (due & Hdue & Hdl) Hr]. unfold validate_recovery.
    rewrite Hrec. cbn. rewrite Hpay. cbn. rewrite Hd. cbn. rewrite Hdue. cbn.
    rewrite Hdl. cbn. rewrite bool_decide_eq_true_2 by done. cbn.
    rewrite Hr. cbn. by rewrite bool_decide_eq_true_2.
Qed.

Lemma validated o : row_ok o → validate_occurrence_machine_projection o = Ok tt.
Proof. done. Qed.

(** ** Applied inputs fire *)

Lemma run_dsl_fires {St Ph In Va Ef} `{!Machine St Ph In Va Ef} (s : St) (i : In) es s' :
  run_dsl s i = Ok (es, s') →
  recover_from_state s = inl s ∧ ∃ t, Fires i t s s' es.
Proof.
  unfold run_dsl. destruct (recover_cases s) as [Hrec|[e Hrec]]; rewrite Hrec; [|done].
  destruct (apply i s) as [s1 [r|e]|] eqn:Hap; [|done|done]. intros [= <- <-].
  apply apply_accepted in Hap as (t & HF & _ & _). eauto.
Qed.

Lemma write_back_machine dsl o i o' :
  write_back_occurrence dsl o i = Ok o' →
  occurrence_machine o' = dsl ∧ display_fields dsl = Ok tt.
Proof.
  unfold write_back_occurrence. intros ([] & Hd & Hw)%Outcome_bind_Ok.
  split; [|done]. destruct i; binds Hw; by injection Hw as <-.
Qed.

(** An input applied to a row, step by step. *)
Record applied (o : Occurrence) (i : OccurrenceInput) (w : OccurrenceWrite)
    (dsl_i : OccurrenceLifecycleInput) : Prop := {
  applied_row : row_ok o;
  applied_input : convert_occurrence_input i = Ok dsl_i;
  applied_fires : ∃ t, Fires dsl_i t (occurrence_machine o)
    (occurrence_machine (ow_occurrence w)) (ow_effects w);
  applied_written : write_back_occurrence (occurrence_machine (ow_occurrence w)) o i =
    Ok (ow_occurrence w);
  applied_displays : display_fields (occurrence_machine (ow_occurrence w)) = Ok tt;
  applied_acks : ow_acks w = omap (from_occurrence_authority (ow_occurrence w)) (ow_effects w);
  applied_precondition :
    ow_precondition w = Matches (occurrence_id (occurrence_machine o)) (occurrence_bytes o);
}.

Lemma occurrence_apply_applied o i w :
  occurrence_apply o i = Ok w → ∃ dsl_i, applied o i w dsl_i.
Proof.
  unfold occurrence_apply. intros (p & Hp & Hw)%Outcome_bind_Ok.
  unfold occurrence_precondition, occurrence_write_fingerprint in Hp.
  apply Outcome_bind_Ok in Hp as (f & Hf & [= <-]).
  apply Outcome_bind_Ok in Hf as ([] & Hok & [= <-]).
  apply Outcome_bind_Ok in Hw as (dsl_i & Hc & Hw). exists dsl_i.
  apply Outcome_bind_Ok in Hw as ([es dsl] & Hrun & Hw).
  apply Outcome_bind_Ok in Hw as (o' & Hwb & [= <-]).
  apply run_dsl_fires in Hrun as [_ [t HF]].
  pose proof Hwb as [<- Hd]%write_back_machine. split; cbn; eauto.
Qed.

Lemma occurrence_apply_fires o i w :
  occurrence_apply o i = Ok w →
  ∃ dsl_i t, convert_occurrence_input i = Ok dsl_i ∧
    Fires dsl_i t (occurrence_machine o) (occurrence_machine (ow_occurrence w)) (ow_effects w).
Proof. intros (dsl_i & [_ Hc (t & HF) _ _ _])%occurrence_apply_applied. eauto. Qed.

(** Applying an input to a valid row is running its machine and writing back. *)
Lemma occurrence_apply_valid o i :
  row_ok o →
  occurrence_apply o i =
    (dsl_input ← convert_occurrence_input i;
     '(effects, dsl) ← run_dsl (occurrence_machine o) dsl_input;
     o' ← write_back_occurrence dsl o i;
     Ok {| ow_occurrence := o'; ow_effects := effects;
           ow_precondition := Matches (occurrence_id (occurrence_machine o)) (occurrence_bytes o);
           ow_acks := omap (from_occurrence_authority o') effects |}).
Proof.
  intros Hok. unfold occurrence_apply, occurrence_precondition, occurrence_write_fingerprint.
  by rewrite Hok.
Qed.

(** ** Identity *)

Definition is_plan (i : OccurrenceLifecycleInput) : bool :=
  match i with I_PlanOccurrence _ _ _ _ _ _ _ _ _ _ _ _ _ _ _ => true | _ => false end.

Definition same_identity (a b : OccurrenceState) : Prop :=
  occurrence_id b = occurrence_id a ∧ schedule_id b = schedule_id a ∧
  schedule_revision b = schedule_revision a.

Lemma fires_identity i t s s' es :
  Fires i t s s' es → is_plan i = false → same_identity s s'.
Proof. intros HF. occurrence_cases HF ltac:(done). all: done. Qed.

(** ** Frames

    Planning and target syncs change the payload keys; planning, claims and
    recorded receipts change the last receipt.  No other input does. *)

Definition rekeys (i : OccurrenceLifecycleInput) : bool :=
  match i with
  | I_PlanOccurrence _ _ _ _ _ _ _ _ _ _ _ _ _ _ _ | I_SyncTargetSnapshot _ _ => true
  | _ => false
  end.

Definition rewrites_receipt (i : OccurrenceLifecycleInput) : bool :=
  match i with
  | I_PlanOccurrence _ _ _ _ _ _ _ _ _ _ _ _ _ _ _ | I_RecordReceipt _ _ _ _
  | I_Claim _ _ _ _ _ => true
  | _ => false
  end.

Record same_keys (a b : OccurrenceState) : Prop := {
  same_trigger_key : trigger_key b = trigger_key a;
  same_target_key : target_binding_key b = target_binding_key a;
  same_target_session : target_materialized_session_id b = target_materialized_session_id a;
}.

Record same_policy (a b : OccurrenceState) : Prop := {
  same_misfire : misfire_policy b = misfire_policy a;
  same_misfire_key : misfire_policy_key b = misfire_policy_key a;
  same_overlap : overlap_policy b = overlap_policy a;
  same_overlap_key : overlap_policy_key b = overlap_policy_key a;
  same_missing : missing_target_policy b = missing_target_policy a;
  same_missing_key : missing_target_policy_key b = missing_target_policy_key a;
  same_due : due_at_utc_ms b = due_at_utc_ms a;
  same_deadline : misfire_deadline_utc_ms b = misfire_deadline_utc_ms a;
}.

Record same_receipt (a b : OccurrenceState) : Prop := {
  same_id : occurrence_id b = occurrence_id a;
  same_stage : last_receipt_stage b = last_receipt_stage a;
  same_recorded : last_receipt_recorded_at_utc_ms b = last_receipt_recorded_at_utc_ms a;
  same_attempt : last_receipt_attempt b = last_receipt_attempt a;
  same_failure : last_receipt_failure_class b = last_receipt_failure_class a;
  same_detail : last_receipt_detail b = last_receipt_detail a;
  same_correlation : last_receipt_correlation_id b = last_receipt_correlation_id a;
  same_session : last_receipt_materialized_session_id b = last_receipt_materialized_session_id a;
  same_outcome : runtime_outcome_key b = runtime_outcome_key a;
}.

Lemma fires_frame i t s s' es :
  Fires i t s s' es →
  (is_plan i = false → same_policy s s') ∧ (rekeys i = false → same_keys s s') ∧
  (rewrites_receipt i = false → same_receipt s s').
Proof.
  intros HF. occurrence_cases HF ltac:(done).
  all: split; [|split]; intros Hi; try discriminate Hi; split; reflexivity.
Qed.
End rows.
