(* ===== verification/RowValidity.v ===== *)
(** * RowValidity: applying an input to a valid row leaves a valid row

    The machine's invariants, the payload keys, the due time and deadline and
    the recorded receipt of a row stay those its machine state names, whatever
    input is applied. *)

From stdpp Require Import gmap.
From S2P Require Import Prelude Text Chrono ScheduleTypes Trigger FirstDue TriggerFacts Millis Authority.
From S2P Require ScheduleFacts.
From S2P Require Import ScheduleLifecycle OccurrenceLifecycle OccurrenceFacts OccurrenceVerdicts Rows RowFacts.

Section rows.
Context `{RowCodec} {HL : ChronoLaws} {BP : BuildProfile}.

(** ** Validity is preserved *)

Lemma receipt_projection_frame a b outcome :
  same_receipt a b →
  last_receipt_from_machine_projection b outcome = last_receipt_from_machine_projection a outcome.
Proof.
  intros [E1 E2 E3 E4 E5 E6 E7 E8 E9].
  unfold last_receipt_from_machine_projection, has_last_receipt, receipt_from_recorded_authority.
  by rewrite E1, E2, E3, E4, E5, E6, E7, E8, E9.
Qed.

(** No receipt is recorded. *)
Definition no_last_receipt (s : OccurrenceState) : Prop :=
  last_receipt_from_machine_projection s None = Ok None.

Lemma fires_clears_receipt i t s s' es :
  Fires i t s s' es → is_plan i = true ∨ is_claim i = true → no_last_receipt s'.
Proof. intros HF. occurrence_cases HF ltac:(done). all: intros [Hi|Hi]; try discriminate Hi; reflexivity. Qed.

Lemma attempted_has_receipt s n : last_receipt_attempt s = Some n → has_last_receipt s = true.
Proof. unfold has_last_receipt. intros ->. cbn. by rewrite orb_true_r. Qed.

Lemma fires_records_receipt c d m k t s s' es :
  Fires (I_RecordReceipt c d m k) t s s' es → last_receipt_attempt s' = Some (attempt_count s).
Proof.
  intros [Hin _ (s1 & Hu & -> & _)%fire_Some].
  repeat (apply elem_of_cons in Hin as [->|Hin]; [by apply (inj Some) in Hu as <-|]).
  by apply elem_of_nil in Hin.
Qed.

Lemma fires_sync k m t s s' es :
  Fires (I_SyncTargetSnapshot k m) t s s' es → trigger_key s' = trigger_key s.
Proof.
  intros [Hin _ (s1 & Hu & -> & _)%fire_Some].
  repeat (apply elem_of_cons in Hin as [->|Hin]; [by apply (inj Some) in Hu as <-|]). by apply elem_of_nil in Hin.
Qed.

Lemma fires_plan oid sid rev ord tk tbk mp mpk op opk mtp mtpk m due deadline t s s' es :
  Fires (I_PlanOccurrence oid sid rev ord tk tbk mp mpk op opk mtp mtpk m due deadline) t s s' es →
  (misfire_policy s' = mp ∧ overlap_policy s' = op ∧ missing_target_policy s' = mtp) ∧
  due_at_utc_ms s' = due ∧ misfire_deadline_utc_ms s' = deadline.
Proof.
  intros [Hin _ (s1 & Hu & -> & _)%fire_Some].
  apply list_elem_of_singleton in Hin as ->. by apply (inj Some) in Hu as <-.
Qed.

Lemma from_millis_Ok ms field dt : from_millis ms field = Ok dt → millis_to_datetime ms = Some dt.
Proof. unfold from_millis. apply ok_or_Ok. Qed.

Lemma to_millis_Ok dt field ms :
  to_millis dt field = Ok ms → (0 ≤ timestamp_millis dt)%Z ∧ ms = Z.to_N (timestamp_millis dt).
Proof.
  unfold to_millis, occurrence_datetime_to_millis. rewrite datetime_to_millis_spec.
  destruct (Z.leb_spec 0 (timestamp_millis dt)); [|done]. by intros [= <-].
Qed.

Lemma millis_to_datetime_ns ms dt : millis_to_datetime ms = Some dt → ns dt = (Z.of_N ms * milli_ns)%Z.
Proof.
  unfold millis_to_datetime, i64_try_from. destruct (_ <=? _)%Z; [|done].
  apply timestamp_millis_opt_ns.
Qed.

Lemma deadline_to_millis_Ok p dt ms :
  deadline_to_millis p dt = Ok ms →
  ∃ u, misfire_deadline_utc p dt = Ok (Some u) ∧ (0 ≤ timestamp_millis u)%Z ∧
    ms = Z.to_N (timestamp_millis u).
Proof.
  unfold deadline_to_millis, occurrence_misfire_deadline_to_millis.
  destruct (misfire_deadline_utc p dt) as [[u|]| | |]; cbn; try done.
  unfold occurrence_datetime_to_millis. rewrite datetime_to_millis_spec.
  destruct (Z.leb_spec 0 (timestamp_millis u)); [|done]. intros [= <-]. by exists u.
Qed.

(** The deadline of a due time is the deadline of its milliseconds. *)
Lemma deadline_of_millis p due_at due ms field deadline :
  to_millis due_at field = Ok ms → millis_to_datetime ms = Some due →
  deadline_to_millis p due_at = Ok deadline → deadline_to_millis p due = Ok deadline.
Proof.
  intros (Hpos & ->)%to_millis_Ok Hdue%millis_to_datetime_ns (u & Hu & _ & ->)%deadline_to_millis_Ok.
  rewrite Z2N.id in Hdue by done. rewrite timestamp_millis_ns in Hpos, Hdue.
  pose proof (misfire_deadline_spec p due_at) as Hs. rewrite Hu in Hs. destruct Hs as [Hns Hw].
  pose proof (misfire_deadline_spec p due) as Hs'.
  assert (Hle : (ns due ≤ ns due_at)%Z).
  { rewrite Hdue, Z.mul_comm. by apply Z.mul_div_le. }
  assert (Hw0 : (0 ≤ window_seconds p)%Z) by (destruct p; [done|cbn; lia]).
  unfold deadline_to_millis, occurrence_misfire_deadline_to_millis.
  destruct (misfire_deadline_utc p due) as [[v|]| | |]; [|exfalso|done|exfalso|done].
  2: { destruct Hs' as [Hs' _]. pose proof (ns_range u). lia. }
  2: lia.
  destruct Hs' as [Hv _]. cbn. unfold occurrence_datetime_to_millis.
  rewrite datetime_to_millis_spec.
  assert (Heq : timestamp_millis v = timestamp_millis u).
  { rewrite !timestamp_millis_ns, Hns, Hv, Hdue.
    change second_ns with (1000 * milli_ns)%Z. rewrite !Z.mul_assoc, !Z.div_add by done.
    by rewrite Z.div_mul. }
  rewrite Heq, (proj2 (Z.leb_le _ _)); [done|].
  rewrite timestamp_millis_ns, Hns. apply Z.div_pos; [|done].
  unfold second_ns. assert (0 ≤ ns due_at)%Z; [|lia].
  pose proof (Z.mul_div_le (ns due_at) milli_ns ltac:(done)). unfold milli_ns in *. nia.
Qed.

Lemma payloads_frame o o' :
  same_policy (occurrence_machine o) (occurrence_machine o') →
  same_keys (occurrence_machine o) (occurrence_machine o') →
  trigger_snapshot o' = trigger_snapshot o → target_snapshot o' = target_snapshot o →
  occurrence_policy o' = occurrence_policy o → payloads_match o' = payloads_match o.
Proof.
  intros [E1 E2 E3 E4 E5 E6 _ _] [E7 E8 E9] Ht Htg Hp. unfold payloads_match.
  by rewrite Ht, Htg, Hp, E1, E2, E3, E4, E5, E6, E7, E8, E9.
Qed.

Definition deadline_agrees (p : ScheduleTypes.MisfirePolicy) (s : OccurrenceState) : Prop :=
  ∃ due, from_millis (due_at_utc_ms s) "due_at_utc" = Ok due ∧
    deadline_to_millis p due = Ok (misfire_deadline_utc_ms s).

Lemma deadline_frame p a b : same_policy a b → deadline_agrees p a → deadline_agrees p b.
Proof. unfold deadline_agrees. by intros [_ _ _ _ _ _ -> ->]. Qed.

(** The written row of each input, given what its arm keeps. *)
Section written.
Context (o : Occurrence) (dsl : OccurrenceState).
Context (Hvalid : row_valid o) (Hrec : recover_from_state dsl = inl dsl).
Context (Hd : display_fields dsl = Ok tt).
Context (Hpol : same_policy (occurrence_machine o) dsl).

Lemma kept_row_valid :
  same_keys (occurrence_machine o) dsl → same_receipt (occurrence_machine o) dsl →
  row_valid (o <| occurrence_machine := dsl |>).
Proof.
  destruct Hvalid as [_ Hpay _ Hdl Hr]. intros Hkeys Hreceipt. split; [done| |done| |].
  - by rewrite (payloads_frame o).
  - by apply (deadline_frame _ (occurrence_machine o)).
  - cbn. by rewrite (receipt_projection_frame _ _ _ Hreceipt).
Qed.

Lemma synced_row_valid target :
  trigger_key dsl = trigger_key (occurrence_machine o) → verify_target dsl target = Ok tt →
  same_receipt (occurrence_machine o) dsl →
  row_valid (o <| occurrence_machine := dsl |> <| target_snapshot := target |>).
Proof.
  destruct Hvalid as [_ Hpay _ Hdl Hr]. intros Ht Hv Hreceipt. split; [done| |done| |].
  - destruct Hpol as [E1 E2 E3 E4 E5 E6 _ _]. unfold verify_target in Hv.
    apply Outcome_bind_Ok in Hv as (? & Hk%expect_Ok%bool_decide_eq_true & Hs%expect_Ok%bool_decide_eq_true).
    unfold payloads_match in *. cbn. rewrite Ht, Hk, Hs, E1, E2, E3, E4, E5, E6.
    prop_guards. rewrite !bool_decide_eq_true_2 by done. done.
  - by apply (deadline_frame _ (occurrence_machine o)).
  - cbn. by rewrite (receipt_projection_frame _ _ _ Hreceipt).
Qed.

Lemma claimed_row_valid :
  same_keys (occurrence_machine o) dsl → no_last_receipt dsl →
  row_valid (o <| occurrence_machine := dsl |> <| runtime_outcome := None |>
               <| last_receipt := None |>).
Proof.
  destruct Hvalid as [_ Hpay _ Hdl Hr]. intros Hkeys Hreceipt. split; [done| |done| |done].
  - by rewrite (payloads_frame o).
  - by apply (deadline_frame _ (occurrence_machine o)).
Qed.

Lemma recorded_row_valid r outcome r' n :
  same_keys (occurrence_machine o) dsl → last_receipt_attempt dsl = Some n →
  validate_receipt_against_authority dsl r outcome = Ok r' →
  row_valid (o <| occurrence_machine := dsl |> <| last_receipt := Some r' |>
               <| runtime_outcome := outcome |>).
Proof.
  destruct Hvalid as [_ Hpay _ Hdl Hr]. intros Hkeys Hn Hv. split; [done| |done| |].
  - by rewrite (payloads_frame o).
  - by apply (deadline_frame _ (occurrence_machine o)).
  - cbn. unfold last_receipt_from_machine_projection.
    rewrite (attempted_has_receipt _ _ Hn).
    unfold validate_receipt_against_authority in Hv. apply Outcome_bind_Ok in Hv as (r1 & -> & Hv).
    apply Outcome_bind_Ok in Hv as (? & _ & [= <-]). done.
Qed.
End written.

Lemma display_fields_ok s :
  display_fields s = Ok tt →
  (∃ dt, from_millis (due_at_utc_ms s) "due_at_utc" = Ok dt) ∧
  attempt_count_from_dsl (attempt_count s) = Ok (attempt_count s) ∧
  (∃ dt, from_optional_millis (lease_expires_at_utc_ms s) "lease_expires_at_utc" = Ok dt) ∧
  (∃ dt, from_optional_millis (claimed_at_utc_ms s) "claimed_at_utc" = Ok dt) ∧
  (∃ dt, from_optional_millis (dispatched_at_utc_ms s) "dispatched_at_utc" = Ok dt).
Proof.
  unfold display_fields.
  destruct (from_millis _ _); cbn [mbind Outcome_bind]; [|done..].
  unfold attempt_count_from_dsl. destruct (_ <=? _)%N; cbn [mbind Outcome_bind]; [|done].
  destruct (from_optional_millis (lease_expires_at_utc_ms s) _); cbn [mbind Outcome_bind]; [|done..].
  destruct (from_optional_millis (claimed_at_utc_ms s) _); cbn [mbind Outcome_bind]; [|done..].
  destruct (from_optional_millis (dispatched_at_utc_ms s) _); cbn [mbind Outcome_bind]; [|done..].
  intros _. repeat split; eauto.
Qed.

(** A machine state a planning input left, with the payloads it was given. *)
Lemma planned_row_valid o dsl trigger target policy overlap missing due_at due deadline :
  recover_from_state dsl = inl dsl → display_fields dsl = Ok tt → no_last_receipt dsl →
  misfire_policy dsl = occurrence_misfire_policy_to_machine policy → overlap_policy dsl = overlap →
  missing_target_policy dsl = missing → due_at_utc_ms dsl = due →
  misfire_deadline_utc_ms dsl = deadline → to_millis due_at "due_at_utc" = Ok due →
  deadline_to_millis policy due_at = Ok deadline →
  verify_target dsl target = Ok tt → (trigger_key dsl == trigger_stable_key trigger) = true →
  verify_occurrence_policy_keys dsl policy overlap missing = Ok tt →
  row_valid (o <| occurrence_machine := dsl |> <| target_snapshot := target |>
               <| trigger_snapshot := trigger |> <| occurrence_policy := policy |>
               <| runtime_outcome := None |> <| last_receipt := None |>).
Proof.
  intros Hrec Hd Hno Hmp <- <- Hdue Hdl Hms Hdeadline Ht Htk%bool_decide_eq_true Hpk.
  unfold verify_target in Ht.
  apply Outcome_bind_Ok in Ht as (? & E1%expect_Ok%bool_decide_eq_true & E2%expect_Ok%bool_decide_eq_true).
  unfold verify_occurrence_policy_keys in Hpk.
  apply Outcome_bind_Ok in Hpk as (? & E3%expect_Ok%bool_decide_eq_true & Hpk).
  apply Outcome_bind_Ok in Hpk as (? & E4%expect_Ok%bool_decide_eq_true & E5%expect_Ok%bool_decide_eq_true).
  split; [done| |done| |done].
  - unfold payloads_match. cbn. by rewrite Htk, E1, E2, Hmp, E3, E4, E5, !bool_decide_eq_true_2.
  - pose proof Hd as ([d Hf] & _)%display_fields_ok. exists d. split; [done|]. cbn.
    rewrite Hdl. apply (deadline_of_millis _ due_at d due "due_at_utc"); [done| |done].
    rewrite <-Hdue. by eapply from_millis_Ok.
Qed.

Lemma apply_row_valid o i w : occurrence_apply o i = Ok w → row_valid (ow_occurrence w).
Proof.
  intros (dsl_i & [Hok Hc (t & HF) Hw Hd _ _])%occurrence_apply_applied.
  apply row_ok_valid in Hok. set (dsl := occurrence_machine (ow_occurrence w)) in *.
  assert (Hrec : recover_from_state dsl = inl dsl).
  { apply recover_ok. eapply fires_invariants; [exact HF|]. by apply recover_ok, row_recovers. }
  destruct (fires_frame _ _ _ _ _ HF) as (Hpol & Hkeys & Hreceipt).
  unfold write_back_occurrence in Hw. rewrite Hd in Hw. cbn [mbind Outcome_bind] in Hw.
  destruct i; cbn [convert_occurrence_input] in Hc.
  all: repeat (apply Outcome_bind_Ok in Hc as (? & ? & Hc)); injection Hc as <-.
  all: try (injection Hw as <-; by apply kept_row_valid; auto).
  - apply Outcome_bind_Ok in Hw as ([] & Ht & Hw).
    apply Outcome_bind_Ok in Hw as (? & Htk%expect_Ok & Hw).
    apply Outcome_bind_Ok in Hw as ([] & Hp & [= <-]).
    pose proof (fires_plan _ _ _ _ _ _ _ _ _ _ _ _ _ _ _ _ _ _ _ HF) as ((?&?&?) & ? & ?).
    eapply planned_row_valid; try done. eapply fires_clears_receipt; [done|]. by left.
  - apply Outcome_bind_Ok in Hw as ([] & Ht & [= <-]).
    apply synced_row_valid; auto. by eapply fires_sync.
  - apply Outcome_bind_Ok in Hw as (r & Hr & [= <-]).
    eapply recorded_row_valid; [done..|by auto|by auto|by eapply fires_records_receipt|exact Hr].
  - injection Hw as <-. apply claimed_row_valid; auto.
    eapply fires_clears_receipt; [done|]. by right.
Qed.

Lemma apply_row_ok o i w : occurrence_apply o i = Ok w → row_ok (ow_occurrence w).
Proof. intros Hw. by eapply row_ok_valid, apply_row_valid. Qed.
End rows.
