(* ===== verification/RowOutcomes.v ===== *)
(** * RowOutcomes: supersession and terminality of valid rows

    A valid row answers whether it is terminal, and a supersession of a valid
    instant applies to every live one, leaves one acknowledgement and a receipt
    that can be minted. *)

From stdpp Require Import gmap.
From S2P Require Import Prelude Text Chrono ScheduleTypes Trigger FirstDue TriggerFacts Millis Authority.
From S2P Require ScheduleFacts.
From S2P Require Import ScheduleLifecycle OccurrenceLifecycle OccurrenceFacts OccurrenceVerdicts Rows RowFacts.
From S2P Require Import RowValidity.

Section rows.
Context `{RowCodec} {HL : ChronoLaws} {BP : BuildProfile}.

(** ** Supersession *)

Lemma fires_supersede revision ms t s s' es :
  Fires (I_Supersede revision ms) t s s' es → is_terminal (lifecycle_phase s) = false →
  lifecycle_phase s' = Superseded ∧ superseded_by_revision s' = Some revision ∧
  es = [E_Superseded; E_OccurrencesSuperseded (occurrence_id s') revision].
Proof.
  rewrite is_terminal_spec. intros [Hin Hg Hf] Hlive.
  apply elem_of_cons in Hin as [-> | ->%list_elem_of_singleton].
  - injection Hf as <- <-. done.
  - cbn in Hg. apply bool_decide_eq_true in Hg. by rewrite Hg in Hlive.
Qed.

(** The row a supersession leaves, and its acknowledgement. *)
Record superseded_row (revision : N) (o : Occurrence) (w : OccurrenceWrite) : Prop := {
  superseded_phase : lifecycle_phase (occurrence_machine (ow_occurrence w)) = Superseded;
  superseded_revision :
    superseded_by_revision (occurrence_machine (ow_occurrence w)) = Some revision;
  superseded_identity :
    same_identity (occurrence_machine o) (occurrence_machine (ow_occurrence w));
  superseded_acks : ow_acks w =
    [{| ack_schedule_id := schedule_id (occurrence_machine o);
        ack_occurrence_id := occurrence_id (occurrence_machine o);
        ack_superseding_revision := revision |}];
  superseded_effects : ow_effects w =
    [E_Superseded; E_OccurrencesSuperseded (occurrence_id (occurrence_machine o)) revision];
}.

Lemma supersede_row o revision at_utc w :
  occurrence_apply o (Supersede revision at_utc) = Ok w →
  is_terminal (lifecycle_phase (occurrence_machine o)) = false →
  superseded_row revision o w.
Proof.
  intros (dsl_i & [_ Hc (t & HF) _ _ Hacks _])%occurrence_apply_applied Hlive.
  cbn [convert_occurrence_input] in Hc.
  destruct (to_millis at_utc "at_utc") as [ms| | |]; cbn in Hc; [|done..].
  injection Hc as <-. pose proof (fires_identity _ _ _ _ _ HF eq_refl) as Hid.
  destruct (fires_supersede _ _ _ _ _ _ HF Hlive) as (Hp & Hr & Hes).
  split; [done..| |by rewrite Hes, (proj1 Hid)].
  rewrite Hacks, Hes. cbn [omap list_omap from_occurrence_authority].
  rewrite Hp, Hr, !bool_decide_eq_true_2 by done. cbn.
  destruct Hid as (-> & -> & _). done.
Qed.

(** ** Terminality *)

Lemma terminality_answered s :
  recover_from_state s = inl s →
  run_dsl s I_ClassifyOccurrenceTerminality =
    Ok ([E_OccurrenceTerminalityClassified (is_terminal (lifecycle_phase s))], s).
Proof.
  intros Hrec. unfold run_dsl. rewrite Hrec.
  assert (Ha : answers I_ClassifyOccurrenceTerminality s
    (E_OccurrenceTerminalityClassified (is_terminal (lifecycle_phase s)))).
  { rewrite is_terminal_spec. destruct (lifecycle_phase s) eqn:Hp.
    all: eapply select_answers; [done|done|run_select Hp|done|cbn; by rewrite Hp|done]. }
  unfold answers in Ha. by rewrite Ha.
Qed.

(** [is_terminal] of a valid row is its machine's terminality. *)
Lemma valid_row_terminality o :
  row_ok o →
  occurrence_is_terminal o = Some (is_terminal (lifecycle_phase (occurrence_machine o))).
Proof.
  intros Hok. unfold occurrence_is_terminal. rewrite occurrence_apply_valid by done.
  apply row_ok_valid in Hok as [Hrec _ Hd _ _]. cbn [convert_occurrence_input mbind Outcome_bind].
  rewrite terminality_answered by done. cbn [mbind Outcome_bind].
  unfold write_back_occurrence. by rewrite Hd.
Qed.

(** ** Superseding a valid row succeeds *)

Lemma millis_of_instant ms dt field :
  millis_to_datetime ms = Some dt → to_millis dt field = Ok ms.
Proof.
  unfold millis_to_datetime, to_millis, occurrence_datetime_to_millis, i64_try_from. intros Hms.
  destruct (Z.leb_spec (Z.of_N ms) i64_max) as [Hle|]; [|done]. cbn in Hms.
  assert (Ht : timestamp_millis dt = Z.of_N ms).
  { rewrite timestamp_millis_ns, (timestamp_millis_opt_ns _ _ Hms). by apply Z.div_mul. }
  rewrite datetime_to_millis_spec, Ht. rewrite (proj2 (Z.leb_le _ _)) by lia.
  by rewrite N2Z.id.
Qed.

(** The display fields of a state that only completed at a valid instant. *)
Lemma display_fields_completed s s' ms dt :
  display_fields s = Ok tt → millis_to_datetime ms = Some dt →
  due_at_utc_ms s' = due_at_utc_ms s → attempt_count s' = attempt_count s →
  lease_expires_at_utc_ms s' = lease_expires_at_utc_ms s →
  claimed_at_utc_ms s' = claimed_at_utc_ms s → dispatched_at_utc_ms s' = dispatched_at_utc_ms s →
  completed_at_utc_ms s' = Some ms → display_fields s' = Ok tt.
Proof.
  intros ([? Hdue] & Hcount & [? Hlease] & [? Hclaim] & [? Hdisp])%display_fields_ok Hms
    E1 E2 E3 E4 E5 E6.
  unfold display_fields.
  rewrite E1, E2, E3, E4, E5, E6, Hdue, Hcount, Hlease, Hclaim, Hdisp. cbn.
  unfold from_millis. by rewrite Hms.
Qed.

(** A supersession effect of a valid instant is applied to every live row, and
    the receipt it calls for can be minted. *)
Lemma supersede_live_row o revision ms dt :
  row_ok o → is_terminal (lifecycle_phase (occurrence_machine o)) = false →
  millis_to_datetime ms = Some dt →
  ∃ w r, occurrence_apply o (Supersede revision dt) = Ok w ∧
    delivery_receipt_from_authority (ow_occurrence w) None = Ok r.
Proof.
  intros Hok Hlive Hms. pose proof Hok as [Hrec _ Hd _ _]%row_ok_valid.
  rewrite is_terminal_spec in Hlive.
  assert (Hin : (lifecycle_phase (occurrence_machine o) == Pending)
    || (lifecycle_phase (occurrence_machine o) == Claimed)
    || (lifecycle_phase (occurrence_machine o) == Dispatching)
    || (lifecycle_phase (occurrence_machine o) == AwaitingCompletion) = true)
    by (destruct (lifecycle_phase (occurrence_machine o)); done).
  set (s := occurrence_machine o) in *.
  set (i := I_Supersede revision ms).
  set (t := SupersedePendingOrLive revision ms).
  destruct (fire t s) as [[s' es]|] eqn:Hfire; [|done].
  assert (Hsel : select (transitions i) s = Some t).
  { unfold i, select. cbn. by rewrite Hin. }
  assert (Hap := apply_selected i t s s' es Hrec ltac:(done) Hsel Hfire).
  assert (Hdisplay : due_at_utc_ms s' = due_at_utc_ms s ∧ attempt_count s' = attempt_count s ∧
    lease_expires_at_utc_ms s' = lease_expires_at_utc_ms s ∧
    claimed_at_utc_ms s' = claimed_at_utc_ms s ∧ dispatched_at_utc_ms s' = dispatched_at_utc_ms s ∧
    completed_at_utc_ms s' = Some ms ∧ receipt_recorded_at_utc_ms s' = Some ms ∧
    receipt_stage s' = Some DeliveryReceiptStage_Superseded)
    by (injection Hfire as <- _; done).
  clear Hfire.
  destruct Hdisplay as (Hdue & Hatt & Hlease & Hclaim & Hdisp & Hcomp & Hrat & Hst).
  destruct (display_fields_ok s Hd) as (_ & Hcount & _).
  assert (Hd' : display_fields s' = Ok tt).
  { apply (display_fields_completed s s' ms dt); done. }
  rewrite occurrence_apply_valid by done. cbn [convert_occurrence_input].
  rewrite (millis_of_instant ms dt _ Hms). cbn [mbind Outcome_bind]. fold s i.
  unfold run_dsl. rewrite Hrec, Hap. cbn [mbind Outcome_bind effects].
  unfold write_back_occurrence. rewrite Hd'. cbn [mbind Outcome_bind].
  eexists _, _. split; [reflexivity|]. cbn [ow_occurrence].
  unfold delivery_receipt_from_authority, receipt_from_pending_authority.
  change (occurrence_machine (o <| occurrence_machine := s' |>)) with s'.
  rewrite Hst, Hrat, Hatt, Hcount. cbn [ok_or mbind Outcome_bind].
  unfold from_millis. rewrite Hms. reflexivity.
Qed.

End rows.
