(* ===== verification/ScheduleRows.v ===== *)
(** * ScheduleRows: what applying a request does to a schedule

    A request that is applied fires an arm of the schedule machine (or changes
    nothing of it), the schedule it leaves is valid again, a supersession it
    announces is the one its machine emitted, and an acknowledgement of the
    current revision is added to the schedule's set. *)

From stdpp Require Import gmap.
From S2P Require Import Prelude Text Chrono ScheduleTypes Trigger FirstDue TriggerFacts Millis Authority.
From S2P Require ScheduleFacts.
From S2P Require Import ScheduleLifecycle OccurrenceLifecycle OccurrenceFacts Rows RowFacts.

Section rows.
Context `{RowCodec} {HL : ChronoLaws} {BP : BuildProfile}.

(** ** Valid schedules *)

Definition schedule_row_ok (s : Schedule) : Prop := validate_schedule_machine_projection s = Ok tt.

Record schedule_valid (s : Schedule) : Prop := {
  schedule_recovers : recover_from_state (schedule_machine s) = inl (schedule_machine s);
  schedule_trigger_matches :
    trigger_stable_key (schedule_trigger s) = ScheduleLifecycle.trigger_key (schedule_machine s);
  schedule_target_matches :
    target_stable_key (schedule_target s) = ScheduleLifecycle.target_binding_key (schedule_machine s);
  schedule_policy_matches : schedule_misfire_policy_to_machine (schedule_misfire_policy s) =
    ScheduleLifecycle.misfire_policy (schedule_machine s);
  schedule_displays : schedule_display_fields (schedule_machine s) = Ok tt;
}.

Lemma schedule_ok_valid s : schedule_row_ok s ↔ schedule_valid s.
Proof.
  unfold schedule_row_ok, validate_schedule_machine_projection. split.
  - intros (? & Hrec%validate_recovery_Ok & Hv)%Outcome_bind_Ok.
    apply Outcome_bind_Ok in Hv as (? & Ht%expect_Ok%bool_decide_eq_true & Hv).
    apply Outcome_bind_Ok in Hv as (? & Htg%expect_Ok%bool_decide_eq_true & Hv).
    apply Outcome_bind_Ok in Hv as (? & Hp%expect_Ok%bool_decide_eq_true & Hv). by split.
  - intros [Hrec Ht Htg Hp Hd]. unfold validate_recovery. rewrite Hrec. cbn.
    by rewrite !bool_decide_eq_true_2 by done.
Qed.

(** ** Applied requests fire *)

(** An input driven through a valid schedule's machine. *)
Record driven (s : Schedule) (i : ScheduleInput) (s' : Schedule) (es : list ScheduleEffect) : Prop := {
  driven_row : schedule_row_ok s;
  driven_fires : ∃ t, Fires i t (schedule_machine s) (schedule_machine s') es;
  driven_displays : schedule_display_fields (schedule_machine s') = Ok tt;
}.

Lemma run_schedule_driven s i es dsl s' :
  run_schedule_dsl s i = Ok (es, dsl) → write_back_schedule dsl s = Ok s' →
  driven s i s' es ∧ s' = s <| schedule_machine := dsl |>.
Proof.
  unfold run_schedule_dsl, write_back_schedule. intros ([] & Hok & Hrun)%Outcome_bind_Ok.
  intros ([] & Hd & [= <-])%Outcome_bind_Ok. apply run_dsl_fires in Hrun as [_ Hrun]. by repeat split.
Qed.

Lemma drive_driven s i s' es :
  drive_schedule s i = Ok (s', es) →
  driven s i s' es ∧ s' = s <| schedule_machine := schedule_machine s' |>.
Proof.
  unfold drive_schedule. intros ([es0 dsl] & Hrun & Hw)%Outcome_bind_Ok.
  apply Outcome_bind_Ok in Hw as (s1 & Hw & Hm).
  apply Outcome_bind_Ok in Hm as (? & _ & [= <- <-]).
  destruct (run_schedule_driven _ _ _ _ _ Hrun Hw) as [? ->]. by split.
Qed.

Lemma schedule_precondition_ok s p : schedule_precondition s = Ok p → schedule_row_ok s.
Proof.
  unfold schedule_precondition, schedule_write_fingerprint.
  intros (f & Hf & _)%Outcome_bind_Ok. by apply Outcome_bind_Ok in Hf as ([] & Hf & _).
Qed.

(** What a request leaves: an arm fired, from an old valid schedule or from a
    fresh machine, or nothing of the machine changed. *)
Inductive applied_request (w : ScheduleWrite) : Prop :=
| applied_fires i t s :
    (s = schedule_init ∨ recover_from_state s = inl s) →
    Fires i t s (schedule_machine (sw_schedule w)) (sw_effects w) → applied_request w
| applied_config s :
    recover_from_state s = inl s → schedule_machine (sw_schedule w) = s →
    sw_effects w = [] → applied_request w.

(** The payloads a request leaves are those the machine names. *)
Record payloads_named (s : Schedule) : Prop := {
  named_trigger :
    trigger_stable_key (schedule_trigger s) = ScheduleLifecycle.trigger_key (schedule_machine s);
  named_target :
    target_stable_key (schedule_target s) = ScheduleLifecycle.target_binding_key (schedule_machine s);
  named_policy : schedule_misfire_policy_to_machine (schedule_misfire_policy s) =
    ScheduleLifecycle.misfire_policy (schedule_machine s);
  named_displays : schedule_display_fields (schedule_machine s) = Ok tt;
}.

(** The inputs that leave the payload keys alone. *)
Definition rekeys_schedule (i : ScheduleInput) : bool :=
  match i with
  | ScheduleLifecycle.I_Create _ _ _ _ _ _ _ _ | ScheduleLifecycle.I_Revise _ _ _ _ _ _ _ _
  | ScheduleLifecycle.I_SyncTargetSnapshot _ => true
  | _ => false
  end.

Definition same_schedule_keys (a b : ScheduleState) : Prop :=
  ScheduleLifecycle.trigger_key b = ScheduleLifecycle.trigger_key a ∧
  ScheduleLifecycle.target_binding_key b = ScheduleLifecycle.target_binding_key a ∧
  ScheduleLifecycle.misfire_policy b = ScheduleLifecycle.misfire_policy a.

Lemma fires_keys i t s s' es : Fires i t s s' es → rekeys_schedule i = false → same_schedule_keys s s'.
Proof.
  intros HF. fires_cases HF; intros Hi; try discriminate Hi; repeat split;
    repeat (case_match; cbn); done.
Qed.

Lemma fires_sync_keys k t s s' es :
  Fires (ScheduleLifecycle.I_SyncTargetSnapshot k) t s s' es →
  ScheduleLifecycle.trigger_key s' = ScheduleLifecycle.trigger_key s ∧
  ScheduleLifecycle.misfire_policy s' = ScheduleLifecycle.misfire_policy s.
Proof.
  intros [Hin _ (s1 & Hu & -> & _)%fire_Some].
  repeat (apply elem_of_cons in Hin as [->|Hin]; [by apply (inj Some) in Hu as <-|]).
  by apply elem_of_nil in Hin.
Qed.

Lemma fires_revise_policy tk tbk mp op mtp d n ms t s s' es :
  Fires (ScheduleLifecycle.I_Revise tk tbk mp op mtp d n ms) t s s' es →
  ScheduleLifecycle.misfire_policy s' = mp.
Proof.
  intros [Hin _ (s1 & Hu & -> & _)%fire_Some].
  assert (tr_update t = ScheduleLifecycle.revise_update tk tbk mp op mtp d n) as Hup.
  { repeat (apply elem_of_cons in Hin as [->|Hin]; [done|]). by apply elem_of_nil in Hin. }
  rewrite Hup in Hu. unfold ScheduleLifecycle.revise_update in Hu. cbv zeta in Hu.
  by apply bind_Some in Hu as (r & _ & [= <-]).
Qed.

Lemma fires_create_policy sid tk tbk mp op mtp d n t s s' es :
  Fires (ScheduleLifecycle.I_Create sid tk tbk mp op mtp d n) t s s' es →
  ScheduleLifecycle.misfire_policy s' = mp.
Proof.
  intros [Hin _ (s1 & Hu & -> & _)%fire_Some]. apply list_elem_of_singleton in Hin as ->.
  apply (inj Some) in Hu as <-. by destruct d, n.
Qed.

(** ** Requests *)

Lemma with_config_named s c : payloads_named s → payloads_named (s <| schedule_config := c |>).
Proof. by intros []. Qed.

Lemma valid_named s : schedule_row_ok s → payloads_named s.
Proof. by intros []%schedule_ok_valid. Qed.

Lemma driven_named s i s' es :
  drive_schedule s i = Ok (s', es) → rekeys_schedule i = false →
  payloads_named s' ∧ applied_request (schedule_lifecycle_mutator s' es false (Absent "")).
Proof.
  intros ([Hok (t & HF) Hd] & Hs')%drive_driven Hi.
  destruct (fires_keys _ _ _ _ _ HF Hi) as (E1 & E2 & E3).
  pose proof Hok as [Hrec Ht Htg Hp _]%schedule_ok_valid. split.
  - rewrite Hs'. split; cbn; [by rewrite E1|by rewrite E2|by rewrite E3|done].
  - eapply applied_fires; [by right|exact HF].
Qed.

(** The result of a request: where its effects come from and what it leaves. *)
Record requested (w : ScheduleWrite) : Prop := {
  requested_applied : applied_request w;
  requested_named : payloads_named (sw_schedule w);
  requested_supersession :
    sw_pending_supersession w = head (omap from_schedule_effect (sw_effects w));
}.

Lemma requested_mutator s s' es bumped p :
  payloads_named s' → schedule_machine s = schedule_machine s' →
  applied_request (schedule_lifecycle_mutator s es false (Absent "")) →
  requested (schedule_lifecycle_mutator s' es bumped p).
Proof.
  intros Hn Hm Ha. split; [|done|done].
  destruct Ha as [i t s0 Hs HF|s0 Hs Hs0 He]; cbn in *.
  - eapply applied_fires; [exact Hs|]. cbn. by rewrite <-Hm.
  - eapply applied_config; [exact Hs| |done]. cbn. by rewrite <-Hm.
Qed.

Lemma snapshot_keys dsl trigger target u :
  verify_schedule_snapshot_keys dsl trigger target = Ok u →
  trigger_stable_key trigger = ScheduleLifecycle.trigger_key dsl ∧
  target_stable_key target = ScheduleLifecycle.target_binding_key dsl.
Proof.
  unfold verify_schedule_snapshot_keys. intros (? & Ht%expect_Ok%bool_decide_eq_true & Hg)%Outcome_bind_Ok.
  by apply expect_Ok, bool_decide_eq_true in Hg.
Qed.

Lemma create_requested fresh now request w :
  create_schedule_via_dsl fresh now request = Ok w → requested w.
Proof.
  unfold create_schedule_via_dsl. intros ([es dsl] & Hrun & Hw)%Outcome_bind_Ok.
  apply Outcome_bind_Ok in Hw as (? & [Ht Hg]%snapshot_keys & Hw).
  apply Outcome_bind_Ok in Hw as ([] & Hd & Hw).
  apply Outcome_bind_Ok in Hw as (? & _ & [= <-]).
  apply run_dsl_fires in Hrun as [_ (t & HF)]. split; [| |done].
  - eapply applied_fires; [by left|exact HF].
  - split; cbn; [done..| |done]. symmetry. exact (fires_create_policy _ _ _ _ _ _ _ _ _ _ _ _ HF).
Qed.

Lemma update_requested s request at_utc now s' bumped es p :
  schedule_row_ok s → apply_update s request at_utc now = Ok (s', bumped, es) →
  requested (schedule_lifecycle_mutator s' es bumped p).
Proof.
  intros Hok. unfold apply_update. intros (? & _ & Hu)%Outcome_bind_Ok. cbv zeta in Hu.
  destruct (revision_affecting _ _ _ _ _ _).
  - apply Outcome_bind_Ok in Hu as (ms & _ & Hu). apply Outcome_bind_Ok in Hu as ([es0 dsl] & Hrun & Hu).
    apply Outcome_bind_Ok in Hu as (? & [Ht Hg]%snapshot_keys & Hu).
    apply Outcome_bind_Ok in Hu as (s1 & Hw & Hu). apply Outcome_bind_Ok in Hu as (? & _ & [= <- <- <-]).
    destruct (run_schedule_driven _ _ _ _ _ Hrun Hw) as [[Hok' (t & HF) Hd] ->]. split; [| |done].
    + eapply applied_fires; [right; by apply schedule_ok_valid in Hok as []|exact HF].
    + do 2 apply with_config_named. split; cbn; [done..| |done].
      symmetry. exact (fires_revise_policy _ _ _ _ _ _ _ _ _ _ _ _ HF).
  - apply Outcome_bind_Ok in Hu as ([s1 es0] & Hdr & [= <- <- <-]). destruct (_ || _).
    + apply driven_named in Hdr as [Hn Ha]; [|done].
      apply (requested_mutator s1); [|reflexivity|exact Ha]. by do 2 apply with_config_named.
    + injection Hdr as <- <-. apply (requested_mutator s); [|done|].
      { do 2 apply with_config_named. by apply valid_named. }
      eapply applied_config; [by apply schedule_ok_valid in Hok as []|done..].
Qed.

(** Every request that succeeds. *)
Lemma schedule_apply_requested fresh now so request w :
  schedule_apply fresh now so request = Ok w → requested w.
Proof.
  destruct request as [request|request at_utc|cursor ordinal|target|at_utc|at_utc|at_utc|ack];
    cbn [schedule_apply]; [apply create_requested|..].
  all: intros (s & _ & Hw)%Outcome_bind_Ok.
  all: apply Outcome_bind_Ok in Hw as (p & Hok%schedule_precondition_ok & Hw).
  - apply Outcome_bind_Ok in Hw as ([[s' bumped] es] & Hu & [= <-]). by eapply update_requested.
  - apply Outcome_bind_Ok in Hw as (ms & _ & Hw). apply Outcome_bind_Ok in Hw as ([s' es] & Hdr & [= <-]).
    apply driven_named in Hdr as [Hn Ha]; [|done]. by eapply requested_mutator.
  - apply Outcome_bind_Ok in Hw as ([es dsl] & Hrun & Hw).
    apply Outcome_bind_Ok in Hw as (? & Hk%expect_Ok%bool_decide_eq_true & Hw).
    apply Outcome_bind_Ok in Hw as (s1 & Hs1 & Hw). apply Outcome_bind_Ok in Hw as (? & _ & [= <-]).
    destruct (run_schedule_driven _ _ _ _ _ Hrun Hs1) as [[_ (t & HF) Hd] ->]. split; [| |done].
    + eapply applied_fires; [right; by apply schedule_ok_valid in Hok as []|exact HF].
    + destruct (fires_sync_keys _ _ _ _ _ HF) as [E1 E2].
      apply schedule_ok_valid in Hok as [_ Ht _ Hp _]. cbn in E1, E2.
      apply with_config_named. split; cbn; [by rewrite E1|done|by rewrite E2|done].
  - apply Outcome_bind_Ok in Hw as (ms & _ & Hw). apply Outcome_bind_Ok in Hw as ([s' es] & Hdr & [= <-]).
    apply driven_named in Hdr as [Hn Ha]; [|done].
    apply (requested_mutator s'); [by apply with_config_named|reflexivity|exact Ha].
  - apply Outcome_bind_Ok in Hw as (ms & _ & Hw). apply Outcome_bind_Ok in Hw as ([s' es] & Hdr & [= <-]).
    apply driven_named in Hdr as [Hn Ha]; [|done].
    apply (requested_mutator s'); [by apply with_config_named|reflexivity|exact Ha].
  - apply Outcome_bind_Ok in Hw as (ms & _ & Hw). apply Outcome_bind_Ok in Hw as ([s' es] & Hdr & [= <-]).
    apply driven_named in Hdr as [Hn Ha]; [|done].
    apply (requested_mutator s'); [by apply with_config_named|reflexivity|exact Ha].
  - apply Outcome_bind_Ok in Hw as (? & _ & Hw). apply Outcome_bind_Ok in Hw as ([s' es] & Hdr & [= <-]).
    apply driven_named in Hdr as [Hn Ha]; [|done]. by eapply requested_mutator.
Qed.

(** A request leaves a valid schedule, unless the revision counter wraps. *)
Lemma requested_valid w :
  requested w →
  (∀ s, recover_from_state s = inl s → (ScheduleLifecycle.revision s < u64_max)%N ∨ overflow_checks = true) →
  schedule_row_ok (sw_schedule w).
Proof.
  intros [Ha [Ht Htg Hp Hd] _] Hrev. apply schedule_ok_valid. split; [|done..].
  destruct Ha as [i t s Hs HF|s Hs -> _]; [|done].
  apply ScheduleFacts.recover_well_formed.
  assert (Hwf : ScheduleFacts.well_formed s).
  { destruct Hs as [->|Hs]; [apply ScheduleFacts.init_well_formed|].
    by apply ScheduleFacts.recover_well_formed. }
  apply (ScheduleFacts.fires_well_formed _ _ _ _ _ HF Hwf). intros r Hr.
  destruct (Hrev s) as [Hlt|Hc]; [by apply ScheduleFacts.recover_well_formed| |].
  - rewrite u64_add_small in Hr by lia. injection Hr as <-. lia.
  - unfold u64_add in Hr. rewrite Hc in Hr. destruct (_ <=? _)%N; [|done]. injection Hr as <-. lia.
Qed.

(** ** Supersessions *)

Lemma fires_supersession i t s s' es r ms :
  Fires i t s s' es → ScheduleLifecycle.E_SupersedePendingOccurrences r ms ∈ es →
  r = ScheduleLifecycle.revision s' ∧ ScheduleLifecycle.superseded_ack_ids s' = ∅.
Proof. intros HF Hin. fires_cases HF; set_solver. Qed.

(** The supersession a write announces is the one its machine emitted. *)
Lemma requested_pending w p :
  requested w → sw_pending_supersession w = Some p →
  superseded_by p = ScheduleLifecycle.revision (schedule_machine (sw_schedule w)) ∧
  ScheduleLifecycle.superseded_ack_ids (schedule_machine (sw_schedule w)) = ∅ ∧
  ∃ ms, millis_to_datetime ms = Some (supersession_at_utc p).
Proof.
  intros [Ha _ ->] Hp.
  assert (Hin : p ∈ omap from_schedule_effect (sw_effects w)).
  { destruct (omap _ _) as [|q l]; [done|]. injection Hp as ->. by left. }
  apply list_elem_of_omap in Hin as (e & Hin & He).
  destruct e as [|r ms|]; cbn in He; try done. apply bind_Some in He as (dt & Hdt & [= <-]).
  destruct Ha as [i t s _ HF|s _ _ Hes]; [|rewrite Hes in Hin; by apply elem_of_nil in Hin].
  destruct (fires_supersession _ _ _ _ _ _ _ HF Hin). eauto.
Qed.

(** The supersession a write announces, if any, is of the schedule it leaves. *)
Definition announces (w : ScheduleWrite) : Prop := ∀ p,
  sw_pending_supersession w = Some p →
  superseded_by p = ScheduleLifecycle.revision (schedule_machine (sw_schedule w)) ∧
  ScheduleLifecycle.superseded_ack_ids (schedule_machine (sw_schedule w)) = ∅ ∧
  ∃ ms, millis_to_datetime ms = Some (supersession_at_utc p).

Lemma requested_announces w : requested w → announces w.
Proof. intros Hreq p. by apply requested_pending. Qed.

(** ** Acknowledgements *)

(** The schedule an acknowledgement of the current revision leaves. *)
Definition acknowledge (oid : OccurrenceId) (s : Schedule) : Schedule :=
  s <| schedule_machine := (schedule_machine s) <| ScheduleLifecycle.superseded_ack_ids :=
    {[oid]} ∪ ScheduleLifecycle.superseded_ack_ids (schedule_machine s) |> |>.

Lemma acknowledge_ok oid s : schedule_row_ok s → schedule_row_ok (acknowledge oid s).
Proof.
  rewrite !schedule_ok_valid. intros [Hrec Ht Htg Hp Hd]. split; [|done..].
  apply ScheduleFacts.recover_well_formed. by apply ScheduleFacts.recover_well_formed in Hrec.
Qed.

Lemma confirm_runs oid s :
  schedule_row_ok s →
  drive_schedule s (ScheduleLifecycle.I_ConfirmOccurrencesSuperseded oid
    (ScheduleLifecycle.revision (schedule_machine s))) = Ok (acknowledge oid s, []).
Proof.
  intros Hok. set (rev := ScheduleLifecycle.revision (schedule_machine s)).
  set (s' := schedule_machine (acknowledge oid s)).
  assert (Hsel : ∃ t, select (transitions (ScheduleLifecycle.I_ConfirmOccurrencesSuperseded oid rev))
      (schedule_machine s) = Some t ∧ tr_update t = ScheduleLifecycle.confirm_update oid rev ∧
      tr_to t = ScheduleLifecycle.lifecycle_phase (schedule_machine s) ∧ tr_emit t = (λ _, [])).
  { unfold select. destruct (ScheduleLifecycle.lifecycle_phase (schedule_machine s)) eqn:Hp;
      cbn; rewrite Hp; cbn; eauto 10. }
  destruct Hsel as (t & Hsel & Hu & Hto & He).
  assert (Hfire : fire t (schedule_machine s) = Some (s', [])).
  { unfold fire. rewrite Hu, Hto, He. unfold ScheduleLifecycle.confirm_update.
    subst rev. rewrite N.eqb_refl. subst s'. unfold acknowledge. cbn.
    by destruct (schedule_machine s). }
  pose proof (acknowledge_ok oid s Hok) as [Hrec' _ _ _ Hd]%schedule_ok_valid.
  assert (Hap : ∃ r, apply (ScheduleLifecycle.I_ConfirmOccurrencesSuperseded oid rev)
      (schedule_machine s) = Returned s' (inl r) ∧ effects r = []).
  { eexists. split; [eapply apply_selects; [done|exact Hsel|exact Hfire|]|done].
    apply recover_ok. exact Hrec'. }
  destruct Hap as (r & Hap & Hr). pose proof Hok as [Hrec _ _ _ _]%schedule_ok_valid.
  unfold drive_schedule, run_schedule_dsl. rewrite Hok. cbn [mbind Outcome_bind].
  unfold run_dsl. rewrite Hrec, Hap, Hr. cbn [mbind Outcome_bind].
  unfold write_back_schedule. fold s' in Hd. rewrite Hd. done.
Qed.

Lemma confirm_acknowledges fresh now s ack :
  schedule_row_ok s →
  ack_schedule_id ack = ScheduleLifecycle.schedule_id (schedule_machine s) →
  ack_superseding_revision ack = ScheduleLifecycle.revision (schedule_machine s) →
  ∃ w, schedule_apply fresh now (Some s) (ConfirmSuperseded ack) = Ok w ∧
    into_effectless_schedule w = Ok (acknowledge (ack_occurrence_id ack) s).
Proof.
  intros Hok Hid Hrev. cbn [schedule_apply ok_or mbind Outcome_bind].
  unfold schedule_precondition, schedule_write_fingerprint. rewrite Hok. cbn [mbind Outcome_bind].
  rewrite Hid, bool_decide_eq_true_2 by done. cbn [expect mbind Outcome_bind].
  rewrite Hrev, confirm_runs by done. by eexists.
Qed.

(** The feedback of a sweep adds exactly the swept occurrences. *)
Lemma feedback_acknowledges fresh now acks s :
  schedule_row_ok s →
  Forall (λ ack,
    ack_schedule_id ack = ScheduleLifecycle.schedule_id (schedule_machine s) ∧
    ack_superseding_revision ack = ScheduleLifecycle.revision (schedule_machine s)) acks →
  apply_supersession_feedback fresh now s acks =
    Ok (fold_left (λ s ack, acknowledge (ack_occurrence_id ack) s) acks s).
Proof.
  revert s. induction acks as [|ack acks IH]; intros s Hok Hacks; [done|].
  apply Forall_cons in Hacks as [[Hid Hrev] Hacks].
  destruct (confirm_acknowledges fresh now s ack Hok Hid Hrev) as (w & Hw & Hs).
  cbn [apply_supersession_feedback fold_left].
  rewrite Hw. cbn [mbind Outcome_bind]. rewrite Hs. cbn [mbind Outcome_bind].
  apply IH; [by apply acknowledge_ok|done].
Qed.

Lemma acknowledged_ids acks s :
  let s' := fold_left (λ s ack, acknowledge (ack_occurrence_id ack) s) acks s in
  ScheduleLifecycle.superseded_ack_ids (schedule_machine s') =
    list_to_set (ack_occurrence_id <$> acks) ∪
      ScheduleLifecycle.superseded_ack_ids (schedule_machine s) ∧
  s' = s <| schedule_machine := (schedule_machine s) <| ScheduleLifecycle.superseded_ack_ids :=
    ScheduleLifecycle.superseded_ack_ids (schedule_machine s') |> |>.
Proof.
  revert s. induction acks as [|ack acks IH]; intros s; cbn.
  - split; [set_solver|]. by destruct s as [[]].
  - destruct (IH (acknowledge (ack_occurrence_id ack) s)) as (Hids & Hm). cbn in Hids.
    split; [rewrite Hids; set_solver|]. by rewrite Hm.
Qed.

Lemma feedback_ok acks s : schedule_row_ok s →
  schedule_row_ok (fold_left (λ s ack, acknowledge (ack_occurrence_id ack) s) acks s).
Proof. revert s. induction acks as [|ack acks IH]; intros s Hok; [done|]. by apply IH, acknowledge_ok. Qed.

Lemma confirm_valid fresh now so ack w :
  schedule_apply fresh now so (ConfirmSuperseded ack) = Ok w → schedule_row_ok (sw_schedule w).
Proof.
  intros Hw. pose proof (schedule_apply_requested _ _ _ _ _ Hw) as [_ [Ht Hg Hp Hd] _].
  apply schedule_ok_valid. split; [|done..]. cbn [schedule_apply] in Hw.
  apply Outcome_bind_Ok in Hw as (s & _ & Hw). apply Outcome_bind_Ok in Hw as (p & _ & Hw).
  apply Outcome_bind_Ok in Hw as (? & _ & Hw). apply Outcome_bind_Ok in Hw as ([s' es] & Hdr & [= <-]).
  apply drive_driven in Hdr as [[Hok (t & HF) _] _].
  apply schedule_ok_valid in Hok as [Hrec%ScheduleFacts.recover_well_formed _ _ _ _].
  apply ScheduleFacts.recover_well_formed. cbn [sw_schedule schedule_lifecycle_mutator].
  destruct HF as [Hin Hg' (s1 & Hu & -> & _)%fire_Some].
  assert (Hc : tr_update t = ScheduleLifecycle.confirm_update (ack_occurrence_id ack)
    (ack_superseding_revision ack) ∧ tr_to t = ScheduleLifecycle.lifecycle_phase (schedule_machine s)).
  { repeat (apply elem_of_cons in Hin as [->|Hin]; [cbn in Hg'; by prop_guards|]).
    by apply elem_of_nil in Hin. }
  destruct Hc as [-> ->] in Hu |- *. apply (inj Some) in Hu as <-.
  unfold ScheduleFacts.well_formed in *. by destruct (_ =? _)%N.
Qed.

Lemma effectless_row w s : into_effectless_schedule w = Ok s → s = sw_schedule w.
Proof.
  unfold into_effectless_schedule. destruct (sw_effects w), (sw_revision_bumped w), (sw_pending_supersession w);
    by intros [= <-].
Qed.

Lemma feedback_valid fresh now s acks s' :
  schedule_row_ok s → apply_supersession_feedback fresh now s acks = Ok s' → schedule_row_ok s'.
Proof.
  revert s. induction acks as [|ack acks IH]; intros s Hok; cbn [apply_supersession_feedback];
    [by intros [= <-]|].
  intros (w & Hw & Hs)%Outcome_bind_Ok. apply Outcome_bind_Ok in Hs as (s1 & ->%effectless_row & Hs).
  by eapply IH, Hs; eapply confirm_valid.
Qed.
End rows.
