(* ===== verification/StoreContract.v ===== *)
(** * StoreContract: the schedule store as its clients see it

    The calls of the [ScheduleStore] trait the schedule service and the driver
    make ([StoreCall]; fresh tokens a store mints come with the call), a store as a state and its answers ([ScheduleStore]) and the
    laws a client relies on ([LawfulStore]): reads change nothing, a commit
    either takes place against the schedule its precondition names or leaves
    the store alone, and its answer carries exactly the authority of the write
    and the rows it superseded. *)

From stdpp Require Import gmap.
From S2P Require Import Prelude Text Chrono ScheduleTypes Millis Authority ExecutorLease.
From S2P Require Import ScheduleLifecycle OccurrenceLifecycle Rows RowFacts ScheduleRows StoreTypes.

Section contract.
Context `{RowCodec} {HL : ChronoLaws} {BP : BuildProfile}.

(** ** Calls *)

Inductive StoreCall : Type → Type :=
| GetStoreTime : StoreCall DateTime
| GetSchedule (id : ScheduleId) : StoreCall (option Schedule)
| ListSchedules (f : ScheduleFilter) : StoreCall (list Schedule)
| GetOccurrence (id : OccurrenceId) : StoreCall (option Occurrence)
| ListOccurrences (f : OccurrenceFilter) : StoreCall (list Occurrence)
| ListReceipts (id : OccurrenceId) : StoreCall (list DeliveryReceipt)
| CommitScheduleWrite (w : ScheduleWrite) : StoreCall ScheduleTransitionCommit
| CommitScheduleMutation (w : ScheduleWrite) (planned : list OccurrenceWrite)
    : StoreCall ScheduleMutationCommit
| CommitScheduleRefill (w : ScheduleWrite) (planned : list OccurrenceWrite)
    (next_refill_at_utc : option DateTime) : StoreCall ScheduleMutationCommit
| RecordRefillDeadline (id : ScheduleId) (expected_revision : N)
    (expected_refill_at_utc : DateTime) (next_refill_at_utc : option DateTime) : StoreCall unit
| CommitOccurrenceWrite (w : OccurrenceWrite) : StoreCall OccurrenceWrite
| ReadDueRefillCandidates (limit : nat) : StoreCall ScheduleRefillBatch
| ClaimDueOccurrences (lease : ScheduleExecutorLease) (request : ClaimDueRequest)
    (fresh : OccurrenceId → ClaimToken) : StoreCall ClaimDueResult
| TransitionIfCurrent (id : OccurrenceId) (expected_attempt : N)
    (expected_claim_token : option ClaimToken) (transition : OccurrenceInput)
    : StoreCall (option OccurrenceWrite)
| TransitionWithReceiptIfCurrent (id : OccurrenceId) (expected_attempt : N)
    (expected_claim_token : option ClaimToken) (transition : OccurrenceInput)
    (outcome : option RuntimeDeliveryOutcome) : StoreCall (option OccurrenceWrite)
| RenewOccurrenceLease (r : RenewOccurrenceLeaseRequest) : StoreCall RenewOccurrenceLeaseResult
| AcquireExecutorLease (owner : str) (d : TimeDelta) (fresh : Uuid) : StoreCall AcquireOutcome
| RenewExecutorLease (lease : ScheduleExecutorLease) (d : TimeDelta) : StoreCall RenewOutcome
| ReleaseExecutorLease (lease : ScheduleExecutorLease) : StoreCall unit
| ObserveExecutorLease : StoreCall ScheduleExecutorLeaseObservation.

Definition is_read {X} (c : StoreCall X) : bool :=
  match c with
  | GetStoreTime | GetSchedule _ | ListSchedules _ | GetOccurrence _ | ListOccurrences _
  | ListReceipts _ | ObserveExecutorLease => true
  | _ => false
  end.

(** The calls that commit a schedule and its planned rows atomically. *)
Inductive commits_mutation (w : ScheduleWrite) (planned : list OccurrenceWrite)
  : StoreCall ScheduleMutationCommit → Prop :=
| commits_schedule : commits_mutation w planned (CommitScheduleMutation w planned)
| commits_refill next : commits_mutation w planned (CommitScheduleRefill w planned next).

(** ** What a commit answers *)

(** A row a supersession swept: what its transition wrote, emitted and acknowledged. *)
Record swept_write (sid : ScheduleId) (revision : N) (id : OccurrenceId) (w : OccurrenceWrite)
  : Prop := {
  swept_id : occ_id (ow_occurrence w) = id;
  swept_schedule : schedule_id (occurrence_machine (ow_occurrence w)) = sid;
  swept_phase : lifecycle_phase (occurrence_machine (ow_occurrence w)) = Superseded;
  swept_revision : superseded_by_revision (occurrence_machine (ow_occurrence w)) = Some revision;
  swept_effects : ow_effects w = [E_Superseded; E_OccurrencesSuperseded id revision];
  swept_acks : ow_acks w = [{| ack_schedule_id := sid; ack_occurrence_id := id;
                               ack_superseding_revision := revision |}];
}.

(** The rows a commit reports: one for each identifier, without repetition. *)
Definition swept (sid : ScheduleId) (revision : N) (ids : gset OccurrenceId)
    (ws : list OccurrenceWrite) : Prop :=
  ∃ l, NoDup l ∧ list_to_set l = ids ∧ Forall2 (swept_write sid revision) l ws.

Definition ack_ids (s : Schedule) : gset OccurrenceId :=
  ScheduleLifecycle.superseded_ack_ids (schedule_machine s).

Definition with_acks (ids : gset OccurrenceId) (s : Schedule) : Schedule :=
  s <| schedule_machine :=
    (schedule_machine s) <| ScheduleLifecycle.superseded_ack_ids := ids |> |>.

Lemma with_acks_same s : s = with_acks (ack_ids s) s.
Proof. by destruct s as [[]]. Qed.

(** The answer to an atomic commit: the write's authority, its schedule with the
    acknowledgements of the rows it superseded, and those rows. *)
Record commit_answer (w : ScheduleWrite) (mc : ScheduleMutationCommit) : Prop := {
  answer_commit : schedule_commit mc = transition_commit w (mc_schedule mc);
  answer_schedule : mc_schedule mc = with_acks (ack_ids (mc_schedule mc)) (sw_schedule w);
  answer_swept :
    match sw_pending_supersession w with
    | None => mc_schedule mc = sw_schedule w ∧ occurrence_commits mc = []
    | Some p => swept (sched_id (sw_schedule w)) (superseded_by p) (ack_ids (mc_schedule mc))
                  (occurrence_commits mc)
    end;
}.

(** ** What a commit leaves *)

(** A row whose fields are those of its machine: what every authorised write
    carries, since only machine transitions make them. *)
Definition planned_valid (w : OccurrenceWrite) : Prop := row_ok (ow_occurrence w).

Definition insert_rows (planned : list OccurrenceWrite) (rows : gmap OccurrenceId Occurrence)
  : gmap OccurrenceId Occurrence :=
  fold_left (λ rows w, <[occ_id (ow_occurrence w) := ow_occurrence w]> rows) planned rows.

(** The live rows of the schedule that belong to an older revision. *)
Definition stale (sid : ScheduleId) (p : PendingSupersession) (o : Occurrence) : bool :=
  (schedule_id (occurrence_machine o) == sid)
  && negb (default true (occurrence_is_terminal o))
  && (schedule_revision (occurrence_machine o) <? superseded_by p)%N.

Definition superseded_form (p : PendingSupersession) (o : Occurrence) : Occurrence :=
  match occurrence_apply o (Supersede (superseded_by p) (supersession_at_utc p)) with
  | Ok w => ow_occurrence w
  | _ => o
  end.

Definition swept_form (sid : ScheduleId) (p : PendingSupersession) (o : Occurrence) : Occurrence :=
  if stale sid p o then superseded_form p o else o.

(** What a commit leaves, from the rows with the planned ones inserted. *)
Record committed (w : ScheduleWrite) (rows : gmap OccurrenceId Occurrence)
    (schedule' : option Schedule) (rows' : gmap OccurrenceId Occurrence)
    (mc : ScheduleMutationCommit) : Prop := {
  committed_answer : commit_answer w mc;
  committed_schedule : schedule' = Some (mc_schedule mc);
  committed_rows : rows' =
    match sw_pending_supersession w with
    | None => rows
    | Some p => swept_form (sched_id (sw_schedule w)) p <$> rows
    end;
  committed_acks : ack_ids (mc_schedule mc) =
    match sw_pending_supersession w with
    | None => ack_ids (sw_schedule w)
    | Some p => dom (filter (λ row, stale (sched_id (sw_schedule w)) p row.2 = true) rows)
    end;
}.

(** ** Stores *)

(** [now] is the store's clock while it answers. *)
Class ScheduleStore := {
  StoreState : Type;
  answer {X} : StoreCall X → DateTime → StoreState → StoreState * Outcome StoreError X;
}.

Definition refused {S X} (st : S) (r : S * Outcome StoreError X) : Prop :=
  ∃ e, r = (st, Err e).

(** The precondition holds of the row stored now. *)
Definition admits (p : WritePrecondition) (key : option (string * Outcome RowError Fingerprint)) : Prop :=
  check_current p key = Ok tt.

Class LawfulStore `{ScheduleStore} := {
  store_wf : StoreState → Prop;
  stored_schedules : StoreState → gmap ScheduleId Schedule;
  stored_rows : StoreState → gmap OccurrenceId Occurrence;
  answer_wf X (c : StoreCall X) now st : store_wf st → store_wf (answer c now st).1;
  stored_schedule_valid st id s :
    store_wf st → stored_schedules st !! id = Some s → schedule_row_ok s ∧ sched_id s = id;
  stored_row_valid st id o : store_wf st → stored_rows st !! id = Some o → row_ok o ∧ occ_id o = id;
  read_frame X (c : StoreCall X) now st : is_read c = true → (answer c now st).1 = st;
  get_schedule_answers id now st so :
    (answer (GetSchedule id) now st).2 = Ok so → so = stored_schedules st !! id;
  list_occurrences_answers f now st l :
    store_wf st → (answer (ListOccurrences f) now st).2 = Ok l →
    Forall (λ o, stored_rows st !! occ_id o = Some o) l;
  mutation_commits w planned c now st :
    store_wf st → announces w → Forall planned_valid planned → commits_mutation w planned c →
    refused st (answer c now st) ∨
    ∃ st' mc, answer c now st = (st', Ok mc) ∧
      admits (sw_precondition w) (schedule_key <$> stored_schedules st !! sched_id (sw_schedule w)) ∧
      committed w (insert_rows planned (stored_rows st))
        (stored_schedules st' !! sched_id (sw_schedule w)) (stored_rows st') mc;
  write_commits w now st :
    store_wf st →
    refused st (answer (CommitScheduleWrite w) now st) ∨
    ∃ st', answer (CommitScheduleWrite w) now st = (st', Ok (transition_commit w (sw_schedule w))) ∧
      admits (sw_precondition w) (schedule_key <$> stored_schedules st !! sched_id (sw_schedule w)) ∧
      sw_pending_supersession w = None ∧
      stored_schedules st' !! sched_id (sw_schedule w) = Some (sw_schedule w) ∧
      stored_rows st' = stored_rows st;
  deadline_commits id revision expected next now st :
    store_wf st →
    refused st (answer (RecordRefillDeadline id revision expected next) now st) ∨
    ∃ st', answer (RecordRefillDeadline id revision expected next) now st = (st', Ok tt) ∧
      stored_schedules st' = stored_schedules st ∧ stored_rows st' = stored_rows st;
  row_commits w now st :
    store_wf st → planned_valid w →
    refused st (answer (CommitOccurrenceWrite w) now st) ∨
    ∃ st', answer (CommitOccurrenceWrite w) now st = (st', Ok w) ∧
      admits (ow_precondition w) (occurrence_key <$> stored_rows st !! occ_id (ow_occurrence w)) ∧
      stored_schedules st' = stored_schedules st ∧
      stored_rows st' = <[occ_id (ow_occurrence w) := ow_occurrence w]> (stored_rows st);
}.
(** ** Rows under transitions

    What the occurrence authority makes of a stored row: applied inputs, one
    after the other, none of which plans the row anew. *)

Definition plans (i : OccurrenceInput) : bool :=
  match i with PlanOccurrence _ _ _ _ _ _ _ _ _ _ => true | _ => false end.

Definition row_step (o o' : Occurrence) : Prop :=
  ∃ i w, plans i = false ∧ occurrence_apply o i = Ok w ∧ ow_occurrence w = o'.
Definition advances : Occurrence → Occurrence → Prop := rtc row_step.

(** A write the authority gave: of a new row, or of the row it replaces. *)
Inductive authorized_row (w : OccurrenceWrite) : Prop :=
| authorized_new id : ow_precondition w = Absent id → authorized_row w
| authorized_change o :
    occurrence_precondition o = Ok (ow_precondition w) → advances o (ow_occurrence w) →
    authorized_row w.

Definition authorized_call {X} (c : StoreCall X) : Prop :=
  match c with
  | CommitScheduleMutation _ planned | CommitScheduleRefill _ planned _ =>
      Forall authorized_row planned
  | CommitOccurrenceWrite w => authorized_row w
  | TransitionIfCurrent _ _ _ i | TransitionWithReceiptIfCurrent _ _ _ i _ => plans i = false
  | _ => True
  end.

(** A transition with its receipt. *)
Record receipt_chain (o : Occurrence) (i : OccurrenceInput) (w0 w : OccurrenceWrite) : Prop := {
  chain_first : occurrence_apply o i = Ok w0;
  chain_followup : ∃ receipt outcome w1,
    occurrence_apply (ow_occurrence w0) (RecordReceipt receipt outcome) = Ok w1 ∧
    ow_occurrence w = ow_occurrence w1 ∧ ow_effects w = ow_effects w0 ++ ow_effects w1;
}.

(** No row is dropped, and each only advances. *)
Definition rows_advance (rows rows' : gmap OccurrenceId Occurrence) : Prop :=
  ∀ id o, rows !! id = Some o → ∃ o', rows' !! id = Some o' ∧ advances o o'.

(** Fingerprints tell rows apart. *)
Class FaithfulCodec : Prop := { #[global] occurrence_bytes_inj :: Inj (=) (=) occurrence_bytes }.

(** What a driver relies on besides. *)
Class TransitionStore `{LawfulStore} := {
  calls_advance X (c : StoreCall X) now st :
    store_wf st → authorized_call c →
    rows_advance (stored_rows st) (stored_rows (answer c now st).1);
  transition_commits id attempt token i now st w :
    store_wf st → plans i = false →
    (answer (TransitionIfCurrent id attempt token i) now st).2 = Ok (Some w) →
    ∃ o, stored_rows st !! id = Some o ∧ attempt_count (occurrence_machine o) = attempt ∧
      claim_token (occurrence_machine o) = token ∧ occurrence_apply o i = Ok w ∧
      stored_rows (answer (TransitionIfCurrent id attempt token i) now st).1
        = <[id := ow_occurrence w]> (stored_rows st);
  receipt_commits id attempt token i outcome now st w :
    store_wf st → plans i = false →
    (answer (TransitionWithReceiptIfCurrent id attempt token i outcome) now st).2 = Ok (Some w) →
    ∃ o w0, stored_rows st !! id = Some o ∧ attempt_count (occurrence_machine o) = attempt ∧
      claim_token (occurrence_machine o) = token ∧ receipt_chain o i w0 w ∧
      stored_rows (answer (TransitionWithReceiptIfCurrent id attempt token i outcome) now st).1
        = <[id := ow_occurrence w]> (stored_rows st);
}.
End contract.
