(* ===== verification/MemoryStore.v ===== *)
(** * MemoryStore: the in-memory schedule store

    [MemoryScheduleStore] of [meerkat-schedule/src/store.rs].  An operation
    holds the store's lock throughout, so it is a function on the state; it
    keeps the writes it made before it fails ([Store]).  The store clock and
    fresh tokens are arguments.  The refill queue is a set of deadlines in
    nanoseconds with their schedules; rows are visited in map order. *)

From stdpp Require Import gmap pretty sorting.
From S2P Require Import Prelude Text Chrono ScheduleTypes Millis Authority ExecutorLease.
From S2P Require Import ScheduleLifecycle OccurrenceLifecycle Rows StoreTypes.

Section store.
Context `{RowCodec} {BP : BuildProfile}.

(** ** State and errors *)

Record MemoryScheduleState := mkMemory {
  schedules : gmap ScheduleId Schedule;
  occurrences : gmap OccurrenceId Occurrence;
  receipts : gmap OccurrenceId (list DeliveryReceipt);
  refill_deadlines : gmap ScheduleId DateTime;
  refill_queue : gset (Z * ScheduleId);
  refill_scan_cursor : option (Z * ScheduleId);
  executor : LeaseState;
}.

#[export] Instance memory_fields : Fields MemoryScheduleState := λ st,
  mkMemory (schedules st) (occurrences st) (receipts st) (refill_deadlines st)
    (refill_queue st) (refill_scan_cursor st) (executor st).

Definition memory_init : MemoryScheduleState := {|
  schedules := ∅; occurrences := ∅; receipts := ∅; refill_deadlines := ∅;
  refill_queue := ∅; refill_scan_cursor := None; executor := lease_init |}.

(** ** Operations that can fail part-way *)

Definition Store (A : Type) : Type :=
  MemoryScheduleState → MemoryScheduleState * Outcome StoreError A.

#[local] Instance store_ret : MRet Store := λ A a st, (st, Ok a).
#[local] Instance store_bind : MBind Store := λ A B f m st,
  match m st with
  | (st', Ok a) => f a st'
  | (st', Err e) => (st', Err e)
  | (st', Panic) => (st', Panic)
  | (st', OutOfFuel) => (st', OutOfFuel)
  end.

Definition read : Store MemoryScheduleState := λ st, (st, Ok st).
Definition write (f : MemoryScheduleState → MemoryScheduleState) : Store unit :=
  λ st, (f st, Ok tt).
Definition fail {A} (e : StoreError) : Store A := λ st, (st, Err e).

(** [map_err(..)?] on a row operation. *)
Definition lift {A} (wrap : RowError → StoreError) (r : Outcome RowError A) : Store A :=
  λ st, (st, match r with
             | Ok a => Ok a | Err e => Err (wrap e) | Panic => Panic
             | OutOfFuel => OutOfFuel end).

Definition panic_if_none {A} (o : option A) : Store A :=
  λ st, (st, or_panic o).

Fixpoint for_each {A B} (f : A → Store B) (l : list A) : Store (list B) :=
  match l with
  | [] => mret []
  | x :: l' => y ← f x; ys ← for_each f l'; mret (y :: ys)
  end.

(** ** The refill projection *)

Definition dt_min (a b : DateTime) : DateTime := if dt_leb a b then a else b.

Definition memory_set_schedule_refill_deadline (id : ScheduleId) (deadline : option DateTime)
    (st : MemoryScheduleState) : MemoryScheduleState :=
  let st :=
    match refill_deadlines st !! id with
    | Some previous =>
        st <| refill_deadlines := delete id (refill_deadlines st) |>
           <| refill_queue := refill_queue st ∖ {[(ns previous, id)]} |>
    | None => st
    end in
  match deadline with
  | Some deadline =>
      st <| refill_deadlines := <[id := deadline]> (refill_deadlines st) |>
         <| refill_queue := {[(ns deadline, id)]} ∪ refill_queue st |>
  | None => st
  end.

Inductive MemoryRefillDeadlineProjection :=
| Derive
| Exact (deadline : option DateTime).

Definition memory_update_schedule_refill_projection (previous : option Schedule)
    (schedule : Schedule) (projection : MemoryRefillDeadlineProjection) (now : DateTime)
    (st : MemoryScheduleState) : MemoryScheduleState :=
  if sched_phase schedule != Active then
    memory_set_schedule_refill_deadline (sched_id schedule) None st
  else
    match projection with
    | Exact deadline => memory_set_schedule_refill_deadline (sched_id schedule) deadline st
    | Derive =>
        let must_enqueue :=
          match previous with
          | None => true
          | Some previous =>
              (sched_phase previous != Active)
              || (sched_revision previous != sched_revision schedule)
          end in
        if must_enqueue || negb (bool_decide (is_Some (refill_deadlines st !! sched_id schedule)))
        then memory_set_schedule_refill_deadline (sched_id schedule) (Some now) st
        else st
    end.

Definition memory_note_pending_departure (previous updated : Occurrence) (now : DateTime)
    (st : MemoryScheduleState) : MemoryScheduleState :=
  let p := occurrence_machine previous in
  let u := occurrence_machine updated in
  if (lifecycle_phase p != Pending)
     || ((lifecycle_phase u == Pending) && (schedule_id u == schedule_id p)
         && (schedule_revision u == schedule_revision p))
  then st
  else
    match schedules st !! schedule_id p with
    | Some schedule =>
        if (sched_phase schedule == Active)
           && (sched_revision schedule == schedule_revision p)
        then
          let deadline :=
            dt_min (default now (refill_deadlines st !! schedule_id p)) now in
          memory_set_schedule_refill_deadline (schedule_id p) (Some deadline) st
        else st
    | None => st
    end.

(** ** Rows *)

Definition put_occurrence (o : Occurrence) (st : MemoryScheduleState) : MemoryScheduleState :=
  st <| occurrences := <[occ_id o := o]> (occurrences st) |>.

Definition put_schedule (s : Schedule) (st : MemoryScheduleState) : MemoryScheduleState :=
  st <| schedules := <[sched_id s := s]> (schedules st) |>.

(** [receipts.entry(id).or_default().push(receipt)] *)
Definition push_receipt (id : OccurrenceId) (r : DeliveryReceipt) (st : MemoryScheduleState)
  : MemoryScheduleState :=
  st <| receipts := <[id := default [] (receipts st !! id) ++ [r]]> (receipts st) |>.

(** ** Schedule commits *)

Definition check_schedule_precondition (w : ScheduleWrite) : Store unit :=
  st ← read;
  lift ConcurrencyRow (check_current (sw_precondition w)
                         (schedule_key <$> schedules st !! sched_id (sw_schedule w))).

Definition check_occurrence_precondition (w : OccurrenceWrite) : Store unit :=
  st ← read;
  lift ConcurrencyRow (check_current (ow_precondition w)
                         (occurrence_key <$> occurrences st !! occ_id (ow_occurrence w))).

(** The first loop over the planned rows: no row carries generated outputs and
    every precondition holds. *)
Definition screen_planned (w : OccurrenceWrite) : Store unit :=
  if has_generated_outputs w
  then fail (Internal "planning mutation cannot consume a transition with generated outputs")
  else check_occurrence_precondition w.

Definition insert_planned (now : DateTime) (w : OccurrenceWrite) : Store unit :=
  _ ← lift InternalRow (validate_occurrence_machine_projection (ow_occurrence w));
  st ← read;
  _ ← match occurrences st !! occ_id (ow_occurrence w) with
      | Some previous =>
          write (memory_note_pending_departure previous (ow_occurrence w) now)
      | None => mret tt
      end;
  write (put_occurrence (ow_occurrence w)).

(** The filter of the sweep; [None] is a panic of the terminality classifier. *)
Definition supersedable (id : ScheduleId) (revision : N) (o : Occurrence) : option bool :=
  let dsl := occurrence_machine o in
  if schedule_id dsl == id then
    terminal ← occurrence_is_terminal o;
    Some (negb terminal && (schedule_revision dsl <? revision)%N)
  else Some false.

Fixpoint filter_option {A} (f : A → option bool) (l : list A) : option (list A) :=
  match l with
  | [] => Some []
  | x :: l' =>
      keep ← f x;
      rest ← filter_option f l';
      Some (if keep : bool then x :: rest else rest)
  end.

Definition sweep_ids (id : ScheduleId) (revision : N) : Store (list OccurrenceId) :=
  st ← read;
  rows ← panic_if_none
    (filter_option (λ row, supersedable id revision row.2) (map_to_list (occurrences st)));
  mret (fst <$> rows).

(** One row of the sweep: supersede, mint the receipt, note the departure. *)
Definition sweep_one (p : PendingSupersession) (id : OccurrenceId) : Store OccurrenceWrite :=
  st ← read;
  match occurrences st !! id with
  | None => fail (Internal "occurrence disappeared during supersession sweep")
  | Some current =>
      w ← lift InternalRow
        (occurrence_apply current (Supersede (superseded_by p) (supersession_at_utc p)));
      let updated := ow_occurrence w in
      receipt ← lift InternalRow (delivery_receipt_from_authority updated None);
      _ ← write (push_receipt (occ_id updated) receipt);
      _ ← write (memory_note_pending_departure current updated (supersession_at_utc p));
      _ ← write (put_occurrence updated);
      mret w
  end.

Definition sweep (schedule : Schedule) (p : option PendingSupersession)
  : Store (list OccurrenceWrite) :=
  match p with
  | None => mret []
  | Some p =>
      ids ← sweep_ids (sched_id schedule) (superseded_by p);
      for_each (sweep_one p) ids
  end.

Definition commit_schedule_mutation_with_refill (w : ScheduleWrite)
    (planned : list OccurrenceWrite) (projection : MemoryRefillDeadlineProjection)
    (now : DateTime) : Store ScheduleMutationCommit :=
  st ← read;
  let previous := schedules st !! sched_id (sw_schedule w) in
  _ ← check_schedule_precondition w;
  _ ← for_each screen_planned planned;
  _ ← lift InternalRow (validate_schedule_machine_projection (sw_schedule w));
  _ ← write (put_schedule (sw_schedule w));
  _ ← for_each (insert_planned now) planned;
  swept ← sweep (sw_schedule w) (sw_pending_supersession w);
  committed ← lift InternalRow
    (apply_supersession_feedback (sched_id (sw_schedule w)) now (sw_schedule w)
       (concat (ow_acks <$> swept)));
  _ ← write (put_schedule committed);
  _ ← write (memory_update_schedule_refill_projection previous committed projection now);
  mret {| schedule_commit := transition_commit w committed; occurrence_commits := swept |}.

Definition commit_schedule_mutation (w : ScheduleWrite) (planned : list OccurrenceWrite)
    (now : DateTime) : Store ScheduleMutationCommit :=
  commit_schedule_mutation_with_refill w planned Derive now.

Definition commit_schedule_refill (w : ScheduleWrite) (planned : list OccurrenceWrite)
    (next_refill_at_utc : option DateTime) (now : DateTime) : Store ScheduleMutationCommit :=
  commit_schedule_mutation_with_refill w planned (Exact next_refill_at_utc) now.

(** A supersession needs the atomic commit. *)
Definition commit_schedule_write (w : ScheduleWrite) (now : DateTime)
  : Store ScheduleTransitionCommit :=
  match sw_pending_supersession w with
  | Some _ => fail (Internal "generated schedule supersession requires atomic schedule mutation")
  | None =>
      _ ← check_schedule_precondition w;
      st ← read;
      let previous := schedules st !! sched_id (sw_schedule w) in
      _ ← lift InternalRow (validate_schedule_machine_projection (sw_schedule w));
      _ ← write (memory_update_schedule_refill_projection previous (sw_schedule w) Derive now);
      _ ← write (put_schedule (sw_schedule w));
      mret (transition_commit w (sw_schedule w))
  end.

Definition same_instant (a : option DateTime) (b : DateTime) : bool :=
  match a with Some a => (ns a =? ns b)%Z | None => false end.

Definition record_refill_deadline_if_current (id : ScheduleId) (expected_revision : N)
    (expected_refill_at_utc : DateTime) (next_refill_at_utc : option DateTime)
    (now : DateTime) : Store unit :=
  st ← read;
  match schedules st !! id with
  | None => fail (ScheduleNotFound id)
  | Some schedule =>
      if (sched_phase schedule != Active) || (sched_revision schedule != expected_revision)
         || negb (same_instant (refill_deadlines st !! id) expected_refill_at_utc)
      then fail (Concurrency "schedule refill token changed")
      else write (memory_update_schedule_refill_projection (Some schedule) schedule
                    (Exact next_refill_at_utc) now)
  end.

(** ** Occurrence commits *)

Definition commit_occurrence_write (w : OccurrenceWrite) (now : DateTime)
  : Store OccurrenceWrite :=
  _ ← check_occurrence_precondition w;
  _ ← insert_planned now w;
  mret w.

(** The claim evidence a caller must hold. *)
Definition claim_is_current (o : Occurrence) (attempt : N) (token : option ClaimToken) : bool :=
  (attempt_count (occurrence_machine o) == attempt) && (claim_token (occurrence_machine o) == token).

Definition transition_occurrence_if_current (id : OccurrenceId) (expected_attempt : N)
    (expected_claim_token : option ClaimToken) (transition : OccurrenceInput) (now : DateTime)
  : Store (option OccurrenceWrite) :=
  st ← read;
  match occurrences st !! id with
  | None => mret None
  | Some current =>
      if negb (claim_is_current current expected_attempt expected_claim_token) then mret None
      else
        w ← lift ConcurrencyRow (occurrence_apply current transition);
        _ ← write (memory_note_pending_departure current (ow_occurrence w) now);
        _ ← write (put_occurrence (ow_occurrence w));
        mret (Some w)
  end.

(** The receipt of a transition, recorded by a follow-up transition. *)
Definition with_receipt (w : OccurrenceWrite) (outcome : option RuntimeDeliveryOutcome)
  : Outcome RowError OccurrenceWrite :=
  receipt ← delivery_receipt_from_authority (ow_occurrence w) outcome;
  followup ← occurrence_apply (ow_occurrence w)
    (RecordReceipt receipt (r_runtime_outcome receipt));
  absorb_followup w followup.

Definition transition_occurrence_with_receipt_if_current (id : OccurrenceId)
    (expected_attempt : N) (expected_claim_token : option ClaimToken)
    (transition : OccurrenceInput) (outcome : option RuntimeDeliveryOutcome) (now : DateTime)
  : Store (option OccurrenceWrite) :=
  st ← read;
  match occurrences st !! id with
  | None => mret None
  | Some current =>
      if negb (claim_is_current current expected_attempt expected_claim_token) then mret None
      else
        w ← lift ConcurrencyRow (occurrence_apply current transition);
        w ← lift ConcurrencyRow (with_receipt w outcome);
        let updated := ow_occurrence w in
        match last_receipt updated with
        | None => fail (Concurrency "generated occurrence authority did not produce a receipt")
        | Some canonical =>
            _ ← write (push_receipt (occ_id updated) canonical);
            _ ← write (memory_note_pending_departure current updated now);
            _ ← write (put_occurrence updated);
            mret (Some w)
        end
  end.

(** [None] is [StaleClaim]. *)
Definition renew_occurrence_lease_if_current (r : RenewOccurrenceLeaseRequest) (now : DateTime)
  : Store (option OccurrenceWrite) :=
  st ← read;
  match occurrences st !! renew_occurrence_id r with
  | None => mret None
  | Some current =>
      if negb (claim_is_current current (expected_attempt r) (Some (renew_claim_token r)))
         || (claimed_by (occurrence_machine current) != Some (expected_owner_id r))
      then mret None
      else
        lease_expires ← panic_if_none (add_signed now (renew_lease_duration r));
        w ← lift ConcurrencyRow
          (occurrence_apply current (RenewLease (renew_claim_token r) lease_expires now));
        _ ← write (put_occurrence (ow_occurrence w));
        mret (Some w)
  end.
End store.
