(* ===== verification/MemoryClaims.v ===== *)
(** * MemoryClaims: the due scan of the in-memory store

    [claim_due_occurrences] of [meerkat-schedule/src/store.rs] and the functions
    it drives rows with.  The store clock [now] and the token each claim draws
    ([Uuid::now_v7()], at most one per row) are arguments.  A stored row's
    [due_at_utc] and [lease_expires_at_utc] are those of its machine state. *)

From stdpp Require Import gmap pretty sorting.
From S2P Require Import Prelude Text Chrono ScheduleTypes Millis Authority ExecutorLease.
From S2P Require Import ScheduleLifecycle OccurrenceLifecycle Rows StoreTypes MemoryStore.

Section claims.
Context `{RowCodec} {BP : BuildProfile}.

#[local] Existing Instances store_ret store_bind.

(** The locals of the loop; [scan_transitions], the code's [transitions], is reversed, the newest first. *)
Record ClaimScan := {
  scan_transitions : list OccurrenceWrite;
  claimed_count : nat;
  row_faults : list ScheduleStoreRowFault;
}.

Definition scan_init : ClaimScan :=
  {| scan_transitions := []; claimed_count := 0; row_faults := [] |}.

Definition push_transition (w : OccurrenceWrite) (acc : ClaimScan) : ClaimScan :=
  {| scan_transitions := w :: scan_transitions acc; claimed_count := claimed_count acc;
     row_faults := row_faults acc |}.
Definition push_claim (w : OccurrenceWrite) (acc : ClaimScan) : ClaimScan :=
  {| scan_transitions := w :: scan_transitions acc; claimed_count := S (claimed_count acc);
     row_faults := row_faults acc |}.
Definition push_fault (f : ScheduleStoreRowFault) (acc : ClaimScan) : ClaimScan :=
  {| scan_transitions := scan_transitions acc; claimed_count := claimed_count acc;
     row_faults := f :: row_faults acc |}.

Definition memory_due_classification_fault (o : Occurrence) (stage : string) (e : RowError)
  : ScheduleStoreRowFault :=
  {| fault_schedule_id := schedule_id (occurrence_machine o);
     fault_occurrence_id := occ_id o; fault_stage := stage; fault_error := e |}.

(** ** Rows *)

Fixpoint evidence_from (evidence : AdmissionEvidence) (stages : list DeliveryReceiptStage)
  : AdmissionEvidence :=
  match stages with
  | [] => evidence
  | DeliveryReceiptStage_DispatchAccepted :: _ => AdmissionEvidence_Accepted
  | DeliveryReceiptStage_DispatchStarted :: stages =>
      evidence_from AdmissionEvidence_Started stages
  | _ :: stages => evidence_from evidence stages
  end.

Definition from_receipt_stages : list DeliveryReceiptStage → AdmissionEvidence :=
  evidence_from AdmissionEvidence_Unrecorded.

Definition memory_admission_evidence (st : MemoryScheduleState) (o : Occurrence)
  : AdmissionEvidence :=
  if (attempt_count (occurrence_machine o) =? 0)%N then AdmissionEvidence_Unrecorded
  else from_receipt_stages (r_stage <$> default [] (receipts st !! occ_id o)).

Definition occurrence_next_action_at (o : Occurrence) : option N :=
  let dsl := occurrence_machine o in
  match lifecycle_phase dsl with
  | Pending => Some (due_at_utc_ms dsl)
  | Claimed | Dispatching | AwaitingCompletion => lease_expires_at_utc_ms dsl
  | Completed | Skipped | Misfired | Superseded | DeliveryFailed => None
  end.

Definition claim_occurrence (o : Occurrence) (request : ClaimDueRequest) (at_utc : DateTime)
    (evidence : AdmissionEvidence) (token : ClaimToken) : Outcome RowError OccurrenceWrite :=
  lease_expires ← or_panic (add_signed at_utc (lease_duration request));
  occurrence_apply o (Claim (request_owner_id request) at_utc lease_expires token evidence).

(** [ExpiredOccurrenceLease]: the write and the receipt of the expired attempt. *)
Definition expire_occurrence_lease (o : Occurrence) (at_utc : DateTime)
  : Outcome RowError (OccurrenceWrite * DeliveryReceipt) :=
  w ← occurrence_apply o (LeaseExpired at_utc);
  receipt ← delivery_receipt_from_authority (ow_occurrence w) None;
  followup ← occurrence_apply (ow_occurrence w)
    (RecordReceipt receipt (r_runtime_outcome receipt));
  w ← absorb_followup w followup;
  Ok (w, receipt).

Definition misfire_detail (p : ScheduleTypes.MisfirePolicy) (due_at_utc now_utc : DateTime)
  : string :=
  let lateness_seconds := Z.max (num_seconds (signed_duration_since now_utc due_at_utc)) 0 in
  match p with
  | Skip => ("missed scheduled time by " ++ pretty lateness_seconds ++
      "s; skip policy does not catch up materially late pending occurrences")%string
  | CatchUpWithin window_seconds => ("missed scheduled time by " ++ pretty lateness_seconds ++
      "s, exceeding catch-up window of " ++ pretty window_seconds ++ "s")%string
  end.

Definition due_misfire_detail_at (o : Occurrence) (now : DateTime) : Outcome RowError string :=
  due ← from_millis (due_at_utc_ms (occurrence_machine o)) "due_at_utc";
  Ok (misfire_detail (occurrence_policy o) due now).

Definition reclaim_exhausted_detail (evidence : AdmissionEvidence) : string :=
  match evidence with
  | AdmissionEvidence_Accepted =>
      "admitted delivery lost its executor 5 times; the input's outcome was never observed"
  | _ => "dispatch started 5 times past the misfire deadline without a proven admission"
  end.

(** ** Resolving a row that ended *)

(** A call whose error is handled by its caller; a panic is not. *)
Definition attempt {A} (r : Outcome RowError A) : Store (A + RowError) :=
  λ st, (st, match r with
             | Ok a => Ok (inl a) | Err e => Ok (inr e) | Panic => Panic
             | OutOfFuel => OutOfFuel end).

Definition due_resolution (o : Occurrence) (action : OccurrenceDueAction)
    (evidence : AdmissionEvidence) (now : DateTime) : Outcome RowError OccurrenceInput :=
  match action with
  | MisfireRequired =>
      detail ← due_misfire_detail_at o now; Ok (ResolveDueMisfire (Some detail) now)
  | _ => Ok (ResolveReclaimExhausted evidence (Some (reclaim_exhausted_detail evidence)) now)
  end.

(** The resolution, its receipt, and the follow-up that records it. *)
Definition resolved_write (o : Occurrence) (action : OccurrenceDueAction)
    (evidence : AdmissionEvidence) (now : DateTime) : Outcome RowError OccurrenceWrite :=
  resolution ← due_resolution o action evidence now;
  w ← occurrence_apply o resolution;
  with_receipt w None.

Definition memory_resolve_due_terminal (existing : Occurrence) (action : OccurrenceDueAction)
    (evidence : AdmissionEvidence) (now : DateTime)
  : Store (OccurrenceWrite + ScheduleStoreRowFault) :=
  resolved ← attempt (resolved_write existing action evidence now);
  match resolved with
  | inr e => mret (inr (memory_due_classification_fault existing "resolution" e))
  | inl w =>
      let updated := ow_occurrence w in
      match last_receipt updated with
      | None => fail (Concurrency "generated occurrence authority did not produce a receipt")
      | Some canonical =>
          _ ← write (push_receipt (occ_id updated) canonical);
          _ ← write (memory_note_pending_departure existing updated now);
          _ ← write (put_occurrence updated);
          mret (inl w)
      end
  end.

Definition push_resolution (r : OccurrenceWrite + ScheduleStoreRowFault) (acc : ClaimScan)
  : ClaimScan :=
  match r with inl w => push_transition w acc | inr f => push_fault f acc end.

(** ** One row of the scan *)

Definition claim_eligible_row (request : ClaimDueRequest) (now : DateTime) (token : ClaimToken)
    (evidence : AdmissionEvidence) (existing : Occurrence) (acc : ClaimScan) : Store ClaimScan :=
  if (limit request <=? claimed_count acc)%nat then mret acc
  else
    w ← lift ConcurrencyRow (claim_occurrence existing request now evidence token);
    _ ← write (memory_note_pending_departure existing (ow_occurrence w) now);
    _ ← write (put_occurrence (ow_occurrence w));
    mret (push_claim w acc).

(** The claim of an expired row was refused: the expiry stays, and a row that
    used up its reclaims is resolved. *)
Definition reclaim_refused (now : DateTime) (evidence : AdmissionEvidence)
    (existing : Occurrence) (w : OccurrenceWrite) (e : RowError) (acc : ClaimScan)
  : Store ClaimScan :=
  let updated := ow_occurrence w in
  _ ← write (put_occurrence updated);
  let acc := push_transition w acc in
  verdict ← attempt (classify_due_action updated now evidence);
  match verdict with
  | inl (Some ReclaimExhausted) =>
      r ← memory_resolve_due_terminal updated ReclaimExhausted evidence now;
      mret (push_resolution r acc)
  | _ => mret (push_fault (memory_due_classification_fault existing "lease-expiry reclaim" e) acc)
  end.

Definition lease_expired_row (request : ClaimDueRequest) (now : DateTime) (token : ClaimToken)
    (evidence : AdmissionEvidence) (existing : Occurrence) (acc : ClaimScan) : Store ClaimScan :=
  if (limit request <=? claimed_count acc)%nat then mret acc
  else
    expired ← attempt (expire_occurrence_lease existing now);
    match expired with
    | inr e => mret (push_fault (memory_due_classification_fault existing "lease expiry" e) acc)
    | inl (w, receipt) =>
        _ ← write (push_receipt (r_occurrence_id receipt) receipt);
        claim ← attempt (claim_occurrence (ow_occurrence w) request now evidence token);
        match claim with
        | inr e => reclaim_refused now evidence existing w e acc
        | inl claimed =>
            w ← lift ConcurrencyRow (absorb_followup w claimed);
            _ ← write (put_occurrence (ow_occurrence w));
            mret (push_claim w acc)
        end
    end.

Definition scan_row (request : ClaimDueRequest) (now : DateTime) (token : ClaimToken)
    (id : OccurrenceId) (acc : ClaimScan) : Store ClaimScan :=
  st ← read;
  match occurrences st !! id with
  | None => mret acc
  | Some existing =>
      let evidence := memory_admission_evidence st existing in
      verdict ← attempt (classify_due_action existing now evidence);
      match verdict with
      | inr e =>
          mret (push_fault (memory_due_classification_fault existing "due classification" e) acc)
      | inl (Some (MisfireRequired as action)) | inl (Some (ReclaimExhausted as action)) =>
          r ← memory_resolve_due_terminal existing action evidence now;
          mret (push_resolution r acc)
      | inl (Some ClaimEligible) =>
          claim_eligible_row request now token evidence existing acc
      | inl (Some LeaseExpiredDue) =>
          lease_expired_row request now token evidence existing acc
      | inl None => mret acc
      end
  end.

Fixpoint scan_rows (request : ClaimDueRequest) (now : DateTime)
    (fresh : OccurrenceId → ClaimToken) (ids : list OccurrenceId) (acc : ClaimScan)
  : Store ClaimScan :=
  match ids with
  | [] => mret acc
  | id :: ids =>
      acc ← scan_row request now (fresh id) id acc;
      scan_rows request now fresh ids acc
  end.

(** ** The scan *)

(** [action_at <= store_now_utc] for a millisecond count. *)
Definition reached (ms : N) (now : DateTime) : bool :=
  match millis_to_datetime ms with Some t => dt_leb t now | None => false end.

Definition scanned (st : MemoryScheduleState) (now : DateTime) (o : Occurrence) : bool :=
  match schedules st !! schedule_id (occurrence_machine o) with
  | Some s => sched_phase s == Active
  | None => false
  end
  && match occurrence_next_action_at o with
     | Some ms => reached ms now
     | None => false
     end.

(** The sort key; the sort is stable on rows in identifier order. *)
Definition scan_key (o : Occurrence) : list N :=
  let dsl := occurrence_machine o in
  [default (due_at_utc_ms dsl) (occurrence_next_action_at o); due_at_utc_ms dsl;
   schedule_revision dsl; occurrence_ordinal dsl].

Fixpoint lex_leb (a b : list N) : bool :=
  match a, b with
  | [], _ => true
  | _ :: _, [] => false
  | x :: a', y :: b' => (x <? y)%N || ((x =? y)%N && lex_leb a' b')
  end.

Definition scan_leb (a b : list N * OccurrenceId) : bool :=
  if a.1 == b.1 then String.leb a.2 b.2 else lex_leb a.1 b.1.
Definition scan_le (a b : list N * OccurrenceId) : Prop := scan_leb a b = true.
#[export] Instance scan_le_dec : RelDecision scan_le.
Proof. intros a b. unfold scan_le. apply _. Defined.

Definition occurrence_order (st : MemoryScheduleState) (now : DateTime) : list OccurrenceId :=
  snd <$> merge_sort scan_le
    ((λ row, (scan_key row.2, occ_id row.2)) <$>
     filter (λ row, scanned st now row.2 = true) (map_to_list (occurrences st))).

Definition claim_due_occurrences (lease : ScheduleExecutorLease) (request : ClaimDueRequest)
    (now : DateTime) (fresh : OccurrenceId → ClaimToken) : Store ClaimScan :=
  st ← read;
  if negb (authorized lease now (executor st)) then fail ExecutorLeaseIsStale
  else if (limit request =? 0)%nat then mret scan_init
  else scan_rows request now fresh (occurrence_order st now) scan_init.
End claims.
