(* ===== verification/MemoryReads.v ===== *)
(** * MemoryReads: the reads of the in-memory store

    Lookups, filtered listings, the next time the store has something to do and
    the bounded page of schedules that are due for planning, which moves a scan
    cursor over the refill queue. *)

From stdpp Require Import gmap sorting.
From S2P Require Import Prelude Text Chrono ScheduleTypes Millis Authority.
From S2P Require Import ScheduleLifecycle OccurrenceLifecycle Rows StoreTypes MemoryStore MemoryClaims.

Section reads.
Context `{RowCodec} {BP : BuildProfile}.

#[local] Existing Instances store_ret store_bind.

(** ** Lookups *)

Definition get_schedule (id : ScheduleId) : Store (option Schedule) :=
  st ← read; mret (schedules st !! id).

Definition get_occurrence (id : OccurrenceId) : Store (option Occurrence) :=
  st ← read; mret (occurrences st !! id).

Definition list_receipts (id : OccurrenceId) : Store (list DeliveryReceipt) :=
  st ← read; mret (default [] (receipts st !! id)).

(** ** Listings *)

(** [BTreeMap::values], in the order of the keys. *)
Definition key_le {A} (a b : string * A) : Prop := String.leb a.1 b.1 = true.
#[export] Instance key_le_dec {A} : RelDecision (@key_le A).
Proof. intros a b. unfold key_le. apply _. Defined.

Definition values {A} (m : gmap string A) : list A := snd <$> merge_sort key_le (map_to_list m).

(** [Option::is_none_or] *)
Definition is_none_or {A} (o : option A) (f : A → bool) : bool :=
  match o with Some a => f a | None => true end.

Definition truncate {A} (limit : option nat) (l : list A) : list A :=
  match limit with Some n => take n l | None => l end.

Definition schedule_selected (f : ScheduleFilter) (s : Schedule) : bool :=
  (include_deleted f || (sched_phase s != Deleted))
  && is_none_or (filter_schedule_phase f) (λ phase, sched_phase s == phase).

(** [(created_at_utc, schedule_id)]; the sort is stable. *)
Definition schedule_leb (a b : Schedule) : bool :=
  let at_ s := ns (created_at_utc (schedule_config s)) in
  (at_ a <? at_ b)%Z || ((at_ a =? at_ b)%Z && String.leb (sched_id a) (sched_id b)).
Definition schedule_le (a b : Schedule) : Prop := schedule_leb a b = true.
#[export] Instance schedule_le_dec : RelDecision schedule_le.
Proof. intros a b. unfold schedule_le. apply _. Defined.

Definition list_schedules (f : ScheduleFilter) : Store (list Schedule) :=
  st ← read;
  let rows := filter (λ s, schedule_selected f s = true) (values (schedules st)) in
  mret (truncate (schedule_limit f) (merge_sort schedule_le rows)).

(** The tests on the due time, a display field every row has. *)
Definition due_selected (f : OccurrenceFilter) (o : Occurrence) : bool :=
  match millis_to_datetime (due_at_utc_ms (occurrence_machine o)) with
  | Some due =>
      is_none_or (due_after_utc f) (λ t, dt_leb t due)
      && is_none_or (due_before_utc f) (λ t, dt_leb due t)
  | None => false
  end.

(** [None] is a panic of the terminality classifier. *)
Definition occurrence_selected (f : OccurrenceFilter) (o : Occurrence) : option bool :=
  let dsl := occurrence_machine o in
  live ← if include_terminal f then Some true else negb <$> occurrence_is_terminal o;
  Some (live && is_none_or (filter_schedule_id f) (λ id, schedule_id dsl == id)
        && is_none_or (filter_phase f) (λ phase, lifecycle_phase dsl == phase)
        && due_selected f o).

(** [(due_at_utc, schedule_revision, occurrence_ordinal)]; the sort is stable. *)
Definition listing_key (o : Occurrence) : list N :=
  let dsl := occurrence_machine o in
  [due_at_utc_ms dsl; schedule_revision dsl; occurrence_ordinal dsl].
Definition listing_le (a b : Occurrence) : Prop := lex_leb (listing_key a) (listing_key b) = true.
#[export] Instance listing_le_dec : RelDecision listing_le.
Proof. intros a b. unfold listing_le. apply _. Defined.

Definition list_occurrences (f : OccurrenceFilter) : Store (list Occurrence) :=
  st ← read;
  rows ← panic_if_none (filter_option (occurrence_selected f) (values (occurrences st)));
  mret (truncate (occurrence_limit f) (merge_sort listing_le rows)).

(** ** The next time to act *)

Definition minimum (l : list DateTime) : option DateTime :=
  match l with [] => None | d :: l' => Some (fold_left dt_min l' d) end.

Definition opt_min (a b : option DateTime) : option DateTime :=
  match a, b with Some a, Some b => Some (dt_min a b) | Some a, None => Some a | None, b => b end.

Definition owner_active (st : MemoryScheduleState) (o : Occurrence) : bool :=
  match schedules st !! schedule_id (occurrence_machine o) with
  | Some s => sched_phase s == Active
  | None => false
  end.

(** The instants the rows of active schedules next call for an action at. *)
Definition next_occurrence_actions (st : MemoryScheduleState) : list DateTime :=
  omap (λ o, ms ← occurrence_next_action_at o; millis_to_datetime ms)
    (filter (λ o, owner_active st o = true) (values (occurrences st))).


(** The order of the queue's entries. *)
Definition entry_leb (a b : Z * ScheduleId) : bool :=
  (a.1 <? b.1)%Z || ((a.1 =? b.1)%Z && String.leb a.2 b.2).
Definition entry_le (a b : Z * ScheduleId) : Prop := entry_leb a b = true.
#[export] Instance entry_le_dec : RelDecision entry_le.
Proof. intros a b. unfold entry_le. apply _. Defined.

Definition queue_order (st : MemoryScheduleState) : list (Z * ScheduleId) :=
  merge_sort entry_le (elements (refill_queue st)).

(** The deadline of the first entry. *)
Definition next_refill (st : MemoryScheduleState) : option DateTime :=
  entry ← head (queue_order st); refill_deadlines st !! entry.2.

Definition next_action_time_utc (now : DateTime) : Store (DateTime * option DateTime) :=
  st ← read;
  mret (now, opt_min (minimum (next_occurrence_actions st)) (next_refill st)).

(** ** Schedules due for planning *)

Fixpoint take_while {A} (f : A → bool) (l : list A) : list A :=
  match l with
  | [] => []
  | x :: l' => if f x then x :: take_while f l' else []
  end.

(** The due entries past the cursor, then those up to it. *)
Definition due_entries (limit : nat) (now : DateTime) (st : MemoryScheduleState)
  : list (Z * ScheduleId) :=
  let due := take_while (λ e, (e.1 <=? ns now)%Z) in
  match refill_scan_cursor st with
  | None => take limit (due (queue_order st))
  | Some cursor =>
      let past := take limit (due (filter (λ e, entry_leb e cursor = false) (queue_order st))) in
      if (length past <? limit)%nat then
        past ++ take (limit - length past)
                  (due (filter (λ e, entry_leb e cursor = true) (queue_order st)))
      else past
  end.

Definition refill_candidate (st : MemoryScheduleState) (entry : Z * ScheduleId)
  : option ScheduleRefillCandidate :=
  schedule ← schedules st !! entry.2;
  refill_at_utc ← refill_deadlines st !! entry.2;
  if sched_phase schedule != Active then None
  else Some {|
    candidate_schedule := schedule;
    pending_occurrences := filter (λ o,
      let dsl := occurrence_machine o in
      schedule_id dsl = entry.2 ∧ schedule_revision dsl = sched_revision schedule
      ∧ lifecycle_phase dsl = Pending) (values (occurrences st));
    candidate_refill_at_utc := refill_at_utc |}.

Definition read_due_refill_candidates (limit : nat) (now : DateTime)
  : Store (list ScheduleRefillCandidate) :=
  if (limit =? 0)%nat then mret []
  else
    st ← read;
    let due := due_entries limit now st in
    _ ← write (λ st, st <| refill_scan_cursor := last due |>);
    mret (omap (refill_candidate st) due).
End reads.
