(* ===== verification/ClaimRows.v ===== *)
(** * ClaimRows: the row operations of the store

    Every operation the store drives a row with leaves a valid row, and all but
    planning keep the row's identity.  Resolving ends a row, expiring a lease
    frees it, claiming it records the claimant; and none of them panics on a
    valid row. *)

From stdpp Require Import gmap.
From S2P Require Import Prelude Text Chrono ScheduleTypes Trigger FirstDue TriggerFacts Millis Authority.
From S2P Require Import ScheduleLifecycle OccurrenceLifecycle OccurrenceFacts OccurrenceVerdicts.
From S2P Require Import Rows RowFacts RowValidity RowOutcomes StoreTypes MemoryStore MemoryClaims.

Section rows.
Context `{RowCodec} {HL : ChronoLaws} {BP : BuildProfile}.

(** ** Identity *)

(** Inputs that change one occurrence in place. *)
Definition in_place (i : OccurrenceInput) : bool :=
  match i with PlanOccurrence _ _ _ _ _ _ _ _ _ _ => false | _ => true end.

Lemma convert_in_place i dsl_i :
  in_place i = true → convert_occurrence_input i = Ok dsl_i → is_plan dsl_i = false.
Proof.
  intros Hi Hc. destruct i; cbn in Hc, Hi; try done.
  all: repeat (apply Outcome_bind_Ok in Hc as (? & _ & Hc)).
  all: by injection Hc as <-.
Qed.

Lemma occurrence_apply_identity o i w :
  in_place i = true → occurrence_apply o i = Ok w →
  same_identity (occurrence_machine o) (occurrence_machine (ow_occurrence w)).
Proof.
  intros Hi (dsl_i & t & Hc & HF)%occurrence_apply_fires. apply (fires_identity _ _ _ _ _ HF).
  by apply (convert_in_place i).
Qed.

Lemma apply_occ_id o i w :
  in_place i = true → occurrence_apply o i = Ok w → occ_id (ow_occurrence w) = occ_id o.
Proof. intros Hi Hw. by destruct (occurrence_apply_identity _ _ _ Hi Hw). Qed.

(** ** Follow-ups *)

Lemma absorb_row w followup w' :
  absorb_followup w followup = Ok w' → ow_occurrence w' = ow_occurrence followup.
Proof. unfold absorb_followup. by intros (? & _ & [= <-])%Outcome_bind_Ok. Qed.

(** A follow-up applied to the row of a write is always absorbed. *)
Lemma absorb_total w i followup :
  occurrence_apply (ow_occurrence w) i = Ok followup → ∃ w', absorb_followup w followup = Ok w'.
Proof.
  intros (dsl_i & [Hok _ _ _ _ _ Hp])%occurrence_apply_applied.
  unfold absorb_followup, occurrence_key, occurrence_write_fingerprint. rewrite Hp, Hok. cbn.
  rewrite !bool_decide_eq_true_2 by done. by eexists.
Qed.

(** A receipt minted and recorded: the row is the follow-up's. *)
Record receipted (w : OccurrenceWrite) (outcome : option RuntimeDeliveryOutcome)
    (w' : OccurrenceWrite) : Prop := {
  receipted_ok : row_ok (ow_occurrence w');
  receipted_identity :
    same_identity (occurrence_machine (ow_occurrence w)) (occurrence_machine (ow_occurrence w'));
  receipted_phase : lifecycle_phase (occurrence_machine (ow_occurrence w')) =
    lifecycle_phase (occurrence_machine (ow_occurrence w));
  receipted_receipt : ∃ r, last_receipt (ow_occurrence w') = Some r;
}.

Lemma receipt_fires c d m k t s s' es :
  Fires (I_RecordReceipt c d m k) t s s' es → lifecycle_phase s' = lifecycle_phase s.
Proof.
  intros [Hin Hg (s1 & _ & -> & _)%fire_Some].
  repeat (apply elem_of_cons in Hin as [-> | Hin];
    [cbn in Hg |- *; by prop_guards|]). by apply elem_of_nil in Hin.
Qed.

Lemma record_receipt_receipted w r outcome f w' :
  occurrence_apply (ow_occurrence w) (RecordReceipt r outcome) = Ok f →
  absorb_followup w f = Ok w' → receipted w outcome w'.
Proof.
  intros Hf Hw. pose proof (absorb_row _ _ _ Hw) as Hrow. split; rewrite Hrow.
  - by eapply apply_row_ok.
  - by eapply occurrence_apply_identity; [|exact Hf].
  - apply occurrence_apply_fires in Hf as (dsl_i & t & [= <-] & HF). by eapply receipt_fires.
  - apply occurrence_apply_applied in Hf as (dsl_i & [_ _ _ Hwb _ _ _]).
    unfold write_back_occurrence in Hwb. apply Outcome_bind_Ok in Hwb as ([] & _ & Hwb).
    apply Outcome_bind_Ok in Hwb as (r' & _ & [= Hwb]). exists r'. by rewrite <-Hwb.
Qed.

Lemma with_receipt_receipted w outcome w' :
  with_receipt w outcome = Ok w' → receipted w outcome w'.
Proof.
  unfold with_receipt. intros (r & _ & Hw)%Outcome_bind_Ok.
  apply Outcome_bind_Ok in Hw as (f & Hf & Hw).
  destruct (record_receipt_receipted _ _ _ _ _ Hf Hw). by split.
Qed.

(** ** Phases *)

Definition row_phase (w : OccurrenceWrite) : OccurrencePhase :=
  lifecycle_phase (occurrence_machine (ow_occurrence w)).

(** Where all the arms of an input lead. *)
Lemma fires_to (P : OccurrencePhase → Prop) i t s s' es :
  Fires i t s s' es → Forall (λ t, P (tr_to t)) (transitions i) → P (lifecycle_phase s').
Proof.
  intros [Hin _ (s1 & _ & -> & _)%fire_Some] Hall.
  rewrite Forall_forall in Hall. exact (Hall t Hin).
Qed.

(** No arm of an input is enabled in a phase. *)
Lemma fires_not_from p i t s s' es :
  Fires i t s s' es → Forall (λ t, ∀ s, lifecycle_phase s = p → tr_guard t s = false) (transitions i) →
  lifecycle_phase s ≠ p.
Proof.
  intros [Hin Hg _] Hall Hp. rewrite Forall_forall in Hall.
  rewrite (Hall t Hin s Hp) in Hg. discriminate Hg.
Qed.

Ltac each_arm :=
  repeat (apply Forall_cons_2; [let Hs := fresh in intros ? Hs; cbn; by rewrite Hs|]);
  apply Forall_nil_2.

Lemma renew_not_pending o token lease at_utc w :
  occurrence_apply o (RenewLease token lease at_utc) = Ok w →
  lifecycle_phase (occurrence_machine o) ≠ Pending.
Proof.
  intros (dsl_i & t & Hc & HF)%occurrence_apply_fires. cbn in Hc.
  apply Outcome_bind_Ok in Hc as (l & _ & Hc). apply Outcome_bind_Ok in Hc as (m & _ & [= <-]).
  apply (fires_not_from _ _ _ _ _ _ HF). each_arm.
Qed.

(** ** Claims *)

Lemma claim_fires o_id at_ms lease token ev t s s' es :
  Fires (I_Claim o_id at_ms lease token ev) t s s' es →
  lifecycle_phase s' = Claimed ∧ claimed_by s' = Some o_id ∧ claim_token s' = Some token ∧
  u64_add (attempt_count s) 1 = Some (attempt_count s') ∧
  due_at_utc_ms s' = due_at_utc_ms s ∧ lease_expires_at_utc_ms s' = Some lease ∧
  claimed_at_utc_ms s' = Some at_ms ∧ dispatched_at_utc_ms s' = None ∧
  completed_at_utc_ms s' = None.
Proof.
  intros [Hin Hg (s1 & Hu & -> & _)%fire_Some].
  assert (Hto : tr_to t = Claimed ∧ tr_update t = claim_update o_id at_ms lease token).
  { repeat (apply elem_of_cons in Hin as [-> | Hin]; [done|]). by apply elem_of_nil in Hin. }
  destruct Hto as [Hto Hup]. rewrite Hup in Hu. unfold claim_update in Hu. cbv zeta in Hu.
  apply bind_Some in Hu as (n & Hn & Hu). injection Hu as <-. rewrite Hto. cbn. by rewrite <-Hn.
Qed.

(** The row a claim leaves. *)
Record claimed_row (request : ClaimDueRequest) (token : ClaimToken) (w : OccurrenceWrite) : Prop := {
  row_claimed : row_phase w = Claimed;
  row_owner : claimed_by (occurrence_machine (ow_occurrence w)) = Some (request_owner_id request);
  row_token : claim_token (occurrence_machine (ow_occurrence w)) = Some token;
}.

Section operations.
Context (o : Occurrence) (now : DateTime) (evidence : AdmissionEvidence) (w : OccurrenceWrite).

Lemma claim_applied request token :
  claim_occurrence o request now evidence token = Ok w →
  ∃ lease, add_signed now (lease_duration request) = Some lease ∧
    occurrence_apply o (Claim (request_owner_id request) now lease token evidence) = Ok w.
Proof.
  unfold claim_occurrence. intros (lease & Hl%or_panic_Ok & Hw)%Outcome_bind_Ok. eauto.
Qed.

Lemma claim_claims request token :
  claim_occurrence o request now evidence token = Ok w →
  row_ok (ow_occurrence w) ∧ occ_id (ow_occurrence w) = occ_id o ∧ claimed_row request token w.
Proof.
  intros (lease & _ & Hw)%claim_applied. split; [by eapply apply_row_ok|].
  split; [by eapply apply_occ_id; [|exact Hw]|].
  apply occurrence_apply_fires in Hw as (dsl_i & t & Hc & HF).
  cbn in Hc. apply Outcome_bind_Ok in Hc as (a & _ & Hc). apply Outcome_bind_Ok in Hc as (b & _ & [= <-]).
  destruct (claim_fires _ _ _ _ _ _ _ _ _ HF) as (Hp & Ho & Ht & _). by split.
Qed.

(** ** Expired leases *)

Record expired : Prop := {
  expired_ok : row_ok (ow_occurrence w);
  expired_id : occ_id (ow_occurrence w) = occ_id o;
  expired_pending : row_phase w = Pending;
  expired_held : lifecycle_phase (occurrence_machine o) ≠ Pending;
}.

Lemma expire_expired receipt : expire_occurrence_lease o now = Ok (w, receipt) → expired.
Proof.
  unfold expire_occurrence_lease. intros (w1 & Hw1 & Hr)%Outcome_bind_Ok.
  apply Outcome_bind_Ok in Hr as (r & _ & Hr). apply Outcome_bind_Ok in Hr as (f & Hf & Hr).
  apply Outcome_bind_Ok in Hr as (w2 & Hw2 & [= -> _]).
  destruct (record_receipt_receipted _ _ _ _ _ Hf Hw2) as [Hok (Hid & _) Hp _].
  pose proof (apply_occ_id _ (LeaseExpired now) _ eq_refl Hw1) as Hid1.
  apply occurrence_apply_fires in Hw1 as (dsl_i & t & Hc & HF).
  cbn in Hc. apply Outcome_bind_Ok in Hc as (ms & _ & [= <-]). split; [done| | |].
  - unfold occ_id in *. by rewrite Hid.
  - unfold row_phase. rewrite Hp. apply (fires_to (λ p, p = Pending) _ _ _ _ _ HF). repeat constructor.
  - apply (fires_not_from _ _ _ _ _ _ HF). each_arm.
Qed.

(** ** Resolutions *)

(** The resolutions a due row can get. *)
Definition resolution (i : OccurrenceInput) : Prop :=
  (∃ d, i = ResolveDueMisfire d now) ∨ (∃ d, i = ResolveReclaimExhausted evidence d now).

Lemma due_resolution_shape action i :
  due_resolution o action evidence now = Ok i → resolution i.
Proof.
  unfold due_resolution, resolution. destruct action; try (intros [= <-]; eauto).
  intros (d & _ & [= <-])%Outcome_bind_Ok. eauto.
Qed.

Record resolved : Prop := {
  resolved_ok : row_ok (ow_occurrence w);
  resolved_id : occ_id (ow_occurrence w) = occ_id o;
  resolved_ended : row_phase w = Misfired ∨ row_phase w = DeliveryFailed;
  resolved_receipt : ∃ r, last_receipt (ow_occurrence w) = Some r;
}.

Lemma resolved_write_resolved action : resolved_write o action evidence now = Ok w → resolved.
Proof.
  unfold resolved_write. intros (i & Hi%due_resolution_shape & Hw)%Outcome_bind_Ok.
  apply Outcome_bind_Ok in Hw as (w1 & Hw1 & Hw).
  destruct (with_receipt_receipted _ _ _ Hw) as [Hok (Hid & _) Hp Hr].
  assert (Hid1 : occ_id (ow_occurrence w1) = occ_id o).
  { apply (apply_occ_id o i); [|done]. by destruct Hi as [[d ->]|[d ->]]. }
  apply occurrence_apply_fires in Hw1 as (dsl_i & t & Hc & HF). split; [done| | |done].
  - unfold occ_id in *. by rewrite Hid.
  - unfold row_phase. rewrite Hp.
    apply (fires_to (λ p, p = Misfired ∨ p = DeliveryFailed) _ _ _ _ _ HF).
    destruct Hi as [[d ->]|[d ->]]; cbn in Hc; apply Outcome_bind_Ok in Hc as (ms & _ & [= <-]);
      repeat (apply Forall_cons_2; [cbn; auto|]); by apply Forall_nil_2.
Qed.
End operations.
End rows.
