(* ===== verification/RowReturns.v ===== *)
(** * RowReturns: row operations do not panic

    Every operation the store drives a valid row with returns a result or an
    error, and a valid row its verdict calls claim-eligible is claimed. *)

From stdpp Require Import gmap.
From S2P Require Import Prelude Text Chrono ScheduleTypes Trigger FirstDue TriggerFacts Millis Authority.
From S2P Require Import ScheduleLifecycle OccurrenceLifecycle OccurrenceFacts OccurrenceVerdicts.
From S2P Require Import Rows RowFacts RowValidity RowOutcomes StoreTypes MemoryStore MemoryClaims ClaimRows.

Section rows.
Context `{RowCodec} {HL : ChronoLaws} {BP : BuildProfile}.

Definition returns {A} (r : Outcome RowError A) : Prop :=
  match r with Ok _ | Err _ => True | _ => False end.

Lemma from_millis_cases ms field : (∃ dt, from_millis ms field = Ok dt) ∨ ∃ e, from_millis ms field = Err e.
Proof. unfold from_millis. destruct (millis_to_datetime ms); cbn; eauto. Qed.

Lemma from_optional_millis_cases ms field :
  (∃ dt, from_optional_millis ms field = Ok dt) ∨ ∃ e, from_optional_millis ms field = Err e.
Proof.
  destruct ms as [ms|]; cbn; [|eauto].
  destruct (from_millis_cases ms field) as [[dt ->]|[e ->]]; cbn; eauto.
Qed.

Lemma display_fields_cases dsl : display_fields dsl = Ok tt ∨ ∃ e, display_fields dsl = Err e.
Proof.
  unfold display_fields.
  destruct (from_millis_cases (due_at_utc_ms dsl) "due_at_utc") as [[? ->]|[e ->]]; cbn; eauto.
  unfold attempt_count_from_dsl. destruct (_ <=? _)%N; cbn; eauto.
  repeat match goal with |- context [from_optional_millis ?ms ?f] =>
    destruct (from_optional_millis_cases ms f) as [[? ->]|[? ->]]; cbn; eauto end.
Qed.

(** ** Row operations return *)

Lemma returns_bind {A B} (m : Outcome RowError A) (f : A → Outcome RowError B) :
  returns m → (∀ a, m = Ok a → returns (f a)) → returns (m ≫= f).
Proof. destruct m; cbn; auto. Qed.

Lemma to_millis_returns dt field : returns (to_millis dt field).
Proof.
  unfold to_millis, occurrence_datetime_to_millis. rewrite datetime_to_millis_spec. by destruct (0 <=? timestamp_millis dt)%Z.
Qed.

Lemma ok_or_returns {A} (o : option A) e : returns (ok_or o e).
Proof. by destruct o. Qed.

Lemma attempt_count_returns n : returns (attempt_count_from_dsl n).
Proof. unfold attempt_count_from_dsl. by destruct (_ <=? _)%N. Qed.

Lemma display_fields_returns dsl : returns (display_fields dsl).
Proof. by destruct (display_fields_cases dsl) as [->|[e ->]]. Qed.

Create HintDb returns.
#[local] Hint Resolve to_millis_returns ok_or_returns attempt_count_returns display_fields_returns
  : returns.
#[local] Hint Extern 1 (returns (Ok _)) => exact I : returns.
#[local] Hint Extern 1 (returns (Err _)) => exact I : returns.

Ltac returns_all :=
  repeat first
    [ solve [eauto 2 with returns]
    | apply returns_bind; [|intros ? ?]
    | match goal with
      | |- returns (let '_ := ?x in _) => destruct x
      | |- returns (if ?x then _ else _) => destruct x
      | |- returns (match ?x with _ => _ end) => destruct x
      end ].

Lemma delivery_receipt_returns o outcome : returns (delivery_receipt_from_authority o outcome).
Proof. unfold delivery_receipt_from_authority, receipt_from_pending_authority, from_millis. returns_all. Qed.

Lemma validate_receipt_returns dsl r outcome : returns (validate_receipt_against_authority dsl r outcome).
Proof.
  unfold validate_receipt_against_authority, receipt_from_recorded_authority, from_millis, expect.
  returns_all.
Qed.

Lemma expect_returns b e : returns (expect b e).
Proof. by destruct b. Qed.

#[local] Hint Resolve expect_returns : returns.

Lemma verify_target_returns dsl target : returns (verify_target dsl target).
Proof. unfold verify_target. returns_all. Qed.

Lemma verify_policy_returns dsl p op mtp : returns (verify_occurrence_policy_keys dsl p op mtp).
Proof. unfold verify_occurrence_policy_keys. returns_all. Qed.
#[local] Hint Resolve delivery_receipt_returns validate_receipt_returns
  verify_target_returns verify_policy_returns : returns.

(** An input none of whose arms can overflow in [s]. *)
Definition total_in (i : OccurrenceLifecycleInput) (s : OccurrenceState) : Prop :=
  Forall (λ t, tr_update t s ≠ None) (transitions i).

Lemma run_dsl_returns i s : total_in i s → returns (run_dsl s i).
Proof.
  intros Ht. unfold run_dsl. destruct (recover_cases s) as [Hrec|[e Hrec]]; rewrite Hrec; [|done].
  destruct (apply i s) as [s' [r|e]|] eqn:Hap; [done..|].
  apply apply_panicked_inv in Hap as (t & Hin & _ & [Hup|(s' & es & HF & Hbad)]).
  - by destruct (proj1 (Forall_forall _ _) Ht t Hin).
  - apply recover_ok in Hrec. apply (fires_invariants _ _ _ _ _ HF) in Hrec. congruence.
Qed.

Lemma apply_returns o i :
  row_ok o →
  (∀ dsl_i, convert_occurrence_input i = Ok dsl_i → total_in dsl_i (occurrence_machine o)) →
  returns (convert_occurrence_input i) → returns (occurrence_apply o i).
Proof.
  intros Hok Ht Hc. rewrite occurrence_apply_valid by done. apply returns_bind; [done|]. intros dsl_i Hi.
  apply returns_bind; [by apply run_dsl_returns, Ht|]. intros [es dsl] _.
  apply returns_bind; [|intros; exact I]. unfold write_back_occurrence. returns_all.
Qed.

(** Closes [total_in] when no arm computes. *)
Ltac total_arms := repeat (apply Forall_cons_2; [done|]); by apply Forall_nil_2.

Lemma classify_returns o now ev : row_ok o → returns (classify_due_action o now ev).
Proof.
  intros Hok. unfold classify_due_action. apply returns_bind.
  - apply apply_returns; [done| |cbn; returns_all].
    intros dsl_i Hc. cbn in Hc. apply Outcome_bind_Ok in Hc as (ms & _ & [= <-]). total_arms.
  - intros w _. unfold due_action_from_effects. returns_all.
Qed.

(** Minting and recording a receipt after a transition. *)
Lemma followup_returns w r outcome :
  row_ok (ow_occurrence w) →
  returns (occurrence_apply (ow_occurrence w) (RecordReceipt r outcome) ≫= absorb_followup w).
Proof.
  intros Hok. apply returns_bind.
  - apply apply_returns; [done| |done]. intros dsl_i [= <-]. total_arms.
  - intros f Hf. by destruct (absorb_total w _ f Hf) as [w' ->].
Qed.

Lemma with_receipt_returns w outcome : row_ok (ow_occurrence w) → returns (with_receipt w outcome).
Proof.
  intros Hok. unfold with_receipt. apply returns_bind; [apply delivery_receipt_returns|].
  intros r _. by apply followup_returns.
Qed.

Lemma expire_returns o now : row_ok o → returns (expire_occurrence_lease o now).
Proof.
  intros Hok. unfold expire_occurrence_lease. apply returns_bind.
  - apply apply_returns; [done| |cbn; returns_all].
    intros dsl_i Hc. cbn in Hc. apply Outcome_bind_Ok in Hc as (ms & _ & [= <-]). total_arms.
  - intros w Hw%apply_row_ok. apply returns_bind; [apply delivery_receipt_returns|]. intros r _.
    pose proof (followup_returns w r (r_runtime_outcome r) Hw) as Hf.
    destruct (occurrence_apply (ow_occurrence w) _) as [f| | |]; cbn in *; [|done..].
    by destruct (absorb_followup w f).
Qed.

Lemma resolved_returns o action ev now : row_ok o → returns (resolved_write o action ev now).
Proof.
  intros Hok. unfold resolved_write. apply returns_bind.
  - unfold due_resolution, due_misfire_detail_at, from_millis. destruct action; returns_all.
  - intros i Hi%due_resolution_shape. apply returns_bind.
    + apply apply_returns; [done| |].
      * intros dsl_i Hc. destruct Hi as [[d ->]|[d ->]]; cbn in Hc;
          apply Outcome_bind_Ok in Hc as (ms & _ & [= <-]); total_arms.
      * destruct Hi as [[d ->]|[d ->]]; cbn; returns_all.
    + intros w Hw%apply_row_ok. by apply with_receipt_returns.
Qed.

(** ** A claim-eligible row is claimed *)

Lemma to_millis_some dt field :
  (0 ≤ timestamp_millis dt)%Z →
  ∃ ms u, to_millis dt field = Ok ms ∧ millis_to_datetime ms = Some u.
Proof.
  intros Hpos. destruct (timestamp_millis_opt_some dt) as [u Hu].
  exists (Z.to_N (timestamp_millis dt)), u. unfold to_millis, occurrence_datetime_to_millis, millis_to_datetime, i64_try_from.
  rewrite datetime_to_millis_spec, (proj2 (Z.leb_le _ _) Hpos). split; [done|].
  pose proof (timestamp_millis_range dt). rewrite Z2N.id by done.
  rewrite (proj2 (Z.leb_le _ _)) by (unfold i64_max; lia). done.
Qed.

Lemma row_attempts o : row_ok o → (attempt_count (occurrence_machine o) ≤ u32_max)%N.
Proof.
  intros [_ _ (_ & Hc & _)%display_fields_ok _ _]%row_ok_valid. unfold attempt_count_from_dsl in Hc.
  destruct (N.leb_spec (attempt_count (occurrence_machine o)) u32_max); done.
Qed.

Lemma claim_total owner ms lease token ev s :
  (attempt_count s < u64_max)%N → total_in (I_Claim owner ms lease token ev) s.
Proof.
  intros Hlt.
  assert (Hup : claim_update owner ms lease token s ≠ None).
  { unfold claim_update. cbv zeta. cbn. by rewrite u64_add_small by lia. }
  repeat (apply Forall_cons_2; [exact Hup|]). by apply Forall_nil_2.
Qed.

Lemma claim_returns o request now ev token :
  row_ok o →
  is_Some (add_signed now (lease_duration request)) →
  (attempt_count (occurrence_machine o) ≤ u32_max)%N →
  returns (claim_occurrence o request now ev token).
Proof.
  intros Hok [e He] Hatt. unfold claim_occurrence. rewrite He. cbn [or_panic mbind Outcome_bind].
  apply apply_returns; [done| |cbn; returns_all].
  intros di Hc. cbn in Hc. apply Outcome_bind_Ok in Hc as (a & _ & Hc).
  apply Outcome_bind_Ok in Hc as (b & _ & [= <-]). apply claim_total. unfold u32_max, u64_max in *. lia.
Qed.

Lemma classify_eligible o now ev :
  classify_due_action o now ev = Ok (Some ClaimEligible) →
  ∃ ms, to_millis now "now_utc" = Ok ms ∧
    due_verdict (occurrence_machine o) ms ev = E_DueClaimEligible.
Proof.
  unfold classify_due_action. intros (w & Hw & Hd)%Outcome_bind_Ok.
  pose proof Hw as (_ & [Hok _ _ _ _ _ _])%occurrence_apply_applied.
  rewrite occurrence_apply_valid in Hw by done. apply row_ok_valid in Hok as [Hrec _ _ _ _].
  apply Outcome_bind_Ok in Hw as (di & Hc & Hw). cbn in Hc.
  apply Outcome_bind_Ok in Hc as (ms & Hms & [= <-]). exists ms. split; [done|].
  apply Outcome_bind_Ok in Hw as ([es dsl] & Hrun & Hw). unfold run_dsl in Hrun. rewrite Hrec in Hrun.
  pose proof (due_verdict_answered _ ms ev Hrec) as Ha. unfold answers in Ha. rewrite Ha in Hrun.
  cbn in Hrun. injection Hrun as <- <-.
  apply Outcome_bind_Ok in Hw as (o' & _ & [= <-]). cbn in Hd.
  unfold due_action_from_effects in Hd. cbn in Hd.
  by destruct (due_verdict (occurrence_machine o) ms ev).
Qed.

Lemma from_millis_some ms u field : millis_to_datetime ms = Some u → from_millis ms field = Ok u.
Proof. unfold from_millis. by intros ->. Qed.

Lemma eligible_claimed o request now ev token e :
  row_ok o →
  classify_due_action o now ev = Ok (Some ClaimEligible) →
  add_signed now (lease_duration request) = Some e → (0 ≤ timestamp_millis e)%Z →
  (attempt_count (occurrence_machine o) < u32_max)%N →
  ∃ w, claim_occurrence o request now ev token = Ok w.
Proof.
  intros Hok (ms & Hms & Hv)%classify_eligible He Hpos Hatt.
  pose proof Hok as [Hrec _ Hd _ _]%row_ok_valid.
  destruct (to_millis_some e "lease_expires_at_utc" Hpos) as (lease & u & Hlease & Hu).
  assert (Hnow : (0 ≤ timestamp_millis now)%Z ∧ to_millis now "at_utc" = Ok ms).
  { unfold to_millis, occurrence_datetime_to_millis in *. rewrite datetime_to_millis_spec in *.
    by destruct (Z.leb_spec 0 (timestamp_millis now)). }
  destruct Hnow as [Hpos' Hat].
  destruct (to_millis_some now "at_utc" Hpos') as (ms' & n & Hms' & Hn).
  assert (ms' = ms) as -> by congruence.
  destruct (verdict_claimable (occurrence_machine o) ms ev (request_owner_id request) lease token Hrec)
    as (s' & r & Hap & _); [unfold u32_max, u64_max in *; lia|done|].
  pose proof Hap as (t & HF & _)%apply_accepted.
  destruct (claim_fires _ _ _ _ _ _ _ _ _ HF) as (_ & _ & _ & Hn1 & E1 & E2 & E3 & E4 & E5).
  rewrite u64_add_small in Hn1 by (unfold u32_max, u64_max in *; lia). injection Hn1 as Hn1.
  unfold claim_occurrence. rewrite He. cbn [or_panic mbind Outcome_bind].
  rewrite occurrence_apply_valid by done. cbn [convert_occurrence_input]. rewrite Hat, Hlease.
  cbn [mbind Outcome_bind]. unfold run_dsl. rewrite Hrec, Hap. cbn [mbind Outcome_bind].
  unfold write_back_occurrence.
  assert (Hd' : display_fields s' = Ok tt).
  { apply display_fields_ok in Hd as ([d Hd] & _). unfold display_fields.
    rewrite E1, E2, E3, E4, E5, Hd. cbn [mbind Outcome_bind]. unfold attempt_count_from_dsl.
    rewrite (proj2 (N.leb_le _ _)) by lia. cbn. by rewrite !(from_millis_some _ _ _ Hu),
      !(from_millis_some _ _ _ Hn). }
  rewrite Hd'. cbn. by eexists.
Qed.


(** ** Validation of schedules *)

Lemma returns_cases (r : Outcome RowError unit) : returns r → r = Ok tt ∨ ∃ e, r = Err e.
Proof. destruct r as [[]|e| |]; cbn; eauto; done. Qed.

Lemma validate_schedule_returns s : returns (validate_schedule_machine_projection s).
Proof.
  unfold validate_schedule_machine_projection, validate_recovery, schedule_display_fields,
    planning_horizon_from_dsl, from_optional_millis, from_millis. returns_all.
Qed.
End rows.
