(* ===== verification/MemoryFacts.v ===== *)
(** * MemoryFacts: invariants of the in-memory store

    Every operation keeps valid rows under their own identifiers and the refill
    queue in step with the refill deadlines, whether it succeeds or fails. *)

From stdpp Require Import gmap.
From S2P Require Import Prelude Text Chrono ScheduleTypes Millis Authority ExecutorLease.
From S2P Require Import ScheduleLifecycle OccurrenceLifecycle Rows RowFacts RowValidity ScheduleRows.
From S2P Require Import StoreTypes MemoryStore MemoryClaims MemoryReads ClaimRows.

Section facts.
Context `{RowCodec} {HL : ChronoLaws} {BP : BuildProfile}.

#[local] Existing Instances store_ret store_bind.

(** ** Preservation *)

Definition preserves {A} (P : MemoryScheduleState → Prop) (m : Store A) : Prop :=
  ∀ st, P st → P (m st).1.

Section combinators.
Context (P : MemoryScheduleState → Prop).

Lemma preserves_ret {A} (a : A) : preserves P (mret a).
Proof. by intros st. Qed.

Lemma preserves_bind {A B} (m : Store A) (f : A → Store B) :
  preserves P m → (∀ a, preserves P (f a)) → preserves P (m ≫= f).
Proof.
  intros Hm Hf st Hst. specialize (Hm st Hst). unfold mbind, store_bind.
  destruct (m st) as [st' [a|e| |]]; cbn in *; [exact (Hf a st' Hm)|done..].
Qed.

Lemma preserves_read : preserves P read.
Proof. by intros st. Qed.

Lemma preserves_fail {A} e : preserves P (fail (A := A) e).
Proof. by intros st. Qed.

Lemma preserves_panic {A} (o : option A) : preserves P (panic_if_none o).
Proof. by intros st. Qed.

(** What is read satisfies [P]; what a row operation returned is known. *)
Lemma preserves_read_bind {B} (f : MemoryScheduleState → Store B) :
  (∀ st, P st → preserves P (f st)) → preserves P (read ≫= f).
Proof. intros Hf st Hst. by apply (Hf st). Qed.

Lemma preserves_lift_bind {A B} wrap (r : Outcome RowError A) (f : A → Store B) :
  (∀ a, r = Ok a → preserves P (f a)) → preserves P (lift wrap r ≫= f).
Proof. intros Hf st Hst. destruct r as [a| | |]; [by apply (Hf a)|done..]. Qed.

Lemma preserves_attempt_bind {A B} (r : Outcome RowError A) (f : A + RowError → Store B) :
  (∀ a, r = Ok a → preserves P (f (inl a))) → (∀ e, preserves P (f (inr e))) →
  preserves P (attempt r ≫= f).
Proof. intros Ha He st Hst. destruct r as [a|e| |]; [by apply (Ha a)|by apply (He e)|done..]. Qed.

Lemma preserves_lift {A} wrap (r : Outcome RowError A) : preserves P (lift wrap r).
Proof. by intros st. Qed.

Lemma preserves_write f : (∀ st, P st → P (f st)) → preserves P (write f).
Proof. intros Hf st. apply Hf. Qed.

Lemma preserves_for_each {A B} (f : A → Store B) l :
  (∀ a, preserves P (f a)) → preserves P (for_each f l).
Proof.
  intros Hf. induction l as [|x l IH]; cbn [for_each]; [apply preserves_ret|].
  apply preserves_bind; [done|]. intros y. apply preserves_bind; [done|]. intros ys.
  apply preserves_ret.
Qed.
End combinators.

Lemma run_preserves {A} P (m : Store A) st : P st → preserves P m → P (m st).1.
Proof. intros Hst Hm. by apply Hm. Qed.

Create HintDb store.
#[local] Hint Resolve preserves_ret preserves_read preserves_fail preserves_lift preserves_panic
  preserves_for_each : store.

(** Walks through an operation; the writes are left. *)
Ltac preserve_step :=
  match goal with
  | |- preserves _ (read ≫= _) => apply preserves_read_bind; intros ? ?
  | |- preserves _ (lift _ _ ≫= _) => apply preserves_lift_bind; intros ? ?
  | |- preserves _ (attempt _ ≫= _) => apply preserves_attempt_bind; intros ?; [intros ?|]
  | |- preserves _ (_ ≫= _) => apply preserves_bind; [|intros ?]
  | |- preserves _ (match ?x with _ => _ end) => destruct x eqn:?
  | |- preserves _ (if ?x then _ else _) => destruct x eqn:?
  | |- preserves _ (for_each _ _) => apply preserves_for_each; intros ?
  | |- preserves _ _ => solve [eauto with store]
  end.
Ltac preserve_all := repeat preserve_step.

(** ** The invariant *)

Record store_inv (st : MemoryScheduleState) : Prop := {
  inv_occurrences id o : occurrences st !! id = Some o → occ_id o = id ∧ row_ok o;
  inv_schedules id s : schedules st !! id = Some s → sched_id s = id ∧ schedule_row_ok s;
  inv_refill d id :
    (d, id) ∈ refill_queue st ↔ ∃ t, refill_deadlines st !! id = Some t ∧ ns t = d;
}.

Lemma inv_set_deadline id deadline st :
  store_inv st → store_inv (memory_set_schedule_refill_deadline id deadline st).
Proof.
  intros [Ho Hs Hq]. unfold memory_set_schedule_refill_deadline.
  set (st1 := match refill_deadlines st !! id with Some _ => _ | None => st end).
  assert (Hst1 : store_inv st1 ∧ refill_deadlines st1 !! id = None).
  { subst st1. destruct (refill_deadlines st !! id) as [previous|] eqn:Hd; [|by split; [split|]].
    split; [split; cbn; [done..|]|cbn; by rewrite lookup_delete_eq].
    intros d id'. rewrite elem_of_difference, elem_of_singleton, Hq.
    destruct (decide (id' = id)) as [->|Hne].
    - rewrite lookup_delete_eq, Hd. split; [|by intros (? & ? & _)].
      intros [(t & [= ->] & <-) Hn]. done.
    - rewrite lookup_delete_ne by done. split; [by intros [? _]|].
      intros Hin. split; [done|]. congruence. }
  clearbody st1. destruct Hst1 as [[Ho1 Hs1 Hq1] Hnone].
  destruct deadline as [deadline|]; [|done].
  split; cbn; [done..|]. intros d id'. rewrite elem_of_union, elem_of_singleton, Hq1.
  destruct (decide (id' = id)) as [->|Hne].
  - rewrite lookup_insert_eq, Hnone. split.
    + intros [[= ->]|(? & ? & _)]; [eauto|done].
    + intros (t & [= ->] & <-). by left.
  - rewrite lookup_insert_ne by done. split; [|eauto].
    intros [[= -> ->]|?]; done.
Qed.

Lemma inv_put_occurrence o st : row_ok o → store_inv st → store_inv (put_occurrence o st).
Proof.
  intros Hok [Ho Hs Hq]. split; cbn; [|done..]. intros id o'.
  intros [[<- <-]|[_ ?]]%lookup_insert_Some; [done|by apply Ho].
Qed.

Lemma inv_put_schedule s st : schedule_row_ok s → store_inv st → store_inv (put_schedule s st).
Proof.
  intros Hok [Ho Hs Hq]. split; cbn; [done| |done]. intros id s'.
  intros [[<- <-]|[_ ?]]%lookup_insert_Some; [done|by apply Hs].
Qed.

Lemma inv_push_receipt id r st : store_inv st → store_inv (push_receipt id r st).
Proof. intros [Ho Hs Hq]. by split. Qed.

Lemma inv_note_departure previous updated now st :
  store_inv st → store_inv (memory_note_pending_departure previous updated now st).
Proof.
  intros Hst. unfold memory_note_pending_departure. destruct (_ || _); [done|].
  destruct (schedules st !! _); [|done]. destruct (_ && _); [by apply inv_set_deadline|done].
Qed.

Lemma inv_update_refill previous schedule projection now st :
  store_inv st →
  store_inv (memory_update_schedule_refill_projection previous schedule projection now st).
Proof.
  intros Hst. unfold memory_update_schedule_refill_projection.
  destruct (_ != _); [by apply inv_set_deadline|].
  destruct projection; [|by apply inv_set_deadline].
  destruct (_ || _); [by apply inv_set_deadline|done].
Qed.

#[local] Hint Resolve inv_set_deadline inv_put_occurrence inv_put_schedule inv_push_receipt
  inv_note_departure inv_update_refill : store.
#[local] Hint Extern 4 (preserves store_inv (write _)) =>
  apply preserves_write; eauto with store : store.

(** The rows an operation writes are valid. *)
Lemma claim_ok o request now evidence token w :
  claim_occurrence o request now evidence token = Ok w → row_ok (ow_occurrence w).
Proof. intros Hw. by apply claim_claims in Hw as []. Qed.

Lemma absorbed_claim_ok o request now evidence token w c w' :
  claim_occurrence o request now evidence token = Ok c → absorb_followup w c = Ok w' →
  row_ok (ow_occurrence w').
Proof. intros Hc Hw. rewrite (absorb_row _ _ _ Hw). by eapply claim_ok. Qed.

Lemma expire_ok o now w r : expire_occurrence_lease o now = Ok (w, r) → row_ok (ow_occurrence w).
Proof. by intros []%expire_expired. Qed.

Lemma resolve_ok o action evidence now w :
  resolved_write o action evidence now = Ok w → row_ok (ow_occurrence w).
Proof. by intros []%resolved_write_resolved. Qed.

Lemma with_receipt_ok w outcome w' : with_receipt w outcome = Ok w' → row_ok (ow_occurrence w').
Proof. by intros []%with_receipt_receipted. Qed.

Lemma validated_ok o u : validate_occurrence_machine_projection o = Ok u → row_ok o.
Proof. by destruct u. Qed.

Lemma schedule_validated_ok s u : validate_schedule_machine_projection s = Ok u → schedule_row_ok s.
Proof. by destruct u. Qed.

#[local] Hint Resolve apply_row_ok claim_ok absorbed_claim_ok expire_ok resolve_ok with_receipt_ok
  validated_ok schedule_validated_ok feedback_valid : store.

(** ** Operations *)

Inductive store_op :=
| OpCommitMutation (w : ScheduleWrite) (planned : list OccurrenceWrite)
    (projection : MemoryRefillDeadlineProjection)
| OpCommitScheduleWrite (w : ScheduleWrite)
| OpCommitOccurrenceWrite (w : OccurrenceWrite)
| OpRecordRefillDeadline (id : ScheduleId) (revision : N) (expected : DateTime)
    (next : option DateTime)
| OpTransition (id : OccurrenceId) (attempt : N) (token : option ClaimToken)
    (transition : OccurrenceInput)
| OpTransitionWithReceipt (id : OccurrenceId) (attempt : N) (token : option ClaimToken)
    (transition : OccurrenceInput) (outcome : option RuntimeDeliveryOutcome)
| OpRenewLease (r : RenewOccurrenceLeaseRequest)
| OpClaimDue (lease : ScheduleExecutorLease) (request : ClaimDueRequest)
    (fresh : OccurrenceId → ClaimToken)
| OpReadRefillCandidates (limit : nat)
| OpExecutorLease (lease_op : LeaseState → LeaseState).

(** One call on the store at a store time; results are dropped, writes are not. *)
Definition store_step (op : store_op) (now : DateTime) (st : MemoryScheduleState)
  : MemoryScheduleState :=
  match op with
  | OpCommitMutation w planned projection =>
      (commit_schedule_mutation_with_refill w planned projection now st).1
  | OpCommitScheduleWrite w => (commit_schedule_write w now st).1
  | OpCommitOccurrenceWrite w => (commit_occurrence_write w now st).1
  | OpRecordRefillDeadline id revision expected next =>
      (record_refill_deadline_if_current id revision expected next now st).1
  | OpTransition id attempt token transition =>
      (transition_occurrence_if_current id attempt token transition now st).1
  | OpTransitionWithReceipt id attempt token transition outcome =>
      (transition_occurrence_with_receipt_if_current id attempt token transition outcome now st).1
  | OpRenewLease r => (renew_occurrence_lease_if_current r now st).1
  | OpClaimDue lease request fresh => (claim_due_occurrences lease request now fresh st).1
  | OpReadRefillCandidates limit => (read_due_refill_candidates limit now st).1
  | OpExecutorLease lease_op => st <| executor := lease_op (executor st) |>
  end.

Lemma inv_insert_planned now w : preserves store_inv (insert_planned now w).
Proof. unfold insert_planned. preserve_all. Qed.

Lemma inv_sweep_one p id : preserves store_inv (sweep_one p id).
Proof. unfold sweep_one. preserve_all. Qed.

Lemma inv_resolve_due o action evidence now :
  preserves store_inv (memory_resolve_due_terminal o action evidence now).
Proof. unfold memory_resolve_due_terminal. preserve_all. Qed.
#[local] Hint Resolve inv_insert_planned inv_sweep_one inv_resolve_due : store.

Lemma inv_scan_row request now token id acc :
  preserves store_inv (scan_row request now token id acc).
Proof.
  unfold scan_row, claim_eligible_row, lease_expired_row, reclaim_refused. preserve_all.
Qed.

Lemma inv_scan_rows request now fresh ids acc :
  preserves store_inv (scan_rows request now fresh ids acc).
Proof.
  revert acc. induction ids as [|id ids IH]; intros acc; cbn [scan_rows]; [apply preserves_ret|].
  apply preserves_bind; [apply inv_scan_row|]. intros acc'. apply IH.
Qed.
#[local] Hint Resolve inv_scan_rows : store.

Lemma inv_set_cursor c st : store_inv st → store_inv (st <| refill_scan_cursor := c |>).
Proof. by intros []. Qed.
#[local] Hint Resolve inv_set_cursor : store.

Lemma inv_store_step op now st : store_inv st → store_inv (store_step op now st).
Proof.
  intros Hst. destruct op; cbn [store_step]; [..|by destruct Hst];
    apply (run_preserves _ _ _ Hst);
    unfold commit_schedule_mutation_with_refill, commit_schedule_write, commit_occurrence_write,
      check_schedule_precondition, screen_planned, check_occurrence_precondition, sweep,
      sweep_ids, record_refill_deadline_if_current, transition_occurrence_if_current,
      transition_occurrence_with_receipt_if_current, renew_occurrence_lease_if_current,
      claim_due_occurrences, read_due_refill_candidates;
    preserve_all.
Qed.

Lemma memory_init_inv : store_inv memory_init.
Proof. split; [done..|]. intros d id. cbn. set_solver. Qed.

Definition store_run (ops : list (store_op * DateTime)) (st : MemoryScheduleState)
  : MemoryScheduleState := fold_left (λ st e, store_step e.1 e.2 st) ops st.

Lemma inv_store_run ops st : store_inv st → store_inv (store_run ops st).
Proof.
  revert st. induction ops as [|[op now] ops IH]; intros st Hst; [done|].
  apply IH. by apply inv_store_step.
Qed.
End facts.
