(* ===== verification/MemoryCommit.v ===== *)
(** * MemoryCommit: the atomic schedule commit of the in-memory store

    [commit_schedule_mutation_with_refill] writes the schedule, the planned
    rows and the superseded rows one after the other.  [commit_runs] says what
    all of it amounts to: a commit that passes its preconditions cannot fail,
    it maps the supersession over the rows of the schedule and acknowledges
    exactly the rows it superseded; a commit that does not pass them leaves the
    store as it was. *)

From stdpp Require Import gmap.
From S2P Require Import Prelude Text Chrono ScheduleTypes Millis Authority ExecutorLease.
From S2P Require Import ScheduleLifecycle OccurrenceLifecycle OccurrenceFacts Rows RowFacts.
From S2P Require Import RowValidity RowOutcomes ScheduleRows RowReturns.
From S2P Require Import StoreTypes StoreContract MemoryStore MemoryFacts.

Section commit.
Context `{RowCodec} {HL : ChronoLaws} {BP : BuildProfile}.

#[local] Existing Instances store_ret store_bind.

(** ** Specification *)

(** The preconditions the first part of the commit checks. *)
Definition passes {A} (r : Outcome RowError A) : bool :=
  match r with Ok _ => true | _ => false end.

Definition planned_screened (st : MemoryScheduleState) (w : OccurrenceWrite) : bool :=
  negb (has_generated_outputs w) &&
  passes (check_current (ow_precondition w)
            (occurrence_key <$> occurrences st !! occ_id (ow_occurrence w))).

Definition commit_screened (w : ScheduleWrite) (planned : list OccurrenceWrite)
    (st : MemoryScheduleState) : bool :=
  passes (check_current (sw_precondition w)
            (schedule_key <$> schedules st !! sched_id (sw_schedule w)))
  && forallb (planned_screened st) planned
  && passes (validate_schedule_machine_projection (sw_schedule w)).

(** ** Running an operation *)

Lemma run_bind_ok {A B} (m : Store A) (f : A → Store B) st st1 a :
  m st = (st1, Ok a) → (m ≫= f) st = f a st1.
Proof. intros Hm. unfold mbind, store_bind. by rewrite Hm. Qed.

Lemma run_bind_err {A B} (m : Store A) (f : A → Store B) st st1 e :
  m st = (st1, Err e) → (m ≫= f) st = (st1, Err e).
Proof. intros Hm. unfold mbind, store_bind. by rewrite Hm. Qed.

(** A check that returns either passes or fails the operation. *)
Lemma run_lift wrap (r : Outcome RowError unit) st :
  r = Ok tt ∨ (∃ e, r = Err e) →
  lift wrap r st = (st, Ok tt) ∧ passes r = true ∨
  (∃ e, lift wrap r st = (st, Err e)) ∧ passes r = false.
Proof. intros [->|[e ->]]; [by left|right]. split; [by eexists|done]. Qed.

Lemma check_current_cases p current :
  (∀ id f, current = Some (id, f) → ∃ bytes, f = Ok bytes) →
  check_current p current = Ok tt ∨ ∃ e, check_current p current = Err e.
Proof.
  intros Hc. unfold check_current, expect. destruct p as [id|id bytes], current as [[id' f]|]; eauto.
  destruct (Hc id' f eq_refl) as [b ->]. destruct (bool_decide (id' = id)); cbn; [|eauto].
  destruct (bool_decide (b = bytes)); eauto.
Qed.

(** Stored rows are valid, so they have a fingerprint. *)
Lemma check_occurrence_cases p st id :
  store_inv st →
  let r := check_current p (occurrence_key <$> occurrences st !! id) in
  r = Ok tt ∨ ∃ e, r = Err e.
Proof.
  intros Hinv. apply check_current_cases. intros id' f.
  destruct (occurrences st !! id) as [o|] eqn:Ho; [|done]. intros [= _ <-].
  destruct (inv_occurrences _ Hinv _ _ Ho) as [_ Hok].
  unfold occurrence_write_fingerprint. rewrite Hok. by eexists.
Qed.

Lemma check_schedule_cases p st id :
  store_inv st →
  let r := check_current p (schedule_key <$> schedules st !! id) in
  r = Ok tt ∨ ∃ e, r = Err e.
Proof.
  intros Hinv. apply check_current_cases. intros id' f.
  destruct (schedules st !! id) as [s|] eqn:Hs; [|done]. intros [= _ <-].
  destruct (inv_schedules _ Hinv _ _ Hs) as [_ Hok].
  unfold schedule_write_fingerprint. rewrite Hok. by eexists.
Qed.

Lemma validate_schedule_cases s :
  validate_schedule_machine_projection s = Ok tt ∨
  ∃ e, validate_schedule_machine_projection s = Err e.
Proof. apply returns_cases, validate_schedule_returns. Qed.

(** ** Writes of the refill projection touch no row *)

Definition same_rows (a b : MemoryScheduleState) : Prop :=
  occurrences b = occurrences a ∧ schedules b = schedules a.

Lemma set_deadline_rows id d st : same_rows st (memory_set_schedule_refill_deadline id d st).
Proof.
  unfold memory_set_schedule_refill_deadline. by destruct (refill_deadlines st !! id), d.
Qed.

Lemma note_departure_rows a b now st : same_rows st (memory_note_pending_departure a b now st).
Proof.
  unfold memory_note_pending_departure. destruct (_ || _); [done|].
  destruct (schedules st !! _); [|done]. destruct (_ && _); [apply set_deadline_rows|done].
Qed.

Lemma update_refill_rows a b proj now st :
  same_rows st (memory_update_schedule_refill_projection a b proj now st).
Proof.
  unfold memory_update_schedule_refill_projection.
  destruct (_ != _); [apply set_deadline_rows|].
  destruct proj; [|apply set_deadline_rows].
  destruct (_ || _); [apply set_deadline_rows|done].
Qed.

(** ** Screening and planned rows *)

Lemma run_screen w st :
  store_inv st →
  screen_planned w st = (st, Ok tt) ∧ planned_screened st w = true ∨
  (∃ e, screen_planned w st = (st, Err e)) ∧ planned_screened st w = false.
Proof.
  intros Hinv. unfold screen_planned, planned_screened.
  destruct (has_generated_outputs w); cbn; [right; split; [by eexists|done]|].
  unfold check_occurrence_precondition. rewrite (run_bind_ok _ _ st st st) by done.
  by apply run_lift, check_occurrence_cases.
Qed.

Lemma run_screen_all planned st :
  store_inv st →
  if forallb (planned_screened st) planned
  then ∃ l, for_each screen_planned planned st = (st, Ok l)
  else ∃ e, for_each screen_planned planned st = (st, Err e).
Proof.
  intros Hinv. induction planned as [|w planned IH]; cbn [forallb for_each]; [by eexists|].
  destruct (run_screen w st Hinv) as [[Hw ->]|[[e Hw] ->]]; cbn [andb].
  - rewrite (run_bind_ok _ _ _ _ _ Hw). destruct (forallb _ _), IH as [x Hx].
    + rewrite (run_bind_ok _ _ _ _ _ Hx). by eexists.
    + rewrite (run_bind_err _ _ _ _ _ Hx). by eexists.
  - rewrite (run_bind_err _ _ _ _ _ Hw). by eexists.
Qed.

Lemma run_insert now w st :
  planned_valid w →
  ∃ st', insert_planned now w st = (st', Ok tt) ∧ schedules st' = schedules st ∧
    occurrences st' = <[occ_id (ow_occurrence w) := ow_occurrence w]> (occurrences st).
Proof.
  intros Hv. unfold insert_planned.
  rewrite (run_bind_ok _ _ st st tt) by (unfold lift; by rewrite Hv).
  rewrite (run_bind_ok _ _ st st st) by done.
  destruct (occurrences st !! _) as [previous|].
  - rewrite (run_bind_ok _ _ _ _ tt) by done. eexists. split; [done|].
    destruct (note_departure_rows previous (ow_occurrence w) now st) as [Ho Hs].
    cbn. by rewrite Ho, Hs.
  - rewrite (run_bind_ok _ _ _ _ tt) by done. by eexists.
Qed.

Lemma run_insert_all now planned st :
  Forall planned_valid planned →
  ∃ st' l, for_each (insert_planned now) planned st = (st', Ok l) ∧
    schedules st' = schedules st ∧ occurrences st' = insert_rows planned (occurrences st).
Proof.
  intros Hv. revert st. induction Hv as [|w planned Hw0 _ IH]; intros st; [by eexists _, _|].
  cbn [for_each]. destruct (run_insert now w st Hw0) as (st1 & Hw & Hs1 & Ho1).
  rewrite (run_bind_ok _ _ _ _ _ Hw).
  destruct (IH st1) as (st2 & l & Hl & Hs2 & Ho2). rewrite (run_bind_ok _ _ _ _ _ Hl).
  eexists _, _. split; [done|]. cbn. by rewrite Hs2, Ho2, Hs1, Ho1.
Qed.

(** Valid rows stay valid when valid planned rows are inserted. *)
Lemma insert_rows_ok planned st id o :
  store_inv st → Forall planned_valid planned →
  insert_rows planned (occurrences st) !! id = Some o → row_ok o.
Proof.
  intros Hinv Hplanned.
  assert (Hrows : ∀ id o, occurrences st !! id = Some o → row_ok o) by (intros; by eapply Hinv).
  clear Hinv. revert Hrows. unfold insert_rows. generalize (occurrences st).
  induction Hplanned as [|w planned Hw _ IH]; intros rows Hrows; [apply Hrows|].
  apply IH. intros id' o' [[_ <-]|[_ Ho']]%lookup_insert_Some; [done|by eapply Hrows].
Qed.

(** ** The sweep *)

Lemma supersedable_total sid r o : row_ok o → ∃ b, supersedable sid r o = Some b.
Proof.
  intros Hok. unfold supersedable. destruct (bool_decide _); [|by eexists].
  rewrite valid_row_terminality by done. by eexists.
Qed.

Lemma stale_supersedable sid p o :
  stale sid p o = default false (supersedable sid (superseded_by p) o).
Proof.
  unfold stale, supersedable. destruct (bool_decide _); [|done].
  by destruct (occurrence_is_terminal o).
Qed.

Lemma stale_spec sid p o :
  row_ok o → stale sid p o = true →
  supersedable sid (superseded_by p) o = Some true ∧
  schedule_id (occurrence_machine o) = sid ∧
  is_terminal (lifecycle_phase (occurrence_machine o)) = false.
Proof.
  intros Hok. rewrite stale_supersedable. destruct (supersedable sid _ o) as [b|] eqn:Hs; cbn; [intros ->|done].
  split; [done|]. unfold supersedable in Hs.
  destruct (bool_decide _) eqn:Hid; [|done]. apply bool_decide_eq_true in Hid.
  rewrite valid_row_terminality in Hs by done.
  injection Hs as [Ht%negb_true_iff _]%andb_true_iff. done.
Qed.

Lemma filter_option_total {A} (f : A → option bool) (l : list A) :
  (∀ x, x ∈ l → ∃ b, f x = Some b) →
  filter_option f l = Some (filter (λ x, default false (f x) = true) l).
Proof.
  intros Hf. induction l as [|x l IH]; [done|]. cbn [filter_option].
  destruct (Hf x) as [b Hb]; [by left|]. rewrite Hb, IH by (intros; apply Hf; by right).
  cbn [mbind option_bind].
  destruct b; [rewrite filter_cons_True|rewrite filter_cons_False]; cbn; by rewrite ?Hb.
Qed.

(** The identifiers of the stale rows, in map order. *)
Definition stale_ids (sid : ScheduleId) (p : PendingSupersession)
    (rows : gmap OccurrenceId Occurrence) : list OccurrenceId :=
  fst <$> filter (λ row, stale sid p row.2 = true) (map_to_list rows).

Lemma run_sweep_ids sid p st :
  store_inv st →
  sweep_ids sid (superseded_by p) st = (st, Ok (stale_ids sid p (occurrences st))).
Proof.
  intros Hinv. unfold sweep_ids. rewrite (run_bind_ok _ _ st st st) by done.
  rewrite filter_option_total.
  - unfold stale_ids. rewrite (list_filter_iff (λ row, stale sid p row.2 = true)
      (λ row, default false (supersedable sid (superseded_by p) row.2) = true)); [done|].
    intros [id o]. by rewrite stale_supersedable.
  - intros [id o] Hin%elem_of_map_to_list. by eapply supersedable_total, Hinv.
Qed.

Lemma elem_of_stale_ids sid p rows id :
  id ∈ stale_ids sid p rows ↔ ∃ o, rows !! id = Some o ∧ stale sid p o = true.
Proof.
  unfold stale_ids. rewrite list_elem_of_fmap. split.
  - intros ([id' o] & -> & [Ho Hin]%list_elem_of_filter). cbn in *.
    exists o. by rewrite <-elem_of_map_to_list.
  - intros (o & Hin & Ho). exists (id, o). split; [done|].
    apply list_elem_of_filter. by rewrite elem_of_map_to_list.
Qed.

Lemma NoDup_stale_ids sid p rows : NoDup (stale_ids sid p rows).
Proof.
  apply (sublist_NoDup _ (fst <$> map_to_list rows)); [apply NoDup_fst_map_to_list|].
  apply fmap_sublist, sublist_filter.
Qed.

(** One row: the sweep replaces it by its superseded form. *)
Lemma run_sweep_one sid p id st o ms :
  store_inv st → millis_to_datetime ms = Some (supersession_at_utc p) →
  occurrences st !! id = Some o → stale sid p o = true →
  ∃ st' w, sweep_one p id st = (st', Ok w) ∧ store_inv st' ∧ schedules st' = schedules st ∧
    occurrences st' = <[id := superseded_form p o]> (occurrences st) ∧
    swept_write sid (superseded_by p) id w.
Proof.
  intros Hinv Hms Ho Hst. destruct (inv_occurrences _ Hinv _ _ Ho) as [Hkey Hok].
  destruct (stale_spec _ _ _ Hok Hst) as (_ & Hsid & Hlive).
  destruct (supersede_live_row o (superseded_by p) ms _ Hok Hlive Hms) as (w & r & Hw & Hr).
  pose proof (supersede_row _ _ _ _ Hw Hlive) as [Hph Hrv (Hid & Hsch & _) Hacks Hes].
  unfold occ_id in Hkey.
  assert (Hrun : ∃ st', sweep_one p id st = (st', Ok w) ∧ schedules st' = schedules st ∧
    occurrences st' = <[id := ow_occurrence w]> (occurrences st)).
  { unfold sweep_one. rewrite (run_bind_ok _ _ st st st) by done. rewrite Ho.
    rewrite (run_bind_ok _ _ st st w) by (unfold lift; by rewrite Hw).
    rewrite (run_bind_ok _ _ st st r) by (unfold lift; by rewrite Hr).
    rewrite (run_bind_ok _ _ _ _ tt) by done. rewrite (run_bind_ok _ _ _ _ tt) by done.
    rewrite (run_bind_ok _ _ _ _ tt) by done. eexists. split; [done|].
    destruct (note_departure_rows o (ow_occurrence w) (supersession_at_utc p)
      (push_receipt (occ_id (ow_occurrence w)) r st)) as [Ho' Hs'].
    cbn. rewrite Ho', Hs'. cbn. unfold occ_id. by rewrite Hid, Hkey. }
  destruct Hrun as (st' & Hrun & Hs' & Ho'). exists st', w. split; [done|].
  split; [|split; [done|split]].
  - pose proof (inv_sweep_one p id st Hinv) as Hinv'. by rewrite Hrun in Hinv'.
  - unfold superseded_form. by rewrite Hw.
  - split; unfold occ_id; congruence.
Qed.

Definition sweep_rows (p : PendingSupersession) (ids : list OccurrenceId)
    (rows : gmap OccurrenceId Occurrence) : gmap OccurrenceId Occurrence :=
  map_imap (λ id o, Some (if bool_decide (id ∈ ids) then superseded_form p o else o)) rows.

Lemma run_sweep_all sid p ms ids st :
  store_inv st → millis_to_datetime ms = Some (supersession_at_utc p) → NoDup ids →
  (∀ id, id ∈ ids → ∃ o, occurrences st !! id = Some o ∧ stale sid p o = true) →
  ∃ st' ws, for_each (sweep_one p) ids st = (st', Ok ws) ∧ schedules st' = schedules st ∧
    occurrences st' = sweep_rows p ids (occurrences st) ∧
    Forall2 (swept_write sid (superseded_by p)) ids ws.
Proof.
  intros Hinv Hms Hnd Hids. revert st Hinv Hids.
  induction ids as [|id ids IH]; intros st Hinv Hids.
  { exists st, []. split; [done|]. split; [done|]. split; [|done].
    apply map_eq. intros id. unfold sweep_rows. rewrite map_lookup_imap.
    by destruct (occurrences st !! id). }
  apply NoDup_cons in Hnd as [Hnin Hnd].
  destruct (Hids id) as (o & Ho & Hst); [by left|].
  destruct (run_sweep_one sid p id st o ms Hinv Hms Ho Hst)
    as (st1 & w & Hw & Hinv1 & Hs1 & Ho1 & Hacks).
  destruct (IH Hnd st1 Hinv1) as (st2 & ws & Hws & Hs2 & Ho2 & Hacks2).
  { intros id' Hin. destruct (Hids id') as (o' & Ho' & Hst'); [by right|].
    exists o'. split; [|done]. rewrite Ho1, lookup_insert_ne; [done|]. by intros ->. }
  cbn [for_each]. rewrite (run_bind_ok _ _ _ _ _ Hw), (run_bind_ok _ _ _ _ _ Hws).
  eexists _, _. split; [done|]. split; [congruence|]. split.
  - rewrite Ho2, Ho1. apply map_eq. intros id'. unfold sweep_rows. rewrite !map_lookup_imap.
    destruct (decide (id' = id)) as [->|Hne].
    + rewrite lookup_insert_eq, Ho. cbn. rewrite bool_decide_eq_false_2 by done.
      by rewrite bool_decide_eq_true_2 by left.
    + rewrite lookup_insert_ne by done. destruct (occurrences st !! id'); cbn; [|done].
      by rewrite (bool_decide_ext (id' ∈ ids) (id' ∈ id :: ids)) by set_solver.
  - by constructor.
Qed.

Lemma swept_all_acks sid revision ids ws :
  Forall2 (swept_write sid revision) ids ws →
  concat (ow_acks <$> ws) =
    (λ id, {| ack_schedule_id := sid; ack_occurrence_id := id;
              ack_superseding_revision := revision |}) <$> ids.
Proof. induction 1 as [|id w ids ws Hw _ IH]; [done|]. cbn. by rewrite (swept_acks _ _ _ _ Hw), IH. Qed.

Lemma sweep_rows_stale sid p rows :
  sweep_rows p (stale_ids sid p rows) rows = swept_form sid p <$> rows.
Proof.
  apply map_eq. intros id. unfold sweep_rows. rewrite map_lookup_imap, lookup_fmap.
  destruct (rows !! id) as [o|] eqn:Ho; cbn; [|done]. f_equal. unfold swept_form.
  destruct (stale sid p o) eqn:Hst.
  - rewrite bool_decide_eq_true_2; [done|]. apply elem_of_stale_ids. eauto.
  - rewrite bool_decide_eq_false_2; [done|].
    intros (o' & Ho' & Hst')%elem_of_stale_ids. congruence.
Qed.

Lemma list_to_set_stale sid p rows :
  (list_to_set (stale_ids sid p rows) : gset OccurrenceId) =
    dom (filter (λ row, stale sid p row.2 = true) rows).
Proof.
  apply set_eq. intros id. rewrite elem_of_list_to_set, elem_of_stale_ids, elem_of_dom.
  unfold is_Some. setoid_rewrite map_lookup_filter_Some. done.
Qed.

(** ** The commit *)

(** What the supersession part of a commit runs to. *)
Record swept_schedule_of (w : ScheduleWrite) (rows : gmap OccurrenceId Occurrence)
    (ws : list OccurrenceWrite) (s : Schedule) : Prop := {
  feedback_schedule : s = with_acks (ack_ids s) (sw_schedule w);
  feedback_acks : ack_ids s =
    match sw_pending_supersession w with
    | None => ack_ids (sw_schedule w)
    | Some p => dom (filter (λ row, stale (sched_id (sw_schedule w)) p row.2 = true) rows)
    end;
  feedback_swept :
    match sw_pending_supersession w with
    | None => s = sw_schedule w ∧ ws = []
    | Some p => swept (sched_id (sw_schedule w)) (superseded_by p) (ack_ids s) ws
    end;
}.

Lemma run_sweep w st fresh now :
  announces w → schedule_row_ok (sw_schedule w) → store_inv st →
  ∃ st' ws s,
    sweep (sw_schedule w) (sw_pending_supersession w) st = (st', Ok ws) ∧
    schedules st' = schedules st ∧
    occurrences st' = match sw_pending_supersession w with
      | None => occurrences st
      | Some p => swept_form (sched_id (sw_schedule w)) p <$> occurrences st end ∧
    apply_supersession_feedback fresh now (sw_schedule w) (concat (ow_acks <$> ws)) = Ok s ∧
    swept_schedule_of w (occurrences st) ws s.
Proof.
  intros Hreq Hok Hinv.
  destruct (sw_pending_supersession w) as [p|] eqn:Hpend; cbn [sweep].
  2: { exists st, [], (sw_schedule w). do 4 (split; [done|]).
    split; rewrite ?Hpend; [apply with_acks_same|done..]. }
  destruct (Hreq _ Hpend) as (Hrev & Hempty & ms & Hms).
  set (sid := sched_id (sw_schedule w)). set (ids := stale_ids sid p (occurrences st)).
  destruct (run_sweep_all sid p ms ids st Hinv Hms) as (st' & ws & Hws & Hs & Ho & Hacks).
  { apply NoDup_stale_ids. }
  { intros id. apply elem_of_stale_ids. }
  eexists st', ws, _.
  rewrite (run_bind_ok _ _ _ _ _ (run_sweep_ids sid p st Hinv)). fold ids.
  rewrite (swept_all_acks _ _ _ _ Hacks). rewrite feedback_acknowledges; [|done|by apply Forall_fmap, Forall_true].
  do 2 (split; [done|]). split; [by rewrite Ho; apply sweep_rows_stale|].
  split; [done|].
  destruct (acknowledged_ids ((λ id, {| ack_schedule_id := sid; ack_occurrence_id := id;
    ack_superseding_revision := superseded_by p |}) <$> ids) (sw_schedule w)) as (Hids & Hm).
  rewrite Hempty, <-list_fmap_compose, list_fmap_id, (right_id_L ∅ (∪)) in Hids.
  split; rewrite ?Hpend; [exact Hm|unfold ack_ids; rewrite Hids; apply list_to_set_stale|].
  exists ids. split; [apply NoDup_stale_ids|]. unfold ack_ids. by rewrite Hids.
Qed.

(** A screened commit succeeds, and what it leaves. *)
Lemma commit_runs w planned projection now st :
  store_inv st → announces w →
  Forall planned_valid planned → commit_screened w planned st = true →
  ∃ st' mc, commit_schedule_mutation_with_refill w planned projection now st = (st', Ok mc) ∧
    committed w (insert_rows planned (occurrences st))
      (schedules st' !! sched_id (sw_schedule w)) (occurrences st') mc.
Proof.
  intros Hinv Hreq Hplanned [[Hpre Hscr]%andb_true_iff Hval]%andb_true_iff.
  unfold commit_schedule_mutation_with_refill, check_schedule_precondition.
  rewrite (run_bind_ok _ _ st st st) by done.
  rewrite (run_bind_ok _ _ st st tt).
  2: { rewrite (run_bind_ok _ _ st st st) by done.
       by destruct (check_current _ _) as [[]| | |]. }
  pose proof (run_screen_all planned st Hinv) as Hall. rewrite Hscr in Hall.
  destruct Hall as [l Hl]. rewrite (run_bind_ok _ _ _ _ _ Hl).
  assert (Hv : schedule_row_ok (sw_schedule w)).
  { unfold schedule_row_ok.
    by destruct (validate_schedule_machine_projection (sw_schedule w)) as [[]| | |]. }
  rewrite (run_bind_ok _ _ st st tt) by (unfold lift; by rewrite Hv).
  set (st1 := put_schedule (sw_schedule w) st).
  rewrite (run_bind_ok _ _ st st1 tt) by done.
  assert (Hinv1 : store_inv st1) by by apply inv_put_schedule.
  destruct (run_insert_all now planned st1 Hplanned) as (st2 & l2 & Hl2 & Hs2 & Ho2).
  rewrite (run_bind_ok _ _ _ _ _ Hl2).
  assert (Hinv2 : store_inv st2).
  { pose proof (preserves_for_each store_inv _ planned (inv_insert_planned now) st1 Hinv1) as Hp.
    by rewrite Hl2 in Hp. }
  destruct (run_sweep w st2 (sched_id (sw_schedule w)) now Hreq Hv Hinv2)
    as (st3 & ws & s & Hws & Hs3 & Ho3 & Hfb & [Hs Hacks Hswept]).
  rewrite (run_bind_ok _ _ _ _ _ Hws), (run_bind_ok _ _ st3 st3 s).
  2: { unfold lift. by rewrite Hfb. }
  rewrite (run_bind_ok _ _ _ (put_schedule s st3) tt) by done.
  rewrite (run_bind_ok _ _ _ _ tt) by done. eexists _, _. split; [done|].
  destruct (update_refill_rows (schedules st !! sched_id (sw_schedule w)) s projection now
    (put_schedule s st3)) as [Ho4 Hs4].
  assert (Hid : sched_id s = sched_id (sw_schedule w)) by by rewrite Hs.
  rewrite Ho2 in Ho3, Hacks.
  split; [by split| |by rewrite Ho4|done].
  rewrite Hs4. cbn. by rewrite Hid, lookup_insert_eq.
Qed.

Lemma commit_refused w planned projection now st :
  store_inv st → commit_screened w planned st = false →
  ∃ e, commit_schedule_mutation_with_refill w planned projection now st = (st, Err e).
Proof.
  unfold commit_screened. intros Hinv Hscr.
  unfold commit_schedule_mutation_with_refill, check_schedule_precondition.
  rewrite (run_bind_ok _ _ st st st) by done.
  destruct (check_schedule_cases (sw_precondition w) st (sched_id (sw_schedule w)) Hinv)
    as [Hc|[e Hc]].
  2: { eexists. apply run_bind_err. rewrite (run_bind_ok _ _ st st st) by done.
    unfold lift. by rewrite Hc. }
  rewrite Hc in Hscr. cbn in Hscr.
  rewrite (run_bind_ok _ _ st st tt).
  2: { rewrite (run_bind_ok _ _ st st st) by done. unfold lift. by rewrite Hc. }
  pose proof (run_screen_all planned st Hinv) as Hall.
  destruct (forallb (planned_screened st) planned), Hall as [x Hx];
    [|eexists; by apply run_bind_err].
  rewrite (run_bind_ok _ _ _ _ _ Hx). cbn in Hscr.
  destruct (validate_schedule_cases (sw_schedule w)) as [Hv|[e Hv]]; rewrite Hv in Hscr; [done|].
  eexists. apply run_bind_err. unfold lift. by rewrite Hv.
Qed.
End commit.
