(* ===== verification/DemoStore.v ===== *)
(** * DemoStore: a small store for the examples

    Two occurrences of one schedule, planned for the first millisecond; the
    payload keys are those of the machines' initial states. *)

From stdpp Require Import gmap.
From S2P Require Import Prelude Text Chrono ScheduleTypes Targets Millis Authority ExecutorLease.
From S2P Require Import ScheduleLifecycle OccurrenceLifecycle Rows RowFacts ScheduleRows.
From S2P Require Import StoreTypes MemoryStore MemoryClaims MemoryFacts.

#[local] Existing Instance dev_profile.

(** Payloads are units; targets are host runnables, whose names are their keys. *)
Definition demo_targets : TargetData := {|
  ContentInput := unit; RenderMetadata := unit; SkillRef := unit; JsonValue := unit;
  SessionMaterializationSpec := unit; ToolAccessPolicy := unit; ResolvedSpawnSnapshot := unit;
  ForkContextSpec := unit; PrincipalRef := unit |}.
#[local] Existing Instance demo_targets.

Definition runnable_target (name : string) : TargetBinding :=
  HostRunnable {| runnable := name; runnable_params := None |}.

Definition demo_data : RowData := {|
  runtime_outcome_authority_key _ := "delivered";
  target_stable_key target :=
    match target with HostRunnable binding => runnable binding | _ => "target-session" end;
  trigger_stable_key t := match t with Once _ => "trigger-0" | _ => "trigger-1" end;
  misfire_policy_stable_key p :=
    match p with Skip => "misfire:skip" | CatchUpWithin _ => "misfire:catch_up" end;
  overlap_policy_stable_key p :=
    match p with OverlapPolicy_SkipIfRunning => "overlap:skip_if_running" | _ => "overlap:other" end;
  missing_target_policy_stable_key p :=
    match p with
    | MissingTargetPolicy_MarkMisfired => "missing_target:mark_misfired"
    | _ => "missing_target:other" end;
|}.
#[local] Existing Instance demo_data.

(** A fingerprint is the revision or the attempt count. *)
Definition demo_codec : RowCodec := {|
  Fingerprint := N;
  schedule_bytes s := ScheduleLifecycle.revision (schedule_machine s);
  occurrence_bytes o := attempt_count (occurrence_machine o);
|}.
#[local] Existing Instance demo_codec.

(** Thirty-three seconds: past the skip policy's grace of the rows. *)
Definition demo_now : DateTime := UniformClock.at_seconds 33.

Definition demo_schedule : Schedule := {|
  schedule_machine := schedule_init;
  schedule_trigger := Once (UniformClock.at_seconds 60);
  schedule_target := runnable_target "target-0";
  schedule_misfire_policy := Skip;
  schedule_config := {| config_name := None; config_description := None; config_labels := ∅;
    created_at_utc := demo_now; updated_at_utc := demo_now; deleted_at_utc := None;
    commissioning_agent := None |};
|}.

Definition demo_row (id : string) : Occurrence := {|
  occurrence_machine := occurrence_init <| OccurrenceLifecycle.occurrence_id := id |>
    <| misfire_deadline_utc_ms := 30001%N |>;
  trigger_snapshot := Once (UniformClock.at_seconds 60); target_snapshot := runnable_target "target-0";
  occurrence_policy := Skip; last_receipt := None; runtime_outcome := None;
|}.

Definition demo_store : MemoryScheduleState :=
  put_occurrence (demo_row "occ-a") (put_occurrence (demo_row "occ-b")
    (put_schedule demo_schedule memory_init)).

Lemma demo_row_ok id : row_ok (demo_row id).
Proof. vm_compute. reflexivity. Qed.

Lemma demo_schedule_ok : schedule_row_ok demo_schedule.
Proof. vm_compute. reflexivity. Qed.

Lemma demo_store_inv : store_inv demo_store.
Proof.
  do 2 (apply inv_put_occurrence; [apply demo_row_ok|]).
  apply inv_put_schedule; [apply demo_schedule_ok|apply memory_init_inv].
Qed.

(** A new target revises the schedule. *)
Definition demo_revise : ScheduleRequest := Update {|
  expected_revision := Some 1%N; update_name := None; update_description := None;
  update_labels := None; update_trigger := None; update_target := Some (runnable_target "target-1");
  update_misfire_policy := None; update_overlap_policy := None;
  update_missing_target_policy := None; update_horizon_days := None;
  update_horizon_occurrences := None |} (UniformClock.at_seconds 2).

(** Resolving a misfire takes "occ-a" out of [Pending]. *)
Definition demo_misfire : store_op :=
  OpTransition "occ-a" 0 None (ResolveDueMisfire None demo_now).

Definition demo_planned (id : string) : OccurrenceWrite := {|
  ow_occurrence := demo_row id; ow_effects := []; ow_precondition := Absent id; ow_acks := [] |}.

(** A schedule is committed with two rows; one misfires, and a second commit of
    the same write is refused. *)
Definition demo_ops : list (store_op * DateTime) :=
  let create := {| sw_schedule := demo_schedule; sw_effects := []; sw_revision_bumped := false;
                   sw_precondition := Absent "schedule-0"; sw_pending_supersession := None |} in
  [(OpCommitMutation create [demo_planned "occ-a"; demo_planned "occ-b"] Derive, demo_now);
   (OpTransition "occ-b" 0 None (ResolveDueMisfire None demo_now), demo_now);
   (OpCommitScheduleWrite create, demo_now)].
