(* ===== verification/MemoryProps.v ===== *)
(** * MemoryProps: properties of the in-memory schedule store

    The invariant of the store, what an atomic schedule commit amounts to, that
    no live occurrence of an older revision survives a supersession, and that
    every departure from [Pending] makes its schedule due for planning. *)

From stdpp Require Import gmap.
From S2P Require Import Prelude Text Chrono ScheduleTypes Millis Authority ExecutorLease.
From S2P Require Import ScheduleLifecycle OccurrenceLifecycle OccurrenceFacts Rows RowFacts.
From S2P Require Import RowValidity RowOutcomes ScheduleRows StoreTypes StoreContract MemoryStore MemoryClaims ClaimRows.
From S2P Require Import MemoryFacts MemoryCommit DemoStore.

Section facts.
Context `{RowCodec} {HL : ChronoLaws} {BP : BuildProfile}.

#[local] Existing Instances store_ret store_bind.

(** ** No stale row *)

Lemma superseded_form_terminal p o w :
  occurrence_apply o (Supersede (superseded_by p) (supersession_at_utc p)) = Ok w →
  is_terminal (lifecycle_phase (occurrence_machine o)) = false →
  superseded_form p o = ow_occurrence w ∧
  lifecycle_phase (occurrence_machine (superseded_form p o)) = Superseded ∧
  superseded_by_revision (occurrence_machine (superseded_form p o)) = Some (superseded_by p).
Proof.
  intros Hw Hlive. destruct (supersede_row _ _ _ _ Hw Hlive) as [Hp Hr _ _].
  unfold superseded_form. by rewrite Hw.
Qed.

Lemma stale_row_superseded sid p o ms :
  row_ok o → millis_to_datetime ms = Some (supersession_at_utc p) → stale sid p o = true →
  row_ok (superseded_form p o) ∧
  lifecycle_phase (occurrence_machine (superseded_form p o)) = Superseded ∧
  superseded_by_revision (occurrence_machine (superseded_form p o)) = Some (superseded_by p).
Proof.
  intros Hok Hms (_ & _ & Hlive)%stale_spec; [|done].
  destruct (supersede_live_row o (superseded_by p) ms _ Hok Hlive Hms) as (w & _ & Hw & _).
  destruct (superseded_form_terminal p o w Hw Hlive) as (Hf & Hp). split; [|done].
  rewrite Hf. by eapply apply_row_ok.
Qed.

Lemma swept_form_terminal sid p o ms :
  row_ok o → millis_to_datetime ms = Some (supersession_at_utc p) →
  schedule_id (occurrence_machine (swept_form sid p o)) = sid →
  (schedule_revision (occurrence_machine (swept_form sid p o)) < superseded_by p)%N →
  occurrence_is_terminal (swept_form sid p o) = Some true.
Proof.
  intros Hok Hms Hsid Hrev. unfold swept_form in *. destruct (stale sid p o) eqn:Hst.
  - destruct (stale_row_superseded _ _ _ _ Hok Hms Hst) as (Hok' & Hp & _).
    by rewrite valid_row_terminality, Hp.
  - destruct (supersedable_total sid (superseded_by p) o Hok) as [b Hb].
    rewrite stale_supersedable, Hb in Hst. cbn in Hst. subst b.
    unfold supersedable in Hb. rewrite bool_decide_eq_true_2 in Hb by done.
    apply bind_Some in Hb as (terminal & Hterm & [= Hb]).
    rewrite (proj2 (N.ltb_lt _ _)), andb_true_r in Hb by done.
    apply negb_false_iff in Hb. by subst terminal.
Qed.

(** ** Departures *)

Lemma set_deadline_lookup id d st :
  refill_deadlines (memory_set_schedule_refill_deadline id (Some d) st) !! id = Some d.
Proof.
  unfold memory_set_schedule_refill_deadline.
  destruct (refill_deadlines st !! id); cbn; by rewrite lookup_insert_eq.
Qed.

Lemma dt_min_le a b : (ns (dt_min a b) ≤ ns b)%Z.
Proof.
  unfold dt_min, dt_leb. destruct (Z.leb_spec (ns a) (ns b)); lia.
Qed.

Definition is_current (st : MemoryScheduleState) (o : Occurrence) : Prop :=
  ∃ s, schedules st !! schedule_id (occurrence_machine o) = Some s ∧
    sched_phase s = Active ∧ sched_revision s = schedule_revision (occurrence_machine o).

(** The row still waits for the revision it was planned for. *)
Definition still_pending (a b : Occurrence) : Prop :=
  lifecycle_phase (occurrence_machine b) = Pending ∧
  schedule_id (occurrence_machine b) = schedule_id (occurrence_machine a) ∧
  schedule_revision (occurrence_machine b) = schedule_revision (occurrence_machine a).

Definition due_for_planning (id : ScheduleId) (now : DateTime) (st : MemoryScheduleState) : Prop :=
  ∃ d, refill_deadlines st !! id = Some d ∧ (ns d ≤ ns now)%Z.

Lemma note_departure_due a b now st :
  lifecycle_phase (occurrence_machine a) = Pending → is_current st a → ¬ still_pending a b →
  due_for_planning (schedule_id (occurrence_machine a)) now
    (memory_note_pending_departure a b now st).
Proof.
  intros Hp (s & Hs & Hphase & Hrev) Hgone. unfold memory_note_pending_departure.
  rewrite Hp, (bool_decide_eq_true_2 (Pending = Pending)) by done. cbn [negb orb].
  assert (Hb : (lifecycle_phase (occurrence_machine b) == Pending)
    && (schedule_id (occurrence_machine b) == schedule_id (occurrence_machine a))
    && (schedule_revision (occurrence_machine b) == schedule_revision (occurrence_machine a))
    = false).
  { destruct (_ && _) eqn:Hb; [|done]. prop_guards. by exfalso; apply Hgone. }
  rewrite Hb, Hs, Hphase, Hrev, !bool_decide_eq_true_2 by done. cbn [andb].
  eexists. split; [apply set_deadline_lookup|apply dt_min_le].
Qed.

Lemma note_departure_keeps_due a b now id st :
  due_for_planning id now st → due_for_planning id now (memory_note_pending_departure a b now st).
Proof.
  intros Hdue. unfold memory_note_pending_departure. destruct (_ || _); [done|].
  destruct (schedules st !! _); [|done]. destruct (_ && _); [|done].
  destruct (decide (id = schedule_id (occurrence_machine a))) as [->|Hne].
  { eexists. split; [apply set_deadline_lookup|apply dt_min_le]. }
  destruct Hdue as (d & Hd & Hle). exists d. split; [|done].
  unfold memory_set_schedule_refill_deadline.
  destruct (refill_deadlines st !! schedule_id (occurrence_machine a)); cbn;
    by rewrite ?lookup_insert_ne, ?lookup_delete_ne.
Qed.

(** Every row is left alone or replaced, departures are noted, and a schedule
    that is due stays due. *)
Record departs_to (now : DateTime) (st st' : MemoryScheduleState) : Prop := {
  departs_schedules : schedules st' = schedules st;
  departs_due id : due_for_planning id now st → due_for_planning id now st';
  departs_rows id a : occurrences st !! id = Some a →
    ∃ b, occurrences st' !! id = Some b ∧
      (lifecycle_phase (occurrence_machine a) = Pending → is_current st a →
       still_pending a b ∨ due_for_planning (schedule_id (occurrence_machine a)) now st');
}.

Lemma departs_refl now st st' :
  occurrences st' = occurrences st → schedules st' = schedules st →
  refill_deadlines st' = refill_deadlines st → departs_to now st st'.
Proof.
  intros Ho Hs Hr. split; [done| |].
  - intros id (d & Hd & Hle). exists d. by rewrite Hr.
  - intros id a Ha. exists a. rewrite Ho. split; [done|]. by left.
Qed.

#[export] Instance departs_to_trans now : Transitive (departs_to now).
Proof.
  intros st st1 st2 [Hs1 Hd1 Hr1] [Hs2 Hd2 Hr2]. split; [congruence|auto|].
  intros id a Ha. destruct (Hr1 id a Ha) as (b & Hb & Hab).
  destruct (Hr2 id b Hb) as (c & Hc & Hbc). exists c. split; [done|]. intros Hp Hcur.
  destruct (Hab Hp Hcur) as [(Hbp & Hbs & Hbr)|Hdue]; [|right; auto].
  destruct Hbc as [(Hcp & Hcs & Hcr)|Hdue]; [done| | |].
  - destruct Hcur as (s & Hs). exists s. by rewrite Hs1, Hbs, Hbr.
  - left. split; [done|]. split; congruence.
  - right. by rewrite <-Hbs.
Qed.

Lemma still_pending_dec a b : Decision (still_pending a b).
Proof. unfold still_pending. apply _. Qed.

Lemma departs_noted now st st1 a b :
  occurrences st1 = occurrences st → schedules st1 = schedules st →
  refill_deadlines st1 = refill_deadlines st → occurrences st !! occ_id b = Some a →
  departs_to now st (put_occurrence b (memory_note_pending_departure a b now st1)).
Proof.
  intros Ho Hs Hr Ha. destruct (note_departure_rows a b now st1) as [Ho' Hs'].
  split; [cbn; by rewrite Hs', Hs| |].
  - intros id (d & Hd & Hle).
    apply (note_departure_keeps_due a b now id st1). exists d. by rewrite Hr.
  - intros id a' Ha'. cbn. rewrite Ho', Ho. destruct (decide (id = occ_id b)) as [->|Hne].
    2: { exists a'. rewrite lookup_insert_ne by done. split; [done|]. by left. }
    exists b. rewrite lookup_insert_eq. split; [done|].
    assert (a' = a) as -> by congruence. intros Hp (s & Hc).
    destruct (still_pending_dec a b); [by left|right].
    apply (note_departure_due a b now st1 Hp); [|done]. exists s. by rewrite Hs.
Qed.

Lemma departs_new now st b :
  occurrences st !! occ_id b = None → departs_to now st (put_occurrence b st).
Proof.
  intros Hn. split; [done|done|]. intros id a Ha. exists a. cbn.
  rewrite lookup_insert_ne by (intros <-; congruence). split; [done|]. by left.
Qed.

Lemma departs_not_pending now st st1 a b :
  occurrences st1 = occurrences st → schedules st1 = schedules st →
  refill_deadlines st1 = refill_deadlines st → occurrences st !! occ_id b = Some a →
  lifecycle_phase (occurrence_machine a) ≠ Pending → departs_to now st (put_occurrence b st1).
Proof.
  intros Ho Hs Hr Ha Hp. split; [done| |].
  - intros id (d & Hd & Hle). exists d. cbn. by rewrite Hr.
  - intros id a' Ha'. cbn. rewrite Ho. destruct (decide (id = occ_id b)) as [->|Hne].
    + exists b. rewrite lookup_insert_eq. split; [done|]. congruence.
    + exists a'. rewrite lookup_insert_ne by done. split; [done|]. by left.
Qed.

(** Calls that change one occurrence in place. *)
Definition occurrence_op (op : store_op) : bool :=
  match op with
  | OpCommitOccurrenceWrite _ | OpRenewLease _ | OpClaimDue _ _ _ => true
  | OpTransition _ _ _ i | OpTransitionWithReceipt _ _ _ i _ => in_place i
  | _ => false
  end.

(** *** Operation by operation *)

Lemma commit_occurrence_departs w now st :
  store_inv st → departs_to now st (commit_occurrence_write w now st).1.
Proof.
  intros Hinv. unfold commit_occurrence_write, check_occurrence_precondition.
  destruct (check_occurrence_cases (ow_precondition w) st (occ_id (ow_occurrence w)) Hinv)
    as [Hc|[e Hc]].
  2: { rewrite (run_bind_err _ _ st st (ConcurrencyRow e)); [by apply departs_refl|].
    rewrite (run_bind_ok _ _ st st st) by done. unfold lift. by rewrite Hc. }
  rewrite (run_bind_ok _ _ st st tt).
  2: { rewrite (run_bind_ok _ _ st st st) by done. unfold lift. by rewrite Hc. }
  unfold insert_planned.
  destruct (validate_occurrence_machine_projection (ow_occurrence w)) as [[]|e| |] eqn:Hv;
    [|by apply departs_refl..].
  destruct (occurrences st !! occ_id (ow_occurrence w)) as [a|] eqn:Ha.
  - rewrite (run_bind_ok _ _ st
      (put_occurrence (ow_occurrence w)
        (memory_note_pending_departure a (ow_occurrence w) now st)) tt).
    2: { rewrite (run_bind_ok _ _ st st tt) by done.
         rewrite (run_bind_ok _ _ st st st) by done. rewrite Ha. done. }
    by apply departs_noted.
  - rewrite (run_bind_ok _ _ st (put_occurrence (ow_occurrence w) st) tt).
    2: { rewrite (run_bind_ok _ _ st st tt) by done.
         rewrite (run_bind_ok _ _ st st st) by done. rewrite Ha. done. }
    by apply departs_new.
Qed.

(** An operation that reads one row and writes its successor, or nothing. *)
Lemma transition_departs id attempt token i now st :
  store_inv st → in_place i = true →
  departs_to now st (transition_occurrence_if_current id attempt token i now st).1.
Proof.
  intros Hinv Hi. unfold transition_occurrence_if_current.
  rewrite (run_bind_ok _ _ st st st) by done.
  destruct (occurrences st !! id) as [a|] eqn:Ha; [|by apply departs_refl].
  destruct (negb _); [by apply departs_refl|].
  destruct (occurrence_apply a i) as [w|e| |] eqn:Hw; [|by apply departs_refl..].
  rewrite (run_bind_ok _ _ st st w) by done. cbn.
  pose proof (occurrence_apply_identity _ _ _ Hi Hw) as (Hid & _).
  destruct (inv_occurrences _ Hinv _ _ Ha) as [Hkey _].
  apply departs_noted; [done..|]. unfold occ_id in *. by rewrite Hid, Hkey.
Qed.

Lemma transition_with_receipt_departs id attempt token i outcome now st :
  store_inv st → in_place i = true →
  departs_to now st
    (transition_occurrence_with_receipt_if_current id attempt token i outcome now st).1.
Proof.
  intros Hinv Hi. unfold transition_occurrence_with_receipt_if_current.
  rewrite (run_bind_ok _ _ st st st) by done.
  destruct (occurrences st !! id) as [a|] eqn:Ha; [|by apply departs_refl].
  destruct (negb _); [by apply departs_refl|].
  destruct (occurrence_apply a i) as [w|e| |] eqn:Hw; [|by apply departs_refl..].
  rewrite (run_bind_ok _ _ st st w) by done.
  destruct (with_receipt w outcome) as [w'|e| |] eqn:Hr; [|by apply departs_refl..].
  rewrite (run_bind_ok _ _ st st w') by done.
  destruct (last_receipt (ow_occurrence w')) as [r|]; [|by apply departs_refl]. cbn.
  pose proof (occurrence_apply_identity _ _ _ Hi Hw) as (Hid & _).
  destruct (with_receipt_receipted _ _ _ Hr) as [_ (Hid' & _) _ _].
  destruct (inv_occurrences _ Hinv _ _ Ha) as [Hkey _].
  apply departs_noted; [done..|]. unfold occ_id in *. by rewrite Hid', Hid, Hkey.
Qed.

Lemma renew_departs r now st :
  store_inv st → departs_to now st (renew_occurrence_lease_if_current r now st).1.
Proof.
  intros Hinv. unfold renew_occurrence_lease_if_current.
  rewrite (run_bind_ok _ _ st st st) by done.
  destruct (occurrences st !! _) as [a|] eqn:Ha; [|by apply departs_refl].
  destruct (_ || _); [by apply departs_refl|].
  destruct (add_signed now _) as [expiry|]; [|by apply departs_refl].
  rewrite (run_bind_ok _ _ st st expiry) by done.
  destruct (occurrence_apply a _) as [w|e| |] eqn:Hw; [|by apply departs_refl..].
  rewrite (run_bind_ok _ _ st st w) by done. cbn.
  assert (Hsame : same_identity (occurrence_machine a) (occurrence_machine (ow_occurrence w)))
    by by eapply occurrence_apply_identity; [|exact Hw].
  destruct Hsame as (Hid & _).
  destruct (inv_occurrences _ Hinv _ _ Ha) as [Hkey _].
  apply (departs_not_pending _ _ _ a); [done..| |by eapply renew_not_pending].
  unfold occ_id in *. by rewrite Hid, Hkey.
Qed.

(** *** The claim scan *)

Lemma resolve_due_departs o action evidence now st :
  occurrences st !! occ_id o = Some o →
  departs_to now st (memory_resolve_due_terminal o action evidence now st).1.
Proof.
  intros Ho. unfold memory_resolve_due_terminal.
  destruct (resolved_write o action evidence now) as [w|e| |] eqn:Hw.
  - rewrite (run_bind_ok _ _ st st (inl w)) by done.
    destruct (last_receipt (ow_occurrence w)) as [r|]; [|by apply departs_refl]. cbn.
    apply departs_noted; [done..|]. by destruct (resolved_write_resolved _ _ _ _ _ Hw) as [_ -> _ _].
  - rewrite (run_bind_ok _ _ st st (inr e)) by done. by apply departs_refl.
  - by apply departs_refl.
  - by apply departs_refl.
Qed.

Lemma run_bind_fst {A B} (m : Store A) (f : A → Store B) st :
  (∀ a st1, (f a st1).1 = st1) → ((m ≫= f) st).1 = (m st).1.
Proof. intros Hf. unfold mbind, store_bind. destruct (m st) as [st1 [a| | |]]; by cbn. Qed.

Lemma scan_row_departs request now token id acc st :
  store_inv st → departs_to now st (scan_row request now token id acc st).1.
Proof.
  intros Hinv. unfold scan_row. rewrite (run_bind_ok _ _ st st st) by done.
  destruct (occurrences st !! id) as [o|] eqn:Ho; [|by apply departs_refl].
  destruct (inv_occurrences _ Hinv _ _ Ho) as [Hkey _]. rewrite <-Hkey in Ho.
  set (evidence := memory_admission_evidence st o).
  destruct (classify_due_action o now evidence) as [verdict|e| |]; [|by apply departs_refl..].
  rewrite (run_bind_ok _ _ st st (inl verdict)) by done.
  destruct verdict as [[]|]; [| | | |by apply departs_refl].
  - unfold claim_eligible_row. destruct (_ <=? _)%nat; [by apply departs_refl|].
    destruct (claim_occurrence o request now evidence token) as [w| | |] eqn:Hw;
      [|by apply departs_refl..].
    rewrite (run_bind_ok _ _ st st w) by done. cbn.
    apply departs_noted; [done..|]. by destruct (claim_claims _ _ _ _ _ _ Hw) as (_ & -> & _).
  - rewrite run_bind_fst by done. by apply resolve_due_departs.
  - unfold lease_expired_row. destruct (_ <=? _)%nat; [by apply departs_refl|].
    destruct (expire_occurrence_lease o now) as [[w r]|e| |] eqn:Hx; [|by apply departs_refl..].
    rewrite (run_bind_ok _ _ st st (inl (w, r))) by done.
    destruct (expire_expired _ _ _ _ Hx) as [_ Hid _ Hp].
    set (st1 := push_receipt (r_occurrence_id r) r st).
    rewrite (run_bind_ok _ _ st st1 tt) by done.
    destruct (claim_occurrence (ow_occurrence w) request now evidence token) as [c|e| |] eqn:Hc.
    + rewrite (run_bind_ok _ _ st1 st1 (inl c)) by done.
      destruct (absorb_followup w c) as [w'| | |] eqn:Hw'; [|by apply departs_refl..].
      rewrite (run_bind_ok _ _ st1 st1 w') by done. cbn.
      apply (departs_not_pending _ _ _ o); [done..| |done].
      destruct (claim_claims _ _ _ _ _ _ Hc) as (_ & Hid' & _).
      by rewrite (absorb_row _ _ _ Hw'), Hid', Hid.
    + rewrite (run_bind_ok _ _ st1 st1 (inr e)) by done. unfold reclaim_refused.
      set (st2 := put_occurrence (ow_occurrence w) st1).
      rewrite (run_bind_ok _ _ st1 st2 tt) by done.
      transitivity st2.
      { apply (departs_not_pending _ _ _ o); [done..| |done]. by rewrite Hid. }
      destruct (classify_due_action (ow_occurrence w) now evidence) as [v| | |];
        [rewrite (run_bind_ok _ _ st2 st2 (inl v)) by done|
         rewrite (run_bind_ok _ _ st2 st2 (inr e0)) by done|..]; try by apply departs_refl.
      destruct v as [[]|]; try by apply departs_refl.
      rewrite run_bind_fst by done. apply resolve_due_departs. cbn. by rewrite lookup_insert_eq.
    + by apply departs_refl.
    + by apply departs_refl.
  - rewrite run_bind_fst by done. by apply resolve_due_departs.
Qed.

Lemma scan_rows_departs request now fresh ids acc st :
  store_inv st → departs_to now st (scan_rows request now fresh ids acc st).1.
Proof.
  revert acc st. induction ids as [|id ids IH]; intros acc st Hinv; cbn [scan_rows].
  { by apply departs_refl. }
  pose proof (scan_row_departs request now (fresh id) id acc st Hinv) as Hd.
  pose proof (inv_scan_row request now (fresh id) id acc st Hinv) as Hinv1.
  unfold mbind, store_bind. destruct (scan_row _ _ _ _ _ st) as [st1 [acc1| | |]]; cbn in *; [|done..].
  transitivity st1; [done|]. by apply IH.
Qed.

Lemma claim_due_departs lease request now fresh st :
  store_inv st → departs_to now st (claim_due_occurrences lease request now fresh st).1.
Proof.
  intros Hinv. unfold claim_due_occurrences. rewrite (run_bind_ok _ _ st st st) by done.
  destruct (negb _); [by apply departs_refl|]. destruct (_ =? _)%nat; [by apply departs_refl|].
  by apply scan_rows_departs.
Qed.

Lemma occurrence_op_departs op now st :
  store_inv st → occurrence_op op = true → departs_to now st (store_step op now st).
Proof.
  intros Hinv Hop. destruct op; try done; cbn [store_step].
  - by apply commit_occurrence_departs.
  - by apply transition_departs.
  - by apply transition_with_receipt_departs.
  - by apply renew_departs.
  - by apply claim_due_departs.
Qed.

(** ** Properties *)

(** C26: whatever calls are made on a fresh store, failed ones included, every
    row is kept under its own identifier and passes the validation a reader
    would give it, and the refill queue holds exactly the recorded refill
    deadlines. *)
Theorem memory_store_consistent ops : store_inv (store_run ops memory_init).
Proof. apply inv_store_run, memory_init_inv. Qed.

(** C25: the atomic commit of an applied schedule request either checks its
    preconditions and then cannot fail on valid planned rows, maps the
    supersession over exactly the live rows of older revisions and acknowledges
    exactly those, or it returns an error and leaves the store as it was; it
    never panics. *)
Theorem memory_commit_exact fresh at_utc so request w planned projection now st :
  store_inv st → schedule_apply fresh at_utc so request = Ok w → Forall planned_valid planned →
  if commit_screened w planned st then
    ∃ st' mc, commit_schedule_mutation_with_refill w planned projection now st = (st', Ok mc) ∧
      committed w (insert_rows planned (occurrences st))
      (schedules st' !! sched_id (sw_schedule w)) (occurrences st') mc
  else ∃ e, commit_schedule_mutation_with_refill w planned projection now st = (st, Err e).
Proof.
  intros Hinv Hreq%schedule_apply_requested%requested_announces Hplanned.
  destruct (commit_screened w planned st) eqn:Hscr; [by apply commit_runs|by apply commit_refused].
Qed.

(** once a revision or deletion is committed, every occurrence of the
    schedule planned for an older revision is terminal. *)
Theorem memory_commit_leaves_no_stale fresh at_utc so request w planned projection now st st' mc p id o :
  store_inv st → schedule_apply fresh at_utc so request = Ok w → Forall planned_valid planned →
  commit_schedule_mutation_with_refill w planned projection now st = (st', Ok mc) →
  sw_pending_supersession w = Some p → occurrences st' !! id = Some o →
  schedule_id (occurrence_machine o) = sched_id (mc_schedule mc) →
  (schedule_revision (occurrence_machine o) < sched_revision (mc_schedule mc))%N →
  occurrence_is_terminal o = Some true.
Proof.
  intros Hinv Hreq%schedule_apply_requested%requested_announces Hplanned Hrun Hp Ho Hsid Hrev.
  destruct (commit_screened w planned st) eqn:Hscr.
  2: { destruct (commit_refused w planned projection now st Hinv Hscr) as [e He]. congruence. }
  destruct (commit_runs w planned projection now st Hinv Hreq Hplanned Hscr)
    as (st1 & mc1 & Hrun1 & Hc). rewrite Hrun in Hrun1. injection Hrun1 as <- <-.
  destruct Hc as [[_ Hmach _] _ Hrows _]. rewrite Hp in Hrows.
  destruct (Hreq _ Hp) as (Hr & _ & ms & Hms).
  rewrite Hrows, lookup_fmap in Ho. apply fmap_Some in Ho as (o0 & Ho0 & ->).
  unfold sched_id, sched_revision in Hsid, Hrev. rewrite Hmach in Hsid, Hrev.
  apply (swept_form_terminal _ _ _ ms); [|done|done|by rewrite Hr].
  by eapply insert_rows_ok.
Qed.

(** an occurrence of the current revision of an active schedule that a
    call takes out of [Pending] leaves its schedule due for planning, so the
    planner refills the horizon. *)
Theorem memory_departure_due op now st id a :
  store_inv st → occurrence_op op = true → occurrences st !! id = Some a →
  lifecycle_phase (occurrence_machine a) = Pending → is_current st a →
  ∃ b, occurrences (store_step op now st) !! id = Some b ∧
    (still_pending a b ∨
     due_for_planning (schedule_id (occurrence_machine a)) now (store_step op now st)).
Proof.
  intros Hinv Hop Ha Hp Hc.
  destruct (departs_rows _ _ _ (occurrence_op_departs op now st Hinv Hop) id a Ha)
    as (b & Hb & Hdue).
  exists b. split; [done|]. by apply Hdue.
Qed.
End facts.

(** ** Examples *)

#[local] Existing Instances dev_profile demo_targets demo_data demo_codec.

Lemma memory_store_consistent_witness :
  store_inv (store_run demo_ops memory_init) ∧
  match occurrences (store_run demo_ops memory_init) !! "occ-b" with
  | Some o => lifecycle_phase (occurrence_machine o) == Misfired | None => false end = true ∧
  bool_decide (size (refill_queue (store_run demo_ops memory_init)) = 1) = true.
Proof.
  split; [exact (memory_store_consistent demo_ops)|]. split; vm_compute; reflexivity.
Defined.

Lemma memory_commit_exact_witness :
  ∃ w st' mc, schedule_apply "" demo_now (Some demo_schedule) demo_revise = Ok w ∧
    commit_schedule_mutation_with_refill w [] Derive demo_now demo_store = (st', Ok mc) ∧
    committed w (occurrences demo_store) (schedules st' !! sched_id (sw_schedule w))
      (occurrences st') mc.
Proof.
  assert (Hscr : match schedule_apply "" demo_now (Some demo_schedule) demo_revise with
    | Ok w => commit_screened w [] demo_store | _ => false end = true)
    by (vm_compute; reflexivity).
  destruct (schedule_apply "" demo_now (Some demo_schedule) demo_revise) as [w| | |] eqn:Hw;
    [|discriminate Hscr..].
  exists w. pose proof (memory_commit_exact "" demo_now (Some demo_schedule) demo_revise w [] Derive
    demo_now demo_store demo_store_inv Hw (Forall_nil_2 _)) as Hex.
  rewrite Hscr in Hex. destruct Hex as (st' & mc & Hrun & Hc). eauto 10.
Defined.

Definition demo_committed : option (ScheduleWrite * MemoryScheduleState * ScheduleMutationCommit) :=
  match schedule_apply "" demo_now (Some demo_schedule) demo_revise with
  | Ok w => match commit_schedule_mutation_with_refill w [] Derive demo_now demo_store with
            | (st', Ok mc) => Some (w, st', mc) | _ => None end
  | _ => None
  end.

Lemma memory_commit_leaves_no_stale_witness :
  ∃ w st' mc o, demo_committed = Some (w, st', mc) ∧ occurrences st' !! "occ-a" = Some o ∧
    occurrence_is_terminal o = Some true.
Proof.
  assert (Hc : match demo_committed with
    | Some (w, st', mc) =>
        match sw_pending_supersession w, occurrences st' !! "occ-a" with
        | Some _, Some o => (schedule_id (occurrence_machine o) == sched_id (mc_schedule mc))
            && (schedule_revision (occurrence_machine o) <? sched_revision (mc_schedule mc))%N
        | _, _ => false
        end
    | None => false end = true) by (vm_compute; reflexivity).
  destruct demo_committed as [[[w st'] mc]|] eqn:Hdemo; [|discriminate Hc].
  unfold demo_committed in Hdemo.
  destruct (schedule_apply "" demo_now (Some demo_schedule) demo_revise) as [w0| | |] eqn:Hw;
    [|discriminate Hdemo..].
  destruct (commit_schedule_mutation_with_refill w0 [] Derive demo_now demo_store)
    as [st0 [mc0| | |]] eqn:Hrun; [|discriminate Hdemo..]. injection Hdemo as -> -> ->.
  destruct (sw_pending_supersession w) as [p|] eqn:Hp; [|discriminate Hc].
  destruct (occurrences st' !! "occ-a") as [o|] eqn:Ho; [|discriminate Hc].
  apply andb_true_iff in Hc as [Hid%bool_decide_eq_true Hrev%N.ltb_lt].
  exists w, st', mc, o. do 2 (split; [done|]).
  exact (memory_commit_leaves_no_stale "" demo_now (Some demo_schedule) demo_revise w [] Derive
    demo_now demo_store st' mc p "occ-a" o demo_store_inv Hw (Forall_nil_2 _)
    Hrun Hp Ho Hid Hrev).
Defined.

Lemma memory_departure_due_witness :
  (∃ b, occurrences (store_step demo_misfire demo_now demo_store) !! "occ-a" = Some b ∧
    (still_pending (demo_row "occ-a") b ∨
     due_for_planning "schedule-0" demo_now (store_step demo_misfire demo_now demo_store))) ∧
  match occurrences (store_step demo_misfire demo_now demo_store) !! "occ-a" with
  | Some b => lifecycle_phase (occurrence_machine b) == Misfired | None => false end = true.
Proof.
  split; [|vm_compute; reflexivity].
  apply (memory_departure_due demo_misfire demo_now demo_store "occ-a" (demo_row "occ-a")
    demo_store_inv); [reflexivity..|].
  exists demo_schedule. repeat split.
Defined.
