(* ===== verification/MemoryClaimFacts.v ===== *)
(** * MemoryClaimFacts: what a due scan does and that it completes

    [scan_step] lists the outcomes of one row of the scan.  Claims stay within
    the limit of the request and are stored with the token drawn for them; only
    due rows of active schedules change; and a scan of a current lease ends,
    whatever the rows are: a row its machine refuses is reported and skipped. *)

From stdpp Require Import gmap sorting.
From S2P Require Import Prelude Text Chrono ScheduleTypes Trigger FirstDue TriggerFacts Millis.
From S2P Require Import Authority ExecutorLease.
From S2P Require Import ScheduleLifecycle OccurrenceLifecycle OccurrenceFacts OccurrenceVerdicts.
From S2P Require Import Rows RowFacts StoreTypes MemoryStore MemoryClaims ClaimRows RowReturns.
From S2P Require Import MemoryFacts MemoryCommit.

Section facts.
Context `{RowCodec} {HL : ChronoLaws} {BP : BuildProfile}.

#[local] Existing Instances store_ret store_bind.

(** ** One row *)

Section row.
Context (request : ClaimDueRequest) (now : DateTime) (token : ClaimToken).
Context (evidence : AdmissionEvidence) (o : Occurrence).

Definition scan_state : Type := MemoryScheduleState * ClaimScan.

(** The new state of a row, its receipt and departure noted. *)
Definition settle (a : Occurrence) (w : OccurrenceWrite) (r : DeliveryReceipt)
    (st : MemoryScheduleState) : MemoryScheduleState :=
  put_occurrence (ow_occurrence w)
    (memory_note_pending_departure a (ow_occurrence w) now
       (push_receipt (occ_id (ow_occurrence w)) r st)).

(** The outcomes of one row. *)
Inductive scan_step (st : MemoryScheduleState) (acc : ClaimScan) : scan_state → Prop :=
| step_idle : scan_step st acc (st, acc)
| step_fault f : scan_step st acc (st, push_fault f acc)
| step_resolve action w r :
    resolved_write o action evidence now = Ok w →
    scan_step st acc (settle o w r st, push_transition w acc)
| step_claim w :
    claimed_count acc < limit request →
    claim_occurrence o request now evidence token = Ok w →
    scan_step st acc
      (put_occurrence (ow_occurrence w) (memory_note_pending_departure o (ow_occurrence w) now st),
       push_claim w acc)
| step_reclaim w r c w' :
    claimed_count acc < limit request →
    expire_occurrence_lease o now = Ok (w, r) →
    claim_occurrence (ow_occurrence w) request now evidence token = Ok c →
    absorb_followup w c = Ok w' →
    scan_step st acc
      (put_occurrence (ow_occurrence w') (push_receipt (r_occurrence_id r) r st), push_claim w' acc)
| step_expire w r f :
    expire_occurrence_lease o now = Ok (w, r) →
    scan_step st acc
      (put_occurrence (ow_occurrence w) (push_receipt (r_occurrence_id r) r st),
       push_fault f (push_transition w acc))
| step_exhaust w r acc' w' r' :
    expire_occurrence_lease o now = Ok (w, r) →
    resolved_write (ow_occurrence w) ReclaimExhausted evidence now = Ok w' →
    acc' = push_transition w' (push_transition w acc) →
    scan_step st acc
      (settle (ow_occurrence w) w' r'
         (put_occurrence (ow_occurrence w) (push_receipt (r_occurrence_id r) r st)), acc').

Lemma resolve_due_runs a action st :
  (∃ w r, resolved_write a action evidence now = Ok w ∧
    memory_resolve_due_terminal a action evidence now st = (settle a w r st, Ok (inl w))) ∨
  (∃ f, memory_resolve_due_terminal a action evidence now st = (st, Ok (inr f))) ∨
  (∀ v, (memory_resolve_due_terminal a action evidence now st).2 ≠ Ok v) ∧
    ¬ returns (resolved_write a action evidence now).
Proof.
  unfold memory_resolve_due_terminal.
  destruct (resolved_write a action evidence now) as [w|e| |] eqn:Hw; [| |by auto..].
  2: { right; left. rewrite (run_bind_ok _ _ st st (inr e)) by done. by eexists. }
  left. rewrite (run_bind_ok _ _ st st (inl w)) by done.
  destruct (resolved_write_resolved _ _ _ _ _ Hw) as [_ _ _ [r Hr]]. rewrite Hr. by exists w, r.
Qed.

Lemma absorb_claim w c :
  claim_occurrence (ow_occurrence w) request now evidence token = Ok c →
  ∃ w', absorb_followup w c = Ok w'.
Proof. intros (lease & _ & Hc)%claim_applied. by eapply absorb_total. Qed.

(** What a row must satisfy for the scan to get past it. *)
Record row_safe : Prop := {
  safe_classify : returns (classify_due_action o now evidence);
  safe_resolve action : returns (resolved_write o action evidence now);
  safe_claim : classify_due_action o now evidence = Ok (Some ClaimEligible) →
    ∃ w, claim_occurrence o request now evidence token = Ok w;
  safe_expire : returns (expire_occurrence_lease o now);
  safe_expired w r : expire_occurrence_lease o now = Ok (w, r) →
    returns (claim_occurrence (ow_occurrence w) request now evidence token) ∧
    returns (classify_due_action (ow_occurrence w) now evidence) ∧
    ∀ action, returns (resolved_write (ow_occurrence w) action evidence now);
}.

Definition scan_result (st : MemoryScheduleState) (acc : ClaimScan)
    (out : MemoryScheduleState * Outcome StoreError ClaimScan) : Prop :=
  (∃ st' acc', out = (st', Ok acc') ∧ scan_step st acc (st', acc')) ∨
  (∀ acc', out.2 ≠ Ok acc') ∧ ¬ row_safe.

Lemma run_bind_not_ok {A B} (m : Store A) (f : A → Store B) st :
  (∀ a, (m st).2 ≠ Ok a) → ∀ b, ((m ≫= f) st).2 ≠ Ok b.
Proof.
  intros Hm b. unfold mbind, store_bind. destruct (m st) as [st' [a| | |]]; cbn in *; try done.
  by destruct (Hm a).
Qed.

Lemma scan_row_result id st acc :
  occurrences st !! id = Some o → memory_admission_evidence st o = evidence →
  scan_result st acc (scan_row request now token id acc st).
Proof.
  intros Ho Hev. unfold scan_row. rewrite (run_bind_ok _ _ st st st) by done. rewrite Ho, Hev.
  destruct (classify_due_action o now evidence) as [verdict|e| |] eqn:Hc.
  2: { left. rewrite (run_bind_ok _ _ st st (inr e)) by done. eexists _, _. split; [done|].
       apply step_fault. }
  2,3: right; split; [done|]; intros [Hs]; by rewrite Hc in Hs.
  rewrite (run_bind_ok _ _ st st (inl verdict)) by done.
  destruct verdict as [action|]; [|left; eexists _, _; split; [done|apply step_idle]].
  assert (Hres : ∀ action, scan_result st acc
    ((memory_resolve_due_terminal o action evidence now ≫= λ r, mret (push_resolution r acc)) st)).
  { intros action'. destruct (resolve_due_runs o action' st)
      as [(w & c & Hw & Hr)|[[f Hr]|[Hr Hbad]]].
    - left. rewrite (run_bind_ok _ _ _ _ _ Hr). eexists _, _. split; [done|].
      by eapply step_resolve.
    - left. rewrite (run_bind_ok _ _ _ _ _ Hr). eexists _, _. split; [done|]. apply step_fault.
    - right. split; [by apply run_bind_not_ok|]. intros [_ Hs]. by destruct (Hbad (Hs action')). }
  destruct action; [|apply Hres| |apply Hres].
  - unfold claim_eligible_row. destruct (Nat.leb_spec (limit request) (claimed_count acc)).
    { left. eexists _, _. split; [done|apply step_idle]. }
    destruct (claim_occurrence o request now evidence token) as [w|e| |] eqn:Hw.
    2-4: right; split; [by apply run_bind_not_ok|]; intros [_ _ Hs]; destruct (Hs Hc); congruence.
    left. rewrite (run_bind_ok _ _ st st w) by done. eexists _, _. split; [done|].
    by apply step_claim.
  - unfold lease_expired_row. destruct (Nat.leb_spec (limit request) (claimed_count acc)).
    { left. eexists _, _. split; [done|apply step_idle]. }
    destruct (expire_occurrence_lease o now) as [[w r]|e| |] eqn:Hx.
    2: { left. rewrite (run_bind_ok _ _ st st (inr e)) by done. eexists _, _. split; [done|].
         apply step_fault. }
    2,3: right; split; [done|]; intros [_ _ _ Hs]; by rewrite Hx in Hs.
    rewrite (run_bind_ok _ _ st st (inl (w, r))) by done.
    set (st1 := push_receipt (r_occurrence_id r) r st).
    rewrite (run_bind_ok _ _ st st1 tt) by done.
    destruct (claim_occurrence (ow_occurrence w) request now evidence token) as [c|e| |] eqn:Hcl.
    3,4: right; split; [done|]; intros [_ _ _ _ Hs]; destruct (Hs _ _ Hx) as [Hs' _];
      by rewrite Hcl in Hs'.
    + destruct (absorb_claim _ _ Hcl) as [w' Hw']. left.
      rewrite (run_bind_ok _ _ st1 st1 (inl c)) by done.
      rewrite (run_bind_ok _ _ st1 st1 w') by (unfold lift; by rewrite Hw').
      eexists _, _. split; [done|]. by eapply step_reclaim.
    + rewrite (run_bind_ok _ _ st1 st1 (inr e)) by done. unfold reclaim_refused.
      set (st2 := put_occurrence (ow_occurrence w) st1).
      rewrite (run_bind_ok _ _ st1 st2 tt) by done.
      assert (Hfault : ∀ f, scan_result st acc (st2, Ok (push_fault f (push_transition w acc)))).
      { intros f. left. eexists _, _. split; [done|]. by eapply step_expire. }
      destruct (classify_due_action (ow_occurrence w) now evidence) as [v|e'| |] eqn:Hcu.
      2: { rewrite (run_bind_ok _ _ st2 st2 (inr e')) by done. apply Hfault. }
      2,3: right; split; [done|]; intros [_ _ _ _ Hs]; destruct (Hs _ _ Hx) as (_ & Hs' & _);
        by rewrite Hcu in Hs'.
      rewrite (run_bind_ok _ _ st2 st2 (inl v)) by done.
      destruct v as [[]|]; try apply Hfault.
      destruct (resolve_due_runs (ow_occurrence w) ReclaimExhausted st2)
        as [(w' & c' & Hw' & Hr)|[[f Hr]|[Hr Hbad]]].
      * left. rewrite (run_bind_ok _ _ _ _ _ Hr). eexists _, _. split; [done|].
        by eapply step_exhaust.
      * rewrite (run_bind_ok _ _ _ _ _ Hr). apply Hfault.
      * right. split; [by apply run_bind_not_ok|]. intros [_ _ _ _ Hs].
        destruct (Hs _ _ Hx) as (_ & _ & Hs'). by destruct (Hbad (Hs' ReclaimExhausted)).
Qed.

(** *** What a step does to the rows and the claims *)

Lemma settle_rows a w r st :
  occurrences (settle a w r st) = <[occ_id (ow_occurrence w) := ow_occurrence w]> (occurrences st).
Proof.
  unfold settle. destruct (note_departure_rows a (ow_occurrence w) now
    (push_receipt (occ_id (ow_occurrence w)) r st)) as [Ho _]. cbn. by rewrite Ho.
Qed.

Record step_effect (st : MemoryScheduleState) (acc : ClaimScan) (out : scan_state) : Prop := {
  effect_frame id : id ≠ occ_id o → occurrences out.1 !! id = occurrences st !! id;
  effect_claims :
    (∃ new, scan_transitions out.2 = new ++ scan_transitions acc ∧
       Forall (λ w, row_phase w ≠ Claimed) new ∧ claimed_count out.2 = claimed_count acc) ∨
    (∃ w, out.2 = push_claim w acc ∧ claimed_count acc < limit request ∧
       claimed_row request token w ∧ occ_id (ow_occurrence w) = occ_id o ∧
       occurrences out.1 !! occ_id o = Some (ow_occurrence w));
}.

Lemma scan_step_effect st acc out : scan_step st acc out → step_effect st acc out.
Proof.
  destruct 1 as [|f|action w r Hw|w Hlt Hw|w r c w' Hlt Hx Hc Hab|w r f Hx|w r acc' w' r' Hx Hw ->].
  - split; [done|]. left. exists []. by repeat split.
  - split; [done|]. left. exists []. by repeat split.
  - destruct (resolved_write_resolved _ _ _ _ _ Hw) as [_ Hid Hp _]. split; cbn [fst snd].
    + intros id Hne. by rewrite settle_rows, Hid, lookup_insert_ne.
    + left. exists [w]. split; [done|]. split; [|done]. apply Forall_singleton.
      by destruct Hp as [-> | ->].
  - destruct (claim_claims _ _ _ _ _ _ Hw) as (_ & Hid & Hcl).
    destruct (note_departure_rows o (ow_occurrence w) now st) as [Ho _]. split; cbn.
    + intros id Hne. by rewrite Ho, Hid, lookup_insert_ne.
    + right. exists w. split; [done|]. split; [done|]. split; [done|].
      split; [done|]. by rewrite Ho, Hid, lookup_insert_eq.
  - destruct (claim_claims _ _ _ _ _ _ Hc) as (_ & Hid & [Hp Ho Ht]).
    destruct (expire_expired _ _ _ _ Hx) as [_ Hid' _ _]. rewrite Hid' in Hid.
    pose proof (absorb_row _ _ _ Hab) as Hrow. split; cbn.
    + intros id Hne. by rewrite Hrow, Hid, lookup_insert_ne.
    + right. exists w'. split; [done|]. split; [done|]. split.
      { split; unfold row_phase in *; by rewrite Hrow. }
      rewrite Hrow. split; [done|]. by rewrite Hid, lookup_insert_eq.
  - destruct (expire_expired _ _ _ _ Hx) as [_ Hid Hp _]. split; cbn.
    + intros id Hne. by rewrite Hid, lookup_insert_ne.
    + left. exists [w]. split; [done|]. split; [|done]. apply Forall_singleton.
      by rewrite Hp.
  - destruct (expire_expired _ _ _ _ Hx) as [_ Hid Hp _].
    destruct (resolved_write_resolved _ _ _ _ _ Hw) as [_ Hid' Hp' _].
    split; cbn [fst snd].
    + intros id Hne. rewrite settle_rows. cbn. by rewrite Hid', Hid, !lookup_insert_ne.
    + left. exists [w'; w]. split; [done|]. split; [|done]. apply Forall_cons.
      split; [by destruct Hp' as [-> | ->]|]. apply Forall_singleton. by rewrite Hp.
Qed.
End row.

(** ** The scan *)

Definition claimed_transitions (acc : ClaimScan) : list OccurrenceWrite :=
  filter (λ w, row_phase w = Claimed) (scan_transitions acc).

Section scan.
Context (request : ClaimDueRequest) (now : DateTime) (fresh : OccurrenceId → ClaimToken).

(** What holds after the rows [visited]: claims are counted and stored, and the
    other rows are the ones the scan started from. *)
Record scan_inv (st0 : MemoryScheduleState) (visited : list OccurrenceId)
    (st : MemoryScheduleState) (acc : ClaimScan) : Prop := {
  scan_store : store_inv st;
  scan_frame id : id ∉ visited → occurrences st !! id = occurrences st0 !! id;
  scan_count : length (claimed_transitions acc) = claimed_count acc;
  scan_limit : claimed_count acc ≤ limit request;
  scan_claims w : w ∈ claimed_transitions acc →
    let id := occ_id (ow_occurrence w) in
    id ∈ visited ∧ occurrences st !! id = Some (ow_occurrence w) ∧
    claimed_row request (fresh id) w;
}.

Lemma scan_inv_init st : store_inv st → scan_inv st [] st scan_init.
Proof.
  intros Hst. split; [done|done|done|cbn; lia|]. intros w Hw. by apply elem_of_nil in Hw.
Qed.

Lemma scan_inv_step st0 visited st acc o out :
  scan_inv st0 visited st acc → occ_id o ∉ visited → store_inv out.1 →
  step_effect request (fresh (occ_id o)) o st acc out →
  scan_inv st0 (occ_id o :: visited) out.1 out.2.
Proof.
  intros [_ Hframe Hcount Hlimit Hclaims] Hnew Hst [Hf Hc].
  split; [done| | | |].
  - intros id [Hne Hin]%not_elem_of_cons. by rewrite Hf, Hframe.
  - destruct Hc as [(new & Htr & Hnone & ->)|(w & -> & _ & [Hp _ _] & _)]; unfold claimed_transitions.
    + rewrite Htr, filter_app. rewrite <-Hcount. unfold claimed_transitions.
      assert (filter (λ w, row_phase w = Claimed) new = []) as ->; [|done].
      clear -Hnone. induction Hnone as [|w new Hw _ IH]; [done|]. by rewrite filter_cons_False.
    + cbn [push_claim scan_transitions claimed_count]. rewrite filter_cons_True by done.
      cbn [length]. by rewrite <-Hcount.
  - destruct Hc as [(new & _ & _ & ->)|(w & -> & Hlt & _)]; cbn; lia.
  - assert (Hold : ∀ w, w ∈ claimed_transitions acc →
      let id := occ_id (ow_occurrence w) in id ∈ occ_id o :: visited ∧
      occurrences out.1 !! id = Some (ow_occurrence w) ∧ claimed_row request (fresh id) w).
    { intros w Hw. destruct (Hclaims w Hw) as (Hin & Hrow & Hcl).
      split; [by right|]. split; [|done]. rewrite Hf; [done|]. by intros Heq; rewrite Heq in Hin. }
    intros w Hw. apply list_elem_of_filter in Hw as [Hp Hw].
    destruct Hc as [(new & Htr & Hnone & _)|(w' & Hout & _ & Hcl & Hid & Hrow)].
    + rewrite Htr in Hw. apply elem_of_app in Hw as [Hw|Hw].
      * rewrite Forall_forall in Hnone. by destruct (Hnone w Hw).
      * apply Hold. by apply list_elem_of_filter.
    + rewrite Hout in Hw. cbn in Hw. apply elem_of_cons in Hw as [->|Hw].
      * rewrite Hid. split; [by left|done].
      * apply Hold. by apply list_elem_of_filter.
Qed.

Lemma scan_rows_inv st0 ids visited st acc st' acc' :
  scan_inv st0 visited st acc → NoDup ids → (∀ id, id ∈ ids → id ∉ visited) →
  scan_rows request now fresh ids acc st = (st', Ok acc') →
  ∃ visited', (∀ id, id ∈ visited' → id ∈ ids ∨ id ∈ visited) ∧ scan_inv st0 visited' st' acc'.
Proof.
  revert visited st acc. induction ids as [|id ids IH]; intros visited st acc Hinv Hnd Hvis Hrun.
  { cbn in Hrun. injection Hrun as <- <-. exists visited. split; [by right|done]. }
  apply NoDup_cons in Hnd as [Hnin Hnd]. cbn [scan_rows] in Hrun.
  pose proof (inv_scan_row request now (fresh id) id acc st (scan_store _ _ _ _ Hinv)) as Hst1.
  unfold mbind, store_bind in Hrun.
  destruct (scan_row request now (fresh id) id acc st) as [st1 [acc1| | |]] eqn:Hrow; try done.
  cbn in Hst1.
  destruct (occurrences st !! id) as [o|] eqn:Ho.
  - destruct (inv_occurrences _ (scan_store _ _ _ _ Hinv) _ _ Ho) as [Hid _].
    destruct (scan_row_result request now (fresh id) _ o id st acc Ho eq_refl)
      as [(st2 & acc2 & Hrow2 & Hstep)|[Hno _]].
    2: { rewrite Hrow in Hno. by destruct (Hno acc1). }
    rewrite Hrow in Hrow2. injection Hrow2 as <- <-.
    apply scan_step_effect in Hstep.
    assert (Hinv1 : scan_inv st0 (occ_id o :: visited) st1 acc1).
    { apply (scan_inv_step _ _ st acc o (st1, acc1)); [done| |done|by rewrite Hid].
      rewrite Hid. apply Hvis. by left. }
    rewrite Hid in Hinv1.
    destruct (IH (id :: visited) st1 acc1 Hinv1 Hnd) as (visited' & Hsub & Hinv'); [|done|].
    { intros id' Hin. apply not_elem_of_cons. split; [by intros ->|]. apply Hvis. by right. }
    exists visited'. split; [|done]. intros id' Hin. set_solver.
  - unfold scan_row in Hrow. rewrite (run_bind_ok _ _ st st st) in Hrow by done. rewrite Ho in Hrow.
    injection Hrow as <- <-.
    destruct (IH visited st acc Hinv Hnd) as (visited' & Hsub & Hinv'); [|done|].
    { intros id' Hin. apply Hvis. by right. }
    exists visited'. split; [|done]. intros id' Hin. set_solver.
Qed.

Lemma elem_of_occurrence_order st id :
  store_inv st → id ∈ occurrence_order st now →
  ∃ o, occurrences st !! id = Some o ∧ scanned st now o = true.
Proof.
  intros Hinv ([k id'] & -> & Hin)%list_elem_of_fmap. rewrite merge_sort_Permutation in Hin.
  apply list_elem_of_fmap in Hin as ([id0 o] & [= _ ->] & Hin).
  apply list_elem_of_filter in Hin as [Hs Hin%elem_of_map_to_list]. cbn in *.
  exists o. by destruct (inv_occurrences _ Hinv _ _ Hin) as [-> _].
Qed.

Lemma NoDup_occurrence_order st : store_inv st → NoDup (occurrence_order st now).
Proof.
  intros Hinv. unfold occurrence_order. rewrite merge_sort_Permutation.
  rewrite <-list_fmap_compose.
  apply (sublist_NoDup _ (fst <$> map_to_list (occurrences st))); [apply NoDup_fst_map_to_list|].
  assert (Heq : ∀ rows : list (OccurrenceId * Occurrence), (∀ row, row ∈ rows → occ_id row.2 = row.1) →
    (snd ∘ (λ row : OccurrenceId * Occurrence, (scan_key row.2, occ_id row.2))) <$> rows = fst <$> rows).
  { intros rows Hrows. apply list_fmap_ext. intros i row Hrow. apply Hrows.
    by eapply list_elem_of_lookup_2. }
  rewrite Heq; [apply fmap_sublist, sublist_filter|].
  intros [id o] [_ Hin%elem_of_map_to_list]%list_elem_of_filter. cbn. by destruct (inv_occurrences _ Hinv _ _ Hin).
Qed.
End scan.
End facts.
