(* ===== verification/MemoryClaimProps.v ===== *)
(** * MemoryClaimProps: properties of the due scan

    The scan cannot be aborted by a row ([scan_runs]): every machine call
    returns, a row its verdict calls claim-eligible is claimed, and the
    remaining refusals are reported per row. *)

From stdpp Require Import gmap sorting.
From S2P Require Import Prelude Text Chrono ScheduleTypes Trigger FirstDue TriggerFacts Millis.
From S2P Require Import Authority ExecutorLease.
From S2P Require Import ScheduleLifecycle OccurrenceLifecycle OccurrenceFacts OccurrenceVerdicts.
From S2P Require Import Rows RowFacts StoreTypes MemoryStore MemoryClaims ClaimRows RowReturns.
From S2P Require Import MemoryFacts MemoryCommit MemoryClaimFacts DemoStore.

Section facts.
Context `{RowCodec} {HL : ChronoLaws} {BP : BuildProfile}.

#[local] Existing Instances store_ret store_bind.

(** ** The scan completes *)

Section live.
Context (request : ClaimDueRequest) (now : DateTime) (fresh : OccurrenceId → ClaimToken).

(** The lease a claim takes ends at an instant since 1970. *)
Definition lease_fits : Prop :=
  ∃ e, add_signed now (lease_duration request) = Some e ∧ (0 ≤ timestamp_millis e)%Z.

Definition attempts_left (st : MemoryScheduleState) (id : OccurrenceId) : Prop :=
  ∀ o, occurrences st !! id = Some o → (attempt_count (occurrence_machine o) < u32_max)%N.

Lemma row_is_safe o ev token :
  row_ok o → lease_fits → (attempt_count (occurrence_machine o) < u32_max)%N →
  row_safe request now token ev o.
Proof.
  intros Hok (e & He & Hpos) Hatt. split.
  - by apply classify_returns.
  - intros action. by apply resolved_returns.
  - intros Hc. by eapply eligible_claimed.
  - by apply expire_returns.
  - intros w r Hx. destruct (expire_expired _ _ _ _ Hx) as [Hok' _ _ _].
    split; [|split; [by apply classify_returns|intros; by apply resolved_returns]].
    apply claim_returns; [done|by eexists|]. by apply row_attempts.
Qed.

Lemma scan_row_completes id acc st :
  lease_fits → store_inv st → attempts_left st id →
  ∃ st' acc', scan_row request now (fresh id) id acc st = (st', Ok acc') ∧ store_inv st' ∧
    ∀ id', id' ≠ id → occurrences st' !! id' = occurrences st !! id'.
Proof.
  intros Hfit Hinv Hatt. pose proof (inv_scan_row request now (fresh id) id acc st Hinv) as Hst'.
  destruct (occurrences st !! id) as [o|] eqn:Ho.
  - destruct (scan_row_result request now (fresh id) _ o id st acc Ho eq_refl)
      as [(st' & acc' & Hrow & Hstep)|[_ Hbad]].
    2: { exfalso. apply Hbad, row_is_safe; [by eapply Hinv|done|by apply Hatt]. }
    exists st', acc'. rewrite Hrow in Hst'. split; [done|]. split; [done|].
    apply scan_step_effect in Hstep as [Hframe _].
    by rewrite (proj1 (inv_occurrences _ Hinv _ _ Ho)) in Hframe.
  - exists st, acc. unfold scan_row. rewrite (run_bind_ok _ _ st st st) by done. by rewrite Ho.
Qed.

Lemma scan_runs ids acc st :
  lease_fits → store_inv st → NoDup ids → (∀ id, id ∈ ids → attempts_left st id) →
  ∃ st' acc', scan_rows request now fresh ids acc st = (st', Ok acc').
Proof.
  intros Hfit. revert acc st. induction ids as [|id ids IH]; intros acc st Hinv Hnd Hatt.
  { by eexists _, _. }
  apply NoDup_cons in Hnd as [Hnin Hnd].
  destruct (scan_row_completes id acc st Hfit Hinv) as (st1 & acc1 & Hrow & Hinv1 & Hframe).
  { apply Hatt. by left. }
  cbn [scan_rows]. rewrite (run_bind_ok _ _ _ _ _ Hrow). apply IH; [done|done|].
  intros id' Hin o Ho. rewrite Hframe in Ho by (by intros ->). by eapply Hatt; [right|].
Qed.
End live.

(** ** Properties *)

(** C13: a due scan that succeeds ran under the executor lease that is current,
    claimed at most the limit of the request, and changed only due rows of
    active schedules; each claim it returns is the stored row of such an
    occurrence, held by the requesting owner under the token drawn for it. *)
Theorem memory_claims_exclusive lease request now fresh st st' acc :
  store_inv st → claim_due_occurrences lease request now fresh st = (st', Ok acc) →
  authorized lease now (executor st) = true ∧
  length (claimed_transitions acc) ≤ limit request ∧
  (∀ id, occurrences st' !! id ≠ occurrences st !! id →
     ∃ o, occurrences st !! id = Some o ∧ scanned st now o = true) ∧
  (∀ w, w ∈ claimed_transitions acc →
     let id := occ_id (ow_occurrence w) in
     (∃ o, occurrences st !! id = Some o ∧ scanned st now o = true) ∧
     occurrences st' !! id = Some (ow_occurrence w) ∧ claimed_row request (fresh id) w).
Proof.
  intros Hinv. unfold claim_due_occurrences. rewrite (run_bind_ok _ _ st st st) by done.
  destruct (authorized lease now (executor st)); [|done]. cbn [negb].
  destruct (limit request =? 0)%nat.
  { intros [= <- <-]. cbn. split; [done|]. split; [lia|]. split; [done|].
    intros w Hw. by apply elem_of_nil in Hw. }
  intros Hrun.
  destruct (scan_rows_inv request now fresh st _ [] st scan_init st' acc
    (scan_inv_init request fresh st Hinv) (NoDup_occurrence_order now st Hinv))
    as (visited & Hsub & [_ Hframe Hcount Hlimit Hclaims]); [set_solver|done|].
  assert (Hvis : ∀ id, id ∈ visited →
    ∃ o, occurrences st !! id = Some o ∧ scanned st now o = true).
  { intros id [Hin|Hin]%Hsub; [by apply elem_of_occurrence_order|by apply elem_of_nil in Hin]. }
  split; [done|]. split; [lia|]. split.
  - intros id Hne. destruct (decide (id ∈ visited)) as [|Hnin]; [by apply Hvis|].
    by destruct Hne; apply Hframe.
  - intros w Hw. destruct (Hclaims w Hw) as (Hin & Hrow). split; [by apply Hvis|done].
Qed.

(** C11: under a current lease a due scan always completes, whatever the rows
    are: a row the machine refuses is reported and its neighbours are still
    claimed.  It needs only that the new leases end at a representable instant
    since 1970 and that no due row has used up its 32-bit attempt counter.
    Under any other lease it fails and changes nothing. *)
Theorem memory_claims_complete lease request now fresh st :
  store_inv st → lease_fits request now →
  (∀ id o, occurrences st !! id = Some o → scanned st now o = true →
     (attempt_count (occurrence_machine o) < u32_max)%N) →
  if authorized lease now (executor st) then
    ∃ st' acc, claim_due_occurrences lease request now fresh st = (st', Ok acc)
  else claim_due_occurrences lease request now fresh st = (st, Err ExecutorLeaseIsStale).
Proof.
  intros Hinv Hfit Hatt. unfold claim_due_occurrences. rewrite (run_bind_ok _ _ st st st) by done.
  destruct (authorized lease now (executor st)); [|done]. cbn [negb].
  destruct (limit request =? 0)%nat; [by eexists _, _|].
  apply scan_runs; [done|done|by apply NoDup_occurrence_order|].
  intros id Hin o Ho. destruct (elem_of_occurrence_order now st id Hinv Hin) as (o' & Ho' & Hs).
  rewrite Ho in Ho'. injection Ho' as <-. by eapply Hatt.
Qed.
End facts.

(** ** An example: one row is claimed, one misfires *)

#[local] Existing Instances dev_profile demo_targets demo_data demo_codec.

Definition demo_due_row : Occurrence := {|
  occurrence_machine := occurrence_init <| OccurrenceLifecycle.occurrence_id := "occ-c" |>
    <| due_at_utc_ms := 31000%N |> <| misfire_deadline_utc_ms := 34000%N |>
    <| misfire_policy := MisfirePolicy_CatchUpWithin |> <| misfire_policy_key := "misfire:catch_up" |>;
  trigger_snapshot := Once (UniformClock.at_seconds 60); target_snapshot := runnable_target "target-0";
  occurrence_policy := CatchUpWithin 3; last_receipt := None; runtime_outcome := None;
|}.

Definition demo_lease : ScheduleExecutorLease := {|
  owner_id := lit "host-a"; lease_token := 7%N; fencing_token := 1%N;
  acquired_at_utc := UniformClock.at_seconds 1; expires_at_utc := UniformClock.at_seconds 61;
|}.

Definition demo_claim_store : MemoryScheduleState :=
  put_occurrence demo_due_row demo_store <| executor :=
    {| executor_lease := Some demo_lease; executor_fencing_high_water := 1 |} |>.

Definition demo_request : ClaimDueRequest :=
  {| request_owner_id := "host-a"; limit := 2; lease_duration := (30 * 10 ^ 9)%Z |}.

Definition demo_fresh (id : OccurrenceId) : ClaimToken := String.append "token-" id.

Lemma demo_claim_inv : store_inv demo_claim_store.
Proof.
  assert (Hok : row_ok demo_due_row) by (vm_compute; reflexivity).
  destruct (inv_put_occurrence demo_due_row _ Hok demo_store_inv) as [Ho Hs Hq].
  by split.
Qed.

Lemma memory_claims_exclusive_witness :
  ∃ st' acc w, claim_due_occurrences demo_lease demo_request demo_now demo_fresh demo_claim_store
      = (st', Ok acc) ∧ claimed_transitions acc = [w] ∧
    claimed_row demo_request (demo_fresh (occ_id (ow_occurrence w))) w ∧
    occurrences st' !! occ_id (ow_occurrence w) = Some (ow_occurrence w).
Proof.
  assert (Hc : match claim_due_occurrences demo_lease demo_request demo_now demo_fresh
      demo_claim_store with
    | (_, Ok acc) => (length (claimed_transitions acc) =? 1)%nat
        && (length (scan_transitions acc) =? 3)%nat
    | _ => false end = true) by (vm_compute; reflexivity).
  destruct (claim_due_occurrences demo_lease demo_request demo_now demo_fresh demo_claim_store)
    as [st' [acc| | |]] eqn:Hrun; [|discriminate Hc..].
  destruct (memory_claims_exclusive _ _ _ _ _ _ _ demo_claim_inv Hrun) as (_ & _ & _ & Hclaims).
  destruct (claimed_transitions acc) as [|w [|]] eqn:Htr; [discriminate Hc| |discriminate Hc].
  exists st', acc, w. split; [reflexivity|]. split; [exact Htr|].
  destruct (Hclaims w) as (_ & Hrow & Hcl); [by left|]. by split.
Defined.

Lemma memory_claims_complete_witness :
  ∃ st' acc, claim_due_occurrences demo_lease demo_request demo_now demo_fresh demo_claim_store
    = (st', Ok acc).
Proof.
  pose proof (memory_claims_complete demo_lease demo_request demo_now demo_fresh demo_claim_store
    demo_claim_inv) as Hcomplete.
  assert (Hauth : authorized demo_lease demo_now (executor demo_claim_store) = true)
    by (vm_compute; reflexivity).
  rewrite Hauth in Hcomplete. apply Hcomplete.
  - exists (UniformClock.at_seconds 63). split; [|vm_compute; congruence].
    assert (Hadd : (UniformClock.offset <$> add_signed demo_now (lease_duration demo_request))
      = Some (UniformClock.offset (UniformClock.at_seconds 63))) by (vm_compute; reflexivity).
    destruct (add_signed demo_now (lease_duration demo_request)) as [u|]; [|discriminate].
    injection Hadd as Hadd. f_equal. by apply (inj ns).
  - intros id o Ho _.
    change ((<["occ-c" := demo_due_row]> (<["occ-a" := demo_row "occ-a"]>
      (<["occ-b" := demo_row "occ-b"]> ∅)) : gmap OccurrenceId Occurrence) !! id = Some o) in Ho.
    repeat (apply lookup_insert_Some in Ho as [[_ <-]|[_ Ho]]; [vm_compute; reflexivity|]).
    by rewrite lookup_empty in Ho.
Defined.
