(* ===== verification/Planner.v ===== *)
(** * Planner: the occurrences a schedule is due to have

    [plan_schedule_occurrences_from_snapshot] of [meerkat-schedule/src/service.rs]
    and the planning constructors of [lifecycle.rs].  From a schedule, the store
    time and the pending rows of a snapshot it plans the next due times up to
    the horizon, as authorised writes of rows that do not exist yet, with the
    schedule transition that records the new planning cursor and the time of
    the next refill.  A row's due time is the display field of its machine's
    milliseconds; every row has one. *)

From stdpp Require Import gmap.
From S2P Require Import Prelude Text Chrono ScheduleTypes Targets Trigger Millis Authority.
From S2P Require Import ScheduleLifecycle OccurrenceLifecycle Rows StoreTypes MemoryStore.

Section planner.
Context `{RowCodec} {BP : BuildProfile}.

(** ** Planning one occurrence *)

Definition occurrence_overlap_policy (p : ScheduleLifecycle.OverlapPolicy)
  : OccurrenceLifecycle.OverlapPolicy :=
  match p with
  | ScheduleLifecycle.OverlapPolicy_AllowConcurrent => OverlapPolicy_AllowConcurrent
  | ScheduleLifecycle.OverlapPolicy_SkipIfRunning => OverlapPolicy_SkipIfRunning
  end.

Definition occurrence_missing_target_policy (p : ScheduleLifecycle.MissingTargetPolicy)
  : OccurrenceLifecycle.MissingTargetPolicy :=
  match p with
  | ScheduleLifecycle.MissingTargetPolicy_MarkMisfired => MissingTargetPolicy_MarkMisfired
  | ScheduleLifecycle.MissingTargetPolicy_Skip => MissingTargetPolicy_Skip
  end.

Definition sched_overlap (s : Schedule) : OccurrenceLifecycle.OverlapPolicy :=
  occurrence_overlap_policy (ScheduleLifecycle.overlap_policy (schedule_machine s)).
Definition sched_missing_target (s : Schedule) : OccurrenceLifecycle.MissingTargetPolicy :=
  occurrence_missing_target_policy (ScheduleLifecycle.missing_target_policy (schedule_machine s)).

Definition occurrence_from_planned_state (dsl : OccurrenceState) (s : Schedule)
    (target : TargetBinding) : Outcome RowError Occurrence :=
  _ ← expect (target_binding_key dsl == target_stable_key target) (KeyMismatch "target");
  _ ← expect (trigger_key dsl == trigger_stable_key (schedule_trigger s)) (KeyMismatch "trigger");
  _ ← verify_occurrence_policy_keys dsl (schedule_misfire_policy s) (sched_overlap s)
        (sched_missing_target s);
  _ ← display_fields dsl;
  Ok {| occurrence_machine := dsl; trigger_snapshot := schedule_trigger s;
        target_snapshot := target; occurrence_policy := schedule_misfire_policy s;
        last_receipt := None; runtime_outcome := None |}.

(** [fresh] is [OccurrenceId::new()]. *)
Definition planned_from_schedule (fresh : OccurrenceId) (s : Schedule) (ordinal : N)
    (due_at_utc : DateTime) : Outcome RowError Occurrence :=
  let target := schedule_target s in
  dsl_input ← convert_occurrence_input
    (PlanOccurrence fresh (sched_id s) (sched_revision s) ordinal (schedule_trigger s) target
       (schedule_misfire_policy s) (sched_overlap s) (sched_missing_target s) due_at_utc);
  '(_, dsl) ← run_dsl occurrence_init dsl_input;
  occurrence_from_planned_state dsl s target.

Definition planned_write_from_schedule (fresh : OccurrenceId) (s : Schedule) (ordinal : N)
    (due_at_utc : DateTime) : Outcome RowError OccurrenceWrite :=
  o ← planned_from_schedule fresh s ordinal due_at_utc;
  Ok {| ow_occurrence := o; ow_effects := [];
        ow_precondition := Absent (occurrence_id (occurrence_machine o)); ow_acks := [] |}.

(** ** Planning a schedule *)

Inductive PlannerError :=
| PlanTrigger (e : ScheduleDomainError)
| PlanInternal (e : RowError).

Record PlannedScheduleOccurrences := {
  planned_occurrences : list OccurrenceWrite;
  planned_mutator : option ScheduleWrite;
  planned_next_refill_at_utc : option DateTime;
}.

Definition nothing_planned : PlannedScheduleOccurrences :=
  {| planned_occurrences := []; planned_mutator := None; planned_next_refill_at_utc := None |}.

Definition occ_due (o : Occurrence) : option DateTime :=
  millis_to_datetime (due_at_utc_ms (occurrence_machine o)).

Definition sched_planning_cursor (s : Schedule) : option DateTime :=
  ms ← ScheduleLifecycle.planning_cursor_utc_ms (schedule_machine s); millis_to_datetime ms.

(** The rows of the snapshot that belong to the schedule's revision. *)
Definition current_rows (s : Schedule) (existing : list Occurrence) : list Occurrence :=
  filter (λ o, schedule_revision (occurrence_machine o) = sched_revision s) existing.

(** [BTreeSet<DateTime>], by the nanoseconds instants are compared by. *)
Definition existing_due_set (s : Schedule) (existing : list Occurrence) : gset Z :=
  list_to_set (ns <$> omap occ_due (current_rows s existing)).

Definition pending_until (horizon_end_utc : DateTime) (o : Occurrence) : bool :=
  match occ_due o with
  | Some due => dt_leb due horizon_end_utc && (lifecycle_phase (occurrence_machine o) == Pending)
  | None => false
  end.

Definition dt_max (a b : DateTime) : DateTime := if dt_leb a b then b else a.

Fixpoint max_due (l : list DateTime) : option DateTime :=
  match l with
  | [] => None
  | d :: l' => Some (match max_due l' with Some m => dt_max d m | None => d end)
  end.

(** [planned.last().map(|write| write.occurrence().due_at_utc)] *)
Definition last_planned_due (planned : list OccurrenceWrite) : option DateTime :=
  w ← last planned; occ_due (ow_occurrence w).

(** The loop over the due times. *)
Fixpoint plan_loop (fresh : N → OccurrenceId) (s : Schedule) (existing_due : gset Z)
    (remaining : nat) (due_times : list DateTime) (ordinal : N) (planned : list OccurrenceWrite)
  : Outcome PlannerError (list OccurrenceWrite * N) :=
  match due_times with
  | [] => Ok (planned, ordinal)
  | due_at_utc :: due_times' =>
      if bool_decide (ns due_at_utc ∈ existing_due)
      then plan_loop fresh s existing_due remaining due_times' ordinal planned
      else
        w ← map_err PlanInternal
              (planned_write_from_schedule (fresh ordinal) s ordinal due_at_utc);
        let ordinal := OccurrenceOrdinal_next ordinal in
        let planned := planned ++ [w] in
        if (remaining <=? length planned)%nat then Ok (planned, ordinal)
        else plan_loop fresh s existing_due remaining due_times' ordinal planned
  end.

(** The cursor planning resumes from. *)
Definition planning_cursor (s : Schedule) (store_now_utc : DateTime) (existing : list Occurrence)
  : Outcome PlannerError DateTime :=
  match max_due (omap occ_due (current_rows s existing)) with
  | Some due => Ok due
  | None =>
      match sched_planning_cursor s with
      | Some cursor => Ok cursor
      | None => Trigger.minus store_now_utc (minutes 1)
      end
  end.

Definition next_refill_at_utc (s : Schedule) (horizon_duration : TimeDelta)
    (store_now_utc now next_cursor : DateTime) : Outcome PlannerError (option DateTime) :=
  next ← map_err PlanTrigger (next_due_after (schedule_trigger s) (Some next_cursor) now);
  match next with
  | None => Ok None
  | Some next_due =>
      at_utc ← or_panic (sub_signed next_due horizon_duration);
      Ok (Some (dt_max at_utc store_now_utc))
  end.

(** [fresh] yields the identifiers of the planned rows, [now] is the wall clock. *)
Definition plan_schedule_occurrences_from_snapshot (fresh : N → OccurrenceId) (now : DateTime)
    (s : Schedule) (store_now_utc : DateTime) (existing : list Occurrence)
  : Outcome PlannerError PlannedScheduleOccurrences :=
  let dsl := schedule_machine s in
  if sched_phase s != Active then Ok nothing_planned
  else
    horizon_duration ← or_panic (days (Z.of_N (ScheduleLifecycle.planning_horizon_days dsl)));
    horizon_end_utc ← or_panic (add_signed store_now_utc horizon_duration);
    let existing_due := existing_due_set s existing in
    let future_pending_count :=
      length (filter (λ o, pending_until horizon_end_utc o = true) (current_rows s existing)) in
    let desired_count := N.to_nat (ScheduleLifecycle.planning_horizon_occurrences dsl) in
    if (desired_count =? 0)%nat || (desired_count <=? future_pending_count)%nat
    then Ok nothing_planned
    else
      let remaining := (desired_count - future_pending_count)%nat in
      cursor ← planning_cursor s store_now_utc existing;
      due_times ← map_err PlanTrigger
        (occurrences_for_horizon (schedule_trigger s) (Some cursor) horizon_end_utc
           (remaining + size existing_due) now);
      '(planned, ordinal) ←
        plan_loop fresh s existing_due remaining due_times
          (ScheduleLifecycle.next_occurrence_ordinal dsl) [];
      next_refill ←
        if (desired_count <=? future_pending_count + length planned)%nat then Ok None
        else next_refill_at_utc s horizon_duration store_now_utc now
               (default cursor (last_planned_due planned));
      match last_planned_due planned with
      | None =>
          Ok {| planned_occurrences := planned; planned_mutator := None;
                planned_next_refill_at_utc := next_refill |}
      | Some planning_cursor_utc =>
          mutator ← map_err PlanInternal
            (schedule_apply (sched_id s) now (Some s)
               (RecordPlanningWindow planning_cursor_utc ordinal));
          Ok {| planned_occurrences := planned; planned_mutator := Some mutator;
                planned_next_refill_at_utc := next_refill |}
      end.

(** ** Combining a planned window with the transition it follows *)

(** [ScheduleLifecycleMutator::absorb_followup] *)
Definition absorb_schedule_followup (w followup : ScheduleWrite) : Outcome RowError ScheduleWrite :=
  _ ← check_current (sw_precondition followup) (Some (schedule_key (sw_schedule w)));
  _ ← match sw_pending_supersession followup, sw_pending_supersession w with
      | Some _, Some _ =>
          Err (ProjectionMismatch
                 "multiple generated supersession handoffs for one schedule write")
      | _, _ => Ok tt
      end;
  Ok {| sw_schedule := sw_schedule followup;
        sw_effects := sw_effects w ++ sw_effects followup;
        sw_revision_bumped := sw_revision_bumped w || sw_revision_bumped followup;
        sw_precondition := sw_precondition w;
        sw_pending_supersession :=
          match sw_pending_supersession followup with
          | Some p => Some p
          | None => sw_pending_supersession w
          end |}.
End planner.
