(* ===== verification/PlannedRows.v ===== *)
(** * PlannedRows: the rows and windows planning produces

    A planned row is a valid pending row of its schedule whose machine carries
    the schedule's payload keys, and a recorded window is the schedule with its
    cursor and ordinal advanced.  Both are returned under the conditions the
    machines state. *)

From stdpp Require Import gmap.
From S2P Require Import Prelude Text Chrono ScheduleTypes Targets Trigger FirstDue TriggerFacts Millis Authority.
From S2P Require ScheduleFacts.
From S2P Require Import ScheduleLifecycle OccurrenceLifecycle OccurrenceFacts OccurrenceVerdicts.
From S2P Require Import Rows RowFacts RowValidity RowOutcomes ScheduleRows StoreTypes MemoryStore Planner.

Section rows.
Context `{RowCodec} {HL : ChronoLaws} {BP : BuildProfile}.

(** ** Planned rows *)

Record planned_row (s : Schedule) (id : OccurrenceId) (ordinal : N) (due_at : DateTime)
    (w : OccurrenceWrite) : Prop := {
  planned_ok : row_ok (ow_occurrence w);
  planned_outputs : ow_effects w = [] ∧ ow_acks w = [];
  planned_precondition : ow_precondition w = Absent id;
  planned_id : occ_id (ow_occurrence w) = id;
  planned_schedule : schedule_id (occurrence_machine (ow_occurrence w)) = sched_id s;
  planned_revision : schedule_revision (occurrence_machine (ow_occurrence w)) = sched_revision s;
  planned_ordinal : occurrence_ordinal (occurrence_machine (ow_occurrence w)) = ordinal;
  planned_phase : lifecycle_phase (occurrence_machine (ow_occurrence w)) = Pending;
  planned_attempts : attempt_count (occurrence_machine (ow_occurrence w)) = 0%N;
  planned_due : occ_due (ow_occurrence w) = Some due_at;
  planned_payloads : trigger_snapshot (ow_occurrence w) = schedule_trigger s ∧
    target_snapshot (ow_occurrence w) = schedule_target s ∧
    occurrence_policy (ow_occurrence w) = schedule_misfire_policy s;
  planned_overlap :
    overlap_policy (occurrence_machine (ow_occurrence w)) = sched_overlap s ∧
    missing_target_policy (occurrence_machine (ow_occurrence w)) = sched_missing_target s;
}.

(** The machine input planning runs, and the state it leaves. *)
Definition plan_input (id : OccurrenceId) (s : Schedule) (ordinal due deadline : N)
  : OccurrenceLifecycleInput :=
  I_PlanOccurrence id (sched_id s) (sched_revision s) ordinal
    (trigger_stable_key (schedule_trigger s)) (target_stable_key (schedule_target s))
    (occurrence_misfire_policy_to_machine (schedule_misfire_policy s))
    (misfire_policy_stable_key (schedule_misfire_policy s))
    (sched_overlap s) (overlap_policy_stable_key (sched_overlap s))
    (sched_missing_target s) (missing_target_policy_stable_key (sched_missing_target s))
    (target_session_id (schedule_target s)) due deadline.

Record planned_state (id : OccurrenceId) (s : Schedule) (ordinal due deadline : N)
    (dsl : OccurrenceState) : Prop := {
  ps_recovers : recover_from_state dsl = inl dsl;
  ps_identity : occurrence_id dsl = id ∧ schedule_id dsl = sched_id s ∧
    schedule_revision dsl = sched_revision s ∧ occurrence_ordinal dsl = ordinal;
  ps_phase : lifecycle_phase dsl = Pending ∧ attempt_count dsl = 0%N;
  ps_keys : trigger_key dsl = trigger_stable_key (schedule_trigger s) ∧
    target_binding_key dsl = target_stable_key (schedule_target s) ∧
    target_materialized_session_id dsl = target_session_id (schedule_target s);
  ps_misfire :
    misfire_policy dsl = occurrence_misfire_policy_to_machine (schedule_misfire_policy s) ∧
    misfire_policy_key dsl = misfire_policy_stable_key (schedule_misfire_policy s);
  ps_overlap : overlap_policy dsl = sched_overlap s ∧
    overlap_policy_key dsl = overlap_policy_stable_key (sched_overlap s);
  ps_missing : missing_target_policy dsl = sched_missing_target s ∧
    missing_target_policy_key dsl = missing_target_policy_stable_key (sched_missing_target s);
  ps_due : due_at_utc_ms dsl = due ∧ misfire_deadline_utc_ms dsl = deadline;
  ps_instants : lease_expires_at_utc_ms dsl = None ∧ claimed_at_utc_ms dsl = None ∧
    dispatched_at_utc_ms dsl = None ∧ completed_at_utc_ms dsl = None;
  ps_receipt : no_last_receipt dsl;
}.

Lemma init_recovers : recover_from_state occurrence_init = inl occurrence_init.
Proof. by apply recover_ok. Qed.

Lemma run_plan id s ordinal due deadline :
  (due ≤ deadline)%N →
  ∃ es dsl, run_dsl occurrence_init (plan_input id s ordinal due deadline) = Ok (es, dsl) ∧
    planned_state id s ordinal due deadline dsl.
Proof.
  intros Hle. set (i := plan_input id s ordinal due deadline).
  set (t := PlanOccurrenceFromPending id (sched_id s) (sched_revision s) ordinal
    (trigger_stable_key (schedule_trigger s)) (target_stable_key (schedule_target s))
    (occurrence_misfire_policy_to_machine (schedule_misfire_policy s))
    (misfire_policy_stable_key (schedule_misfire_policy s))
    (sched_overlap s) (overlap_policy_stable_key (sched_overlap s))
    (sched_missing_target s) (missing_target_policy_stable_key (sched_missing_target s))
    (target_session_id (schedule_target s)) due deadline).
  assert (Hsel : select (transitions i) occurrence_init = Some t).
  { unfold select, i. cbn. by rewrite (proj2 (N.leb_le _ _) Hle). }
  destruct (fire t occurrence_init) as [[dsl es]|] eqn:Hf; [|done].
  assert (Hrec : recover_from_state dsl = inl dsl).
  { apply recover_ok. eapply (fires_invariants i t).
    - apply select_Some in Hsel as [? ?]. by split.
    - by apply recover_ok, init_recovers. }
  pose proof (apply_selected i t _ _ _ init_recovers ltac:(done) Hsel Hf) as Hap.
  exists es, dsl. unfold run_dsl. rewrite init_recovers, Hap. split; [done|].
  clear Hsel Hap. injection Hf as <- _. by repeat split.
Qed.

Lemma run_plan_state id s ordinal due deadline es dsl :
  run_dsl occurrence_init (plan_input id s ordinal due deadline) = Ok (es, dsl) →
  planned_state id s ordinal due deadline dsl.
Proof.
  intros Hrun. destruct (N.le_gt_cases due deadline) as [Hle|Hgt].
  - destruct (run_plan id s ordinal due deadline Hle) as (es' & dsl' & Hrun' & Hp). congruence.
  - apply run_dsl_fires in Hrun as (_ & t & [Hin Hg _]).
    apply list_elem_of_singleton in Hin as ->. cbn in Hg. prop_guards. lia.
Qed.
(** The instant a grid due time is read back as. *)
Lemma due_round_trip due_at :
  on_millis due_at → (0 ≤ ns due_at)%Z →
  ∃ due, to_millis due_at "due_at_utc" = Ok due ∧ millis_to_datetime due = Some due_at.
Proof.
  intros Hgrid Hpos.
  assert (Hms : (0 ≤ timestamp_millis due_at)%Z).
  { rewrite timestamp_millis_ns. by apply Z.div_pos. }
  pose proof (timestamp_millis_range due_at).
  exists (Z.to_N (timestamp_millis due_at)).
  assert (Hdt : millis_to_datetime (Z.to_N (timestamp_millis due_at)) = Some due_at).
  { unfold millis_to_datetime, i64_try_from. rewrite Z2N.id by done.
    rewrite (proj2 (Z.leb_le _ _)) by (unfold i64_max; lia). cbn [mbind option_bind].
    by apply on_millis_round_trip. }
  split; [|done]. by apply millis_of_instant.
Qed.

Lemma to_millis_grid due_at due field :
  on_millis due_at → to_millis due_at field = Ok due → millis_to_datetime due = Some due_at.
Proof.
  intros Hgrid (Hpos & ->)%to_millis_Ok. rewrite timestamp_millis_ns in Hpos.
  assert (0 ≤ ns due_at)%Z as Hns.
  { pose proof (Z.mul_div_le (ns due_at) milli_ns ltac:(done)). unfold milli_ns in *. lia. }
  destruct (due_round_trip _ Hgrid Hns) as (due & Hms & Hdt).
  apply to_millis_Ok in Hms as (_ & ->). done.
Qed.

Lemma planned_displays id s ordinal due deadline dsl dt :
  planned_state id s ordinal due deadline dsl → millis_to_datetime due = Some dt →
  display_fields dsl = Ok tt.
Proof.
  intros [_ _ (_ & Hatt) _ _ _ _ (Hdue & _) (E1 & E2 & E3 & E4) _] Hdt.
  unfold display_fields, from_millis. by rewrite Hdue, Hdt, Hatt, E1, E2, E3, E4.
Qed.

(** The row a planned state makes. *)
Definition planned_occurrence (s : Schedule) (dsl : OccurrenceState) : Occurrence := {|
  occurrence_machine := dsl; trigger_snapshot := schedule_trigger s;
  target_snapshot := schedule_target s; occurrence_policy := schedule_misfire_policy s;
  last_receipt := None; runtime_outcome := None |}.

Lemma planned_from_state id s ordinal due deadline dsl :
  planned_state id s ordinal due deadline dsl → display_fields dsl = Ok tt →
  occurrence_from_planned_state dsl s (schedule_target s) = Ok (planned_occurrence s dsl).
Proof.
  intros [_ _ _ (Hk1 & Hk2 & _) (_ & Hm) (_ & Ho) (_ & Hmt) _ _ _] Hd.
  unfold occurrence_from_planned_state, verify_occurrence_policy_keys.
  rewrite Hk1, Hk2, Hm, Ho, Hmt, !bool_decide_eq_true_2 by done.
  cbn [expect mbind Outcome_bind]. by rewrite Hd.
Qed.

Lemma planned_row_ok id s ordinal due_at due deadline dsl :
  planned_state id s ordinal due deadline dsl →
  to_millis due_at "due_at_utc" = Ok due → millis_to_datetime due = Some due_at →
  deadline_to_millis (schedule_misfire_policy s) due_at = Ok deadline →
  row_ok (planned_occurrence s dsl).
Proof.
  intros Hp Hms Hdt Hdl. pose proof (planned_displays _ _ _ _ _ _ _ Hp Hdt) as Hd.
  destruct Hp as [Hrec _ _ (Hk1 & Hk2 & Hk3) (Hm1 & Hm2) (Ho1 & Ho2) (Hmt1 & Hmt2) (Hdue & Hdead) _ Hno].
  apply row_ok_valid. split; [done| |done| |exact Hno]; cbn.
  - unfold payloads_match. cbn.
    by rewrite Hk1, Hk2, Hk3, Hm1, Hm2, Ho1, Ho2, Hmt1, Hmt2, !bool_decide_eq_true_2.
  - exists due_at. rewrite Hdue, Hdead. unfold from_millis. by rewrite Hdt.
Qed.

Lemma planned_write_steps id s ordinal due_at :
  planned_write_from_schedule id s ordinal due_at =
    (due ← to_millis due_at "due_at_utc";
     deadline ← deadline_to_millis (schedule_misfire_policy s) due_at;
     '(_, dsl) ← run_dsl occurrence_init (plan_input id s ordinal due deadline);
     o ← occurrence_from_planned_state dsl s (schedule_target s);
     Ok {| ow_occurrence := o; ow_effects := [];
           ow_precondition := Absent (occurrence_id (occurrence_machine o)); ow_acks := [] |}).
Proof.
  unfold planned_write_from_schedule, planned_from_schedule. cbn [convert_occurrence_input].
  destruct (to_millis _ _); cbn [mbind Outcome_bind]; [|done..].
  destruct (deadline_to_millis _ _); cbn [mbind Outcome_bind]; [|done..].
  unfold plan_input. by destruct (run_dsl _ _) as [[? ?]| | |].
Qed.

Lemma planned_occurrence_row id s ordinal due_at due deadline dsl :
  planned_state id s ordinal due deadline dsl →
  to_millis due_at "due_at_utc" = Ok due → millis_to_datetime due = Some due_at →
  deadline_to_millis (schedule_misfire_policy s) due_at = Ok deadline →
  planned_row s id ordinal due_at
    {| ow_occurrence := planned_occurrence s dsl; ow_effects := [];
       ow_precondition := Absent (occurrence_id dsl); ow_acks := [] |}.
Proof.
  intros Hp Hms Hdt Hdl. pose proof (planned_row_ok _ _ _ _ _ _ _ Hp Hms Hdt Hdl) as Hok.
  destruct Hp as [_ (Hid & Hsid & Hrev & Hord) (Hph & Hatt) _ _ (Ho & _) (Hmt & _) (Hdue & _) _ _].
  split; cbn; try done; first [by rewrite Hid|unfold occ_due; cbn; by rewrite Hdue].
Qed.

Lemma planned_write_row id s ordinal due_at w :
  on_millis due_at → planned_write_from_schedule id s ordinal due_at = Ok w →
  planned_row s id ordinal due_at w.
Proof.
  intros Hgrid. rewrite planned_write_steps. intros (due & Hms & Hw)%Outcome_bind_Ok.
  apply Outcome_bind_Ok in Hw as (deadline & Hdl & Hw).
  apply Outcome_bind_Ok in Hw as ([es dsl] & Hrun%run_plan_state & Hw).
  pose proof (to_millis_grid _ _ _ Hgrid Hms) as Hdt.
  rewrite (planned_from_state _ _ _ _ _ _ Hrun) in Hw by by eapply planned_displays.
  injection Hw as <-. by eapply planned_occurrence_row.
Qed.

(** A due time since 1970 whose misfire deadline can be stored is planned. *)
Lemma planned_write_returns id s ordinal due_at :
  on_millis due_at → (0 ≤ ns due_at)%Z →
  (ns due_at + window_seconds (schedule_misfire_policy s) * second_ns ≤ max_utc_ns)%Z →
  (window_seconds (schedule_misfire_policy s) ≤ i64_max / 1000)%Z →
  ∃ w, planned_write_from_schedule id s ordinal due_at = Ok w.
Proof.
  intros Hgrid Hpos Hmax Hw. rewrite planned_write_steps.
  destruct (due_round_trip _ Hgrid Hpos) as (due & Hms & Hdt). rewrite Hms. cbn [mbind Outcome_bind].
  pose proof (misfire_deadline_spec (schedule_misfire_policy s) due_at) as Hs.
  assert (Hw0 : (0 ≤ window_seconds (schedule_misfire_policy s))%Z)
    by (destruct (schedule_misfire_policy s); cbn; [done|lia]).
  unfold deadline_to_millis at 1, occurrence_misfire_deadline_to_millis.
  destruct (misfire_deadline_utc _ _) as [[u|]| | |] eqn:Hu; try (exfalso; lia).
  destruct Hs as [Hns _]. cbn [ok_or mbind Outcome_bind].
  unfold occurrence_datetime_to_millis. rewrite datetime_to_millis_spec.
  assert (Hmono : (timestamp_millis due_at ≤ timestamp_millis u)%Z).
  { rewrite !timestamp_millis_ns, Hns. apply Z.div_le_mono; [done|unfold second_ns; lia]. }
  apply to_millis_Ok in Hms as (Hms0 & ->).
  rewrite (proj2 (Z.leb_le _ _)) by lia. cbn [mbind Outcome_bind].
  destruct (run_plan id s ordinal (Z.to_N (timestamp_millis due_at)) (Z.to_N (timestamp_millis u)))
    as (es & dsl & -> & Hp); [lia|]. cbn [mbind Outcome_bind].
  rewrite (planned_from_state _ _ _ _ _ _ Hp) by by eapply planned_displays.
  by eexists.
Qed.
(** ** Recorded windows *)

Definition with_window (ms ordinal : N) (s : Schedule) : Schedule :=
  s <| schedule_machine := (schedule_machine s)
         <| ScheduleLifecycle.planning_cursor_utc_ms := Some ms |>
         <| ScheduleLifecycle.next_occurrence_ordinal := ordinal |> |>.

(** The window moves forward, as the machine's guards ask. *)
Definition window_moves (s : Schedule) (ms ordinal : N) : Prop :=
  (0 < ordinal)%N ∧
  ∀ c0, ScheduleLifecycle.planning_cursor_utc_ms (schedule_machine s) = Some c0 → (c0 < ms)%N.

Record recorded_window (s : Schedule) (cursor : DateTime) (ms ordinal : N) (w : ScheduleWrite)
  : Prop := {
  recorded_millis : to_millis cursor "planning_cursor_utc" = Ok ms;
  recorded_moves : window_moves s ms ordinal;
  recorded_active : sched_phase s = Active;
  recorded_schedule : sw_schedule w = with_window ms ordinal s;
  recorded_effects : sw_effects w =
    [ScheduleLifecycle.E_EmitScheduleNotice Active (sched_revision s);
     ScheduleLifecycle.E_PlanningWindowRecorded ms ordinal];
  recorded_flags : sw_revision_bumped w = false ∧ sw_pending_supersession w = None;
  recorded_precondition : sw_precondition w = Matches (sched_id s) (schedule_bytes s);
  recorded_ok : schedule_row_ok (sw_schedule w);
}.

Lemma set_schedule_phase_same (s : ScheduleState) p :
  ScheduleLifecycle.lifecycle_phase s = p → s <| ScheduleLifecycle.lifecycle_phase := p |> = s.
Proof. intros <-. by destruct s. Qed.

Lemma with_window_phase (s : ScheduleState) ms ordinal :
  ScheduleLifecycle.lifecycle_phase s = Active →
  s <| ScheduleLifecycle.planning_cursor_utc_ms := Some ms |>
    <| ScheduleLifecycle.next_occurrence_ordinal := ordinal |>
    <| ScheduleLifecycle.lifecycle_phase := Active |> =
  s <| ScheduleLifecycle.planning_cursor_utc_ms := Some ms |>
    <| ScheduleLifecycle.next_occurrence_ordinal := ordinal |>.
Proof. intros Hp. by apply set_schedule_phase_same. Qed.

Lemma with_window_ok s ms ordinal dt :
  schedule_row_ok s → window_moves s ms ordinal → sched_phase s = Active →
  millis_to_datetime ms = Some dt → schedule_row_ok (with_window ms ordinal s).
Proof.
  intros [Hrec Ht Htg Hp Hd]%schedule_ok_valid [Hord Hadv] Hact Hdt.
  apply schedule_ok_valid. split; [|done..|].
  - apply ScheduleFacts.recover_well_formed in Hrec as (Hr & Hdel & _).
    apply ScheduleFacts.recover_well_formed. unfold sched_phase in Hact. cbn.
    split_and!; [done|cbn; congruence|done].
  - unfold schedule_display_fields, planning_horizon_from_dsl in *. cbn.
    destruct (ScheduleLifecycle.planning_horizon_days _ <=? _)%N; [|done].
    destruct (ScheduleLifecycle.planning_horizon_occurrences _ <=? _)%N; [|done]. cbn in *.
    unfold from_millis. by rewrite Hdt.
Qed.

(** The machine records a window that moves forward. *)
Lemma run_window s ms ordinal dt :
  schedule_row_ok s → sched_phase s = Active → window_moves s ms ordinal →
  millis_to_datetime ms = Some dt →
  run_dsl (schedule_machine s) (ScheduleLifecycle.I_RecordPlanningWindow ms ordinal) =
    Ok ([ScheduleLifecycle.E_EmitScheduleNotice Active (sched_revision s);
         ScheduleLifecycle.E_PlanningWindowRecorded ms ordinal],
        schedule_machine (with_window ms ordinal s)).
Proof.
  intros Hok Hact Hmoves Hdt.
  pose proof (with_window_ok _ _ _ _ Hok Hmoves Hact Hdt) as Hok'%schedule_ok_valid.
  apply schedule_ok_valid in Hok as [Hrec _ _ _ _]. destruct Hok' as [Hrec' _ _ _ _].
  destruct Hmoves as [Hord Hadv]. unfold sched_phase in Hact.
  set (i := ScheduleLifecycle.I_RecordPlanningWindow ms ordinal).
  assert (Hsel : select (transitions i) (schedule_machine s) =
    Some (ScheduleLifecycle.RecordPlanningWindowActive ms ordinal)).
  { unfold select. cbn. rewrite Hact, (proj2 (N.ltb_lt _ _) Hord). cbn.
    destruct (ScheduleLifecycle.planning_cursor_utc_ms _) as [c0|] eqn:Hc; cbn; [|done].
    by rewrite (proj2 (N.ltb_lt _ _) (Hadv _ eq_refl)). }
  assert (Hfire : fire (ScheduleLifecycle.RecordPlanningWindowActive ms ordinal) (schedule_machine s)
    = Some (schedule_machine (with_window ms ordinal s),
        [ScheduleLifecycle.E_EmitScheduleNotice Active (sched_revision s);
         ScheduleLifecycle.E_PlanningWindowRecorded ms ordinal])).
  { unfold fire. cbn [tr_update tr_to tr_emit ScheduleLifecycle.RecordPlanningWindowActive
      mbind option_bind].
    match goal with |- context [set_phase Active ?x] =>
      change (set_phase Active x) with (x <| ScheduleLifecycle.lifecycle_phase := Active |>) end.
    rewrite with_window_phase by done.
    unfold ScheduleLifecycle.notice. cbn. rewrite Hact. reflexivity. }
  unfold run_dsl. rewrite Hrec. fold i.
  erewrite apply_selects; [reflexivity|discriminate|exact Hsel|exact Hfire|]. by apply recover_ok.
Qed.

Lemma window_request_steps fresh now s cursor ordinal :
  schedule_row_ok s →
  schedule_apply fresh now (Some s) (RecordPlanningWindow cursor ordinal) =
    (ms ← to_millis cursor "planning_cursor_utc";
     '(s', effects) ← drive_schedule s (ScheduleLifecycle.I_RecordPlanningWindow ms ordinal);
     Ok (schedule_lifecycle_mutator s' effects false (Matches (sched_id s) (schedule_bytes s)))).
Proof.
  intros Hok. cbn [schedule_apply ok_or mbind Outcome_bind].
  unfold schedule_precondition, schedule_write_fingerprint. by rewrite Hok.
Qed.

Lemma drive_window s ms ordinal dt :
  schedule_row_ok s → sched_phase s = Active → window_moves s ms ordinal →
  millis_to_datetime ms = Some dt →
  drive_schedule s (ScheduleLifecycle.I_RecordPlanningWindow ms ordinal) =
    Ok (with_window ms ordinal s,
        [ScheduleLifecycle.E_EmitScheduleNotice Active (sched_revision s);
         ScheduleLifecycle.E_PlanningWindowRecorded ms ordinal]).
Proof.
  intros Hok Hact Hmoves Hdt.
  pose proof (with_window_ok _ _ _ _ Hok Hmoves Hact Hdt) as [_ _ _ _ Hd]%schedule_ok_valid.
  unfold drive_schedule, run_schedule_dsl. rewrite Hok. cbn [mbind Outcome_bind].
  rewrite (run_window _ _ _ _ Hok Hact Hmoves Hdt). cbn [mbind Outcome_bind].
  unfold write_back_schedule. rewrite Hd. cbn [mbind Outcome_bind map_schedule_effects
    schedule_effect_instants]. unfold from_millis. rewrite Hdt. cbn. by destruct s.
Qed.

Lemma window_request_valid fresh now s cursor ordinal w :
  schedule_apply fresh now (Some s) (RecordPlanningWindow cursor ordinal) = Ok w → schedule_row_ok s.
Proof.
  cbn [schedule_apply ok_or mbind Outcome_bind].
  by intros (p & Hok%schedule_precondition_ok & _)%Outcome_bind_Ok.
Qed.

Lemma window_recorded fresh now s cursor ordinal w :
  on_millis cursor →
  schedule_apply fresh now (Some s) (RecordPlanningWindow cursor ordinal) = Ok w →
  ∃ ms, recorded_window s cursor ms ordinal w.
Proof.
  intros Hgrid Hw. pose proof (window_request_valid _ _ _ _ _ _ Hw) as Hok. revert Hw.
  rewrite window_request_steps by done. intros (ms & Hms & Hw)%Outcome_bind_Ok.
  pose proof (to_millis_grid _ _ _ Hgrid Hms) as Hdt.
  apply Outcome_bind_Ok in Hw as ([s' es] & Hdr & [= <-]). exists ms.
  pose proof (drive_driven _ _ _ _ Hdr) as [[_ (t & HF) _] _].
  assert (Hm : window_moves s ms ordinal ∧ sched_phase s = Active).
  { destruct HF as [Hin Hg _]. apply list_elem_of_singleton in Hin as ->. cbn in Hg. case_guards.
    - split; [split; [done|]|done]. congruence.
    - split; [split; [done|]|done]. intros c0 Hc. by rewrite Hc in *. }
  destruct Hm as [Hmoves Hact].
  rewrite (drive_window _ _ _ _ Hok Hact Hmoves Hdt) in Hdr. injection Hdr as <- <-.
  split; try done. by eapply with_window_ok.
Qed.

Lemma window_request_returns fresh now s cursor ms ordinal :
  schedule_row_ok s → sched_phase s = Active → on_millis cursor →
  to_millis cursor "planning_cursor_utc" = Ok ms → window_moves s ms ordinal →
  ∃ w, schedule_apply fresh now (Some s) (RecordPlanningWindow cursor ordinal) = Ok w.
Proof.
  intros Hok Hact Hgrid Hms Hmoves. rewrite window_request_steps by done. rewrite Hms.
  cbn [mbind Outcome_bind].
  rewrite (drive_window _ _ _ _ Hok Hact Hmoves (to_millis_grid _ _ _ Hgrid Hms)).
  by eexists.
Qed.

Lemma window_refused fresh now s cursor ms ordinal :
  schedule_row_ok s → to_millis cursor "planning_cursor_utc" = Ok ms →
  (∃ c0, ScheduleLifecycle.planning_cursor_utc_ms (schedule_machine s) = Some c0 ∧ (ms ≤ c0)%N) →
  schedule_apply fresh now (Some s) (RecordPlanningWindow cursor ordinal) = Err TransitionRefused.
Proof.
  intros Hok Hms (c0 & Hc & Hle). rewrite window_request_steps by done. rewrite Hms.
  cbn [mbind Outcome_bind]. unfold drive_schedule, run_schedule_dsl. rewrite Hok.
  cbn [mbind Outcome_bind]. apply schedule_ok_valid in Hok as [Hrec _ _ _ _].
  unfold run_dsl. rewrite Hrec.
  assert (Hsel : select (transitions (ScheduleLifecycle.I_RecordPlanningWindow ms ordinal))
    (schedule_machine s) = None).
  { unfold select. cbn. rewrite Hc. cbn. rewrite (proj2 (N.ltb_ge _ _) Hle). by rewrite andb_false_r. }
  by rewrite (apply_guard_rejected (ScheduleLifecycle.I_RecordPlanningWindow ms ordinal)).
Qed.
End rows.
