(* ===== verification/PlannerFacts.v ===== *)
(** * PlannerFacts: what a plan contains

    The due times of a plan are the first due times of the trigger after the
    planning cursor and up to the horizon, as many as are missing; its rows are
    valid pending rows with consecutive ordinals; and the next refill is due
    when the next due time comes within the horizon. *)

From Stdlib Require Import Sorted.
From stdpp Require Import gmap.
From S2P Require Import Prelude Text Chrono ScheduleTypes Cron Trigger FirstDue TriggerFacts HorizonFacts.
From S2P Require Import Millis Authority ScheduleLifecycle OccurrenceLifecycle.
From S2P Require Import Rows RowFacts ScheduleRows StoreTypes MemoryStore Planner PlannedRows.

(** ** Prefixes and next answers of a horizon *)

Section first.
Context `{Chrono} {HL : ChronoLaws} `{BuildProfile}.

Lemma First_take P lo hi n m l : First P lo hi (n + m) l → First P lo hi n (take n l).
Proof.
  revert lo l. induction n as [|n IH]; intros lo l HF; [by apply First_nil; left|].
  destruct l as [|d l].
  - apply First_nil. right. intros t Ht Hr. by eapply First_empty.
  - destruct (First_head _ _ _ _ _ _ HF) as [Hd Hr]. cbn.
    apply First_cons; [done|done| |apply IH; by eapply First_tail].
    intros t Ht Hlo. destruct (Z.le_gt_cases (ns t) hi); [|lia].
    by eapply First_head_least.
Qed.

(** How far [next_due_after] looks for its answer. *)
Definition search_limit (trigger : TriggerSpec) (c : DateTime) : Z :=
  match trigger with
  | Calendar _ => minute_after (ns c) + 366 * 5 * (1440 * minute_ns)
  | _ => max_utc_ns
  end.

(** How close to the last instant a cursor may come. *)
Definition lookahead (trigger : TriggerSpec) : Z :=
  match trigger with
  | Calendar _ => 2 * minute_ns + 366 * 5 * (1440 * minute_ns)
  | _ => span trigger
  end.

Lemma calendar_next_spec spec c now :
  match next_due_after (Calendar spec) (Some c) now with
  | Ok r => First (due (Calendar spec)) (ns c + 1) (search_limit (Calendar spec) c) 1 (answer_list r)
  | Err e => trigger_refusal (Calendar spec) = Some e
  | Panic => max_utc_ns < ns c + lookahead (Calendar spec)
  | OutOfFuel => False
  end%Z.
Proof.
  cbn [next_due_after]. unfold next_calendar_due_after, normalize_timezone. cbn [trigger_refusal from_option].
  change (id c) with c.
  destruct (parse_tz (timezone spec)) as [tz|] eqn:Htz; cbn [ok_or mbind Outcome_bind]; [|done].
  pose proof (next_minute_boundary_spec c) as Hb. cbn [lookahead].
  destruct (next_minute_boundary c) as [start| | |]; cbn [mbind Outcome_bind]; try done; [|unfold minute_ns in *; lia].
  pose proof (minute_after_bounds (ns c)) as Hm.
  pose proof (plus_spec (E := ScheduleDomainError) start (days (366 * 5)) (366 * 5 * (1440 * minute_ns))) as Hp.
  destruct (Trigger.plus start (days (366 * 5))) as [stop| | |]; cbn [mbind Outcome_bind].
  - assert (Hstop : (ns stop = ns start + 366 * 5 * (1440 * minute_ns))%Z).
    { apply Hp; [intros d; apply days_ns|left; by apply days_some|done]. }
    pose proof (scan_after_spec spec tz c start stop 1 Htz Hb) as Hs.
    destruct (scan_calendar _ _ _ _ _) as [l| | |]; cbn [mbind Outcome_bind]; try done; [|unfold minute_ns in *; lia].
    unfold search_limit. rewrite <-Hb, <-Hstop. pose proof (first_length _ _ _ _ _ Hs) as Hl.
    destruct l as [|d [|? ?]]; [exact Hs|exact Hs|cbn in Hl; lia].
  - exfalso. apply Hp; [intros d; apply days_ns|left; by apply days_some|done].
  - enough (max_utc_ns < ns start + 366 * 5 * (1440 * minute_ns))%Z by lia.
    apply Hp; [intros d; apply days_ns|left; by apply days_some|done].
  - exfalso. apply Hp; [intros d; apply days_ns|left; by apply days_some|done].
Qed.

(** [next_due_after] answers the first due time after the cursor. *)
Lemma next_due_first trigger c now :
  match next_due_after trigger (Some c) now with
  | Ok r => First (due trigger) (ns c + 1) (search_limit trigger c) 1 (answer_list r)
  | Err e => trigger_refusal trigger = Some e
  | Panic => max_utc_ns < ns c + lookahead trigger
  | OutOfFuel => False
  end%Z.
Proof.
  assert (Hs : (∀ spec, trigger ≠ Calendar spec) →
    search_limit trigger c = max_utc_ns ∧ lookahead trigger = span trigger).
  { intros Hcal. destruct trigger as [| |spec]; [done|done|by destruct (Hcal spec)]. }
  destruct trigger as [d|spec|spec]; [| |apply calendar_next_spec].
  all: destruct Hs as [-> ->]; [done|].
  all: match goal with |- context [next_due_after ?t] => set (trigger := t) end.
  all: destruct (trigger_refusal trigger) as [e|] eqn:Hr;
    [by rewrite (next_due_refused trigger (Some c) now e)|].
  all: pose proof (next_due_spec trigger c now ltac:(done) Hr) as Hn.
  all: by destruct (next_due_after _ _ _).
Qed.
End first.

Section planner.
Context `{RowCodec} {HL : ChronoLaws} {BP : BuildProfile}.

(** ** The cursor *)

Lemma max_due_spec l :
  match max_due l with
  | None => l = []
  | Some m => m ∈ l ∧ Forall (λ d, ns d ≤ ns m)%Z l
  end.
Proof.
  induction l as [|d l IH]; [done|]. cbn [max_due].
  destruct (max_due l) as [m|]; [|subst l; split; [by left|by repeat constructor]].
  destruct IH as [Hin Hall]. unfold dt_max, dt_leb.
  destruct (Z.leb_spec (ns d) (ns m)) as [Hle|Hlt].
  - split; [by right|]. by constructor.
  - split; [by left|]. constructor; [done|]. eapply Forall_impl; [exact Hall|]. cbn. lia.
Qed.

Lemma elem_of_existing_due z s existing :
  z ∈ existing_due_set s existing ↔ ∃ d, z = ns d ∧ d ∈ omap occ_due (current_rows s existing).
Proof. unfold existing_due_set. by rewrite elem_of_list_to_set, list_elem_of_fmap. Qed.

(** Nothing that is due after the cursor is in the snapshot. *)
Lemma past_cursor_is_new s store_now existing c d :
  planning_cursor s store_now existing = Ok c → (ns c < ns d)%Z →
  ns d ∉ existing_due_set s existing.
Proof.
  unfold planning_cursor. rewrite elem_of_existing_due.
  pose proof (max_due_spec (omap occ_due (current_rows s existing))) as Hm.
  destruct (max_due _) as [m|].
  - intros [= <-] Hlt (d' & Heq & Hin). destruct Hm as [_ Hall].
    rewrite Forall_forall in Hall. specialize (Hall _ Hin). lia.
  - rewrite Hm. intros _ _ (d' & _ & Hin). by apply elem_of_nil in Hin.
Qed.

(** ** The planning loop *)

(** Rows planned for the due times [ds], with consecutive ordinals. *)
Inductive planned_rows (fresh : N → OccurrenceId) (s : Schedule)
  : N → list DateTime → list OccurrenceWrite → N → Prop :=
| planned_none ordinal : planned_rows fresh s ordinal [] [] ordinal
| planned_next ordinal d ds w ws ordinal' :
    planned_row s (fresh ordinal) ordinal d w →
    planned_rows fresh s (OccurrenceOrdinal_next ordinal) ds ws ordinal' →
    planned_rows fresh s ordinal (d :: ds) (w :: ws) ordinal'.

Lemma plan_loop_rows fresh s E remaining l ordinal acc planned ordinal' :
  Forall on_millis l → Forall (λ d, ns d ∉ E) l → (length acc < remaining)%nat →
  plan_loop fresh s E remaining l ordinal acc = Ok (planned, ordinal') →
  ∃ ws, planned = acc ++ ws ∧
    planned_rows fresh s ordinal (take (remaining - length acc) l) ws ordinal'.
Proof.
  revert ordinal acc. induction l as [|d l IH]; intros ordinal acc Hgrid Hnew Hlen.
  { intros [= <- <-]. exists []. rewrite app_nil_r, take_nil. split; [done|constructor]. }
  apply Forall_cons in Hgrid as [Hd Hgrid]. apply Forall_cons in Hnew as [Hdn Hnew].
  cbn [plan_loop]. rewrite bool_decide_eq_false_2 by done.
  intros (w & Hw%map_err_Ok & Hl)%Outcome_bind_Ok.
  pose proof (planned_write_row _ _ _ _ _ Hd Hw) as Hrow. rewrite length_app in Hl. cbn in Hl.
  replace (remaining - length acc)%nat with (S (remaining - S (length acc))) by lia. cbn [take].
  destruct (Nat.leb_spec remaining (length acc + 1)) as [Hle|Hgt].
  - injection Hl as <- <-. exists [w]. split; [done|].
    replace (remaining - S (length acc))%nat with O by lia. rewrite take_0.
    econstructor; [done|constructor].
  - apply IH in Hl as (ws & -> & Hws); [|done|done|rewrite length_app; cbn; lia].
    exists (w :: ws). rewrite <-app_assoc. split; [done|].
    rewrite length_app in Hws. cbn in Hws. econstructor; [done|].
    by replace (remaining - S (length acc))%nat with (remaining - (length acc + 1))%nat by lia.
Qed.

Lemma planned_rows_length fresh s o ds ws o' :
  planned_rows fresh s o ds ws o' → length ws = length ds.
Proof. induction 1; cbn; congruence. Qed.

Lemma planned_rows_last fresh s o ds ws o' :
  planned_rows fresh s o ds ws o' → last_planned_due ws = last ds.
Proof.
  induction 1 as [o|o d ds w ws o' Hrow Hrows IH]; [done|]. unfold last_planned_due in *.
  destruct Hrows as [|o1 d1 ds1 w1 ws1 o1' _ _]; [|exact IH].
  cbn. by rewrite (planned_due _ _ _ _ _ Hrow).
Qed.

Lemma planned_rows_ordinal fresh s o ds ws o' :
  planned_rows fresh s o ds ws o' → ds ≠ [] → (0 < o')%N.
Proof.
  induction 1 as [o|o d ds w ws o' Hrow Hrows IH]; [done|intros _].
  destruct ds; [|by apply IH]. inversion Hrows; subst.
  unfold OccurrenceOrdinal_next, saturating_next, u64_max. lia.
Qed.

(** ** The specification of a plan *)

Definition day_ns : Z := 1440 * minute_ns.
Definition horizon_days (s : Schedule) : Z :=
  Z.of_N (ScheduleLifecycle.planning_horizon_days (schedule_machine s)).

(** The rows that are pending up to the horizon, and the rows that are missing. *)
Definition pending_count (s : Schedule) (horizon_end : DateTime) (existing : list Occurrence) : nat :=
  length (filter (λ o, pending_until horizon_end o = true) (current_rows s existing)).
Definition missing (s : Schedule) (horizon_end : DateTime) (existing : list Occurrence) : nat :=
  N.to_nat (ScheduleLifecycle.planning_horizon_occurrences (schedule_machine s))
    - pending_count s horizon_end existing.

(** The refill falls due when the next due time past [c] enters the horizon. *)
Definition refill_enters (s : Schedule) (store_now horizon_end c : DateTime)
    (refill : option DateTime) : Prop :=
  ∃ next, First (due (schedule_trigger s)) (ns c + 1) (search_limit (schedule_trigger s) c) 1
      (answer_list next) ∧
    match next, refill with
    | Some d, Some at_utc => (ns horizon_end < ns d ∧ ns at_utc = ns d - (ns horizon_end - ns store_now))%Z
    | None, None => True
    | _, _ => False
    end.

Record plan_exact (fresh : N → OccurrenceId) (s : Schedule) (store_now : DateTime)
    (existing : list Occurrence) (horizon_end cursor : DateTime) (ds : list DateTime) (ordinal : N)
    (p : PlannedScheduleOccurrences) : Prop := {
  plan_cursor : planning_cursor s store_now existing = Ok cursor;
  plan_dues : First (due (schedule_trigger s)) (ns cursor + 1) (ns horizon_end)
    (missing s horizon_end existing) ds;
  plan_rows : planned_rows fresh s
    (ScheduleLifecycle.next_occurrence_ordinal (schedule_machine s)) ds (planned_occurrences p) ordinal;
  plan_window : match last ds with
    | None => planned_mutator p = None
    | Some d => ∃ w ms, planned_mutator p = Some w ∧ recorded_window s d ms ordinal w
    end;
  plan_refill :
    if (missing s horizon_end existing <=? length ds)%nat then planned_next_refill_at_utc p = None
    else refill_enters s store_now horizon_end (default cursor (last ds)) (planned_next_refill_at_utc p);
}.

Lemma horizon_end_ns s store_now d h :
  days (horizon_days s) = Some d → add_signed store_now d = Some h →
  (ns h = ns store_now + horizon_days s * day_ns)%Z.
Proof. intros Hd Hh. by rewrite (add_signed_ns _ _ _ Hh), (days_ns _ _ Hd). Qed.
(** A plan that is not full leaves nothing due up to the horizon. *)
Lemma nothing_left P lo hi n ds c d :
  First P lo hi n ds → (length ds < n)%nat → P d → (lo ≤ ns d)%Z →
  (∀ x, last ds = Some x → ns x ≤ ns c)%Z → (ns c < ns d)%Z → (hi < ns d)%Z.
Proof.
  intros HF Hlen Hd Hlo Hlast Hlt. apply Z.nle_gt. intros Hle.
  destruct (first_complete _ _ _ _ _ HF d Hd) as [Hin|[? _]]; [lia| |lia].
  destruct (last ds) as [x|] eqn:Hx; [|by apply last_None in Hx as ->; apply elem_of_nil in Hin].
  specialize (Hlast x eq_refl). apply last_Some in Hx as [l' ->].
  apply elem_of_app in Hin as [Hin | ->%list_elem_of_singleton]; [|lia].
  pose proof (first_sorted _ _ _ _ _ HF) as Hs.
  assert (before d x); [|unfold before in *; lia].
  clear -Hs Hin. induction l' as [|y l' IH]; [by apply elem_of_nil in Hin|].
  cbn in Hs. apply StronglySorted_inv in Hs as [Hs Hall].
  apply elem_of_cons in Hin as [->|Hin]; [|by apply IH].
  rewrite List.Forall_forall in Hall. apply Hall. apply List.in_app_iff. right. by left.
Qed.

Lemma First_last_bounds P lo hi n ds d :
  First P lo hi n ds → last ds = Some d → P d ∧ (lo ≤ ns d ≤ hi)%Z.
Proof.
  intros HF Hl. pose proof (first_sound _ _ _ _ _ HF) as Hs. rewrite Forall_forall in Hs.
  apply Hs. by eapply last_Some_elem_of.
Qed.

(** The cursor of the next refill is past the planning cursor. *)
Lemma next_cursor_bounds P lo hi n ds c :
  First P lo hi n ds → (lo = ns c + 1)%Z →
  (ns c ≤ ns (default c (last ds)))%Z ∧ (∀ x, last ds = Some x → ns x ≤ ns (default c (last ds)))%Z.
Proof.
  intros HF ->. destruct (last ds) as [d|] eqn:Hl; cbn; [|split; [lia|done]].
  destruct (First_last_bounds _ _ _ _ _ _ HF Hl) as [_ ?]. split; [lia|]. intros x [= ->]. lia.
Qed.

Lemma refill_exact s hd store_now now h ds c n r :
  add_signed store_now hd = Some h →
  First (due (schedule_trigger s)) (ns c + 1) (ns h) n ds → (length ds < n)%nat →
  next_refill_at_utc s hd store_now now (default c (last ds)) = Ok r →
  refill_enters s store_now h (default c (last ds)) r.
Proof.
  intros Hh HF Hlen Hr. destruct (next_cursor_bounds _ _ _ _ _ c HF eq_refl) as [Hc Hlast].
  set (c' := default c (last ds)) in *. unfold next_refill_at_utc in Hr.
  apply Outcome_bind_Ok in Hr as (next & Hnext%map_err_Ok & Hr).
  pose proof (next_due_first (schedule_trigger s) c' now) as HN. rewrite Hnext in HN.
  exists next. split; [exact HN|]. destruct next as [d|]; [|by injection Hr as <-].
  apply Outcome_bind_Ok in Hr as (at_utc & Hat%or_panic_Ok & [= <-]).
  apply First_head in HN as [Hd Hdr].
  pose proof (nothing_left _ _ _ _ _ c' d HF Hlen Hd ltac:(lia) Hlast ltac:(lia)) as Hlt.
  split; [exact Hlt|]. pose proof (sub_signed_ns _ _ _ Hat) as Hns.
  pose proof (add_signed_ns _ _ _ Hh) as Hhn.
  unfold dt_max, dt_leb. destruct (Z.leb_spec (ns at_utc) (ns store_now)); lia.
Qed.

(** The due times the loop is given are new, so it plans the first of them. *)
Lemma planned_dues fresh s store_now existing h c l planned ordinal' now :
  planning_cursor s store_now existing = Ok c → missing s h existing ≠ O →
  occurrences_for_horizon (schedule_trigger s) (Some c) h
    (missing s h existing + size (existing_due_set s existing)) now = Ok l →
  plan_loop fresh s (existing_due_set s existing) (missing s h existing) l
    (ScheduleLifecycle.next_occurrence_ordinal (schedule_machine s)) [] = Ok (planned, ordinal') →
  ∃ ds, First (due (schedule_trigger s)) (ns c + 1) (ns h) (missing s h existing) ds ∧
    planned_rows fresh s (ScheduleLifecycle.next_occurrence_ordinal (schedule_machine s)) ds planned
      ordinal'.
Proof.
  intros Hc Hm HF%horizon_first Hl.
  pose proof (first_sound _ _ _ _ _ HF) as Hs.
  apply plan_loop_rows in Hl as (ws & -> & Hws); [| | |cbn; lia].
  - exists (take (missing s h existing) l). cbn in Hws. rewrite Nat.sub_0_r in Hws.
    split; [by eapply First_take|done].
  - eapply Forall_impl; [exact Hs|]. intros d [Hd _]. by eapply due_on_millis.
  - eapply Forall_impl; [exact Hs|]. intros d [_ Hr]. eapply past_cursor_is_new; [exact Hc|lia].
Qed.

(** Enough rows are pending, or the plan is exact. *)
Lemma plan_spec fresh now s store_now existing p :
  sched_phase s = Active →
  plan_schedule_occurrences_from_snapshot fresh now s store_now existing = Ok p →
  ∃ h, (ns h = ns store_now + horizon_days s * day_ns)%Z ∧
    if (missing s h existing =? 0)%nat then p = nothing_planned
    else ∃ c ds ordinal, plan_exact fresh s store_now existing h c ds ordinal p.
Proof.
  intros Hact. unfold plan_schedule_occurrences_from_snapshot.
  rewrite Hact, bool_decide_eq_true_2 by done. cbn [negb].
  intros (hd & Hhd%or_panic_Ok & Hp)%Outcome_bind_Ok.
  apply Outcome_bind_Ok in Hp as (h & Hh%or_panic_Ok & Hp).
  exists h. split; [by eapply horizon_end_ns|].
  fold (pending_count s h existing) in Hp. fold (missing s h existing) in Hp.
  set (desired := N.to_nat _) in *.
  assert (Hen : ((desired =? 0) || (desired <=? pending_count s h existing))%nat =
    (missing s h existing =? 0)%nat).
  { unfold missing. fold desired. destruct (Nat.eqb_spec desired 0), (Nat.leb_spec desired (pending_count s h existing)),
      (Nat.eqb_spec (desired - pending_count s h existing) 0); cbn; lia || done. }
  rewrite Hen in Hp. destruct (Nat.eqb_spec (missing s h existing) 0) as [_|Hm]; [by injection Hp as <-|].
  apply Outcome_bind_Ok in Hp as (c & Hc & Hp).
  apply Outcome_bind_Ok in Hp as (l & Hl%map_err_Ok & Hp).
  apply Outcome_bind_Ok in Hp as ([planned ordinal'] & Hloop & Hp).
  destruct (planned_dues _ _ _ _ _ _ _ _ _ _ Hc Hm Hl Hloop) as (ds & HF & Hrows).
  pose proof (planned_rows_length _ _ _ _ _ _ Hrows) as Hlen.
  rewrite (planned_rows_last _ _ _ _ _ _ Hrows), Hlen in Hp.
  apply Outcome_bind_Ok in Hp as (refill & Hrefill & Hp).
  exists c, ds, ordinal'.
  assert (Hfull : (desired <=? pending_count s h existing + length ds)%nat =
    (missing s h existing <=? length ds)%nat).
  { unfold missing. fold desired. destruct (Nat.leb_spec desired (pending_count s h existing + length ds)),
      (Nat.leb_spec (desired - pending_count s h existing) (length ds)); lia || done. }
  rewrite Hfull in Hrefill.
  assert (Hrf : if (missing s h existing <=? length ds)%nat then refill = None
    else refill_enters s store_now h (default c (last ds)) refill).
  { destruct (Nat.leb_spec (missing s h existing) (length ds)); [by injection Hrefill as <-|].
    by eapply refill_exact. }
  destruct (last ds) as [d|] eqn:Hlast.
  - apply Outcome_bind_Ok in Hp as (w & Hw%map_err_Ok & [= <-]).
    destruct (First_last_bounds _ _ _ _ _ _ HF Hlast) as [Hd _].
    destruct (window_recorded _ _ _ _ _ _ (due_on_millis _ _ Hd) Hw) as [ms Hrec].
    split; cbn; rewrite ?Hlast; [done..| |done]. eauto.
  - injection Hp as <-. split; cbn; rewrite ?Hlast; done.
Qed.
End planner.
