(* ===== verification/PlannerReturns.v ===== *)
(** * PlannerReturns: when planning returns

    Within chrono's range a valid active schedule is planned, unless the machine
    refuses the window: the last planned due time is not past the recorded
    planning cursor. *)

From Stdlib Require Import Sorted.
From stdpp Require Import gmap.
From S2P Require Import Prelude Text Chrono ScheduleTypes Cron Trigger FirstDue TriggerFacts HorizonFacts.
From S2P Require Import Millis Authority ScheduleLifecycle OccurrenceLifecycle.
From S2P Require Import Rows RowFacts RowValidity RowOutcomes ScheduleRows StoreTypes MemoryStore Planner PlannedRows.
From S2P Require Import PlannerFacts.

Section planner.
Context `{RowCodec} {HL : ChronoLaws} {BP : BuildProfile}.

(** A schedule whose planning stays within chrono's range: [h] is the end of the
    horizon and [c] the cursor planning resumes from. *)
Record plannable (s : Schedule) (store_now : DateTime) (existing : list Occurrence)
    (h c : DateTime) : Prop := {
  plannable_valid : schedule_row_ok s;
  plannable_active : sched_phase s = Active;
  plannable_trigger : trigger_refusal (schedule_trigger s) = None;
  plannable_horizon : (ns h = ns store_now + horizon_days s * day_ns)%Z;
  plannable_cursor : planning_cursor s store_now existing = Ok c;
  plannable_epoch : (0 ≤ ns c + 1)%Z;
  plannable_range : (Z.max (ns c) (ns h) + lookahead (schedule_trigger s) ≤ max_utc_ns)%Z;
  plannable_misfire :
    (ns h + window_seconds (schedule_misfire_policy s) * second_ns ≤ max_utc_ns)%Z ∧
    (window_seconds (schedule_misfire_policy s) ≤ i64_max / 1000)%Z;
}.

Lemma span_lookahead trigger : (0 ≤ span trigger ≤ lookahead trigger)%Z.
Proof. destruct trigger; cbn; unfold minute_ns, second_ns; lia. Qed.

Lemma horizon_days_bound s : schedule_row_ok s → (0 ≤ horizon_days s ≤ 4294967295)%Z.
Proof.
  intros [_ _ _ _ Hd]%schedule_ok_valid. unfold schedule_display_fields, planning_horizon_from_dsl in Hd.
  destruct (N.leb_spec (ScheduleLifecycle.planning_horizon_days (schedule_machine s)) u32_max); [|done].
  unfold horizon_days, u32_max in *. lia.
Qed.

Lemma horizon_returns s store_now existing h c :
  plannable s store_now existing h c →
  ∃ hd, days (horizon_days s) = Some hd ∧ add_signed store_now hd = Some h ∧
    (delta_ns hd = ns h - ns store_now)%Z.
Proof.
  intros [Hok _ _ Hh _ _ _ _]. pose proof (horizon_days_bound _ Hok) as Hb.
  assert (Hlim : (4294967295 ≤ i64_max / 86400000)%Z) by by vm_compute.
  destruct (days_some (horizon_days s)) as [hd Hhd]; [lia|].
  pose proof (days_ns _ _ Hhd) as Hns. fold day_ns in Hns.
  destruct (add_signed_some store_now hd) as [h' Hh'].
  { rewrite Hns. pose proof (ns_range h). lia. }
  exists hd. pose proof (add_signed_ns _ _ _ Hh') as Hns'.
  replace h with h' by (apply (inj ns); lia). split_and!; [done..|lia].
Qed.

(** The loop plans every due time it is given. *)
Lemma plan_loop_returns fresh s E remaining l ordinal acc :
  (window_seconds (schedule_misfire_policy s) ≤ i64_max / 1000)%Z →
  Forall (λ d, on_millis d ∧ (0 ≤ ns d)%Z ∧
    (ns d + window_seconds (schedule_misfire_policy s) * second_ns ≤ max_utc_ns)%Z) l →
  ∃ r, plan_loop fresh s E remaining l ordinal acc = Ok r.
Proof.
  intros Hw. revert ordinal acc. induction l as [|d l IH]; intros ordinal acc Hl; [by eexists|].
  apply Forall_cons in Hl as [(Hgrid & Hpos & Hmax) Hl]. cbn [plan_loop].
  case_bool_decide; [by apply IH|].
  destruct (planned_write_returns (fresh ordinal) s ordinal d) as [w ->]; [done..|].
  cbn [map_err mbind Outcome_bind]. destruct (_ <=? _)%nat; [by eexists|by apply IH].
Qed.

Lemma refill_returns s store_now existing h c hd n ds now :
  plannable s store_now existing h c → add_signed store_now hd = Some h →
  (delta_ns hd = ns h - ns store_now)%Z →
  First (due (schedule_trigger s)) (ns c + 1) (ns h) n ds → (length ds < n)%nat →
  ∃ r, next_refill_at_utc s hd store_now now (default c (last ds)) = Ok r.
Proof.
  intros [Hok _ Htr Hh _ _ Hr _] Hadd Hd HF Hlen.
  destruct (next_cursor_bounds _ _ _ _ _ c HF eq_refl) as [Hc Hlast].
  set (c' := default c (last ds)) in *. unfold next_refill_at_utc.
  assert (Hc' : (ns c' ≤ Z.max (ns c) (ns h))%Z).
  { subst c'. destruct (last ds) as [d|] eqn:Hl; cbn; [|lia].
    destruct (First_last_bounds _ _ _ _ _ _ HF Hl) as [_ ?]. lia. }
  pose proof (next_due_first (schedule_trigger s) c' now) as HN.
  destruct (next_due_after _ _ _) as [[d|]| | |]; cbn [map_err mbind Outcome_bind];
    [|by eexists|congruence|lia|done].
  apply First_head in HN as [Hdue Hdr]. pose proof (horizon_days_bound _ Hok).
  pose proof (nothing_left _ _ _ _ _ c' d HF Hlen Hdue ltac:(lia) Hlast ltac:(lia)) as Hlt.
  destruct (sub_signed_some d hd) as [u ->]; [|by eexists].
  pose proof (ns_range store_now). pose proof (ns_range d). unfold day_ns, minute_ns in *. lia.
Qed.

(** The recorded cursor is not before the last planned due time. *)
Definition behind_recorded (s : Schedule) (d : DateTime) : bool :=
  match ScheduleLifecycle.planning_cursor_utc_ms (schedule_machine s) with
  | Some c0 => (ns d <=? Z.of_N c0 * milli_ns)%Z
  | None => false
  end.

Lemma window_outcome fresh now s d ordinal :
  schedule_row_ok s → sched_phase s = Active → on_millis d → (0 ≤ ns d)%Z → (0 < ordinal)%N →
  if behind_recorded s d
  then schedule_apply fresh now (Some s) (RecordPlanningWindow d ordinal) = Err TransitionRefused
  else ∃ w, schedule_apply fresh now (Some s) (RecordPlanningWindow d ordinal) = Ok w.
Proof.
  intros Hok Hact Hgrid Hpos Hord.
  destruct (due_round_trip d Hgrid Hpos) as (ms & Hms & Hdt).
  assert (Hms' : to_millis d "planning_cursor_utc" = Ok ms) by by apply millis_of_instant.
  apply millis_to_datetime_ns in Hdt. unfold behind_recorded.
  destruct (ScheduleLifecycle.planning_cursor_utc_ms _) as [c0|] eqn:Hc.
  - destruct (Z.leb_spec (ns d) (Z.of_N c0 * milli_ns)) as [Hle|Hlt].
    + apply (window_refused _ _ _ _ ms); [done..|]. exists c0. split; [done|]. unfold milli_ns in *. lia.
    + eapply window_request_returns; [done..|]. split; [done|]. intros c1. rewrite Hc. intros [= <-].
      unfold milli_ns in *. lia.
  - eapply window_request_returns; [done..|]. split; [done|]. intros c1. by rewrite Hc.
Qed.

Lemma plan_outcome fresh now s store_now existing h c :
  plannable s store_now existing h c → missing s h existing ≠ O →
  ∃ ds, First (due (schedule_trigger s)) (ns c + 1) (ns h) (missing s h existing) ds ∧
    if from_option (behind_recorded s) false (last ds)
    then plan_schedule_occurrences_from_snapshot fresh now s store_now existing =
      Err (PlanInternal TransitionRefused)
    else ∃ p, plan_schedule_occurrences_from_snapshot fresh now s store_now existing = Ok p.
Proof.
  intros Hpl Hm. destruct (horizon_returns _ _ _ _ _ Hpl) as (hd & Hhd & Hadd & Hdelta).
  pose proof Hpl as [Hok Hact Htr Hh Hc Hep Hr [Hmf Hw]].
  unfold plan_schedule_occurrences_from_snapshot.
  rewrite Hact, bool_decide_eq_true_2 by done. cbn [negb].
  fold (horizon_days s). rewrite Hhd. cbn [or_panic mbind Outcome_bind]. rewrite Hadd.
  cbn [or_panic mbind Outcome_bind].
  fold (pending_count s h existing) (missing s h existing). set (desired := N.to_nat _).
  destruct ((desired =? 0) || (desired <=? pending_count s h existing))%nat eqn:Hen.
  { unfold missing in Hm. fold desired in Hm. apply orb_true_iff in Hen as [?%Nat.eqb_eq|?%Nat.leb_le]; lia. }
  rewrite Hc. cbn [mbind Outcome_bind].
  set (n := (missing s h existing + size (existing_due_set s existing))%nat).
  pose proof (horizon_spec (schedule_trigger s) c h n now) as Hsp.
  pose proof (span_lookahead (schedule_trigger s)).
  destruct (occurrences_for_horizon _ _ _ _ _) as [l|e| |] eqn:Hl;
    cbn [map_err mbind Outcome_bind]; [|destruct Hsp; congruence|lia|done].
  destruct Hsp as [HFl _].
  destruct (plan_loop_returns fresh s (existing_due_set s existing) (missing s h existing) l
    (ScheduleLifecycle.next_occurrence_ordinal (schedule_machine s)) [] Hw) as [[planned ordinal'] Hloop].
  { eapply Forall_impl; [exact (first_sound _ _ _ _ _ HFl)|]. intros d [Hd Hdr].
    split_and!; [by eapply due_on_millis|lia|lia]. }
  rewrite Hloop. cbn [mbind Outcome_bind].
  destruct (planned_dues _ _ _ _ _ _ _ _ _ _ Hc Hm Hl Hloop) as (ds & HF & Hrows).
  exists ds. split; [exact HF|]. rewrite (planned_rows_last _ _ _ _ _ _ Hrows).
  pose proof (planned_rows_length _ _ _ _ _ _ Hrows) as ->.
  assert (Hrefill : ∃ r, (if (desired <=? pending_count s h existing + length ds)%nat
    then Ok None else next_refill_at_utc s hd store_now now (default c (last ds))) = Ok r).
  { destruct (Nat.leb_spec desired (pending_count s h existing + length ds)); [by eexists|].
    eapply refill_returns; [exact Hpl|exact Hadd|exact Hdelta|exact HF|].
    unfold missing. fold desired. lia. }
  destruct Hrefill as [r ->]. cbn [mbind Outcome_bind].
  destruct (last ds) as [d|] eqn:Hlast; cbn [from_option]; [|by eexists].
  destruct (First_last_bounds _ _ _ _ _ _ HF Hlast) as [Hd Hdr].
  assert (Hord : (0 < ordinal')%N).
  { eapply planned_rows_ordinal; [exact Hrows|]. by intros ->. }
  pose proof (window_outcome (sched_id s) now s d ordinal' Hok Hact
    (due_on_millis _ _ Hd) ltac:(lia) Hord) as Hwin.
  destruct (behind_recorded s d); [by rewrite Hwin|]. destruct Hwin as [w ->]. by eexists.
Qed.

(** Planning that resumes at or after the recorded cursor returns. *)
Lemma plan_returns fresh now s store_now existing h c :
  plannable s store_now existing h c →
  (∀ c0, ScheduleLifecycle.planning_cursor_utc_ms (schedule_machine s) = Some c0 →
     Z.of_N c0 * milli_ns ≤ ns c)%Z →
  ∃ p, plan_schedule_occurrences_from_snapshot fresh now s store_now existing = Ok p.
Proof.
  intros Hpl Hcur. destruct (decide (missing s h existing = O)) as [Hm|Hm].
  - destruct (horizon_returns _ _ _ _ _ Hpl) as (hd & Hhd & Hadd & _).
    destruct Hpl as [_ Hact _ _ _ _ _ _]. unfold plan_schedule_occurrences_from_snapshot.
    rewrite Hact, bool_decide_eq_true_2 by done. cbn [negb].
    fold (horizon_days s). rewrite Hhd. cbn [or_panic mbind Outcome_bind]. rewrite Hadd.
    cbn [or_panic mbind Outcome_bind]. fold (pending_count s h existing).
    unfold missing in Hm. set (desired := N.to_nat _) in *.
    assert ((desired <=? pending_count s h existing)%nat = true) as -> by (apply Nat.leb_le; lia).
    rewrite orb_true_r. by eexists.
  - destruct (plan_outcome fresh now _ _ _ _ _ Hpl Hm) as (ds & HF & Hout).
    enough (from_option (behind_recorded s) false (last ds) = false) as E by by rewrite E in Hout.
    destruct (last ds) as [d|] eqn:Hlast; [|done]. cbn. unfold behind_recorded.
    destruct (ScheduleLifecycle.planning_cursor_utc_ms _) as [c0|]; [|done].
    destruct (First_last_bounds _ _ _ _ _ _ HF Hlast) as [_ ?]. specialize (Hcur c0 eq_refl).
    apply Z.leb_gt. lia.
Qed.
End planner.
