(* ===== verification/PlannerProps.v ===== *)
(** * PlannerProps: the properties of planning

    Two theorems on the planner and their instances on a schedule that is due
    every hour. *)

From Stdlib Require Import Sorted.
From stdpp Require Import gmap.
From S2P Require Import Prelude Text Chrono ScheduleTypes Cron Trigger FirstDue TriggerFacts HorizonFacts.
From S2P Require Import Millis Authority ScheduleLifecycle OccurrenceLifecycle.
From S2P Require Import Rows RowFacts RowValidity RowOutcomes ScheduleRows StoreTypes MemoryStore Planner PlannedRows.
From S2P Require Import PlannerFacts PlannerReturns DemoStore.

Section planner.
Context `{RowCodec} {HL : ChronoLaws} {BP : BuildProfile}.

(** C21: planning refines "the first due times that are missing".  A plan of an
    active schedule is empty when enough rows are pending up to the
    horizon.  Otherwise its due times are the first due times of the trigger
    after the planning cursor and up to the horizon, as many as are missing -
    none is in the snapshot, none is skipped, none is planned twice; its rows
    are valid pending rows that do not exist yet, with consecutive ordinals and
    the schedule's revision and payloads; the recorded window ends at the last
    of them; and if the trigger has fewer due times the next refill falls due
    when the next one enters the horizon. *)
Theorem planner_plans_first_due fresh now s store_now existing p :
  sched_phase s = Active →
  plan_schedule_occurrences_from_snapshot fresh now s store_now existing = Ok p →
  ∃ h, (ns h = ns store_now + horizon_days s * day_ns)%Z ∧
    if (missing s h existing =? 0)%nat then p = nothing_planned
    else ∃ c ds ordinal, plan_exact fresh s store_now existing h c ds ordinal p.
Proof. apply plan_spec. Qed.

(** C23: within chrono's range planning a valid active schedule with a valid
    trigger returns a plan, unless the machine refuses the window because the
    last due time to plan is not past the recorded planning cursor; then
    planning is refused.  It never panics there and no loop runs out of fuel. *)
Theorem planner_outcome fresh now s store_now existing h c :
  plannable s store_now existing h c → missing s h existing ≠ O →
  ∃ ds, First (due (schedule_trigger s)) (ns c + 1) (ns h) (missing s h existing) ds ∧
    if from_option (behind_recorded s) false (last ds)
    then plan_schedule_occurrences_from_snapshot fresh now s store_now existing =
      Err (PlanInternal TransitionRefused)
    else ∃ p, plan_schedule_occurrences_from_snapshot fresh now s store_now existing = Ok p.
Proof. apply plan_outcome. Qed.
End planner.

(** ** Examples *)

#[local] Existing Instance dev_profile.
#[local] Existing Instance demo_targets.
#[local] Existing Instance demo_data.
#[local] Existing Instance demo_codec.

Definition hour (n : Z) : DateTime := UniformClock.at_seconds (n * 3600).

(** Due every hour, with [n] occurrences wanted in the next day and the hours up
    to the fourth planned already. *)
Definition hourly_schedule (n : N) : Schedule := {|
  schedule_machine := schedule_init <| ScheduleLifecycle.trigger_key := "trigger-1" |>
    <| ScheduleLifecycle.planning_horizon_days := 1%N |>
    <| ScheduleLifecycle.planning_horizon_occurrences := n |>
    <| ScheduleLifecycle.planning_cursor_utc_ms := Some 14400000%N |>
    <| ScheduleLifecycle.next_occurrence_ordinal := 4%N |>;
  schedule_trigger :=
    Interval {| start_at_utc := hour 1; every_seconds := 3600; end_at_utc := None |};
  schedule_target := runnable_target "target-0";
  schedule_misfire_policy := Skip;
  schedule_config := schedule_config demo_schedule;
|}.

(** The occurrence of the second hour is pending again. *)
Definition released_row : Occurrence := {|
  occurrence_machine := occurrence_init <| OccurrenceLifecycle.occurrence_id := "occ-2" |>
    <| OccurrenceLifecycle.trigger_key := "trigger-1" |> <| occurrence_ordinal := 1%N |>
    <| due_at_utc_ms := 7200000%N |> <| misfire_deadline_utc_ms := 7230000%N |>;
  trigger_snapshot := schedule_trigger (hourly_schedule 3);
  target_snapshot := runnable_target "target-0";
  occurrence_policy := Skip; last_receipt := None; runtime_outcome := None;
|}.

Definition hourly_ids (ordinal : N) : string :=
  match ordinal with 4%N => "occ-5" | 5%N => "occ-6" | 6%N => "occ-7" | _ => "occ-8" end.

Definition planned_millis (p : Outcome PlannerError PlannedScheduleOccurrences)
  : option (list N) :=
  match p with
  | Ok p => Some ((λ w, due_at_utc_ms (occurrence_machine (ow_occurrence w))) <$> planned_occurrences p)
  | _ => None
  end.

Definition hourly_plan (n : N) (existing : list Occurrence) :=
  plan_schedule_occurrences_from_snapshot hourly_ids (hour 5) (hourly_schedule n) (hour 5) existing.

Lemma hourly_valid n : (n ≤ u32_max)%N → schedule_row_ok (hourly_schedule n).
Proof.
  intros Hn. apply schedule_ok_valid. split; [reflexivity..|].
  unfold schedule_display_fields, planning_horizon_from_dsl. cbn.
  rewrite (proj2 (N.leb_le _ _) Hn). vm_compute. reflexivity.
Qed.

Lemma hourly_plannable existing :
  existing = [] ∨ existing = [released_row] →
  plannable (hourly_schedule 3) (hour 5) existing (hour 29)
    (hour (match existing with [] => 4 | _ => 2 end)).
Proof.
  intros He. split; [by apply hourly_valid|reflexivity..| | | |].
  - destruct He as [->| ->]; vm_compute; f_equal; by apply (inj ns).
  - destruct He as [->| ->]; vm_compute; discriminate.
  - destruct He as [->| ->]; vm_compute; discriminate.
  - split; vm_compute; discriminate.
Qed.

(** Three occurrences are wanted and none is pending: the next three hours. *)
Lemma planner_plans_first_due_witness :
  ∃ p, hourly_plan 3 [] = Ok p ∧
    planned_millis (Ok p) = Some [18000000; 21600000; 25200000]%N ∧
    ∃ h, (ns h = ns (hour 5) + horizon_days (hourly_schedule 3) * day_ns)%Z ∧
      if (missing (hourly_schedule 3) h [] =? 0)%nat then p = nothing_planned
      else ∃ c ds ordinal, plan_exact hourly_ids (hourly_schedule 3) (hour 5) [] h c ds ordinal p.
Proof.
  assert (Hp : planned_millis (hourly_plan 3 []) = Some [18000000; 21600000; 25200000]%N)
    by (vm_compute; reflexivity).
  destruct (hourly_plan 3 []) as [p| | |] eqn:Hrun; [|discriminate Hp..].
  exists p. split; [reflexivity|]. split; [exact Hp|].
  apply (planner_plans_first_due hourly_ids (hour 5)); [reflexivity|exact Hrun].
Defined.

(** With the second hour pending again and the fourth recorded, planning two
    occurrences is refused: they are the third and the fourth. *)
Lemma planner_outcome_witness :
  hourly_plan 3 [released_row] = Err (PlanInternal TransitionRefused) ∧
  ∃ ds, First (due (schedule_trigger (hourly_schedule 3))) (ns (hour 2) + 1) (ns (hour 29)) 2 ds ∧
    from_option (behind_recorded (hourly_schedule 3)) false (last ds) = true.
Proof.
  assert (Hrun : match hourly_plan 3 [released_row] with
    | Err (PlanInternal TransitionRefused) => true | _ => false end = true)
    by (vm_compute; reflexivity).
  pose proof (planner_outcome hourly_ids (hour 5) (hourly_schedule 3) (hour 5) [released_row]
    (hour 29) (hour 2) (hourly_plannable [released_row] (or_intror eq_refl)) ltac:(vm_compute; discriminate))
    as (ds & HF & Hout).
  change (missing (hourly_schedule 3) (hour 29) [released_row]) with 2%nat in HF.
  unfold hourly_plan in *.
  destruct (from_option _ false (last ds)) eqn:Hb.
  - split; [exact Hout|]. exists ds. split; [exact HF|exact Hb].
  - destruct Hout as [p Hp]. rewrite Hp in Hrun. discriminate Hrun.
Defined.

(** The machine's guard looks at the end of the window only: with four rows
    missing the third and fourth hour are planned again. *)
Lemma planner_replans_recorded_hours :
  planned_millis (hourly_plan 5 [released_row]) =
    Some [10800000; 14400000; 18000000; 21600000]%N ∧
  ScheduleLifecycle.planning_cursor_utc_ms (schedule_machine (hourly_schedule 5)) =
    Some 14400000%N.
Proof. split; vm_compute; reflexivity. Qed.
