(* ===== verification/Programs.v ===== *)
(** * Programs: what runs between a store and the world outside

    An operation of the service or of the driver is a program ([Prog]): it calls
    the store, asks the adapters of delivery targets ([Query]) and goes on with
    the answers, so that the store's other users can act between any two of its
    steps; a mutation notification bumps a local counter.  [runs] relates a
    program to its possible ends, [exec] runs it alone.

    A question about a delivery is answered once the delivery has returned.
    Meanwhile the driver renews the occurrence's lease; its answer therefore
    comes with the renewals that fall due before it, each marked with whether
    the last proven lease is spent by then. *)

From stdpp Require Import gmap.
From S2P Require Import Prelude Text Chrono ScheduleTypes Targets Millis Authority.
From S2P Require Import ScheduleLifecycle OccurrenceLifecycle Rows StoreTypes StoreContract Planner.

Section programs.
Context `{RowCodec} {BP : BuildProfile}.

(** ** Errors *)

(** [ScheduleDomainError] as the crate raises it; a failed row operation is
    kept as it is where the source formats it, and the messages of the
    observations are the source's without their counts. *)
Inductive ServiceError :=
| StoreFailed (e : StoreError)
| InvalidSchedule (reason : string)
| TransitionInvalid (e : RowError)
| PlanFailed (e : PlannerError)
| InternalFailure (e : RowError)
| ObservationFailed (reason : string)
| ProbeFailed (reason : string)
| DriverStopped
| InvalidTrigger (reason : string)
| InvalidCron (reason : string)
| DeliveryFailure (id : OccurrenceId) (reason : string)
| DeliveryCompletionFailed (reason : DeliveryCompletionFailureReason) (detail : string)
| DeliveryRepairDeferred (detail : string)
| InternalError (reason : string).

(** ** The adapters of delivery targets *)

(** The completion of a dispatch is a question of its own ([CompletionOf]). *)
Record DeliveryDispatch := {
  dispatch_receipt : DeliveryReceipt;
  dispatch_correlation_id : option string;
  dispatch_session_id : option string;
}.

Record ScheduleDeliveryIdentity := {
  idempotency_key : string;
  identity_correlation_id : string;
}.

Record DeliveryTerminal := {
  terminal_phase : OccurrencePhase;
  terminal_receipt : option DeliveryReceipt;
  terminal_detail : option string;
  terminal_failure_reason : option DeliveryFailureReason;
  terminal_completion_outcome : option RuntimeCompletionOutcome;
  terminal_runtime_outcome : option RuntimeDeliveryOutcome;
}.

Inductive TargetProbeOutcome :=
| Ready
| TargetBusy (detail : option string)
| TargetMissing (detail : option string).

Inductive ExistingDelivery := ExistingDelivery_Admitted | ExistingDelivery_UnprovenLate.

Inductive ExistingDeliveryAnswer :=
| Dispatch (dispatch : DeliveryDispatch)
| NotAdmittedPastDeadline.

Inductive Query : Type → Type :=
| ProbeTarget (o : Occurrence) : Query (Outcome ServiceError TargetProbeOutcome)
| DeliverOccurrence (o : Occurrence) (identity : ScheduleDeliveryIdentity)
    : Query (list bool * Outcome ServiceError DeliveryDispatch)
| DeliverExistingOccurrence (o : Occurrence) (identity : ScheduleDeliveryIdentity)
    (existing : ExistingDelivery)
    : Query (list bool * Outcome ServiceError ExistingDeliveryAnswer)
| CompletionOf (o : Occurrence) (dispatch : DeliveryDispatch)
    : Query (list bool * Outcome ServiceError DeliveryTerminal)
| SpawnWaiter (o : Occurrence) (dispatch : DeliveryDispatch) (lease_duration : TimeDelta) : Query unit.

(** No adapter answers. *)
Definition silent (X : Type) (q : Query X) : X :=
  match q with
  | ProbeTarget _ => Err DriverStopped
  | DeliverOccurrence _ _ => ([], Err DriverStopped)
  | DeliverExistingOccurrence _ _ _ => ([], Err DriverStopped)
  | CompletionOf _ _ => ([], Err DriverStopped)
  | SpawnWaiter _ _ _ => tt
  end.

(** ** Programs *)

Inductive Prog (A : Type) : Type :=
| Done (a : A)
| Call (X : Type) (c : StoreCall X) (k : Outcome StoreError X → Prog A)
| Notify (k : Prog A)
| Ask (X : Type) (q : Query X) (k : X → Prog A).
Arguments Done {A} _.
Arguments Call {A X} _ _.
Arguments Notify {A} _.
Arguments Ask {A X} _ _.

Fixpoint prog_bind {A B} (m : Prog A) (f : A → Prog B) : Prog B :=
  match m with
  | Done a => f a
  | Call c k => Call c (λ r, prog_bind (k r) f)
  | Notify k => Notify (prog_bind k f)
  | Ask q k => Ask q (λ x, prog_bind (k x) f)
  end.

Definition Service (A : Type) : Type := Prog (Outcome ServiceError A).

#[local] Instance service_ret : MRet Service := λ A a, Done (Ok a).
#[local] Instance service_bind : MBind Service := λ A B f m,
  prog_bind m (λ r, match r with
                    | Ok a => f a
                    | Err e => Done (Err e)
                    | Panic => Done Panic
                    | OutOfFuel => Done OutOfFuel
                    end).

Definition call {X} (c : StoreCall X) : Service X := Call c (λ r, Done (map_err StoreFailed r)).
Definition require {E A} (wrap : E → ServiceError) (r : Outcome E A) : Service A :=
  Done (map_err wrap r).
Definition fault {A} (e : ServiceError) : Service A := Done (Err e).
Definition notify_mutation : Service unit := Notify (Done (Ok tt)).

(** ** Running a program against a store *)

Context `{!ScheduleStore}.

(** The store, and the notifications of this operation on the mutation signal,
    a counter that wraps at 64 bits. *)
Record World := mkWorld { w_store : StoreState; w_generation : N }.

Definition bump_generation (n : N) : N := ((n + 1) mod 2 ^ 64)%N.

(** [runs others m w a w']: from [w] the program can end with [a] in [w'], the
    store's other users taking any steps ([others]) before each of its own. *)
Fixpoint runs (others : StoreState → StoreState → Prop) {A} (m : Prog A) (w : World) (a : A)
    (w' : World) : Prop :=
  match m with
  | Done x =>
      ∃ st, rtc others (w_store w) st ∧ a = x ∧ w' = mkWorld st (w_generation w)
  | Call c k =>
      ∃ st now st' r, rtc others (w_store w) st ∧ answer c now st = (st', r) ∧
        runs others (k r) (mkWorld st' (w_generation w)) a w'
  | Notify k =>
      ∃ st, rtc others (w_store w) st ∧
        runs others k (mkWorld st (bump_generation (w_generation w))) a w'
  | Ask q k =>
      ∃ st x, rtc others (w_store w) st ∧ runs others (k x) (mkWorld st (w_generation w)) a w'
  end.

(** Running alone, the store's clock standing at [now] and questions answered
    by [oracle]. *)
Fixpoint exec {A} (oracle : ∀ X, Query X → X) (now : DateTime) (m : Prog A) (w : World) : A * World :=
  match m with
  | Done x => (x, w)
  | Call c k =>
      let '(st, r) := answer c now (w_store w) in exec oracle now (k r) (mkWorld st (w_generation w))
  | Notify k => exec oracle now k (mkWorld (w_store w) (bump_generation (w_generation w)))
  | Ask q k => exec oracle now (k (oracle _ q)) w
  end.

Lemma exec_runs others {A} oracle now (m : Prog A) w :
  runs others m w (exec oracle now m w).1 (exec oracle now m w).2.
Proof.
  revert w. induction m as [x|X c k IH|k IH|X q k IH]; intros w; cbn.
  - exists (w_store w). by split_and!; [constructor| |destruct w].
  - destruct (answer c now (w_store w)) as [st r] eqn:Hr.
    exists (w_store w), now, st, r. split_and!; [constructor|done|apply IH].
  - exists (w_store w). split; [constructor|apply IH].
  - exists (w_store w), (oracle _ q). split; [constructor|]. destruct w. apply IH.
Qed.
End programs.

Arguments Done {_ _ _ _ A} _.
Arguments Call {_ _ _ _ A X} _ _.
Arguments Notify {_ _ _ _ A} _.
Arguments Ask {_ _ _ _ A X} _ _.
