(* ===== verification/Service.v ===== *)
(** * Service: the schedule service over a store

    [meerkat-schedule/src/service.rs], as programs over a store.  The process's clock readings and fresh identifiers are
    arguments ([Ambient]); probes of identity targets are functions.  The
    planning lock, which keeps two mutations of one process apart, is left out:
    nothing below depends on it. *)

From stdpp Require Import gmap.
From S2P Require Import Prelude Text Chrono ScheduleTypes Targets Millis Authority.
From S2P Require Import ScheduleLifecycle OccurrenceLifecycle Rows StoreTypes StoreContract Planner Programs.

Section service.
Context `{RowCodec} {BP : BuildProfile}.

#[local] Existing Instances service_ret service_bind.

(** ** What a commit is expected to carry *)

Record ExpectedScheduleTransition := {
  expected_effects : list ScheduleEffect;
  expected_bumped : bool;
  pre_feedback_ack_ids : gset OccurrenceId;
}.

Definition from_mutator (mutator : ScheduleWrite) : ExpectedScheduleTransition :=
  {| expected_effects := sw_effects mutator; expected_bumped := sw_revision_bumped mutator;
     pre_feedback_ack_ids := ack_ids (sw_schedule mutator) |}.

#[export] Instance schedule_effect_eq_dec : EqDecision ScheduleEffect.
Proof. solve_decision. Defined.

Notation observed := (Outcome ServiceError).

Definition observe (ok : bool) (reason : string) : observed unit :=
  if ok then Ok tt else Err (ObservationFailed reason).

Definition observe_effectless_occurrence_commit (commit : OccurrenceWrite) : observed Occurrence :=
  match ow_effects commit, ow_acks commit with
  | [], [] => Ok (ow_occurrence commit)
  | _, _ => Err (ObservationFailed "effectless occurrence transition committed lifecycle effects")
  end.

(** Equal instants, both present. *)
Definition same_instants (a b : option DateTime) : bool :=
  match a, b with Some a, Some b => (ns a =? ns b)%Z | _, _ => false end.

Definition effect_consistent (s : Schedule) (e : ScheduleEffect) : bool :=
  match e with
  | ScheduleLifecycle.E_EmitScheduleNotice new_state revision =>
      (sched_phase s == new_state) && (sched_revision s == revision)
  | ScheduleLifecycle.E_SupersedePendingOccurrences superseding_revision _ =>
      sched_revision s == superseding_revision
  | ScheduleLifecycle.E_PlanningWindowRecorded cursor ordinal =>
      same_instants (sched_planning_cursor s) (millis_to_datetime cursor)
      && (ScheduleLifecycle.next_occurrence_ordinal (schedule_machine s) == ordinal)
  end.

Definition observe_schedule_transition (commit : ScheduleTransitionCommit)
    (expected : ExpectedScheduleTransition) : observed Schedule :=
  let schedule := tc_successor commit in
  _ ← observe ((tc_effects commit == expected_effects expected)
               && (tc_revision_bumped commit == expected_bumped expected))
        "schedule transition commit did not preserve its generated authority";
  _ ← observe (forallb (effect_consistent schedule) (tc_effects commit))
        "schedule transition commit effect contradicted its committed successor";
  Ok schedule.

Definition is_superseded_effect (e : OccurrenceEffect) : bool :=
  match e with E_Superseded => true | _ => false end.
Definition is_routed_effect (e : OccurrenceEffect) : bool :=
  match e with E_OccurrencesSuperseded _ _ => true | _ => false end.
Definition routes_to (id : OccurrenceId) (revision : N) (e : OccurrenceEffect) : bool :=
  match e with
  | E_OccurrencesSuperseded id' revision' => (id' == id) && (revision' == revision)
  | _ => false
  end.

Definition count {A} (f : A → bool) (l : list A) : nat := length (List.filter f l).

(** A superseded row with exactly the effects and the acknowledgement of its sweep. *)
Definition carrier_complete (s : Schedule) (w : OccurrenceWrite) : bool :=
  let dsl := occurrence_machine (ow_occurrence w) in
  (lifecycle_phase dsl == Superseded)
  && (schedule_id dsl == sched_id s)
  && (superseded_by_revision dsl == Some (sched_revision s))
  && (length (ow_effects w) =? 2)%nat
  && (count is_superseded_effect (ow_effects w) =? 1)%nat
  && (count is_routed_effect (ow_effects w) =? 1)%nat
  && existsb (routes_to (occurrence_id dsl) (sched_revision s)) (ow_effects w)
  && (length (ow_acks w) =? 1)%nat.

Definition ack_within (s : Schedule) (ack : OccurrenceSupersessionAck) : bool :=
  (ack_schedule_id ack == sched_id s)
  && (ack_superseding_revision ack == sched_revision s)
  && bool_decide (ack_occurrence_id ack ∈ ack_ids s).

(** The identifiers the carriers acknowledge, repetitions kept. *)
Fixpoint observe_carriers (s : Schedule) (commits : list OccurrenceWrite)
  : observed (list OccurrenceId) :=
  match commits with
  | [] => Ok []
  | w :: commits =>
      _ ← observe (carrier_complete s w)
            "schedule mutation committed an incomplete supersession occurrence carrier";
      _ ← observe (forallb (ack_within s) (ow_acks w))
            "schedule mutation committed supersession acknowledgement outside the committed schedule authority";
      ids ← observe_carriers s commits;
      Ok ((ack_occurrence_id <$> ow_acks w) ++ ids)
  end.

Definition observe_schedule_commit (commit : ScheduleMutationCommit)
    (expected : ExpectedScheduleTransition) : observed Schedule :=
  let schedule := mc_schedule commit in
  _ ← observe (bool_decide (pre_feedback_ack_ids expected ⊆ ack_ids schedule))
        "schedule mutation removed a previously committed supersession acknowledgement";
  ids ← observe_carriers schedule (occurrence_commits commit);
  let returned : gset OccurrenceId := list_to_set ids in
  _ ← observe ((length ids =? size returned)%nat
               && bool_decide (returned = ack_ids schedule ∖ pre_feedback_ack_ids expected))
        "schedule mutation supersession acknowledgement delta did not exactly match its occurrence commits";
  observe_schedule_transition (schedule_commit commit) expected.

(** ** The service *)

Inductive IdentityTargetDeliverability :=
| Deliverable
| NeverDeliverable (detail : option string).

Definition Probe : Type := IdentityTargetBinding → Outcome string IdentityTargetDeliverability.

(** Probes are held weakly: [None] is one whose surface has dropped it. *)
Record ScheduleService := mkService {
  commissioned_by : option PrincipalRef;
  identity_target_probes : list (option Probe);
}.

Definition attach_identity_target_probe (probe : Probe) (svc : ScheduleService) : ScheduleService :=
  mkService (commissioned_by svc)
    (filter (λ p, is_Some p) (identity_target_probes svc) ++ [Some probe]).

Definition identity_target_probe (svc : ScheduleService) : observed (option Probe) :=
  match identity_target_probes svc with
  | [] => Ok None
  | probes =>
      match head (omap id probes) with
      | Some probe => Ok (Some probe)
      | None => Err DriverStopped
      end
  end.

Definition undeliverable (binding : IdentityTargetBinding) (detail : option string) : string :=
  let '(ResumableIdentity identity _) := binding in
  "identity target '" +:+ identity
    +:+ "' is not deliverable by any schedule host on this surface"
    +:+ (match detail with Some detail => ": " +:+ detail | None => "" end)
    +:+ "; every occurrence would misfire as target_missing".

Definition refuse_undeliverable_identity_target (svc : ScheduleService) (target : TargetBinding)
  : observed unit :=
  match target with
  | Identity binding =>
      probe ← identity_target_probe svc;
      match probe with
      | None => Ok tt
      | Some probe =>
          verdict ← map_err ProbeFailed (probe binding);
          match verdict with
          | Deliverable => Ok tt
          | NeverDeliverable detail => Err (InvalidSchedule (undeliverable binding detail))
          end
      end
  | _ => Ok tt
  end.

(** What an operation draws from the process: the identifiers it mints and its
    clock when it applies a transition and when it plans. *)
Record Ambient := {
  fresh_schedule_id : ScheduleId;
  fresh_occurrence_id : N → OccurrenceId;
  apply_now : DateTime;
  plan_now : DateTime;
}.

Definition record_commissioning_agent (agent : option PrincipalRef) (w : ScheduleWrite)
  : ScheduleWrite :=
  {| sw_schedule := with_config (λ c, c <| commissioning_agent := agent |>) (sw_schedule w);
     sw_effects := sw_effects w; sw_revision_bumped := sw_revision_bumped w;
     sw_precondition := sw_precondition w;
     sw_pending_supersession := sw_pending_supersession w |}.

Definition no_occurrence_filter : OccurrenceFilter :=
  {| filter_schedule_id := None; filter_phase := None; include_terminal := false;
     due_after_utc := None; due_before_utc := None; occurrence_limit := None |}.

Definition pending_filter (id : ScheduleId) : OccurrenceFilter :=
  {| filter_schedule_id := Some id; filter_phase := Some Pending; include_terminal := false;
     due_after_utc := None; due_before_utc := None; occurrence_limit := None |}.

(** *** Reads *)

Definition get (id : ScheduleId) : Service Schedule :=
  s ← call (GetSchedule id);
  match s with
  | Some s => mret s
  | None => fault (StoreFailed (ScheduleNotFound id))
  end.

Definition list_filtered (f : ScheduleFilter) : Service (list Schedule) := call (ListSchedules f).

Definition list_live : Service (list Schedule) :=
  list_filtered {| filter_schedule_phase := None; include_deleted := false; schedule_limit := None |}.

Definition list_occurrences_matching (id : ScheduleId) (f : OccurrenceFilter)
  : Service (list Occurrence) :=
  call (ListOccurrences
    {| filter_schedule_id := Some id; filter_phase := filter_phase f;
       include_terminal := include_terminal f; due_after_utc := due_after_utc f;
       due_before_utc := due_before_utc f; occurrence_limit := occurrence_limit f |}).

Definition list_occurrences_filtered (id : ScheduleId) (terminal : bool)
  : Service (list Occurrence) :=
  call (ListOccurrences
    {| filter_schedule_id := Some id; filter_phase := None; include_terminal := terminal;
       due_after_utc := None; due_before_utc := None; occurrence_limit := None |}).

(** An occurrence of another schedule reads as absent. *)
Definition get_schedule_occurrence (id : ScheduleId) (occurrence_id : OccurrenceId)
  : Service (option Occurrence) :=
  o ← call (GetOccurrence occurrence_id);
  mret (o ≫= λ o, if schedule_id (occurrence_machine o) == id then Some o else None).

Definition list_occurrence_receipts (id : OccurrenceId) : Service (list DeliveryReceipt) :=
  call (ListReceipts id).

(** *** Planning and committing *)

Definition plan_schedule_occurrences (amb : Ambient) (s : Schedule) (store_now_utc : DateTime)
  : Service PlannedScheduleOccurrences :=
  existing ← call (ListOccurrences (pending_filter (sched_id s)));
  require PlanFailed
    (plan_schedule_occurrences_from_snapshot (fresh_occurrence_id amb) (plan_now amb) s
       store_now_utc existing).

Definition absorb_planned (mutator : ScheduleWrite) (planned : PlannedScheduleOccurrences)
  : Outcome RowError ScheduleWrite :=
  match planned_mutator planned with
  | Some planning_mutator => absorb_schedule_followup mutator planning_mutator
  | None => Ok mutator
  end.

(** What create, update and resume end with: plan, commit, notify, observe. *)
Definition commit_planned (amb : Ambient) (mutator : ScheduleWrite) (store_now : DateTime)
  : Service Schedule :=
  planned ← plan_schedule_occurrences amb (sw_schedule mutator) store_now;
  mutator ← require InternalFailure (absorb_planned mutator planned);
  committed ← call (CommitScheduleRefill mutator (planned_occurrences planned)
                      (planned_next_refill_at_utc planned));
  _ ← notify_mutation;
  require id (observe_schedule_commit committed (from_mutator mutator)).

Definition create (svc : ScheduleService) (amb : Ambient) (request : CreateScheduleRequest)
  : Service Schedule :=
  _ ← require InvalidSchedule (validate_public_api (create_target request));
  _ ← require id (refuse_undeliverable_identity_target svc (create_target request));
  mutator ← require TransitionInvalid
    (schedule_apply (fresh_schedule_id amb) (apply_now amb) None (Create request));
  let mutator := record_commissioning_agent (commissioned_by svc) mutator in
  store_now ← call GetStoreTime;
  commit_planned amb mutator store_now.

Definition update (svc : ScheduleService) (amb : Ambient) (id : ScheduleId)
    (request : UpdateScheduleRequest) : Service Schedule :=
  _ ← match update_target request with
      | Some target =>
          _ ← require InvalidSchedule (validate_public_api target);
          require Datatypes.id (refuse_undeliverable_identity_target svc target)
      | None => mret tt
      end;
  current ← get id;
  store_now ← call GetStoreTime;
  mutator ← require TransitionInvalid
    (schedule_apply (fresh_schedule_id amb) (apply_now amb) (Some current)
       (Update request store_now));
  let mutator := record_commissioning_agent (commissioned_by svc) mutator in
  commit_planned amb mutator store_now.

Definition pause (amb : Ambient) (id : ScheduleId) : Service Schedule :=
  current ← get id;
  at_utc ← call GetStoreTime;
  mutator ← require TransitionInvalid
    (schedule_apply (fresh_schedule_id amb) (apply_now amb) (Some current) (Pause at_utc));
  committed ← call (CommitScheduleWrite mutator);
  _ ← notify_mutation;
  require Datatypes.id (observe_schedule_transition committed (from_mutator mutator)).

Definition resume (amb : Ambient) (id : ScheduleId) : Service Schedule :=
  current ← get id;
  at_utc ← call GetStoreTime;
  mutator ← require TransitionInvalid
    (schedule_apply (fresh_schedule_id amb) (apply_now amb) (Some current) (Resume at_utc));
  store_now ← call GetStoreTime;
  commit_planned amb mutator store_now.

Definition delete_schedule (amb : Ambient) (id : ScheduleId) : Service Schedule :=
  current ← get id;
  store_now ← call GetStoreTime;
  mutator ← require TransitionInvalid
    (schedule_apply (fresh_schedule_id amb) (apply_now amb) (Some current) (Delete store_now));
  committed ← call (CommitScheduleMutation mutator []);
  _ ← notify_mutation;
  require Datatypes.id (observe_schedule_commit committed (from_mutator mutator)).

Definition planned_rows_of (planned : PlannedScheduleOccurrences) : list Occurrence :=
  ow_occurrence <$> planned_occurrences planned.

Definition refill_horizon (amb : Ambient) (id : ScheduleId) : Service (list Occurrence) :=
  schedule ← get id;
  store_now ← call GetStoreTime;
  planned ← plan_schedule_occurrences amb schedule store_now;
  match planned_mutator planned with
  | None => mret (planned_rows_of planned)
  | Some mutator =>
      committed ← call (CommitScheduleRefill mutator (planned_occurrences planned)
                          (planned_next_refill_at_utc planned));
      _ ← require Datatypes.id (observe_schedule_commit committed (from_mutator mutator));
      _ ← notify_mutation;
      mret (planned_rows_of planned)
  end.

(** A candidate of the store's page of due schedules: nothing is read again. *)
Definition refill_candidate (amb : Ambient) (candidate : ScheduleRefillCandidate)
    (store_now_utc : DateTime) : Service (list Occurrence) :=
  let schedule := candidate_schedule candidate in
  planned ← require PlanFailed
    (plan_schedule_occurrences_from_snapshot (fresh_occurrence_id amb) (plan_now amb) schedule
       store_now_utc (pending_occurrences candidate));
  match planned_mutator planned with
  | Some mutator =>
      committed ← call (CommitScheduleRefill mutator (planned_occurrences planned)
                          (planned_next_refill_at_utc planned));
      _ ← require Datatypes.id (observe_schedule_commit committed (from_mutator mutator));
      mret (planned_rows_of planned)
  | None =>
      _ ← call (RecordRefillDeadline (sched_id schedule) (sched_revision schedule)
                  (candidate_refill_at_utc candidate) (planned_next_refill_at_utc planned));
      mret (planned_rows_of planned)
  end.

(** *** Targets of occurrences *)

(** Apply a target to a row, commit it and observe that nothing else happened. *)
Definition sync_occurrence (o : Occurrence) (target : TargetBinding) : Service Occurrence :=
  mutator ← require InternalFailure (occurrence_apply o (SyncTargetSnapshot target));
  commit ← call (CommitOccurrenceWrite mutator);
  o ← require id (observe_effectless_occurrence_commit commit);
  _ ← notify_mutation;
  mret o.

Definition sync_occurrence_target_with_schedule (o : Occurrence) : Service Occurrence :=
  let dsl := occurrence_machine o in
  current ← call (GetSchedule (schedule_id dsl));
  match current with
  | None => mret o
  | Some current =>
      if sched_revision current != schedule_revision dsl then mret o
      else if target_snapshot o == schedule_target current then mret o
      else sync_occurrence o (schedule_target current)
  end.

Definition record_dispatch_materialization (o : Occurrence) (session_id : string)
  : Service Occurrence :=
  if target_session_id (target_snapshot o) == Some session_id then mret o
  else
    match bind_materialized_session session_id (target_snapshot o) with
    | None =>
        fault (InternalFailure (ProjectionMismatch
          "its target is not an unbound materialize-on-demand session"))
    | Some target => sync_occurrence o target
    end.

(** The rebound rows among the pending ones of the revision. *)
Fixpoint rebound (session_id : string) (revision : N) (pending : list Occurrence)
  : Outcome RowError (list OccurrenceWrite) :=
  match pending with
  | [] => Ok []
  | o :: pending =>
      if schedule_revision (occurrence_machine o) != revision
      then rebound session_id revision pending
      else
        match bind_materialized_session session_id (target_snapshot o) with
        | None => rebound session_id revision pending
        | Some target =>
            w ← occurrence_apply o (SyncTargetSnapshot target);
            ws ← rebound session_id revision pending;
            Ok (w :: ws)
        end
  end.

(** The trait's default: one write after the other. *)
Fixpoint commit_occurrence_writes (ws : list OccurrenceWrite) : Service (list OccurrenceWrite) :=
  match ws with
  | [] => mret []
  | w :: ws =>
      commit ← call (CommitOccurrenceWrite w);
      commits ← commit_occurrence_writes ws;
      mret (commit :: commits)
  end.

Fixpoint observe_effectless (commits : list OccurrenceWrite) : observed unit :=
  match commits with
  | [] => Ok tt
  | commit :: commits =>
      _ ← observe_effectless_occurrence_commit commit; observe_effectless commits
  end.

Definition bind_schedule_session (amb : Ambient) (s : Schedule) (session_id : string)
  : Service unit :=
  match bind_materialized_session session_id (schedule_target s) with
  | None => mret tt
  | Some target =>
      mutator ← require InternalFailure
        (schedule_apply (fresh_schedule_id amb) (apply_now amb) (Some s) (SyncTarget target));
      committed ← call (CommitScheduleWrite mutator);
      _ ← require id (observe_schedule_transition committed (from_mutator mutator));
      notify_mutation
  end.

Definition bind_pending_sessions (sid : ScheduleId) (revision : N) (session_id : string)
  : Service unit :=
  pending ← call (ListOccurrences (pending_filter sid));
  updated ← require InternalFailure (rebound session_id revision pending);
  match updated with
  | [] => mret tt
  | _ =>
      commits ← commit_occurrence_writes updated;
      _ ← require id (observe_effectless commits);
      notify_mutation
  end.

Definition bind_materialized_session_for_occurrence (amb : Ambient) (o : Occurrence)
    (session_id : string) : Service unit :=
  let dsl := occurrence_machine o in
  schedule ← call (GetSchedule (schedule_id dsl));
  match schedule with
  | None => mret tt
  | Some s =>
      if sched_revision s != schedule_revision dsl then mret tt
      else
        _ ← bind_schedule_session amb s session_id;
        bind_pending_sessions (schedule_id dsl) (schedule_revision dsl) session_id
  end.
End service.
