(* ===== verification/Driver.v ===== *)
(** * Driver: the schedule driver over a store and the adapters of targets

    [meerkat-schedule/src/driver.rs].  A tick holds the store's executor lease,
    refills the schedules due for planning, claims the due occurrences and
    dispatches each: the occurrence is reconciled with its schedule, its target
    is probed, the intent to deliver is committed, the delivery is made, and a
    waiter records its completion.  The witness of the executor lease, which
    the driver keeps between ticks, is an argument and a result.  Log lines are
    left out, and the messages of internal errors are the source's without
    the values they quote. *)

From stdpp Require Import gmap pretty.
From S2P Require Import Prelude Text Chrono ScheduleTypes Targets Millis Authority ExecutorLease.
From S2P Require Import ScheduleLifecycle OccurrenceLifecycle Rows StoreTypes StoreContract Planner.
From S2P Require Import Programs Service.

Section driver.
Context `{RowCodec} {BP : BuildProfile}.

#[local] Existing Instances service_ret service_bind.

(** [to_string] of an error. *)
Class ErrorText := error_text : ServiceError → string.
Context `{!ErrorText}.

(** ** Configuration, reports and what a tick draws from the process *)

Definition REFILL_CANDIDATE_LIMIT : nat := 32.

Record ScheduleDriverConfig := {
  claim_limit : nat;
  config_lease_duration : TimeDelta;
}.

Record ScheduleDriver := {
  driver_service : ScheduleService;
  driver_owner_id : ClaimOwner;
  executor_owner_id : str;
  driver_config : ScheduleDriverConfig;
}.

Record ScheduleRefillFault := {
  refill_schedule_id : ScheduleId;
  refill_detail : string;
}.

Record ScheduleTickReport := mkReport {
  executor_authorized : bool;
  planned_count : nat;
  claimed_occurrences : nat;
  terminalized_occurrences : nat;
  schedule_row_faults : list ScheduleStoreRowFault;
  occurrence_row_faults : list ScheduleStoreRowFault;
  refill_faults : list ScheduleRefillFault;
}.

#[export] Instance report_fields : Fields ScheduleTickReport := λ r,
  mkReport (executor_authorized r) (planned_count r) (claimed_occurrences r)
    (terminalized_occurrences r) (schedule_row_faults r) (occurrence_row_faults r)
    (refill_faults r).

Definition empty_report : ScheduleTickReport := mkReport false 0 0 0 [] [] [].

Definition made_progress (r : ScheduleTickReport) : bool :=
  (0 <? planned_count r)%nat || (0 <? claimed_occurrences r)%nat
  || (0 <? terminalized_occurrences r)%nat.

Definition fault_count (r : ScheduleTickReport) : nat :=
  length (schedule_row_faults r) + length (occurrence_row_faults r) + length (refill_faults r).

(** The identifiers and clock readings of a tick, and the tokens the store mints in it. *)
Record TickAmbient := {
  ambient_of : ScheduleId → Ambient;
  fresh_lease : Uuid;
  fresh_claims : OccurrenceId → ClaimToken;
}.

(** A call whose error the caller handles. *)
Definition catch {A} (m : Service A) : Service (A + ServiceError) :=
  prog_bind m (λ r, match r with
                    | Ok a => Done (Ok (inl a))
                    | Err e => Done (Ok (inr e))
                    | Panic => Done Panic
                    | OutOfFuel => Done OutOfFuel
                    end).

Definition ask {A} (q : Query (Outcome ServiceError A)) : Service A := Ask q Done.

Definition has (f : OccurrenceEffect → bool) (w : OccurrenceWrite) : bool := existsb f (ow_effects w).

Definition is_claimed e := match e with E_Claimed => true | _ => false end.
Definition is_misfired e := match e with E_Misfired => true | _ => false end.
Definition is_skipped e := match e with E_Skipped => true | _ => false end.
Definition is_completed e := match e with E_Completed => true | _ => false end.
Definition is_superseded e := match e with E_Superseded => true | _ => false end.
Definition is_delivery_failed e := match e with E_DeliveryFailed => true | _ => false end.
Definition is_lease_expired e := match e with E_LeaseExpired => true | _ => false end.
Definition is_lease_renewed e := match e with E_LeaseRenewed => true | _ => false end.
Definition is_dispatch_started e := match e with E_DispatchStarted => true | _ => false end.
Definition is_dispatch_accepted e := match e with E_DispatchAccepted => true | _ => false end.
Definition is_awaiting e := match e with E_AwaitingCompletion => true | _ => false end.
Definition is_late_recorded e :=
  match e with E_LateCompletionResolutionRecorded _ => true | _ => false end.
Definition is_stale_classified e :=
  match e with E_StaleCompletionArrivalClassified _ _ => true | _ => false end.

Definition no_outputs (w : OccurrenceWrite) : bool :=
  match ow_effects w, ow_acks w with [], [] => true | _, _ => false end.

Definition phase_of (o : Occurrence) : OccurrencePhase := lifecycle_phase (occurrence_machine o).

Definition for_occurrence (o : Occurrence) : ScheduleDeliveryIdentity :=
  let dsl := occurrence_machine o in
  {| idempotency_key := "schedule:" +:+ schedule_id dsl +:+ ":occurrence:" +:+ occurrence_id dsl;
     identity_correlation_id := occurrence_id dsl |}.

(** ** The executor lease *)

Definition max_delta (a b : TimeDelta) : TimeDelta :=
  if (delta_ns a <? delta_ns b)%Z then b else a.

(** At least fifteen seconds; the constant is in range. *)
Definition executor_lease_duration (cfg : ScheduleDriverConfig) : Outcome ServiceError TimeDelta :=
  floor ← or_panic (seconds 15); Ok (max_delta (config_lease_duration cfg) floor).

(** In milliseconds. *)
Definition executor_heartbeat_interval (cfg : ScheduleDriverConfig) : Outcome ServiceError Z :=
  d ← executor_lease_duration cfg; Ok (Z.max (Z.quot (num_milliseconds d) 2) 1).

(** The lease witness a driver keeps; an operation leaves it also when it fails. *)
Definition Slot : Type := option ScheduleExecutorLease.

Definition acquire_executor_lease_into (drv : ScheduleDriver) (d : TimeDelta) (fresh : Uuid)
    (slot : Slot) : Prog (Slot * Outcome ServiceError (option ScheduleExecutorLease)) :=
  prog_bind (call (AcquireExecutorLease (executor_owner_id drv) d fresh)) (λ r, Done
    match r with
    | Ok (Acquired lease) => (Some lease, Ok (Some lease))
    | Ok (Busy _ _) => (slot, Ok None)
    | Err e => (slot, Err e)
    | Panic => (slot, Panic)
    | OutOfFuel => (slot, OutOfFuel)
    end).

Definition acquire_or_renew_executor_lease (drv : ScheduleDriver) (fresh : Uuid) (slot : Slot)
  : Prog (Slot * Outcome ServiceError (option ScheduleExecutorLease)) :=
  match executor_lease_duration (driver_config drv) with
  | Ok d =>
      match slot with
      | None => acquire_executor_lease_into drv d fresh None
      | Some current =>
          prog_bind (call (RenewExecutorLease current d)) (λ r,
            match r with
            | Ok (Renewed renewed) => Done (Some renewed, Ok (Some renewed))
            | Ok Stale => acquire_executor_lease_into drv d fresh None
            | Err e => Done (slot, Err e)
            | Panic => Done (slot, Panic)
            | OutOfFuel => Done (slot, OutOfFuel)
            end)
      end
  | Err e => Done (slot, Err e)
  | Panic => Done (slot, Panic)
  | OutOfFuel => Done (slot, OutOfFuel)
  end.

Definition release_executor_lease (slot : Slot) : Prog (Slot * Outcome ServiceError unit) :=
  match slot with
  | Some lease => prog_bind (call (ReleaseExecutorLease lease)) (λ r, Done (None, r))
  | None => Done (None, Ok tt)
  end.

(** ** Renewing an occurrence's lease while its delivery runs *)

Definition is_transient (e : StoreError) : bool :=
  match e with Transient _ => true | _ => false end.

Inductive LeaseRenewalAttempt :=
| LeaseRenewed (store_now_utc : DateTime) (o : Occurrence)
| RenewalStale
| RenewalTransient (e : StoreError)
| RenewalFatal (e : StoreError).

Definition renew_lease_once (o : Occurrence) (token : ClaimToken) (owner : ClaimOwner)
    (lease_duration : TimeDelta) : Service LeaseRenewalAttempt :=
  let dsl := occurrence_machine o in
  Call (RenewOccurrenceLease
    {| renew_occurrence_id := occurrence_id dsl; expected_attempt := attempt_count dsl;
       renew_claim_token := token; expected_owner_id := owner;
       renew_lease_duration := lease_duration |})
    (λ r, Done
      match r with
      | Ok result =>
          match renewal result with
          | Some w =>
              if has is_lease_renewed w
              then Ok (LeaseRenewed (renewed_store_now_utc result) (ow_occurrence w))
              else Ok (RenewalFatal
                (Internal "committed lease renewal lost its LeaseRenewed lifecycle effect"))
          | None => Ok RenewalStale
          end
      | Err e => Ok (if is_transient e then RenewalTransient e else RenewalFatal e)
      | Panic => Panic
      | OutOfFuel => OutOfFuel
      end).

(** Half the lease, in milliseconds; a lease that is not positive is not renewed. *)
Definition lease_renewal_interval (lease_duration : TimeDelta) : option Z :=
  let half := Z.quot (num_milliseconds lease_duration) 2 in
  if (half <=? 0)%Z then None else Some half.

(** The renewals that fall due before the work returns; each is marked with
    whether the last proven lease is spent by then. *)
Fixpoint renew_while (o : Occurrence) (token : ClaimToken) (owner : ClaimOwner)
    (lease_duration : TimeDelta) (due : list bool) (renewed : option Occurrence)
  : Service (option Occurrence) :=
  match due with
  | [] => mret renewed
  | spent :: due =>
      attempt ← renew_lease_once o token owner lease_duration;
      match attempt with
      | LeaseRenewed _ successor =>
          match lease_expires_at_utc_ms (occurrence_machine successor) with
          | None => mret (Some successor)
          | Some _ => renew_while o token owner lease_duration due (Some successor)
          end
      | RenewalStale => mret renewed
      | RenewalTransient _ =>
          if spent : bool then mret renewed
          else renew_while o token owner lease_duration due renewed
      | RenewalFatal _ => mret renewed
      end
  end.

Definition lease_renewals (o : Occurrence) (lease_duration : TimeDelta) (due : list bool)
  : Service (option Occurrence) :=
  match lease_renewal_interval lease_duration, claim_token (occurrence_machine o),
        claimed_by (occurrence_machine o) with
  | Some _, Some token, Some owner => renew_while o token owner lease_duration due None
  | _, _, _ => mret None
  end.

Definition after_renewals {T} (o : Occurrence) (lease_duration : TimeDelta)
    (answer : list bool * T) : Service (T * option Occurrence) :=
  renewed ← lease_renewals o lease_duration answer.1; mret (answer.2, renewed).

Definition run_with_lease_renewal {T} (o : Occurrence) (lease_duration : TimeDelta)
    (work : Query (list bool * T)) : Service (T * option Occurrence) :=
  Ask work (after_renewals o lease_duration).

(** ** Terminal transitions *)

Inductive TerminalizeOutcome := Applied | LateRecorded | IdempotentNoop | StaleClaim.

(** A transition of a row under the claim a caller holds. *)
Definition transition_current (o : Occurrence) (lifecycle : OccurrenceInput)
  : Service (option OccurrenceWrite) :=
  let dsl := occurrence_machine o in
  call (TransitionIfCurrent (occurrence_id dsl) (attempt_count dsl) (claim_token dsl) lifecycle).

Definition transition_with_receipt (o : Occurrence) (lifecycle : OccurrenceInput)
    (outcome : option RuntimeDeliveryOutcome) : Service (option OccurrenceWrite) :=
  let dsl := occurrence_machine o in
  call (TransitionWithReceiptIfCurrent (occurrence_id dsl) (attempt_count dsl) (claim_token dsl)
          lifecycle outcome).

Definition terminalize_late_completion_on_superseded (o : Occurrence) (lifecycle : OccurrenceInput)
  : Service TerminalizeOutcome :=
  current ← call (GetOccurrence (occ_id o));
  match current with
  | None => mret StaleClaim
  | Some current =>
      if phase_of current != Superseded then mret StaleClaim
      else
        mutator ← require InternalFailure (occurrence_apply current lifecycle);
        if has is_late_recorded mutator then
          commit ← call (CommitOccurrenceWrite mutator);
          if has is_late_recorded commit then mret LateRecorded
          else fault (ObservationFailed
            "committed late completion transition lost its generated lifecycle effect")
        else mret StaleClaim
  end.

(** The effect a terminal phase is committed with; [None] is a phase that is not terminal. *)
Definition terminal_effect (p : OccurrencePhase) : option (OccurrenceEffect → bool) :=
  match p with
  | Completed => Some is_completed
  | Skipped => Some is_skipped
  | Misfired => Some is_misfired
  | Superseded => Some is_superseded
  | DeliveryFailed => Some is_delivery_failed
  | _ => None
  end.

Definition terminalize_occurrence_inner (o : Occurrence) (lifecycle : OccurrenceInput)
    (outcome : option RuntimeDeliveryOutcome) : Service TerminalizeOutcome :=
  current ← call (GetOccurrence (occ_id o));
  match phase_of <$> current with
  | None => mret StaleClaim
  | Some Superseded =>
      commit ← transition_current o lifecycle;
      match commit with
      | None => terminalize_late_completion_on_superseded o lifecycle
      | Some commit =>
          if has is_late_recorded commit then mret LateRecorded
          else match ow_effects commit with
               | [] => mret IdempotentNoop
               | _ => fault (ObservationFailed
                   "terminal transition resolved on a superseded occurrence without a late-completion record")
               end
      end
  | Some _ =>
      updated ← transition_with_receipt o lifecycle outcome;
      match updated with
      | None => mret StaleClaim
      | Some commit =>
          match terminal_effect (phase_of (ow_occurrence commit)) with
          | None => fault (ObservationFailed
              "terminal transition committed non-terminal successor phase")
          | Some required =>
              if has required commit then mret Applied
              else fault (ObservationFailed
                "terminal transition committed without its required lifecycle effect")
          end
      end
  end.

Definition terminalize_occurrence (o : Occurrence) (lifecycle : OccurrenceInput) : Service unit :=
  _ ← terminalize_occurrence_inner o lifecycle None; mret tt.

(** ** Completions *)

(** Its failures are only logged. *)
Definition classify_stale_arrival (id : OccurrenceId) (trigger : OccurrenceLifecycleInputVariant)
  : Service unit :=
  _ ← catch (
    current ← call (GetOccurrence id);
    match current with
    | None => mret tt
    | Some current =>
        mutator ← require InternalFailure
          (occurrence_apply current (ClassifyStaleCompletionArrival trigger));
        commit ← call (CommitOccurrenceWrite mutator);
        if has is_stale_classified commit then mret tt
        else fault (ObservationFailed
          "committed stale-arrival classification lost its generated lifecycle effect")
    end);
  mret tt.

Definition delivery_completion_failure_evidence (e : ServiceError)
  : DeliveryCompletionFailureReason * option string :=
  match e with
  | DeliveryCompletionFailed reason detail => (reason, Some detail)
  | DeliveryRepairDeferred detail =>
      (DeliveryCompletionFailureReason_CompletionFutureFailed,
       Some ("delivery repair deferral reached terminal completion classification unexpectedly: "
               +:+ detail))
  | other => (DeliveryCompletionFailureReason_CompletionFutureFailed, Some (error_text other))
  end.

(** The input a delivery's terminal calls for, and its trigger should the claim be stale. *)
Definition terminal_resolution (terminal : DeliveryTerminal) (store_now_utc : DateTime)
  : Outcome ServiceError (OccurrenceInput * OccurrenceLifecycleInputVariant) :=
  match terminal_completion_outcome terminal with
  | Some outcome =>
      Ok (ResolveRuntimeCompletion outcome (terminal_detail terminal) store_now_utc,
          V_ResolveRuntimeCompletion)
  | None =>
      match terminal_phase terminal with
      | Completed => Ok (Complete store_now_utc, V_Complete)
      | Skipped | Misfired => Err (InternalError
          "delivery terminal returned unsupported adapter-selected occurrence phase")
      | DeliveryFailed =>
          match terminal_failure_reason terminal with
          | None => Err (InternalError
              "delivery failed terminal omitted generated failure reason")
          | Some reason =>
              Ok (ResolveDeliveryFailure reason (terminal_detail terminal) store_now_utc,
                  V_ResolveDeliveryFailure)
          end
      | _ => Err (InternalError "delivery terminal returned non-terminal occurrence phase")
      end
  end.

Definition to_claimed_dispatch_phase (p : SchedulePhase) : ClaimedDispatchSchedulePhase :=
  match p with
  | Active => ClaimedDispatchSchedulePhase_Active
  | Paused => ClaimedDispatchSchedulePhase_Paused
  | Deleted => ClaimedDispatchSchedulePhase_Deleted
  end.

(** Whether the completion's supersession, if any, accounts for the completion. *)
Definition resolve_completion_supersession (o : Occurrence) (store_now_utc : DateTime)
    (schedule : option Schedule) : Service bool :=
  match schedule with
  | None => mret false
  | Some s =>
      verdict ← require InternalFailure
        (classify_completion_supersession o (to_claimed_dispatch_phase (sched_phase s))
           (sched_revision s));
      match verdict with
      | (CompletionSupersessionDisposition_Supersede, Some revision) =>
          outcome ← terminalize_occurrence_inner o (Supersede revision store_now_utc) None;
          mret match outcome with StaleClaim | IdempotentNoop => false | _ => true end
      | (CompletionSupersessionDisposition_Supersede, None) => fault (InternalError
          "occurrence authority classified completion Supersede without a superseding revision")
      | _ => mret false
      end
  end.

(** Resolve the occurrence; a claim that is no longer current is classified. *)
Definition resolve_or_classify (o : Occurrence) (lifecycle : OccurrenceInput)
    (trigger : OccurrenceLifecycleInputVariant) (outcome : option RuntimeDeliveryOutcome)
  : Service unit :=
  outcome ← terminalize_occurrence_inner o lifecycle outcome;
  match outcome with
  | StaleClaim => classify_stale_arrival (occ_id o) trigger
  | _ => mret tt
  end.

Definition complete_dispatched_occurrence (o : Occurrence)
    (completion : Outcome ServiceError DeliveryTerminal) : Service unit :=
  store_now_utc ← call GetStoreTime;
  schedule ← call (GetSchedule (schedule_id (occurrence_machine o)));
  accounted ← resolve_completion_supersession o store_now_utc schedule;
  if accounted : bool then mret tt
  else
    match completion with
    | Ok terminal =>
        '(lifecycle, trigger) ← require id (terminal_resolution terminal store_now_utc);
        resolve_or_classify o lifecycle trigger (terminal_runtime_outcome terminal)
    | Err e =>
        let '(reason, detail) := delivery_completion_failure_evidence e in
        resolve_or_classify o (ResolveDeliveryCompletionFailure reason detail store_now_utc)
          V_ResolveDeliveryCompletionFailure None
    | Panic => Done Panic
    | OutOfFuel => Done OutOfFuel
    end.

(** The task [spawn_completion_waiter] starts. *)
Definition completion_waiter (o : Occurrence) (dispatch : DeliveryDispatch)
    (lease_duration : TimeDelta) : Service unit :=
  '(completion, _) ← run_with_lease_renewal o lease_duration (CompletionOf o dispatch);
  match completion with
  | Err (DeliveryRepairDeferred _) => mret tt
  | _ => _ ← catch (complete_dispatched_occurrence o completion); mret tt
  end.

(** ** Before the dispatch *)

Inductive ClaimedOccurrenceDispatchState :=
| DispatchReady (o : Occurrence)
| DispatchFrozen
| DispatchSuperseded (o : Occurrence) (superseded_by_revision : N).

Definition reconcile_claimed_occurrence_before_dispatch (o : Occurrence)
  : Service ClaimedOccurrenceDispatchState :=
  current ← catch (get (schedule_id (occurrence_machine o)));
  match current with
  | inr (StoreFailed (ScheduleNotFound _)) =>
      fault (InternalError "claimed occurrence references missing schedule")
  | inr e => fault e
  | inl current =>
      verdict ← require InternalFailure
        (classify_claimed_dispatch_disposition o (to_claimed_dispatch_phase (sched_phase current))
           (sched_revision current));
      match verdict with
      | (ClaimedDispatchDisposition_FutureRevision, _) =>
          fault (InternalError "claimed occurrence has future revision ahead of schedule")
      | (ClaimedDispatchDisposition_Frozen, _) => mret DispatchFrozen
      | (ClaimedDispatchDisposition_Supersede, None) => fault (InternalError
          "occurrence authority classified Supersede without a superseding revision")
      | (ClaimedDispatchDisposition_Supersede, Some revision) =>
          mret (DispatchSuperseded o revision)
      | (ClaimedDispatchDisposition_Ready, _) =>
          o ← sync_occurrence_target_with_schedule o; mret (DispatchReady o)
      end
  end.

Inductive TargetProbeResolution :=
| ProbeContinue (o : Occurrence)
| ProbeTerminalized
| ProbeStaleClaim.

Definition to_dsl_claim_redelivery (existing : option ExistingDelivery) : ClaimRedelivery :=
  match existing with
  | None => ClaimRedelivery_Ordinary
  | Some ExistingDelivery_Admitted => ClaimRedelivery_AfterAdmission
  | Some ExistingDelivery_UnprovenLate => ClaimRedelivery_AfterUnprovenDispatch
  end.

Definition probed (outcome : TargetProbeOutcome)
  : OccurrenceTargetProbeOutcome * option string :=
  match outcome with
  | Ready => (OccurrenceTargetProbeOutcome_Ready, None)
  | TargetBusy detail =>
      (OccurrenceTargetProbeOutcome_Busy, Some (default "target busy" detail))
  | TargetMissing detail =>
      (OccurrenceTargetProbeOutcome_Missing, Some (default "target missing" detail))
  end.

(** What the committed probe means; its effects must fit its phase. *)
Definition probe_resolution (commit : OccurrenceWrite) : Outcome ServiceError TargetProbeResolution :=
  let inconsistent := Err (ObservationFailed
    "committed target probe successor carried inconsistent lifecycle effects") in
  match phase_of (ow_occurrence commit) with
  | Claimed => if no_outputs commit then Ok (ProbeContinue (ow_occurrence commit)) else inconsistent
  | Skipped => if has is_skipped commit then Ok ProbeTerminalized else inconsistent
  | Misfired => if has is_misfired commit then Ok ProbeTerminalized else inconsistent
  | _ => Err (ObservationFailed "committed target probe resolved to unsupported phase")
  end.

Definition resolve_target_probe (o : Occurrence) (store_now_utc : DateTime)
    (existing : option ExistingDelivery) : Service TargetProbeResolution :=
  outcome ← ask (ProbeTarget o);
  let '(outcome, detail) := probed outcome in
  let lifecycle :=
    ResolveTargetProbe outcome (to_dsl_claim_redelivery existing) detail store_now_utc in
  predicted ← require InternalFailure (occurrence_apply o lifecycle);
  commit ←
    match phase_of (ow_occurrence predicted) with
    | Claimed => transition_current o lifecycle
    | Skipped | Misfired => transition_with_receipt o lifecycle None
    | _ => fault (InternalError
        "generated occurrence authority resolved target probe to unsupported phase")
    end;
  match commit with
  | None => mret ProbeStaleClaim
  | Some commit => require id (probe_resolution commit)
  end.

(** ** Dispatching one claimed occurrence *)

Definition resolve_existing_delivery_not_admitted (dispatching : Occurrence)
    (existing : ExistingDelivery) (store_now_utc : DateTime) : Service bool :=
  let lifecycle :=
    match existing with
    | ExistingDelivery_UnprovenLate => ResolveUnprovenLateNotAdmitted AdmissionEvidence_Started
        (Some "dispatch started past the misfire deadline and the target never admitted it")
        store_now_utc
    | ExistingDelivery_Admitted => ResolveDeliveryFailure DeliveryFailureReason_InternalError
        (Some "the target answered not admitted for a delivery whose admission is recorded")
        store_now_utc
    end in
  _ ← terminalize_occurrence dispatching lifecycle; mret true.

(** The admission a dispatch's receipt proves, if it proves one. *)
Definition validate_dispatch_receipt (o : Occurrence) (identity : ScheduleDeliveryIdentity)
    (dispatch : DeliveryDispatch) : Outcome ServiceError (option DeliveryAdmissionOutcome) :=
  let receipt := dispatch_receipt dispatch in
  let dsl := occurrence_machine o in
  let reject reason := Err (InternalError reason) in
  if (r_occurrence_id receipt != occurrence_id dsl) || (r_attempt receipt != attempt_count dsl)
  then reject "delivery adapter returned receipt for another occurrence or attempt"
  else if (r_correlation_id receipt != Some (identity_correlation_id identity))
          || (dispatch_correlation_id dispatch != Some (identity_correlation_id identity))
  then reject "delivery adapter rewrote stable correlation identity"
  else if (r_materialized_session_id receipt != dispatch_session_id dispatch)
          || (r_materialized_session_id receipt != target_session_id (target_snapshot o))
  then reject "delivery adapter returned materialized target inconsistent with occurrence"
  else
    match r_stage receipt, r_runtime_outcome receipt with
    | DeliveryReceiptStage_DispatchAccepted, Some AdmissionAccepted =>
        Ok (Some DeliveryAdmissionOutcome_Accepted)
    | DeliveryReceiptStage_DispatchAccepted, Some AdmissionDeduplicated =>
        Ok (Some DeliveryAdmissionOutcome_Deduplicated)
    | DeliveryReceiptStage_DispatchStarted, None => Ok None
    | _, _ => reject "delivery adapter returned invalid admission receipt stage"
    end.

(** What the adapter delivered, with the row the renewals left. *)
Inductive Delivered :=
| DeliveredDispatch (dispatching : Occurrence) (dispatch : DeliveryDispatch)
| DeliveredNothing (dispatching : Occurrence) (existing : ExistingDelivery)
| DeliveryFault (dispatching : Occurrence) (e : ServiceError).

Definition deliver (cfg : ScheduleDriverConfig) (dispatching : Occurrence)
    (identity : ScheduleDeliveryIdentity) (existing : option ExistingDelivery) : Service Delivered :=
  match existing with
  | None =>
      '(delivered, renewed) ← run_with_lease_renewal dispatching (config_lease_duration cfg)
        (DeliverOccurrence dispatching identity);
      let dispatching := default dispatching renewed in
      match delivered with
      | Ok dispatch => mret (DeliveredDispatch dispatching dispatch)
      | Err e => mret (DeliveryFault dispatching e)
      | Panic => Done Panic
      | OutOfFuel => Done OutOfFuel
      end
  | Some existing =>
      '(answer, renewed) ← run_with_lease_renewal dispatching (config_lease_duration cfg)
        (DeliverExistingOccurrence dispatching identity existing);
      let dispatching := default dispatching renewed in
      match answer with
      | Ok (Dispatch dispatch) => mret (DeliveredDispatch dispatching dispatch)
      | Ok NotAdmittedPastDeadline => mret (DeliveredNothing dispatching existing)
      | Err e => mret (DeliveryFault dispatching e)
      | Panic => Done Panic
      | OutOfFuel => Done OutOfFuel
      end
  end.

(** A materialized session is bound to the schedule and recorded on the row. *)
Definition record_materialization (amb : Ambient) (dispatching : Occurrence)
    (dispatch : DeliveryDispatch) : Service Occurrence :=
  match dispatch_session_id dispatch with
  | None => mret dispatching
  | Some session_id =>
      _ ← bind_materialized_session_for_occurrence amb dispatching session_id;
      record_dispatch_materialization dispatching session_id
  end.

(** A proven admission is recorded; [None] is a claim that is no longer current. *)
Definition record_admission (dispatching : Occurrence) (dispatch : DeliveryDispatch)
    (admission : option DeliveryAdmissionOutcome) (store_now_utc : DateTime)
  : Service (option Occurrence) :=
  if r_stage (dispatch_receipt dispatch) == DeliveryReceiptStage_DispatchAccepted then
    match admission with
    | None => fault (InternalError
        "dispatch-accepted receipt omitted a successful admission outcome")
    | Some admission =>
        commit ← transition_with_receipt dispatching (DispatchAccepted admission store_now_utc)
          (r_runtime_outcome (dispatch_receipt dispatch));
        match commit with
        | None => mret None
        | Some commit =>
            if (phase_of (ow_occurrence commit) == Dispatching) && has is_dispatch_accepted commit
               && (match ow_acks commit with [] => true | _ => false end)
            then mret (Some (ow_occurrence commit))
            else fault (ObservationFailed
              "committed dispatch-accepted transition carried an incomplete or invalid lifecycle result")
        end
    end
  else mret (Some dispatching).

Definition is_concurrency (e : StoreError) : bool :=
  match e with Concurrency _ | ConcurrencyRow _ => true | _ => false end.

(** Commit [AwaitCompletion]; a supersession may have come first. *)
Definition await_completion (dispatching : Occurrence) (store_now_utc : DateTime)
  : Service Occurrence :=
  mutator ← require InternalFailure (occurrence_apply dispatching (AwaitCompletion store_now_utc));
  committed ← catch (call (CommitOccurrenceWrite mutator));
  match committed with
  | inl commit =>
      if match phase_of (ow_occurrence commit) with
         | AwaitingCompletion => has is_awaiting commit
         | Superseded => no_outputs commit
         | _ => false
         end
      then mret (ow_occurrence commit)
      else fault (ObservationFailed
        "committed await-completion transition carried an incomplete or invalid lifecycle result")
  | inr (StoreFailed e) =>
      if is_concurrency e then
        current ← call (GetOccurrence (occ_id dispatching));
        match current with
        | None => fault (StoreFailed (OccurrenceNotFound (occ_id dispatching)))
        | Some current =>
            if phase_of current != Superseded
            then fault (StoreFailed (Concurrency
              "await-completion commit failed with non-superseded current phase"))
            else mret current
        end
      else fault (StoreFailed e)
  | inr e => fault e
  end.

(** After a delivery: record what it reports and wait for its completion. *)
Definition record_dispatch (cfg : ScheduleDriverConfig) (amb : Ambient) (dispatching : Occurrence)
    (identity : ScheduleDeliveryIdentity) (dispatch : DeliveryDispatch) (store_now_utc : DateTime)
  : Service bool :=
  dispatching ← record_materialization amb dispatching dispatch;
  admission ← require id (validate_dispatch_receipt dispatching identity dispatch);
  accepted ← record_admission dispatching dispatch admission store_now_utc;
  match accepted with
  | None => mret false
  | Some dispatching =>
      dispatching ← await_completion dispatching store_now_utc;
      Ask (SpawnWaiter dispatching dispatch (config_lease_duration cfg)) (λ _, Done (Ok false))
  end.

(** From a ready occurrence on: probe, commit the intent, deliver. *)
Definition dispatch_occurrence (drv : ScheduleDriver) (amb : Ambient) (o : Occurrence)
    (store_now_utc : DateTime) (existing : option ExistingDelivery) : Service bool :=
  probe ← resolve_target_probe o store_now_utc existing;
  match probe with
  | ProbeTerminalized => mret true
  | ProbeStaleClaim => mret false
  | ProbeContinue o =>
      let identity := for_occurrence o in
      commit ← transition_with_receipt o
        (DispatchStarted (Some (identity_correlation_id identity)) store_now_utc) None;
      match commit with
      | None => mret false
      | Some commit =>
          if negb (has is_dispatch_started commit) then fault (ObservationFailed
            "committed dispatch-start transition lost its generated lifecycle effect")
          else
            delivered ← deliver (driver_config drv) (ow_occurrence commit) identity existing;
            match delivered with
            | DeliveredNothing dispatching existing =>
                resolve_existing_delivery_not_admitted dispatching existing store_now_utc
            | DeliveryFault _ (DeliveryRepairDeferred _) => mret false
            | DeliveryFault dispatching e =>
                _ ← terminalize_occurrence dispatching
                  (ResolveDeliveryFailure DeliveryFailureReason_TransportError
                     (Some (error_text e)) store_now_utc);
                mret true
            | DeliveredDispatch dispatching dispatch =>
                record_dispatch (driver_config drv) amb dispatching identity dispatch store_now_utc
            end
      end
  end.

Definition handle_claimed_occurrence (drv : ScheduleDriver) (amb : Ambient) (o : Occurrence)
    (store_now_utc : DateTime) (existing : option ExistingDelivery) : Service bool :=
  state ← reconcile_claimed_occurrence_before_dispatch o;
  match state with
  | DispatchReady o => dispatch_occurrence drv amb o store_now_utc existing
  | DispatchFrozen =>
      commit ← transition_with_receipt o (ReleaseLeaseForPausedSchedule store_now_utc) None;
      match commit with
      | None => mret false
      | Some commit =>
          if (phase_of (ow_occurrence commit) == Pending) && has is_lease_expired commit
          then mret false
          else fault (ObservationFailed
            "paused-schedule lease release committed without a Pending successor and LeaseExpired effect")
      end
  | DispatchSuperseded o revision =>
      _ ← terminalize_occurrence o (Supersede revision store_now_utc); mret true
  end.

(** ** Ticks *)

Fixpoint refill_candidates (amb : TickAmbient) (store_now_utc : DateTime)
    (candidates : list ScheduleRefillCandidate) (report : ScheduleTickReport)
  : Service ScheduleTickReport :=
  match candidates with
  | [] => mret report
  | candidate :: candidates =>
      let id := sched_id (candidate_schedule candidate) in
      planned ← catch (refill_candidate (ambient_of amb id) candidate store_now_utc);
      refill_candidates amb store_now_utc candidates
        match planned with
        | inl planned => report <| planned_count := planned_count report + length planned |>
        | inr e => report <| refill_faults := refill_faults report ++
                     [{| refill_schedule_id := id; refill_detail := error_text e |}] |>
        end
  end.

(** The redelivery a claim names. *)
Fixpoint redelivery (effects : list OccurrenceEffect) : option ExistingDelivery :=
  match effects with
  | [] => None
  | E_ReclaimedAfterAdmission :: _ => Some ExistingDelivery_Admitted
  | E_ReclaimedAfterUnprovenDispatch :: _ => Some ExistingDelivery_UnprovenLate
  | _ :: effects => redelivery effects
  end.

(** The effect a scan commits a phase with. *)
Definition scan_effect (p : OccurrencePhase) : option (OccurrenceEffect → bool) :=
  match p with
  | Claimed => Some is_claimed
  | Misfired => Some is_misfired
  | DeliveryFailed => Some is_delivery_failed
  | Pending => Some is_lease_expired
  | _ => None
  end.

(** Every claimed occurrence is handled; the first fault is kept. *)
Fixpoint handle_transitions (drv : ScheduleDriver) (amb : TickAmbient) (store_now_utc : DateTime)
    (transitions : list OccurrenceWrite) (first_fault : option ServiceError)
    (report : ScheduleTickReport) : Service ScheduleTickReport :=
  match transitions with
  | [] => match first_fault with Some e => fault e | None => mret report end
  | commit :: transitions =>
      let successor := ow_occurrence commit in
      match scan_effect (phase_of successor) with
      | None => fault (ObservationFailed
          "claim scan returned unsupported committed occurrence phase")
      | Some required =>
          if negb (has required commit) then fault (ObservationFailed
            "claim scan committed a successor without its lifecycle effect")
          else if phase_of successor == Claimed then
            let report := report <| claimed_occurrences := S (claimed_occurrences report) |> in
            handled ← catch (handle_claimed_occurrence drv
              (ambient_of amb (schedule_id (occurrence_machine successor))) successor
              store_now_utc (redelivery (ow_effects commit)));
            match handled with
            | inl true => handle_transitions drv amb store_now_utc transitions first_fault
                (report <| terminalized_occurrences := S (terminalized_occurrences report) |>)
            | inl false => handle_transitions drv amb store_now_utc transitions first_fault report
            | inr e => handle_transitions drv amb store_now_utc transitions
                (Some (default e first_fault)) report
            end
          else handle_transitions drv amb store_now_utc transitions first_fault report
      end
  end.

Definition tick_once_authorized (drv : ScheduleDriver) (amb : TickAmbient)
    (report : ScheduleTickReport) (lease : ScheduleExecutorLease) : Service ScheduleTickReport :=
  batch ← call (ReadDueRefillCandidates REFILL_CANDIDATE_LIMIT);
  let report := report <| schedule_row_faults := batch_row_faults batch |> in
  report ← refill_candidates amb (batch_store_now_utc batch) (batch_candidates batch) report;
  claimed ← call (ClaimDueOccurrences lease
    {| request_owner_id := driver_owner_id drv; limit := claim_limit (driver_config drv);
       lease_duration := config_lease_duration (driver_config drv) |} (fresh_claims amb));
  let report := report <| occurrence_row_faults := claimed_row_faults claimed |> in
  handle_transitions drv amb (claimed_store_now_utc claimed) (claimed_transitions claimed) None
    report.

(** [tick_once]; [tick_once_until_cancelled] is a tick that may be abandoned once
    it holds the lease. *)
Definition tick_once (drv : ScheduleDriver) (amb : TickAmbient) (slot : Slot)
  : Prog (Slot * Outcome ServiceError ScheduleTickReport) :=
  prog_bind (acquire_or_renew_executor_lease drv (fresh_lease amb) slot) (λ '(slot, r),
    match r with
    | Ok None => Done (slot, Ok empty_report)
    | Ok (Some lease) =>
        prog_bind (tick_once_authorized drv amb
                     (empty_report <| executor_authorized := true |>) lease)
          (λ r, Done (slot, r))
    | Err e => Done (slot, Err e)
    | Panic => Done (slot, Panic)
    | OutOfFuel => Done (slot, OutOfFuel)
    end).
End driver.
