(* ===== verification/ServiceFacts.v ===== *)
(** * ServiceFacts: what the service observes

    A request's effects agree with the schedule it leaves, also once a planned
    window is absorbed, and a conforming commit of such a write passes every
    check the service makes of it. *)

From stdpp Require Import gmap.
From S2P Require Import Prelude Text Chrono ScheduleTypes Trigger Targets Millis Authority.
From S2P Require Import ScheduleLifecycle OccurrenceLifecycle OccurrenceFacts Rows RowFacts RowValidity.
From S2P Require Import RowOutcomes ScheduleRows StoreTypes StoreContract Planner PlannedRows PlannerFacts Programs Service.

Section facts.
Context `{RowCodec} {HL : ChronoLaws} {BP : BuildProfile}.

(** ** Effects *)

Definition effects_hold (w : ScheduleWrite) : Prop :=
  Forall (λ e, effect_consistent (sw_schedule w) e = true) (sw_effects w).

(** What an effect says of the machine that emitted it. *)
Definition emitted_by (s : ScheduleState) (e : ScheduleEffect) : Prop :=
  match e with
  | ScheduleLifecycle.E_EmitScheduleNotice phase revision =>
      ScheduleLifecycle.lifecycle_phase s = phase ∧ ScheduleLifecycle.revision s = revision
  | ScheduleLifecycle.E_SupersedePendingOccurrences revision _ => ScheduleLifecycle.revision s = revision
  | ScheduleLifecycle.E_PlanningWindowRecorded cursor ordinal =>
      ScheduleLifecycle.planning_cursor_utc_ms s = Some cursor ∧
      ScheduleLifecycle.next_occurrence_ordinal s = ordinal
  end.

Lemma fires_emitted i t s s' es : Fires i t s s' es → Forall (emitted_by s') es.
Proof. intros HF. fires_cases HF; repeat constructor; cbn; repeat (case_match; cbn); done. Qed.

Definition window_effect (e : ScheduleEffect) : bool :=
  match e with ScheduleLifecycle.E_PlanningWindowRecorded _ _ => true | _ => false end.
Definition window_input (i : ScheduleInput) : bool :=
  match i with ScheduleLifecycle.I_RecordPlanningWindow _ _ => true | _ => false end.
Definition window_request (r : ScheduleRequest) : bool :=
  match r with RecordPlanningWindow _ _ => true | _ => false end.

Lemma fires_no_window i t s s' es :
  Fires i t s s' es → window_input i = false → Forall (λ e, window_effect e = false) es.
Proof. intros HF. fires_cases HF; intros Hi; try discriminate Hi; repeat constructor. Qed.

Lemma cursor_displayed s ms :
  schedule_display_fields (schedule_machine s) = Ok tt →
  ScheduleLifecycle.planning_cursor_utc_ms (schedule_machine s) = Some ms →
  ∃ dt, millis_to_datetime ms = Some dt.
Proof.
  unfold schedule_display_fields. intros Hd Hms. rewrite Hms in Hd.
  do 2 apply Outcome_bind_Ok in Hd as (? & _ & Hd).
  apply Outcome_bind_Ok in Hd as (? & (dt & Hdt%from_millis_Ok & _)%Outcome_bind_Ok & _). eauto.
Qed.

Lemma emitted_consistent s e :
  schedule_display_fields (schedule_machine s) = Ok tt →
  emitted_by (schedule_machine s) e → effect_consistent s e = true.
Proof.
  intros Hd. destruct e as [phase revision|revision ms|cursor ordinal]; cbn.
  - intros [<- <-]. unfold sched_phase, sched_revision. by rewrite !bool_decide_eq_true_2.
  - intros <-. unfold sched_revision. by rewrite bool_decide_eq_true_2.
  - intros [Hc <-]. destruct (cursor_displayed s cursor Hd Hc) as [dt Hdt].
    unfold sched_planning_cursor. rewrite Hc. cbn [mbind option_bind]. rewrite Hdt. cbn [same_instants].
    by rewrite Z.eqb_refl, bool_decide_eq_true_2.
Qed.

Lemma requested_effects_hold w : requested w → effects_hold w.
Proof.
  intros [Ha [_ _ _ Hd] _]. unfold effects_hold. destruct Ha as [i t s _ HF|s _ _ ->]; [|constructor].
  eapply Forall_impl; [exact (fires_emitted _ _ _ _ _ HF)|]. intros e. by apply emitted_consistent.
Qed.

(** ** Requests that record no window *)

Notation no_window es := (Forall (λ e, window_effect e = false) es).

Lemma run_no_window s i es dsl :
  run_schedule_dsl s i = Ok (es, dsl) → window_input i = false → no_window es.
Proof.
  unfold run_schedule_dsl. intros ([] & _ & Hrun)%Outcome_bind_Ok Hi.
  apply run_dsl_fires in Hrun as [_ (t & HF)]. by eapply fires_no_window.
Qed.

Lemma drive_no_window s i es s' :
  drive_schedule s i = Ok (s', es) → window_input i = false → no_window es.
Proof.
  unfold drive_schedule. intros ([es0 dsl] & Hrun & Hw)%Outcome_bind_Ok Hi.
  apply Outcome_bind_Ok in Hw as (s1 & _ & Hm). apply Outcome_bind_Ok in Hm as (? & _ & [= _ <-]).
  by eapply run_no_window.
Qed.

Lemma update_no_window s request at_utc now s' bumped es :
  apply_update s request at_utc now = Ok (s', bumped, es) → no_window es.
Proof.
  unfold apply_update. intros (? & _ & Hu)%Outcome_bind_Ok. cbv zeta in Hu.
  destruct (revision_affecting _ _ _ _ _ _).
  - apply Outcome_bind_Ok in Hu as (ms & _ & Hu). apply Outcome_bind_Ok in Hu as ([es0 dsl] & Hrun & Hu).
    do 2 apply Outcome_bind_Ok in Hu as (? & _ & Hu).
    apply Outcome_bind_Ok in Hu as (? & _ & [= _ _ <-]). by eapply run_no_window.
  - apply Outcome_bind_Ok in Hu as ([s1 es0] & Hdr & [= _ _ <-]).
    destruct (_ || _); [by eapply drive_no_window|]. injection Hdr as _ <-. constructor.
Qed.

Lemma request_no_window fresh now so request w :
  schedule_apply fresh now so request = Ok w → window_request request = false →
  no_window (sw_effects w).
Proof.
  destruct request as [request|request at_utc|cursor ordinal|target|at_utc|at_utc|at_utc|ack];
    cbn [schedule_apply]; intros Hw Hr; try discriminate Hr.
  { unfold create_schedule_via_dsl in Hw. apply Outcome_bind_Ok in Hw as ([es dsl] & Hrun & Hw).
    do 3 apply Outcome_bind_Ok in Hw as (? & _ & Hw). injection Hw as <-.
    apply run_dsl_fires in Hrun as [_ (t & HF)]. by eapply fires_no_window. }
  all: apply Outcome_bind_Ok in Hw as (s & _ & Hw); apply Outcome_bind_Ok in Hw as (p & _ & Hw).
  - apply Outcome_bind_Ok in Hw as ([[s' bumped] es] & Hu & [= <-]). by eapply update_no_window.
  - apply Outcome_bind_Ok in Hw as ([es dsl] & Hrun & Hw).
    do 3 apply Outcome_bind_Ok in Hw as (? & _ & Hw). injection Hw as <-. by eapply run_no_window.
  - apply Outcome_bind_Ok in Hw as (ms & _ & Hw). apply Outcome_bind_Ok in Hw as ([s' es] & Hdr & [= <-]).
    by eapply drive_no_window.
  - apply Outcome_bind_Ok in Hw as (ms & _ & Hw). apply Outcome_bind_Ok in Hw as ([s' es] & Hdr & [= <-]).
    by eapply drive_no_window.
  - apply Outcome_bind_Ok in Hw as (ms & _ & Hw). apply Outcome_bind_Ok in Hw as ([s' es] & Hdr & [= <-]).
    by eapply drive_no_window.
  - apply Outcome_bind_Ok in Hw as (? & _ & Hw). apply Outcome_bind_Ok in Hw as ([s' es] & Hdr & [= <-]).
    by eapply drive_no_window.
Qed.

(** ** Absorbed windows *)

(** [w] is [w0], or [w0] with a window recorded on top of it. *)
Inductive with_planning (w0 : ScheduleWrite) : ScheduleWrite → Prop :=
| planning_none : with_planning w0 w0
| planning_window cursor ms ordinal dt :
    sched_phase (sw_schedule w0) = Active → to_millis cursor "planning_cursor_utc" = Ok ms →
    window_moves (sw_schedule w0) ms ordinal → millis_to_datetime ms = Some dt →
    with_planning w0
      {| sw_schedule := with_window ms ordinal (sw_schedule w0);
         sw_effects := sw_effects w0 ++
           [ScheduleLifecycle.E_EmitScheduleNotice Active (sched_revision (sw_schedule w0));
            ScheduleLifecycle.E_PlanningWindowRecorded ms ordinal];
         sw_revision_bumped := sw_revision_bumped w0; sw_precondition := sw_precondition w0;
         sw_pending_supersession := sw_pending_supersession w0 |}.

Lemma recorded_cursor s cursor ms ordinal w :
  recorded_window s cursor ms ordinal w → ∃ dt, millis_to_datetime ms = Some dt.
Proof.
  intros Hr. pose proof (recorded_ok _ _ _ _ _ Hr) as Hok. rewrite (recorded_schedule _ _ _ _ _ Hr) in Hok.
  apply schedule_ok_valid in Hok as [_ _ _ _ Hd]. by eapply (cursor_displayed (with_window ms ordinal s)).
Qed.

Lemma absorbed_planning w0 cursor ms ordinal f w :
  recorded_window (sw_schedule w0) cursor ms ordinal f →
  absorb_schedule_followup w0 f = Ok w → with_planning w0 w.
Proof.
  intros Hr. destruct (recorded_cursor _ _ _ _ _ Hr) as [dt Hdt].
  destruct w0 as [s0 es0 b0 p0 q0]. cbn in Hr. destruct Hr as [Hms Hmoves Hact Hs He [Hb Hp] _ _]. unfold absorb_schedule_followup.
  cbn. rewrite Hs, He, Hb, Hp, orb_false_r. intros (? & _ & Hw)%Outcome_bind_Ok.
  destruct q0; injection Hw as <-; by eapply (planning_window {| sw_schedule := s0 |}).
Qed.

Lemma planning_frame w0 w :
  with_planning w0 w →
  sched_id (sw_schedule w) = sched_id (sw_schedule w0) ∧
  sched_revision (sw_schedule w) = sched_revision (sw_schedule w0) ∧
  ack_ids (sw_schedule w) = ack_ids (sw_schedule w0) ∧
  sw_precondition w = sw_precondition w0 ∧
  sw_pending_supersession w = sw_pending_supersession w0.
Proof. by destruct 1. Qed.

Lemma planning_announces w0 w : with_planning w0 w → announces w0 → announces w.
Proof. destruct 1; [done|]. intros Ha p Hp. by destruct (Ha p Hp). Qed.

Lemma planning_effects_hold w0 w :
  with_planning w0 w → no_window (sw_effects w0) → effects_hold w0 → effects_hold w.
Proof.
  destruct 1 as [|cursor ms ordinal dt Hact _ _ Hdt]; [done|]. intros Hno Hh. unfold effects_hold in *. cbn.
  apply Forall_app. split.
  - apply Forall_forall. intros e Hin. rewrite Forall_forall in Hno, Hh.
    specialize (Hno e Hin). specialize (Hh e Hin). by destruct e.
  - repeat constructor; cbn.
    + unfold sched_phase, sched_revision in *. cbn. by rewrite !bool_decide_eq_true_2.
    + unfold sched_planning_cursor. cbn. rewrite Hdt. cbn. by rewrite Z.eqb_refl, bool_decide_eq_true_2.
Qed.

(** The commissioning agent is configuration: nothing else looks at it. *)
Lemma agent_announces agent w : announces w → announces (record_commissioning_agent agent w).
Proof. intros Ha p Hp. by destruct (Ha p Hp). Qed.

Lemma agent_effects_hold agent w : effects_hold w → effects_hold (record_commissioning_agent agent w).
Proof. done. Qed.

(** ** What is planned *)

Record planned_for (s : Schedule) (w : OccurrenceWrite) : Prop := {
  for_valid : planned_valid w;
  for_new : ow_precondition w = Absent (occ_id (ow_occurrence w));
  for_schedule : schedule_id (occurrence_machine (ow_occurrence w)) = sched_id s;
  for_revision : schedule_revision (occurrence_machine (ow_occurrence w)) = sched_revision s;
  for_phase : lifecycle_phase (occurrence_machine (ow_occurrence w)) = Pending;
}.

Lemma planned_rows_for fresh s o ds ws o' :
  planned_rows fresh s o ds ws o' → Forall (planned_for s) ws.
Proof.
  induction 1 as [|o d ds w ws o' Hrow _ IH]; constructor; [|done].
  destruct Hrow as [Hok _ Hpre Hid Hsid Hrev _ Hph _ _ _ _]. split; [done|congruence|done..].
Qed.

(** A plan holds rows for the schedule, and a window if it holds any. *)
Lemma plan_for fresh now s store_now existing p :
  plan_schedule_occurrences_from_snapshot fresh now s store_now existing = Ok p →
  Forall (planned_for s) (planned_occurrences p) ∧
  match planned_mutator p with
  | None => planned_occurrences p = []
  | Some f => ∃ cursor ms ordinal, recorded_window s cursor ms ordinal f
  end.
Proof.
  intros Hp. destruct (decide (sched_phase s = Active)) as [Hact|Hact].
  - destruct (plan_spec _ _ _ _ _ _ Hact Hp) as (h & _ & Hm).
    destruct (_ =? 0)%nat; [by subst p|]. destruct Hm as (c & ds & ordinal & [_ _ Hrows Hwin _]).
    split; [by eapply planned_rows_for|]. destruct (last ds) as [d|] eqn:Hl.
    + destruct Hwin as (w & ms & -> & Hr). eauto.
    + rewrite Hwin. apply last_None in Hl as ->. by inversion Hrows.
  - revert Hp. unfold plan_schedule_occurrences_from_snapshot.
    rewrite bool_decide_eq_false_2 by done. by intros [= <-].
Qed.

Lemma planned_for_valid s ws : Forall (planned_for s) ws → Forall planned_valid ws.
Proof. intros Hf. eapply Forall_impl; [exact Hf|]. by intros w []. Qed.

(** ** Observations *)

Lemma consistent_with_acks ids s e :
  effect_consistent (with_acks ids s) e = effect_consistent s e.
Proof. by destruct e. Qed.

Lemma observe_transition_ok w s ids :
  effects_hold w → s = with_acks ids (sw_schedule w) →
  observe_schedule_transition (transition_commit w s) (from_mutator w) = Ok s.
Proof.
  intros Hh ->. unfold observe_schedule_transition. cbn.
  rewrite !bool_decide_eq_true_2 by done. cbn.
  rewrite (proj2 (forallb_forall _ _)); [done|].
  intros e Hin%list_elem_of_In. rewrite consistent_with_acks. unfold effects_hold in Hh.
  rewrite Forall_forall in Hh. auto.
Qed.

Lemma swept_carrier s id w :
  swept_write (sched_id s) (sched_revision s) id w → id ∈ ack_ids s →
  carrier_complete s w = true ∧ forallb (ack_within s) (ow_acks w) = true ∧
  ack_occurrence_id <$> ow_acks w = [id].
Proof.
  intros [Hid Hsid Hph Hrev Heff Hacks] Hin. unfold carrier_complete, ack_within, occ_id in *.
  rewrite Heff, Hacks. cbn. rewrite !bool_decide_eq_true_2 by done. done.
Qed.

Lemma observe_carriers_ok s l ws :
  Forall2 (swept_write (sched_id s) (sched_revision s)) l ws → Forall (λ id, id ∈ ack_ids s) l →
  observe_carriers s ws = Ok l.
Proof.
  intros Hws. induction Hws as [|id w l ws Hw _ IH]; [done|].
  intros [Hin Hl]%Forall_cons. destruct (swept_carrier s id w Hw Hin) as (Hc & Ha & Hids).
  cbn [observe_carriers]. rewrite Hc, Ha, IH by done. cbn [observe mbind Outcome_bind].
  by rewrite Hids.
Qed.

(** A conforming commit of a write whose effects hold is accepted. *)
Lemma observe_commit_ok w mc :
  announces w → effects_hold w → commit_answer w mc →
  observe_schedule_commit mc (from_mutator w) = Ok (mc_schedule mc).
Proof.
  intros Hann Hh [Hc Hs Hsw]. unfold observe_schedule_commit.
  assert (Hids : ∃ l, observe_carriers (mc_schedule mc) (occurrence_commits mc) = Ok l ∧ NoDup l ∧
    (list_to_set l : gset OccurrenceId) = ack_ids (mc_schedule mc) ∖ ack_ids (sw_schedule w) ∧
    ack_ids (sw_schedule w) ⊆ ack_ids (mc_schedule mc)).
  { destruct (sw_pending_supersession w) as [p|] eqn:Hp.
    - destruct (Hann _ Hp) as (Hr & Hempty & _). destruct Hsw as (l & Hnd & Hl & Hws).
      change (ack_ids (sw_schedule w) = ∅) in Hempty. rewrite Hempty.
      exists l. split_and!; [|done|set_solver|set_solver].
      assert (Hid : sched_id (sw_schedule w) = sched_id (mc_schedule mc)) by by rewrite Hs.
      assert (Hrev : superseded_by p = sched_revision (mc_schedule mc)) by by rewrite Hs, Hr.
      rewrite Hid, Hrev in Hws. apply observe_carriers_ok; [done|].
      apply Forall_forall. intros id Hin. rewrite <-Hl. by apply elem_of_list_to_set.
    - destruct Hsw as [-> ->]. exists []. split_and!; [done|constructor|set_solver|done]. }
  destruct Hids as (l & -> & Hnd & Hl & Hsub). cbn [from_mutator pre_feedback_ack_ids].
  rewrite bool_decide_eq_true_2 by done. cbn [observe mbind Outcome_bind].
  rewrite size_list_to_set, Nat.eqb_refl, bool_decide_eq_true_2 by done.
  cbn [andb observe mbind Outcome_bind]. rewrite Hc. by eapply observe_transition_ok.
Qed.

(** ** Rows that take a new target *)

Lemma fires_sync_silent k m t s s' es : Fires (I_SyncTargetSnapshot k m) t s s' es → es = [].
Proof.
  intros [Hin _ (s1 & _ & _ & ->)%fire_Some].
  repeat (apply elem_of_cons in Hin as [->|Hin]; [done|]). by apply elem_of_nil in Hin.
Qed.

Lemma synced_write o target w :
  occurrence_apply o (SyncTargetSnapshot target) = Ok w →
  planned_valid w ∧ observe_effectless_occurrence_commit w = Ok (ow_occurrence w).
Proof.
  intros Hw. split; [by eapply apply_row_ok|].
  apply occurrence_apply_applied in Hw as (dsl_i & [_ Hc (t & HF) _ _ Hacks _]).
  cbn [convert_occurrence_input] in Hc. injection Hc as <-.
  apply fires_sync_silent in HF. unfold observe_effectless_occurrence_commit.
  by rewrite Hacks, HF.
Qed.
End facts.
