(* ===== verification/ServiceLogic.v ===== *)
(** * ServiceLogic: reasoning about programs over a shared store

    A program that only reads is [quiet]; one that takes effect at a single
    instant, and not at all when it fails, is [atomic]; one that keeps the
    store well-formed and never contradicts what it observes is [sound].  The
    rules compose them along [bind], whatever the store's other users do
    between two calls. *)

From stdpp Require Import gmap.
From S2P Require Import Prelude Text Chrono ScheduleTypes Authority.
From S2P Require Import ScheduleLifecycle OccurrenceLifecycle Rows StoreTypes StoreContract Programs Service.

Section logic.
Context `{RowCodec} {HL : ChronoLaws} {BP : BuildProfile} `{!ScheduleStore} `{!LawfulStore}.

#[local] Existing Instances service_ret service_bind.

Context (others : StoreState → StoreState → Prop).
Context (others_wf : ∀ st st', others st st' → store_wf st → store_wf st').

Lemma reach_wf st st' : rtc others st st' → store_wf st → store_wf st'.
Proof. induction 1; eauto. Qed.

(** ** Weakest preconditions *)

Definition wp {A} (m : Prog A) (w : World) (Q : A → World → Prop) : Prop :=
  ∀ a w', runs others m w a w' → Q a w'.

Lemma wp_mono {A} (m : Prog A) w (Q Q' : A → World → Prop) :
  wp m w Q → (∀ a w', Q a w' → Q' a w') → wp m w Q'.
Proof. intros Hm HQ a w' Hr. apply HQ, Hm, Hr. Qed.

Lemma wp_prog_bind {A B} (m : Prog A) (f : A → Prog B) w Q :
  wp m w (λ a w', wp (f a) w' Q) → wp (prog_bind m f) w Q.
Proof.
  revert w. induction m as [a|X c k IH|k IH|X q k IH]; intros w Hm b w' Hr.
  - cbn in Hr. refine (Hm a (mkWorld (w_store w) (w_generation w)) _ b w' _); [|by destruct w].
    exists (w_store w). by split_and!; [constructor|..].
  - cbn in Hr. destruct Hr as (st & now & st' & r & Ho & Ha & Hr).
    refine (IH r _ _ b w' Hr). intros a w1 Hk. apply Hm. by exists st, now, st', r.
  - cbn in Hr. destruct Hr as (st & Ho & Hr). refine (IH _ _ b w' Hr).
    intros a w1 Hk. apply Hm. by exists st.
  - cbn in Hr. destruct Hr as (st & x & Ho & Hr). refine (IH x _ _ b w' Hr).
    intros a w1 Hk. apply Hm. by exists st, x.
Qed.

Lemma wp_bind {A B} (m : Service A) (f : A → Service B) w (Q : Outcome ServiceError B → World → Prop) :
  wp m w (λ r w', match r with
                  | Ok a => wp (f a) w' Q
                  | Err e => wp (Done (Err e)) w' Q
                  | Panic => wp (Done Panic) w' Q
                  | OutOfFuel => wp (Done OutOfFuel) w' Q
                  end) → wp (m ≫= f) w Q.
Proof. intros Hm. apply wp_prog_bind. eapply wp_mono; [exact Hm|]. by intros [a|e| |] w'. Qed.

(** ** Programs that only read *)

(** Nothing contradicted what the service observed. *)
Definition unobserved {A} (r : Outcome ServiceError A) : Prop :=
  match r with Err (ObservationFailed _) => False | _ => True end.

(** Only the store's other users moved from [w] to [w']. *)
Record untouched (w w' : World) : Prop := {
  untouched_wf : store_wf (w_store w');
  untouched_store : rtc others (w_store w) (w_store w');
  untouched_generation : w_generation w' = w_generation w;
}.

Lemma untouched_trans w1 w2 w3 : untouched w1 w2 → untouched w2 w3 → untouched w1 w3.
Proof. intros [_ Hr1 E1] [Hwf Hr2 E2]. split; [done|by etrans|congruence]. Qed.

Lemma untouched_reach w st :
  store_wf (w_store w) → rtc others (w_store w) st → untouched w (mkWorld st (w_generation w)).
Proof. intros Hwf Ho. split; [by eapply reach_wf|done..]. Qed.

Definition quiet {A} (m : Service A) (Q : A → Prop) : Prop := ∀ w,
  store_wf (w_store w) →
  wp m w (λ r w', untouched w w' ∧ unobserved r ∧ ∀ a, r = Ok a → Q a).

Lemma quiet_done {A} (r : Outcome ServiceError A) (Q : A → Prop) :
  unobserved r → (∀ a, r = Ok a → Q a) → quiet (Done r) Q.
Proof.
  intros Hu HQ w Hwf r' w' (st & Ho & -> & ->). by split; [apply untouched_reach|].
Qed.

Lemma quiet_ret {A} (a : A) (Q : A → Prop) : Q a → quiet (mret a) Q.
Proof. intros HQ. apply quiet_done; [done|]. by intros ? [= <-]. Qed.

Lemma quiet_fault {A} e (Q : A → Prop) : unobserved (A := A) (Err e) → quiet (fault e) Q.
Proof. intros He. by apply quiet_done. Qed.

Lemma quiet_require {E A} (wrap : E → ServiceError) (r : Outcome E A) (Q : A → Prop) :
  (∀ e, r = Err e → unobserved (A := A) (Err (wrap e))) → (∀ a, r = Ok a → Q a) →
  quiet (require wrap r) Q.
Proof.
  intros Hu HQ. apply quiet_done; destruct r as [a|e| |]; cbn; try done; [by apply Hu|].
  intros ? [= <-]. by apply HQ.
Qed.

Lemma quiet_read {X} (c : StoreCall X) (Q : X → Prop) :
  is_read c = true →
  (∀ now st x, store_wf st → (answer c now st).2 = Ok x → Q x) → quiet (call c) Q.
Proof.
  intros Hc HQ w Hwf r' w' (st & now & st' & r & Ho & Ha & st'' & Ho' & -> & ->).
  pose proof (read_frame _ c now st Hc) as Hf. rewrite Ha in Hf. cbn in Hf. subst st'. cbn in Ho'.
  assert (Hst : store_wf st) by by eapply reach_wf.
  split; [split; cbn; [by eapply reach_wf|by etrans|done]|].
  split; [by destruct r|]. intros x Hx. apply (HQ now st); [done|]. rewrite Ha. cbn.
  by destruct r as [x'|e| |]; cbn in Hx; simplify_eq.
Qed.

Lemma quiet_bind {A B} (m : Service A) (f : A → Service B) Q Q' :
  quiet m Q → (∀ a, Q a → quiet (f a) Q') → quiet (m ≫= f) Q'.
Proof.
  intros Hm Hf w Hwf. apply wp_bind. eapply wp_mono; [by apply Hm|].
  intros r w1 (Hun & Hu & HQ).
  assert (Hdone : ∀ r' : Outcome ServiceError B, unobserved r' → (∀ b, r' ≠ Ok b) →
    wp (Done r') w1 (λ r w', untouched w w' ∧ unobserved r ∧ ∀ a, r = Ok a → Q' a)).
  { intros r' Hr' Hno. eapply wp_mono; [apply (quiet_done r' Q'); [done| |apply Hun]|].
    - intros b Hb. by destruct (Hno b).
    - intros r2 w2 (Hun2 & Hu2 & HQ2). split; [by eapply untouched_trans|done]. }
  destruct r as [a|e| |]; [|by apply Hdone..].
  eapply wp_mono; [apply (Hf a); [by apply HQ|apply Hun]|].
  intros r2 w2 (Hun2 & Hu2 & HQ2). split; [by eapply untouched_trans|done].
Qed.

(** ** Programs that take effect at one instant *)

(** [R a st1 st2 notified] relates the result to the store just before and just
    after that instant. *)
Record effected {A} (R : A → StoreState → StoreState → bool → Prop) (a : A) (w w' : World)
  : Prop := {
  effected_wf : store_wf (w_store w');
  effected_at : ∃ st1 st2 notified, rtc others (w_store w) st1 ∧ R a st1 st2 notified ∧
    rtc others st2 (w_store w') ∧
    w_generation w' = if notified : bool then bump_generation (w_generation w) else w_generation w;
}.

Definition atomic {A} (m : Service A) (R : A → StoreState → StoreState → bool → Prop) : Prop := ∀ w,
  store_wf (w_store w) →
  wp m w (λ r w', unobserved r ∧
    match r with Ok a => effected R a w w' | _ => untouched w w' end).

Lemma untouched_effected {A} R (a : A) w w1 w' :
  untouched w w1 → effected R a w1 w' → effected R a w w'.
Proof.
  intros [_ Ho Hg] [Hwf (st1 & st2 & b & Ho1 & HR & Ho2 & Hb)]. split; [done|].
  exists st1, st2, b. rewrite <-Hg. split_and!; [by etrans|done..].
Qed.

Lemma atomic_bind {A B} (m : Service A) (f : A → Service B) Q R :
  quiet m Q → (∀ a, Q a → atomic (f a) R) → atomic (m ≫= f) R.
Proof.
  intros Hm Hf w Hwf. apply wp_bind. eapply wp_mono; [by apply Hm|].
  intros r w1 (Hun & Hu & HQ).
  assert (Hdone : ∀ r' : Outcome ServiceError B, unobserved r' → (∀ b, r' ≠ Ok b) →
    wp (Done r') w1 (λ r w', unobserved r ∧
      match r with Ok a => effected R a w w' | _ => untouched w w' end)).
  { intros r' Hr' Hno r2 w2 (st & Ho & -> & ->). split; [done|].
    assert (untouched w (mkWorld st (w_generation w1))).
    { eapply untouched_trans; [exact Hun|]. apply untouched_reach; [apply Hun|done]. }
    destruct r'; [by edestruct Hno|done..]. }
  destruct r as [a|e| |]; [|by apply Hdone..].
  eapply wp_mono; [apply (Hf a); [by apply HQ|apply Hun]|].
  intros r2 w2 (Hu2 & Hr2). split; [done|].
  destruct r2; [by eapply untouched_effected|by eapply untouched_trans..].
Qed.

Lemma atomic_mono {A} (m : Service A) (R R' : A → StoreState → StoreState → bool → Prop) :
  atomic m R → (∀ a st1 st2 b, R a st1 st2 b → R' a st1 st2 b) → atomic m R'.
Proof.
  intros Hm HR w Hwf. eapply wp_mono; [by apply Hm|]. intros r w' [Hu Hr]. split; [done|].
  destruct r; [|done..]. destruct Hr as [Hwf' (st1 & st2 & b & Ho1 & Hat & Ho2 & Hb)].
  split; [done|]. exists st1, st2, b. auto.
Qed.

(** A call that is refused or takes place, after which the program only answers. *)
Lemma atomic_call {X A} (c : StoreCall X) (k : X → Service A)
    (R : A → StoreState → StoreState → bool → Prop) (notified : bool) :
  (∀ now st, store_wf st → refused st (answer c now st) ∨
     ∃ st' x a, answer c now st = (st', Ok x) ∧ R a st st' notified ∧
       ∀ w, wp (k x) w (λ r w', r = Ok a ∧ rtc others (w_store w) (w_store w') ∧
         w_generation w' = if notified then bump_generation (w_generation w) else w_generation w)) →
  atomic (call c ≫= k) R.
Proof.
  intros Hc w Hwf. apply wp_bind. intros r w1 (st & now & st' & r0 & Ho & Ha & st'' & Ho' & -> & ->).
  assert (Hst : store_wf st) by by eapply reach_wf.
  pose proof (answer_wf _ c now st Hst) as Hst'. cbn in Ho'.
  destruct (Hc now st Hst) as [[e He]|(st1 & x & a & Hx & HR & Hk)].
  - rewrite He in Ha. injection Ha as <- <-. cbn. intros r2 w2 (st2 & Ho2 & -> & ->). cbn in *.
    split; [done|]. split; cbn; [|by do 2 (etrans; [eassumption|])|done].
    eapply reach_wf; [|exact Hst]. by etrans.
  - rewrite Hx in Ha, Hst'. injection Ha as <- <-. cbn in *.
    eapply wp_mono; [apply Hk|]. cbn. intros r2 w2 (-> & Ho2 & Hg). split; [done|].
    split; [eapply reach_wf; [|exact Hst']; by etrans|].
    exists st, st1, notified. split_and!; [done..|by etrans|done].
Qed.

Lemma quiet_atomic {A} (m : Service A) Q (R : A → StoreState → StoreState → bool → Prop) :
  quiet m Q → (∀ a st, Q a → R a st st false) → atomic m R.
Proof.
  intros Hm HR w Hwf. eapply wp_mono; [by apply Hm|]. intros r w' (Hun & Hu & HQ). split; [done|].
  destruct r as [a|e| |]; [|done..]. destruct Hun as [Hwf' Ho Hg]. split; [done|].
  exists (w_store w), (w_store w), false. split_and!; [constructor|by apply HR, HQ|done|done].
Qed.

(** ** Programs that keep the store well-formed *)

Definition sound {A} (m : Service A) (Q : A → Prop) : Prop := ∀ w,
  store_wf (w_store w) →
  wp m w (λ r w', store_wf (w_store w') ∧ unobserved r ∧ ∀ a, r = Ok a → Q a).

Lemma sound_bind {A B} (m : Service A) (f : A → Service B) Q Q' :
  sound m Q → (∀ a, Q a → sound (f a) Q') → sound (m ≫= f) Q'.
Proof.
  intros Hm Hf w Hwf. apply wp_bind. eapply wp_mono; [by apply Hm|].
  intros [a|e| |] w1 (Hwf1 & Hu & HQ); [by apply Hf; [apply HQ|]|..].
  all: intros r w' (st & Ho & -> & ->); split; [by eapply reach_wf|done].
Qed.

Lemma quiet_sound {A} (m : Service A) Q : quiet m Q → sound m Q.
Proof.
  intros Hm w Hwf. eapply wp_mono; [by apply Hm|]. intros r w' (Hun & Hu & HQ).
  split; [apply Hun|done].
Qed.

Lemma atomic_sound {A} (m : Service A) R : atomic m R → sound m (λ _, True).
Proof.
  intros Hm w Hwf. eapply wp_mono; [by apply Hm|]. intros r w' [Hu Hr]. split; [|done].
  destruct r; apply Hr.
Qed.

Lemma sound_notify : sound notify_mutation (λ _, True).
Proof.
  intros w Hwf r w' (st & Ho & st' & Ho' & -> & ->). cbn in *. split; [|done].
  eapply reach_wf; [|exact Hwf]. by etrans.
Qed.

(** A call that is refused or answers with [Q]. *)
Lemma sound_call {X} (c : StoreCall X) (Q : X → Prop) :
  (∀ now st x, store_wf st → (answer c now st).2 = Ok x → Q x) → sound (call c) Q.
Proof.
  intros HQ w Hwf r w' (st & now & st' & r0 & Ho & Ha & st'' & Ho' & -> & ->). cbn in *.
  assert (Hst : store_wf st) by by eapply reach_wf.
  pose proof (answer_wf _ c now st Hst) as Hst'. rewrite Ha in Hst'.
  split; [by eapply reach_wf|]. split; [by destruct r0|]. intros x Hx. apply (HQ now st); [done|].
  rewrite Ha. cbn. destruct r0; cbn in Hx; congruence.
Qed.
End logic.
