(* ===== verification/ServiceAtomic.v ===== *)
(** * ServiceAtomic: each operation of the service takes effect at one instant

    Create, update, pause, resume and delete read the store, prepare a write
    and commit it.  Whatever the store's other users do meanwhile, the
    operation either fails and leaves no trace or its transition takes place at
    one instant, on the schedule it had read. *)

From stdpp Require Import gmap.
From S2P Require Import Prelude Text Chrono ScheduleTypes Trigger Targets Millis Authority.
From S2P Require Import ScheduleLifecycle OccurrenceLifecycle Rows RowFacts ScheduleRows.
From S2P Require Import StoreTypes StoreContract Planner PlannedRows Programs Service ServiceFacts ServiceLogic.

Section atomic.
Context `{RowCodec} {HL : ChronoLaws} {BP : BuildProfile} `{!ScheduleStore} `{!LawfulStore}.

#[local] Existing Instances service_ret service_bind.

Context (others : StoreState → StoreState → Prop).
Context (others_wf : ∀ st st', others st st' → store_wf st → store_wf st').

Notation quiet := (quiet others).
Notation atomic := (atomic others).

(** ** What took place *)

(** The stored schedule is the one that was read, by its bytes. *)
Definition still (base : option Schedule) (stored : option Schedule) : Prop :=
  match base with
  | None => stored = None
  | Some cur => ∃ cur', stored = Some cur' ∧ sched_id cur' = sched_id cur ∧
      schedule_bytes cur' = schedule_bytes cur
  end.

(** What a plan of the schedule inserts; a pause or a deletion plans nothing. *)
Definition planned_by (amb : Ambient) (s : Schedule) (planned : list OccurrenceWrite) : Prop :=
  planned = [] ∨ ∃ store_now existing p,
    plan_schedule_occurrences_from_snapshot (fresh_occurrence_id amb) (plan_now amb) s store_now
      existing = Ok p ∧ planned = planned_occurrences p.

(** The transition [w0] of [base] takes place between [st1] and [st2], with the
    rows it plans and the rows it supersedes, and leaves [s]. *)
Record applied_at (amb : Ambient) (base : option Schedule) (w0 : ScheduleWrite) (s : Schedule)
    (st1 st2 : StoreState) : Prop := {
  at_id : sched_id s = sched_id (sw_schedule w0);
  at_current : still base (stored_schedules st1 !! sched_id s);
  at_stored : stored_schedules st2 !! sched_id s = Some s;
  at_schedule : ∃ w, with_planning w0 w ∧ s = with_acks (ack_ids s) (sw_schedule w);
  at_rows : ∃ planned, planned_by amb (sw_schedule w0) planned ∧ Forall (planned_for s) planned ∧
    stored_rows st2 =
      match sw_pending_supersession w0 with
      | None => insert_rows planned (stored_rows st1)
      | Some p => swept_form (sched_id s) p <$> insert_rows planned (stored_rows st1)
      end;
}.

(** The precondition of a transition names the schedule it was applied to. *)
Definition guards (base : option Schedule) (w : ScheduleWrite) : Prop :=
  match base with
  | None => sw_precondition w = Absent (sched_id (sw_schedule w))
  | Some cur => sw_precondition w = Matches (sched_id cur) (schedule_bytes cur) ∧
      sched_id (sw_schedule w) = sched_id cur
  end.

Lemma fires_schedule_id i t s s' es :
  Fires i t s s' es → ScheduleLifecycle.schedule_id s' =
    match i with ScheduleLifecycle.I_Create id _ _ _ _ _ _ _ => id
    | _ => ScheduleLifecycle.schedule_id s end.
Proof. intros HF. fires_cases HF; repeat (case_match; cbn); done. Qed.

Lemma precondition_matches s p :
  schedule_precondition s = Ok p → p = Matches (sched_id s) (schedule_bytes s).
Proof.
  unfold schedule_precondition, schedule_write_fingerprint.
  intros (f & Hf & [= <-])%Outcome_bind_Ok. by apply Outcome_bind_Ok in Hf as ([] & _ & [= <-]).
Qed.

Definition creates (i : ScheduleInput) : bool :=
  match i with ScheduleLifecycle.I_Create _ _ _ _ _ _ _ _ => true | _ => false end.

Lemma run_keeps_id s i es dsl :
  run_schedule_dsl s i = Ok (es, dsl) → creates i = false →
  ScheduleLifecycle.schedule_id dsl = sched_id s.
Proof.
  unfold run_schedule_dsl. intros ([] & _ & Hrun)%Outcome_bind_Ok Hi.
  apply run_dsl_fires in Hrun as [_ (t & HF)]. rewrite (fires_schedule_id _ _ _ _ _ HF).
  by destruct i.
Qed.

Lemma drive_keeps_id s i es s' :
  drive_schedule s i = Ok (s', es) → creates i = false → sched_id s' = sched_id s.
Proof.
  unfold drive_schedule. intros ([es0 dsl] & Hrun & Hw)%Outcome_bind_Ok Hi.
  apply Outcome_bind_Ok in Hw as (s1 & Hw & Hm). apply Outcome_bind_Ok in Hm as (? & _ & [= <- _]).
  apply Outcome_bind_Ok in Hw as (? & _ & [= <-]). by eapply run_keeps_id.
Qed.

Lemma update_keeps_id s request at_utc now s' bumped es :
  apply_update s request at_utc now = Ok (s', bumped, es) → sched_id s' = sched_id s.
Proof.
  unfold apply_update. intros (? & _ & Hu)%Outcome_bind_Ok. cbv zeta in Hu.
  destruct (revision_affecting _ _ _ _ _ _).
  - apply Outcome_bind_Ok in Hu as (ms & _ & Hu). apply Outcome_bind_Ok in Hu as ([es0 dsl] & Hrun & Hu).
    apply Outcome_bind_Ok in Hu as (? & _ & Hu). apply Outcome_bind_Ok in Hu as (s1 & Hw & Hu).
    apply Outcome_bind_Ok in Hu as (? & _ & [= <- _ _]). apply Outcome_bind_Ok in Hw as (? & _ & [= <-]).
    by apply run_keeps_id in Hrun.
  - apply Outcome_bind_Ok in Hu as ([s1 es0] & Hdr & [= <- _ _]).
    destruct (_ || _); [by apply drive_keeps_id in Hdr|]. by injection Hdr as <- _.
Qed.

Lemma create_guards fresh now request w :
  schedule_apply fresh now None (Create request) = Ok w → guards None w.
Proof.
  cbn [schedule_apply]. unfold create_schedule_via_dsl. intros ([es dsl] & _ & Hw)%Outcome_bind_Ok.
  do 3 apply Outcome_bind_Ok in Hw as (? & _ & Hw). by injection Hw as <-.
Qed.

Lemma request_guards fresh now cur request w :
  schedule_apply fresh now (Some cur) request = Ok w →
  match request with Create _ => false | _ => true end = true → guards (Some cur) w.
Proof.
  destruct request as [request|request at_utc|cursor ordinal|target|at_utc|at_utc|at_utc|ack];
    intros Hw Hr; try discriminate Hr; clear Hr; cbn [schedule_apply ok_or mbind Outcome_bind] in Hw.
  all: apply Outcome_bind_Ok in Hw as (p & ->%precondition_matches & Hw).
  - apply Outcome_bind_Ok in Hw as ([[s' bumped] es] & Hu%update_keeps_id & [= <-]). by split.
  - apply Outcome_bind_Ok in Hw as (ms & _ & Hw).
    apply Outcome_bind_Ok in Hw as ([s' es] & Hd%drive_keeps_id & [= <-]); by split.
  - apply Outcome_bind_Ok in Hw as ([es dsl] & Hd%run_keeps_id & Hw); [|done].
    apply Outcome_bind_Ok in Hw as (? & _ & Hw). apply Outcome_bind_Ok in Hw as (s1 & Hs1 & Hw).
    apply Outcome_bind_Ok in Hw as (? & _ & [= <-]). apply Outcome_bind_Ok in Hs1 as (? & _ & [= <-]).
    by split.
  - apply Outcome_bind_Ok in Hw as (ms & _ & Hw).
    apply Outcome_bind_Ok in Hw as ([s' es] & Hd%drive_keeps_id & [= <-]); by split.
  - apply Outcome_bind_Ok in Hw as (ms & _ & Hw).
    apply Outcome_bind_Ok in Hw as ([s' es] & Hd%drive_keeps_id & [= <-]); by split.
  - apply Outcome_bind_Ok in Hw as (ms & _ & Hw).
    apply Outcome_bind_Ok in Hw as ([s' es] & Hd%drive_keeps_id & [= <-]); by split.
  - apply Outcome_bind_Ok in Hw as (? & _ & Hw).
    apply Outcome_bind_Ok in Hw as ([s' es] & Hd%drive_keeps_id & [= <-]); by split.
Qed.

Lemma guarded_still base w st :
  guards base w →
  admits (sw_precondition w) (schedule_key <$> stored_schedules st !! sched_id (sw_schedule w)) →
  still base (stored_schedules st !! sched_id (sw_schedule w)).
Proof.
  unfold guards, still, admits. destruct base as [cur|].
  - intros [-> Hid]. destruct (stored_schedules st !! _) as [cur'|]; cbn; [|done].
    unfold schedule_key. intros (? & Hk%expect_Ok%bool_decide_eq_true & Hc)%Outcome_bind_Ok.
    apply Outcome_bind_Ok in Hc as (f & Hf & Hc%expect_Ok%bool_decide_eq_true).
    exists cur'. split; [done|]. split; [done|]. subst f.
    unfold schedule_write_fingerprint in Hf. by apply Outcome_bind_Ok in Hf as ([] & _ & [= ->]).
  - intros ->. by destruct (stored_schedules st !! _).
Qed.

(** ** Planning and committing *)

Lemma quiet_plan amb s store_now :
  quiet (plan_schedule_occurrences amb s store_now) (λ p,
    planned_by amb s (planned_occurrences p) ∧ Forall (planned_for s) (planned_occurrences p) ∧
    match planned_mutator p with
    | None => planned_occurrences p = []
    | Some f => ∃ cursor ms ordinal, recorded_window s cursor ms ordinal f
    end).
Proof.
  apply (quiet_bind others others_wf _ _ (λ _, True)); [by apply (quiet_read others others_wf)|]. intros existing _.
  apply (quiet_require others others_wf); [done..|]. intros p Hp. split; [right; eauto|].
  by eapply plan_for.
Qed.

Lemma absorb_planned_with w0 planned w :
  match planned_mutator planned with
  | None => planned_occurrences planned = []
  | Some f => ∃ cursor ms ordinal, recorded_window (sw_schedule w0) cursor ms ordinal f
  end → absorb_planned w0 planned = Ok w → with_planning w0 w.
Proof.
  unfold absorb_planned. destruct (planned_mutator planned) as [f|].
  - intros (cursor & ms & ordinal & Hr). by eapply absorbed_planning.
  - intros _ [= <-]. constructor.
Qed.

(** Notify, then answer. *)
Lemma wp_notified (o : Outcome ServiceError Schedule) s w :
  o = Ok s →
  wp others (_ ← notify_mutation; require id o) w (λ r w', r = Ok s ∧
    rtc others (w_store w) (w_store w') ∧ w_generation w' = bump_generation (w_generation w)).
Proof.
  intros -> r w' (st & Ho & st' & Ho' & -> & ->). cbn in *. split_and!; [done|by etrans|done].
Qed.

Lemma planned_for_frame w0 w s planned :
  with_planning w0 w → s = with_acks (ack_ids s) (sw_schedule w) →
  Forall (planned_for (sw_schedule w0)) planned → Forall (planned_for s) planned.
Proof.
  intros (Hid & Hrev & _)%planning_frame Hs. assert (sched_id s = sched_id (sw_schedule w0) ∧
    sched_revision s = sched_revision (sw_schedule w0)) as [E1 E2] by by rewrite Hs.
  intros Hf. eapply Forall_impl; [exact Hf|]. intros ow [Hv Hn Hsid Hr Hp].
  split; [done..|congruence|congruence|done].
Qed.

(** What a committed write leaves is the transition it was made for. *)
Lemma committed_applied amb base w0 w planned st1 st2 mc :
  planned_by amb (sw_schedule w0) planned →
  guards base w0 → with_planning w0 w → Forall (planned_for (sw_schedule w0)) planned →
  admits (sw_precondition w) (schedule_key <$> stored_schedules st1 !! sched_id (sw_schedule w)) →
  committed w (insert_rows planned (stored_rows st1))
    (stored_schedules st2 !! sched_id (sw_schedule w)) (stored_rows st2) mc →
  applied_at amb base w0 (mc_schedule mc) st1 st2.
Proof.
  intros Hby Hg Hw Hplanned Hcur [[_ Hs _] Hstored Hrows _].
  destruct (planning_frame _ _ Hw) as (Hid & _ & _ & Hpre & Hp).
  assert (Hsid : sched_id (mc_schedule mc) = sched_id (sw_schedule w0)) by by rewrite Hs, <-Hid.
  split; [done|..]; rewrite ?Hsid.
  - rewrite Hpre, Hid in Hcur. by apply guarded_still.
  - by rewrite <-Hid.
  - eauto.
  - exists planned. split; [done|]. split; [by eapply planned_for_frame|]. by rewrite Hrows, Hp, Hid.
Qed.

Lemma atomic_commit amb base w0 w planned c :
  planned_by amb (sw_schedule w0) planned →
  guards base w0 → announces w0 → effects_hold w → with_planning w0 w →
  Forall (planned_for (sw_schedule w0)) planned → commits_mutation w planned c →
  atomic (committed ← call c;
          _ ← notify_mutation; require id (observe_schedule_commit committed (from_mutator w)))
    (λ s st1 st2 notified, notified = true ∧ applied_at amb base w0 s st1 st2).
Proof.
  intros Hby Hg Ha Hh Hw Hplanned Hc. pose proof (planning_announces _ _ Hw Ha) as Haw.
  apply (atomic_call others others_wf _ _ _ true). intros now st Hst.
  destruct (mutation_commits w planned _ now st Hst Haw (planned_for_valid _ _ Hplanned) Hc)
    as [Href|(st' & mc & Hans & Hcur & Hcm)]; [by left|right].
  exists st', mc, (mc_schedule mc). split; [done|]. split; [split; [done|]|].
  - by eapply committed_applied.
  - intros w1. apply wp_notified, observe_commit_ok; [done..|by apply Hcm].
Qed.

Lemma atomic_write amb base w0 :
  guards base w0 → effects_hold w0 →
  atomic (committed ← call (CommitScheduleWrite w0);
          _ ← notify_mutation; require id (observe_schedule_transition committed (from_mutator w0)))
    (λ s st1 st2 notified, notified = true ∧ applied_at amb base w0 s st1 st2).
Proof.
  intros Hg Hh. apply (atomic_call others others_wf _ _ _ true). intros now st Hst.
  destruct (write_commits w0 now st Hst)
    as [Href|(st' & Hans & Hcur & Hp & Hs & Hrows)]; [by left|right].
  eexists st', _, (sw_schedule w0). split; [exact Hans|]. split; [split; [done|]|].
  - split; [done|by apply guarded_still|done| |].
    + exists w0. split; [constructor|apply with_acks_same].
    + exists []. rewrite Hp. by split; [left|].
  - intros w1. eapply wp_notified, observe_transition_ok, with_acks_same. done.
Qed.

Lemma atomic_commit_planned amb base w0 store_now :
  guards base w0 → announces w0 → effects_hold w0 →
  Forall (λ e, window_effect e = false) (sw_effects w0) →
  atomic (commit_planned amb w0 store_now)
    (λ s st1 st2 notified, notified = true ∧ applied_at amb base w0 s st1 st2).
Proof.
  intros Hg Ha Hh Hno. unfold commit_planned.
  eapply (atomic_bind others others_wf); [apply quiet_plan|]. intros planned (Hby & Hrows & Hp).
  apply (atomic_bind others others_wf _ _ (with_planning w0)).
  { apply (quiet_require others others_wf); [done|]. intros w. by apply absorb_planned_with. }
  intros w Hw. eapply atomic_commit; [done..|by eapply planning_effects_hold|done|done|constructor].
Qed.

(** ** The operations *)

Inductive service_op :=
| OpCreate (request : CreateScheduleRequest)
| OpUpdate (id : ScheduleId) (request : UpdateScheduleRequest)
| OpPause (id : ScheduleId)
| OpResume (id : ScheduleId)
| OpDelete (id : ScheduleId).

Definition op_program (svc : ScheduleService) (amb : Ambient) (op : service_op) : Service Schedule :=
  match op with
  | OpCreate request => create svc amb request
  | OpUpdate id request => update svc amb id request
  | OpPause id => pause amb id
  | OpResume id => resume amb id
  | OpDelete id => delete_schedule amb id
  end.

(** The request an operation makes of the schedule it read, at a store time. *)
Definition op_request (op : service_op) (at_utc : DateTime) : ScheduleRequest :=
  match op with
  | OpCreate request => Create request
  | OpUpdate _ request => Update request at_utc
  | OpPause _ => Pause at_utc
  | OpResume _ => Resume at_utc
  | OpDelete _ => Delete at_utc
  end.

Definition op_base (op : service_op) (base : option Schedule) : Prop :=
  match op, base with
  | OpCreate _, None => True
  | (OpUpdate id _ | OpPause id | OpResume id | OpDelete id), Some cur =>
      sched_id cur = id ∧ schedule_row_ok cur
  | _, _ => False
  end.

Definition op_commissions (op : service_op) : bool :=
  match op with OpCreate _ | OpUpdate _ _ => true | _ => false end.

(** The transition of the request, with the agent who commissioned it. *)
Definition op_write (svc : ScheduleService) (amb : Ambient) (op : service_op)
    (base : option Schedule) (at_utc : DateTime) (w0 : ScheduleWrite) : Prop :=
  ∃ w, schedule_apply (fresh_schedule_id amb) (apply_now amb) base (op_request op at_utc) = Ok w ∧
    w0 = if op_commissions op then record_commissioning_agent (commissioned_by svc) w else w.

Definition op_effect (svc : ScheduleService) (amb : Ambient) (op : service_op) (s : Schedule)
    (st1 st2 : StoreState) (notified : bool) : Prop :=
  notified = true ∧ ∃ base at_utc w0, op_base op base ∧ op_write svc amb op base at_utc w0 ∧
    applied_at amb base w0 s st1 st2.

Lemma quiet_get id : quiet (get id) (λ s, sched_id s = id ∧ schedule_row_ok s).
Proof.
  unfold get. apply (quiet_bind others others_wf _ _ (λ so, ∀ s, so = Some s → sched_id s = id ∧ schedule_row_ok s)).
  - apply (quiet_read others others_wf); [done..|]. intros now st so Hst ->%get_schedule_answers s Hs.
    by destruct (stored_schedule_valid _ _ _ Hst Hs).
  - intros [s|] Hs; [by apply (quiet_ret others others_wf), Hs|by apply (quiet_fault others others_wf)].
Qed.

Lemma quiet_time : quiet (call GetStoreTime) (λ _, True).
Proof. by apply (quiet_read others others_wf). Qed.

Lemma quiet_probe svc target :
  quiet (require id (refuse_undeliverable_identity_target svc target)) (λ _, True).
Proof.
  apply (quiet_require others others_wf); [|done]. intros e He. cbn. unfold refuse_undeliverable_identity_target in He.
  destruct target as [|binding| |]; try discriminate He.
  unfold identity_target_probe in He. destruct (identity_target_probes svc) as [|p ps]; [discriminate He|].
  destruct (head (omap id (p :: ps))) as [probe|]; cbn in He; [|by injection He as <-].
  destruct (probe binding) as [[|detail]| | |]; cbn in He; try discriminate He; by injection He as <-.
Qed.

(** What a request's write satisfies. *)
Record request_write (w : ScheduleWrite) : Prop := {
  write_announces : announces w;
  write_holds : effects_hold w;
  write_no_window : Forall (λ e, window_effect e = false) (sw_effects w);
}.

Lemma request_writes fresh now so request w :
  schedule_apply fresh now so request = Ok w → window_request request = false → request_write w.
Proof.
  intros Hw Hr. pose proof (schedule_apply_requested _ _ _ _ _ Hw) as Hreq.
  split; [by apply requested_announces|by apply requested_effects_hold|by eapply request_no_window].
Qed.

Lemma agent_writes agent w : request_write w → request_write (record_commissioning_agent agent w).
Proof. intros [Ha Hh Hn]. split; [by apply agent_announces|done..]. Qed.

Lemma agent_guards agent base w : guards base w → guards base (record_commissioning_agent agent w).
Proof. by destruct base. Qed.

Lemma atomic_planned_op svc amb op base at_utc w0 store_now :
  op_base op base → op_write svc amb op base at_utc w0 → guards base w0 → request_write w0 →
  atomic (commit_planned amb w0 store_now) (op_effect svc amb op).
Proof.
  intros Hb Hw Hg [Ha Hh Hn]. eapply atomic_mono; [by apply (atomic_commit_planned amb base)|].
  intros s st1 st2 b [-> Hat]. split; [done|]. by exists base, at_utc, w0.
Qed.

Lemma quiet_apply amb so request :
  quiet (require TransitionInvalid (schedule_apply (fresh_schedule_id amb) (apply_now amb) so request))
    (λ w, schedule_apply (fresh_schedule_id amb) (apply_now amb) so request = Ok w).
Proof. by apply (quiet_require others others_wf). Qed.

Ltac step lem := eapply (atomic_bind others others_wf); [apply lem|].
Ltac check_request := eapply (atomic_bind others others_wf);
  [apply (quiet_require others others_wf _ _ (λ _, True)); done|].

Lemma atomic_create svc amb request : atomic (create svc amb request) (op_effect svc amb (OpCreate request)).
Proof.
  unfold create. check_request. intros _ _. step quiet_probe. intros _ _. step quiet_apply.
  intros w Hw. cbv beta in Hw. step quiet_time. intros store_now _.
  apply (atomic_planned_op svc amb _ None store_now); [done|by exists w| |].
  - by eapply agent_guards, create_guards.
  - by eapply agent_writes, request_writes.
Qed.

Lemma atomic_update svc amb id request :
  atomic (update svc amb id request) (op_effect svc amb (OpUpdate id request)).
Proof.
  unfold update. eapply (atomic_bind others others_wf _ _ (λ _, True)).
  { destruct (update_target request) as [target|]; [|by apply (quiet_ret others others_wf)].
    eapply (quiet_bind others others_wf); [|intros _ _; apply quiet_probe].
    by apply (quiet_require others others_wf _ _ (λ _, True)). }
  intros _ _. step quiet_get. intros cur [Hid Hok]. step quiet_time. intros store_now _.
  step quiet_apply. intros w Hw. cbv beta in Hw.
  apply (atomic_planned_op svc amb _ (Some cur) store_now); [done|by exists w| |].
  - by eapply agent_guards, request_guards.
  - by eapply agent_writes, request_writes.
Qed.

Lemma atomic_resume svc amb id : atomic (resume amb id) (op_effect svc amb (OpResume id)).
Proof.
  unfold resume. step quiet_get. intros cur [Hid Hok]. step quiet_time. intros at_utc _.
  step quiet_apply. intros w Hw. cbv beta in Hw. cbv beta in Hw. step quiet_time. intros store_now _.
  apply (atomic_planned_op svc amb _ (Some cur) at_utc); [done|by exists w| |].
  - by eapply request_guards.
  - by eapply request_writes.
Qed.

Lemma atomic_pause svc amb id : atomic (pause amb id) (op_effect svc amb (OpPause id)).
Proof.
  unfold pause. step quiet_get. intros cur [Hid Hok]. step quiet_time. intros at_utc _.
  step quiet_apply. intros w Hw. cbv beta in Hw.
  eapply atomic_mono; [apply (atomic_write amb (Some cur))|].
  - by eapply request_guards.
  - by eapply request_writes.
  - intros s st1 st2 b [-> Hat]. split; [done|]. exists (Some cur), at_utc, w. by split_and!; [|exists w|].
Qed.

Lemma atomic_delete svc amb id : atomic (delete_schedule amb id) (op_effect svc amb (OpDelete id)).
Proof.
  unfold delete_schedule. step quiet_get. intros cur [Hid Hok]. step quiet_time. intros at_utc _.
  step quiet_apply. intros w Hw. cbv beta in Hw. pose proof (request_writes _ _ _ _ _ Hw eq_refl) as [Ha Hh _].
  eapply atomic_mono; [eapply (atomic_commit amb (Some cur) w w [])|].
  - by left.
  - by eapply request_guards.
  - done.
  - done.
  - constructor.
  - constructor.
  - constructor.
  - intros s st1 st2 b [-> Hat]. split; [done|]. exists (Some cur), at_utc, w. by split_and!; [|exists w|].
Qed.

Lemma op_atomic svc amb op : atomic (op_program svc amb op) (op_effect svc amb op).
Proof.
  destruct op; [apply atomic_create|apply atomic_update|apply atomic_pause|apply atomic_resume|
    apply atomic_delete].
Qed.
End atomic.
