(* ===== verification/ServiceRefill.v ===== *)
(** * ServiceRefill: refills and target bindings of the service

    Refilling a schedule, from its own reads or from a candidate of the store's
    page, also takes effect at one instant; so do the target updates of an
    occurrence.  Binding a materialized session writes a schedule and its
    pending rows one after the other, which is not one instant; it keeps the
    store well-formed and contradicts no observation. *)

From stdpp Require Import gmap.
From S2P Require Import Prelude Text Chrono ScheduleTypes Trigger Targets Millis Authority.
From S2P Require Import ScheduleLifecycle OccurrenceLifecycle Rows RowFacts ScheduleRows.
From S2P Require Import StoreTypes StoreContract Planner PlannedRows Programs Service ServiceFacts ServiceLogic.
From S2P Require Import ServiceAtomic.

Section refill.
Context `{RowCodec} {HL : ChronoLaws} {BP : BuildProfile} `{!ScheduleStore} `{!LawfulStore}.

#[local] Existing Instances service_ret service_bind.

Context (others : StoreState → StoreState → Prop).
Context (others_wf : ∀ st st', others st st' → store_wf st → store_wf st').

Notation quiet := (quiet others).
Notation atomic := (atomic others).
Notation sound := (sound others).

(** ** Refills *)

(** Planned rows in the store, with the window that records them; or nothing. *)
Definition refilled (amb : Ambient) (s : Schedule) (rows : list Occurrence) (st1 st2 : StoreState) : Prop :=
  (rows = [] ∧ stored_schedules st2 = stored_schedules st1 ∧ stored_rows st2 = stored_rows st1) ∨
  ∃ planned f s', rows = ow_occurrence <$> planned ∧ planned_by amb s planned ∧
    Forall (planned_for s) planned ∧
    (∃ cursor ms ordinal, recorded_window s cursor ms ordinal f) ∧
    s' = with_acks (ack_ids s') (sw_schedule f) ∧
    still (Some s) (stored_schedules st1 !! sched_id s) ∧
    stored_schedules st2 !! sched_id s = Some s' ∧
    stored_rows st2 = insert_rows planned (stored_rows st1).

Lemma recorded_write s cursor ms ordinal f :
  recorded_window s cursor ms ordinal f →
  guards (Some s) f ∧ announces f ∧ effects_hold f ∧ sched_id (sw_schedule f) = sched_id s ∧
  sw_pending_supersession f = None.
Proof.
  intros Hr. destruct (recorded_cursor _ _ _ _ _ Hr) as [dt Hdt].
  destruct Hr as [_ _ Hact Hs He [_ Hp] Hpre _]. unfold guards, effects_hold, announces.
  rewrite Hs, He, Hp. split_and!; [done|done|done| |done|done].
  unfold sched_phase, sched_revision in *. repeat constructor; cbn; unfold sched_phase, sched_revision; cbn.
  - by rewrite !bool_decide_eq_true_2.
  - unfold sched_planning_cursor. cbn. rewrite Hdt. cbn. by rewrite Z.eqb_refl, bool_decide_eq_true_2.
Qed.

(** A refill's commit, and what the program does with its answer. *)
Lemma atomic_refill amb s planned f next (k : Schedule → Service (list Occurrence)) notified :
  planned_by amb s planned → Forall (planned_for s) planned →
  (∃ cursor ms ordinal, recorded_window s cursor ms ordinal f) →
  (∀ s' w, wp others (k s') w (λ r w', r = Ok (ow_occurrence <$> planned) ∧
     rtc others (w_store w) (w_store w') ∧
     w_generation w' = if notified : bool then bump_generation (w_generation w) else w_generation w)) →
  atomic (committed ← call (CommitScheduleRefill f planned next);
          s' ← require id (observe_schedule_commit committed (from_mutator f)); k s')
    (λ rows st1 st2 _, refilled amb s rows st1 st2).
Proof.
  intros Hby Hplanned Hf Hk. pose proof Hf as (cursor & ms & ordinal & Hr).
  destruct (recorded_write _ _ _ _ _ Hr) as (Hg & Ha & Hh & Hid & Hp).
  apply (atomic_call others others_wf _ _ _ notified). intros now st Hst.
  destruct (mutation_commits f planned _ now st Hst Ha (planned_for_valid _ _ Hplanned)
    (commits_refill _ _ next)) as [Href|(st' & mc & Hans & Hcur & Hcm)]; [by left|right].
  exists st', mc, (ow_occurrence <$> planned). split; [done|]. split.
  - right. destruct Hcm as [[_ Hs _] Hstored Hrows _]. rewrite Hp in Hrows.
    exists planned, f, (mc_schedule mc). rewrite Hid in Hstored.
    split_and!; [done..| |done|done].
    rewrite <-Hid. by eapply guarded_still.
  - intros w. rewrite observe_commit_ok; [|done|done|by apply Hcm].
    apply wp_bind. intros r w1 (st1 & Ho & -> & ->). cbn.
    eapply wp_mono; [apply (Hk (mc_schedule mc))|]. cbn. intros r w' (-> & Ho' & Hgen).
    split_and!; [done|by etrans|done].
Qed.

Lemma atomic_refill_horizon amb id :
  atomic (refill_horizon amb id) (λ rows st1 st2 _, ∃ s, sched_id s = id ∧ refilled amb s rows st1 st2).
Proof.
  unfold refill_horizon. eapply (atomic_bind others others_wf); [by apply quiet_get|]. intros s [Hid _].
  eapply (atomic_bind others others_wf); [by apply quiet_time|]. intros now _.
  eapply (atomic_bind others others_wf); [by apply quiet_plan|]. intros p (Hby & Hrows & Hp).
  destruct (planned_mutator p) as [f|].
  - eapply atomic_mono.
    + apply (atomic_refill amb s (planned_occurrences p) f _
        (λ _, _ ← notify_mutation; mret (planned_rows_of p)) true); [done..|].
      intros s' w r w' (st & Ho & st' & Ho' & -> & ->). cbn in *. split_and!; [done|by etrans|done].
    + intros rows st1 st2 b Hr. by exists s.
  - eapply (quiet_atomic others _ (λ rows, rows = planned_rows_of p)); [by apply quiet_ret|].
    intros rows st ->. exists s. split; [done|]. left. unfold planned_rows_of. by rewrite Hp.
Qed.

Lemma atomic_refill_candidate amb candidate store_now :
  atomic (refill_candidate amb candidate store_now)
    (λ rows st1 st2 _, refilled amb (candidate_schedule candidate) rows st1 st2).
Proof.
  unfold refill_candidate. set (s := candidate_schedule candidate).
  eapply (atomic_bind others others_wf).
  { apply (quiet_require others others_wf _ _ (λ p, planned_by amb s (planned_occurrences p) ∧
      Forall (planned_for s) (planned_occurrences p) ∧
      match planned_mutator p with
      | None => planned_occurrences p = []
      | Some f => ∃ cursor ms ordinal, recorded_window s cursor ms ordinal f
      end)); [done|]. intros p Hp. split; [right; eauto|by eapply plan_for]. }
  intros p (Hby & Hrows & Hp). destruct (planned_mutator p) as [f|].
  - apply (atomic_refill amb s (planned_occurrences p) f _ (λ _, mret (planned_rows_of p)) false); [done..|].
    intros s' w r w' (st & Ho & -> & ->). done.
  - apply (atomic_call others others_wf _ _ _ false). intros now st Hst.
    destruct (deadline_commits (sched_id s) (sched_revision s) (candidate_refill_at_utc candidate)
      (planned_next_refill_at_utc p) now st Hst) as [Href|(st' & Hans & Hs & Hr)]; [by left|right].
    exists st', tt, (planned_rows_of p). split; [done|]. split.
    + left. unfold planned_rows_of. by rewrite Hp.
    + intros w r w' (st1 & Ho & -> & ->). done.
Qed.

(** ** Targets of occurrences *)

(** The row [o] takes the target, if the store still holds it. *)
Definition retargeted (o : Occurrence) (target : TargetBinding) (o' : Occurrence)
    (st1 st2 : StoreState) : Prop :=
  ∃ w, occurrence_apply o (SyncTargetSnapshot target) = Ok w ∧ o' = ow_occurrence w ∧
    admits (ow_precondition w) (occurrence_key <$> stored_rows st1 !! occ_id o') ∧
    stored_schedules st2 = stored_schedules st1 ∧
    stored_rows st2 = <[occ_id o' := o']> (stored_rows st1).

Lemma atomic_sync_occurrence o target :
  atomic (sync_occurrence o target)
    (λ o' st1 st2 notified, notified = true ∧ retargeted o target o' st1 st2).
Proof.
  unfold sync_occurrence. apply (atomic_bind others others_wf _ _
    (λ w, occurrence_apply o (SyncTargetSnapshot target) = Ok w)).
  { by apply (quiet_require others others_wf). }
  intros w Hw. destruct (synced_write _ _ _ Hw) as [Hv Hobs].
  apply (atomic_call others others_wf _ _ _ true). intros now st Hst.
  destruct (row_commits w now st Hst Hv) as [Href|(st' & Hans & Hcur & Hs & Hr)]; [by left|right].
  exists st', w, (ow_occurrence w). split; [done|]. split; [split; [done|]; by exists w|].
  rewrite Hobs. intros w1 r w' (st1 & Ho & st2 & Ho2 & -> & ->). cbn in *.
  split_and!; [done|by etrans|done].
Qed.

(** Either the occurrence is answered as it was, or it took the target. *)
Definition retargeted_or_same (o o' : Occurrence) (st1 st2 : StoreState) (notified : bool) : Prop :=
  (o' = o ∧ st2 = st1 ∧ notified = false) ∨
  (notified = true ∧ ∃ target, retargeted o target o' st1 st2).

Lemma atomic_same o : atomic (mret o) (retargeted_or_same o).
Proof.
  eapply (quiet_atomic others _ (λ o', o' = o)); [by apply quiet_ret|].
  intros o' st ->. by left.
Qed.

Lemma atomic_retarget o target : atomic (sync_occurrence o target) (retargeted_or_same o).
Proof.
  eapply atomic_mono; [apply atomic_sync_occurrence|]. intros o' st1 st2 b [-> Hr]. right. eauto.
Qed.

Lemma atomic_sync_target o : atomic (sync_occurrence_target_with_schedule o) (retargeted_or_same o).
Proof.
  unfold sync_occurrence_target_with_schedule.
  apply (atomic_bind others others_wf _ _ (λ _, True)); [by apply quiet_read|].
  intros [current|] _; [|apply atomic_same].
  destruct (negb _); [apply atomic_same|]. destruct (bool_decide _); [apply atomic_same|].
  apply atomic_retarget.
Qed.

Lemma atomic_record_materialization o session_id :
  atomic (record_dispatch_materialization o session_id) (retargeted_or_same o).
Proof.
  unfold record_dispatch_materialization. destruct (bool_decide _); [apply atomic_same|].
  destruct (bind_materialized_session session_id (target_snapshot o)) as [target|];
    [apply atomic_retarget|].
  by eapply (quiet_atomic others _ (λ _, False)); [apply quiet_fault|].
Qed.

(** ** Materialized sessions *)

Lemma sound_bind_schedule amb s session_id : sound (bind_schedule_session amb s session_id) (λ _, True).
Proof.
  unfold bind_schedule_session. destruct (bind_materialized_session _ _) as [target|].
  2: { apply quiet_sound. by apply quiet_ret. }
  eapply (sound_bind others others_wf _ _
    (λ w, schedule_apply (fresh_schedule_id amb) (apply_now amb) (Some s) (SyncTarget target) = Ok w)).
  { apply quiet_sound. by apply quiet_require. }
  intros w Hw. pose proof (request_writes _ _ _ _ _ Hw eq_refl) as [_ Hh _].
  apply (sound_bind others others_wf _ _
    (λ tc, tc = transition_commit w (sw_schedule w))).
  { apply (sound_call others others_wf). intros now st x Hst Hx.
    destruct (write_commits w now st Hst) as [[e He]|(st' & He & _)]; rewrite He in Hx; cbn in Hx; congruence. }
  intros tc ->. apply (sound_bind others others_wf _ _ (λ _, True)); [|intros ? _; apply (sound_notify others others_wf)].
  apply quiet_sound. apply quiet_require; [done| |done]. intros e.
  by rewrite (observe_transition_ok w (sw_schedule w) _ Hh (with_acks_same _)).
Qed.

Lemma rebound_writes session_id revision pending ws :
  rebound session_id revision pending = Ok ws →
  Forall (λ w, planned_valid w ∧ observe_effectless_occurrence_commit w = Ok (ow_occurrence w)) ws.
Proof.
  revert ws. induction pending as [|o pending IH]; intros ws; cbn [rebound]; [by intros [= <-]; constructor|].
  destruct (negb _); [apply IH|]. destruct (bind_materialized_session _ _) as [target|]; [|apply IH].
  intros (w & Hw & Hr)%Outcome_bind_Ok. apply Outcome_bind_Ok in Hr as (ws' & Hws & [= <-]).
  constructor; [by eapply synced_write|by apply IH].
Qed.

Lemma sound_commit_rows ws :
  Forall planned_valid ws → sound (commit_occurrence_writes ws) (λ commits, commits = ws).
Proof.
  induction 1 as [|w ws Hv _ IH]; cbn [commit_occurrence_writes].
  { apply quiet_sound. by apply quiet_ret. }
  apply (sound_bind others others_wf _ _ (λ w', w' = w)).
  { apply (sound_call others others_wf). intros now st x Hst Hx.
    destruct (row_commits w now st Hst Hv) as [[e He]|(st' & He & _)]; rewrite He in Hx; cbn in Hx; congruence. }
  intros w' ->. apply (sound_bind others others_wf _ _ _ _ IH). intros commits ->.
  apply quiet_sound. by apply quiet_ret.
Qed.

Lemma observe_effectless_ok ws :
  Forall (λ w, planned_valid w ∧ observe_effectless_occurrence_commit w = Ok (ow_occurrence w)) ws →
  observe_effectless ws = Ok tt.
Proof. induction 1 as [|w ws [_ Hw] _ IH]; [done|]. cbn [observe_effectless]. by rewrite Hw. Qed.

Lemma sound_bind_pending sid revision session_id :
  sound (bind_pending_sessions sid revision session_id) (λ _, True).
Proof.
  unfold bind_pending_sessions. apply (sound_bind others others_wf _ _ (λ _, True)).
  { apply quiet_sound. by apply quiet_read. }
  intros pending _. apply (sound_bind others others_wf _ _ (λ ws,
    Forall (λ w, planned_valid w ∧ observe_effectless_occurrence_commit w = Ok (ow_occurrence w)) ws)).
  { apply quiet_sound. apply quiet_require; [done|done|]. intros ws. apply rebound_writes. }
  intros ws Hws. destruct ws as [|w ws]; [apply quiet_sound; by apply quiet_ret|].
  apply (sound_bind others others_wf _ _ (λ commits, commits = w :: ws)).
  { apply sound_commit_rows. eapply Forall_impl; [exact Hws|]. by intros ? []. }
  intros commits ->. apply (sound_bind others others_wf _ _ (λ _, True)); [|intros ? _; apply (sound_notify others others_wf)].
  apply quiet_sound. apply quiet_require; [done| |done]. intros e. by rewrite observe_effectless_ok.
Qed.

Lemma sound_bind_session amb o session_id :
  sound (bind_materialized_session_for_occurrence amb o session_id) (λ _, True).
Proof.
  unfold bind_materialized_session_for_occurrence. apply (sound_bind others others_wf _ _ (λ _, True)).
  { apply quiet_sound. by apply quiet_read. }
  intros [s|] _; [|apply quiet_sound; by apply quiet_ret].
  destruct (negb _); [apply quiet_sound; by apply quiet_ret|].
  eapply (sound_bind others others_wf); [apply sound_bind_schedule|]. intros _ _. apply sound_bind_pending.
Qed.
End refill.
