(* ===== verification/RowMoves.v ===== *)
(** * RowMoves: what a row keeps while it advances

    A row's identity never changes, its attempts never go back, and an attempt
    whose dispatch was started is spent: the row is never again claimed under
    it.  The commit of a dispatch's start spends the attempt it claims. *)

From stdpp Require Import gmap.
From S2P Require Import Prelude Text Chrono ScheduleTypes Millis Authority.
From S2P Require Import ScheduleLifecycle OccurrenceLifecycle OccurrenceFacts.
From S2P Require Import Rows RowFacts RowValidity RowReturns StoreTypes StoreContract.

Section moves.
Context `{RowCodec} {HL : ChronoLaws} {BP : BuildProfile}.

(** ** One step *)

Lemma plans_converted i dsl_i : convert_occurrence_input i = Ok dsl_i → is_plan dsl_i = plans i.
Proof. destruct i; cbn; intros Hc; binds Hc; by injection Hc as <-. Qed.

(** [attempt] can no longer be dispatched. *)
Definition spent (attempt : N) (o : Occurrence) : Prop :=
  (attempt < attempt_count (occurrence_machine o))%N ∨
  (attempt_count (occurrence_machine o) = attempt ∧ lifecycle_phase (occurrence_machine o) ≠ Claimed).

Lemma fires_claimed i t s s' es :
  Fires i t s s' es → is_claim i = false → lifecycle_phase s' = Claimed → lifecycle_phase s = Claimed.
Proof. intros HF. occurrence_cases HF ltac:(done). all: cbn; try done; intros; congruence. Qed.

Lemma apply_step o i w :
  plans i = false → occurrence_apply o i = Ok w → row_step o (ow_occurrence w).
Proof. intros Hp Ha. by exists i, w. Qed.

Lemma step_identity o o' : row_step o o' → same_identity (occurrence_machine o) (occurrence_machine o').
Proof.
  intros (i & w & Hp & Ha & <-). apply occurrence_apply_fires in Ha as (dsl_i & t & Hc & HF).
  eapply fires_identity; [exact HF|]. by rewrite (plans_converted _ _ Hc).
Qed.

Lemma u64_add_row n m : (n ≤ u32_max)%N → u64_add n 1 = Some m → m = (n + 1)%N.
Proof. intros Hn. rewrite u64_add_small; [congruence|]. unfold u32_max, u64_max in *. lia. Qed.

Lemma step_spent attempt o o' : row_step o o' → spent attempt o → spent attempt o'.
Proof.
  intros (i & w & Hp & Ha & <-) Hs. pose proof Ha as (? & [Hok _ _ _ _ _ _])%occurrence_apply_applied.
  apply row_attempts in Hok. apply occurrence_apply_fires in Ha as (dsl_i & t & Hc & HF).
  pose proof (fires_attempts _ _ _ _ _ HF) as Hat. unfold spent in *.
  destruct (is_claim dsl_i) eqn:Hcl.
  - destruct Hat as (_ & _ & Hn%u64_add_row); [|done]. left. destruct Hs as [|[]]; lia.
  - destruct Hat as [Hat _]. rewrite Hat. destruct Hs as [|[Heq Hph]]; [by left|right].
    split; [done|]. intros Hc'. apply Hph. by eapply fires_claimed.
Qed.

Lemma advances_identity o o' :
  advances o o' → same_identity (occurrence_machine o) (occurrence_machine o').
Proof.
  induction 1 as [|o o1 o2 Hs _ (Hi & Hs' & Hr)]; [done|].
  apply step_identity in Hs as (? & ? & ?). repeat split; congruence.
Qed.

Lemma advances_spent attempt o o' : advances o o' → spent attempt o → spent attempt o'.
Proof. induction 1; [done|]. intros. eauto using step_spent. Qed.

Lemma advances_occ_id o o' : advances o o' → occ_id o' = occ_id o.
Proof. by intros [? _]%advances_identity. Qed.

Lemma apply_advances o i w :
  plans i = false → occurrence_apply o i = Ok w → advances o (ow_occurrence w).
Proof. intros. apply rtc_once. by eapply apply_step. Qed.

(** ** Starting a dispatch *)

Definition starts_dispatch (i : OccurrenceLifecycleInput) : bool :=
  match i with I_DispatchStarted _ _ => true | _ => false end.

Lemma fires_dispatch_started i t s s' es :
  Fires i t s s' es → E_DispatchStarted ∈ es →
  starts_dispatch i = true ∧ lifecycle_phase s = Claimed ∧ lifecycle_phase s' = Dispatching.
Proof.
  intros HF. occurrence_cases HF ltac:(done). all: cbn; rewrite ?elem_of_cons, ?elem_of_nil.
  all: try (intros Hin; exfalso; naive_solver). all: by intros _.
Qed.

Lemma apply_dispatch_started o i w :
  occurrence_apply o i = Ok w → E_DispatchStarted ∈ ow_effects w →
  lifecycle_phase (occurrence_machine o) = Claimed ∧
  lifecycle_phase (occurrence_machine (ow_occurrence w)) = Dispatching ∧
  attempt_count (occurrence_machine (ow_occurrence w)) = attempt_count (occurrence_machine o).
Proof.
  intros (dsl_i & t & Hc & HF)%occurrence_apply_fires Hin.
  destruct (fires_dispatch_started _ _ _ _ _ HF Hin) as (_ & Hcl & Hd). split; [done|]. split; [done|].
  pose proof (fires_attempts _ _ _ _ _ HF) as Hat.
  destruct (is_claim dsl_i); [destruct Hat as (? & _); congruence|apply Hat].
Qed.
Lemma absorb_chain o i w0 receipt outcome w1 w :
  occurrence_apply o i = Ok w0 →
  occurrence_apply (ow_occurrence w0) (RecordReceipt receipt outcome) = Ok w1 →
  absorb_followup w0 w1 = Ok w → receipt_chain o i w0 w.
Proof.
  intros Ha0 Ha1 Hw. split; [done|]. exists receipt, outcome, w1. split; [done|].
  unfold absorb_followup in Hw. by apply Outcome_bind_Ok in Hw as (? & _ & [= <-]).
Qed.

Lemma chain_advances o i w0 w :
  plans i = false → receipt_chain o i w0 w → advances o (ow_occurrence w).
Proof.
  intros Hp [Ha (receipt & outcome & w1 & Ha1 & -> & _)].
  etrans; [exact (apply_advances _ _ _ Hp Ha)|]. exact (apply_advances _ (RecordReceipt _ _) _ eq_refl Ha1).
Qed.

Lemma chain_started o i w0 w :
  receipt_chain o i w0 w → E_DispatchStarted ∈ ow_effects w →
  lifecycle_phase (occurrence_machine o) = Claimed ∧
  attempt_count (occurrence_machine (ow_occurrence w)) = attempt_count (occurrence_machine o) ∧
  spent (attempt_count (occurrence_machine o)) (ow_occurrence w).
Proof.
  intros [Ha (receipt & outcome & w1 & Ha1 & -> & ->)] [Hin|Hin]%elem_of_app.
  - destruct (apply_dispatch_started _ _ _ Ha Hin) as (Hc & Hd & Hat). split; [done|].
    assert (Hs : spent (attempt_count (occurrence_machine o)) (ow_occurrence w0))
      by (right; by rewrite Hd).
    apply (step_spent _ _ _ (apply_step _ (RecordReceipt _ _) _ eq_refl Ha1)) in Hs. split; [|done].
    apply occurrence_apply_fires in Ha1 as (dsl_i & t & Hcv & HF).
    pose proof (fires_attempts _ _ _ _ _ HF) as Hat1.
    cbn in Hcv. injection Hcv as <-. cbn in Hat1. destruct Hat1. congruence.
  - exfalso. apply occurrence_apply_fires in Ha1 as (dsl_i & t & Hcv & HF).
    destruct (fires_dispatch_started _ _ _ _ _ HF Hin) as [Hst _].
    cbn in Hcv. by injection Hcv as <-.
Qed.

(** ** Authorized writes *)

(** Against the rows its precondition was checked on. *)
Definition replaces (rows : gmap OccurrenceId Occurrence) (w : OccurrenceWrite) : Prop :=
  rows !! occ_id (ow_occurrence w) = None ∨
  ∃ o, rows !! occ_id (ow_occurrence w) = Some o ∧ advances o (ow_occurrence w).

Lemma authorized_replaces `{!FaithfulCodec} rows w :
  authorized_row w →
  check_current (ow_precondition w) (occurrence_key <$> rows !! occ_id (ow_occurrence w)) = Ok tt →
  replaces rows w.
Proof.
  unfold replaces. destruct (rows !! occ_id (ow_occurrence w)) as [cur|]; [|by left].
  intros [id Hid|o Hp Hadv] Hc; [by rewrite Hid in Hc|]. right. exists cur. split; [done|].
  unfold occurrence_precondition, occurrence_write_fingerprint in Hp.
  apply Outcome_bind_Ok in Hp as (f & Hf & [= Hpre]).
  apply Outcome_bind_Ok in Hf as (? & _ & [= <-]). rewrite <-Hpre in Hc. cbn in Hc.
  apply Outcome_bind_Ok in Hc as (? & _ & Hc). unfold occurrence_write_fingerprint in Hc.
  apply Outcome_bind_Ok in Hc as (fp & Hfp & Hc).
  apply Outcome_bind_Ok in Hfp as (? & _ & [= <-]).
  apply expect_Ok, bool_decide_eq_true in Hc. apply (inj occurrence_bytes) in Hc. by subst.
Qed.

(** ** Advancing stores *)

Definition keyed (rows : gmap OccurrenceId Occurrence) : Prop :=
  ∀ id o, rows !! id = Some o → occ_id o = id.

Lemma rows_advance_refl rows : rows_advance rows rows.
Proof. intros id o Ho. exists o. by split. Qed.

Lemma rows_advance_trans r1 r2 r3 : rows_advance r1 r2 → rows_advance r2 r3 → rows_advance r1 r3.
Proof.
  intros H12 H23 id o Ho. destruct (H12 _ _ Ho) as (o' & Ho' & ?).
  destruct (H23 _ _ Ho') as (o'' & ? & ?). exists o''. split; [done|]. by etrans.
Qed.

Lemma rows_advance_insert rows0 rows w :
  rows_advance rows0 rows → replaces rows0 w →
  rows_advance rows0 (<[occ_id (ow_occurrence w) := ow_occurrence w]> rows).
Proof.
  intros Hadv Hr id o Ho. destruct (decide (id = occ_id (ow_occurrence w))) as [->|Hne].
  - rewrite lookup_insert_eq. destruct Hr as [Hn|(o0 & Ho0 & ?)]; [congruence|].
    exists (ow_occurrence w). split; [done|]. congruence.
  - rewrite lookup_insert_ne by done. by apply Hadv.
Qed.

Lemma rows_advance_put rows id o o' :
  keyed rows → rows !! id = Some o → advances o o' →
  occ_id o' = id ∧ rows_advance rows (<[occ_id o' := o']> rows).
Proof.
  intros Hk Ho Hadv. assert (Hid : occ_id o' = id) by (rewrite (advances_occ_id _ _ Hadv); by apply Hk).
  split; [done|]. intros id' o1 Ho1. destruct (decide (id' = id)) as [->|Hne].
  - rewrite Hid, lookup_insert_eq. exists o'. split; [done|]. congruence.
  - rewrite lookup_insert_ne by congruence. exists o1. by split.
Qed.

Lemma keyed_insert rows o : keyed rows → keyed (<[occ_id o := o]> rows).
Proof.
  intros Hk id o'. destruct (decide (id = occ_id o)) as [->|Hne].
  - rewrite lookup_insert_eq. by intros [= ->].
  - rewrite lookup_insert_ne by done. apply Hk.
Qed.
End moves.
