(* ===== verification/MemoryContract.v ===== *)
(** * MemoryContract: the in-memory store keeps the store contract

    The in-memory store as a [ScheduleStore] and its laws, so that what is
    proved of the service against the contract holds over this store, whatever
    calls the driver and other clients make in between ([any_call]). *)

From stdpp Require Import gmap sorting.
From S2P Require Import Prelude Text Chrono ScheduleTypes Millis Authority ExecutorLease.
From S2P Require Import ScheduleLifecycle OccurrenceLifecycle Rows RowFacts ScheduleRows.
From S2P Require Import StoreTypes StoreContract MemoryStore MemoryClaims MemoryReads MemoryFacts MemoryCommit.

Section contract.
Context `{RowCodec} {HL : ChronoLaws} {BP : BuildProfile}.

#[local] Existing Instances store_ret store_bind.

Definition lease_error (e : LeaseError) : StoreError :=
  match e with
  | InvalidExecutorLease message => InvalidLease message
  | ExecutorLeaseStale => ExecutorLeaseIsStale
  | FencingTokenExhausted => Internal "executor fencing token exhausted"
  end.

(** An operation on the lease fields of the state. *)
Definition on_lease {X} (f : LeaseState → LeaseState * Outcome LeaseError X) : Store X :=
  λ st, let '(executor', r) := f (executor st) in
        (st <| executor := executor' |>, map_err lease_error r).

Definition memory_answer {X} (c : StoreCall X) (now : DateTime) : Store X :=
  match c in StoreCall X return Store X with
  | GetStoreTime => mret now
  | GetSchedule id => get_schedule id
  | ListSchedules f => list_schedules f
  | GetOccurrence id => get_occurrence id
  | ListOccurrences f => list_occurrences f
  | ListReceipts id => list_receipts id
  | CommitScheduleWrite w => commit_schedule_write w now
  | CommitScheduleMutation w planned => commit_schedule_mutation w planned now
  | CommitScheduleRefill w planned next => commit_schedule_refill w planned next now
  | RecordRefillDeadline id revision expected next =>
      record_refill_deadline_if_current id revision expected next now
  | CommitOccurrenceWrite w => commit_occurrence_write w now
  | ReadDueRefillCandidates limit =>
      candidates ← read_due_refill_candidates limit now;
      mret {| batch_store_now_utc := now; batch_candidates := candidates; batch_row_faults := [] |}
  | ClaimDueOccurrences lease request fresh =>
      scan ← claim_due_occurrences lease request now fresh;
      mret {| claimed_store_now_utc := now;
              claimed_transitions := reverse (scan_transitions scan);
              claimed_row_faults := reverse (row_faults scan) |}
  | TransitionIfCurrent id attempt token transition =>
      transition_occurrence_if_current id attempt token transition now
  | TransitionWithReceiptIfCurrent id attempt token transition outcome =>
      transition_occurrence_with_receipt_if_current id attempt token transition outcome now
  | RenewOccurrenceLease r =>
      w ← renew_occurrence_lease_if_current r now;
      mret {| renewed_store_now_utc := now; renewal := w |}
  | AcquireExecutorLease owner d fresh => on_lease (acquire_executor_lease owner d now fresh)
  | RenewExecutorLease lease d => on_lease (renew_executor_lease lease d now)
  | ReleaseExecutorLease lease => on_lease (λ l, (release_executor_lease lease l, Ok tt))
  | ObserveExecutorLease =>
      st ← read;
      mret {| observed_store_now_utc := now;
              observed_active := observe_executor_lease now (executor st) |}
  end.

#[export] Instance memory_schedule_store : ScheduleStore :=
  {| StoreState := MemoryScheduleState; answer X c now := memory_answer c now |}.

(** ** Reads *)

Lemma elem_of_values {A} (m : gmap string A) a : a ∈ values m ↔ ∃ k, m !! k = Some a.
Proof.
  unfold values. rewrite list_elem_of_fmap. split.
  - intros ([k b] & -> & Hin). exists k. rewrite merge_sort_Permutation in Hin.
    by apply elem_of_map_to_list.
  - intros [k Hk]. exists (k, a). split; [done|]. rewrite merge_sort_Permutation.
    by apply elem_of_map_to_list.
Qed.

Lemma elem_of_truncate {A} n (l : list A) a : a ∈ truncate n l → a ∈ l.
Proof. destruct n as [n|]; [apply subseteq_take|done]. Qed.

Lemma filter_option_subset {A} (f : A → option bool) (l l' : list A) a :
  filter_option f l = Some l' → a ∈ l' → a ∈ l.
Proof.
  revert l'. induction l as [|x l IH]; intros l'; cbn [filter_option]; [by intros [= <-]|].
  intros (keep & _ & Hr)%bind_Some. apply bind_Some in Hr as (rest & Hrest & [= <-]).
  specialize (IH rest Hrest). destruct keep; set_solver.
Qed.

Lemma listed_rows f st l :
  store_inv st → (list_occurrences f st).2 = Ok l →
  Forall (λ o, occurrences st !! occ_id o = Some o) l.
Proof.
  intros Hinv. unfold list_occurrences. rewrite (run_bind_ok _ _ st st st) by done.
  destruct (filter_option _ _) as [rows|] eqn:Hf; [|done]. intros [= <-].
  apply Forall_forall. intros o Hin%elem_of_truncate. rewrite merge_sort_Permutation in Hin.
  pose proof (filter_option_subset _ _ _ _ Hf Hin) as [k Hk]%elem_of_values.
  by destruct (inv_occurrences _ Hinv _ _ Hk) as [-> _].
Qed.

Lemma read_keeps {X} (c : StoreCall X) now st : is_read c = true → (memory_answer c now st).1 = st.
Proof.
  destruct c; try done. intros _. cbn. unfold list_occurrences.
  rewrite (run_bind_ok _ _ st st st) by done. by destruct (filter_option _ _).
Qed.

(** ** Commits *)

Lemma screened_current w planned st :
  commit_screened w planned st = true →
  admits (sw_precondition w) (schedule_key <$> schedules st !! sched_id (sw_schedule w)).
Proof.
  unfold commit_screened, admits. intros [[Hc _]%andb_true_iff _]%andb_true_iff.
  by destruct (check_current _ _) as [[]| | |].
Qed.

Lemma mutation_law w planned (c : StoreCall ScheduleMutationCommit) now st :
  store_inv st → announces w → Forall planned_valid planned → commits_mutation w planned c →
  refused st (memory_answer c now st) ∨
  ∃ st' mc, memory_answer c now st = (st', Ok mc) ∧
    admits (sw_precondition w) (schedule_key <$> schedules st !! sched_id (sw_schedule w)) ∧
    committed w (insert_rows planned (occurrences st))
      (schedules st' !! sched_id (sw_schedule w)) (occurrences st') mc.
Proof.
  intros Hinv Ha Hp Hc.
  assert (∃ projection, memory_answer c now =
    commit_schedule_mutation_with_refill w planned projection now) as [projection ->].
  { destruct Hc; by eexists. }
  destruct (commit_screened w planned st) eqn:Hscr; [right|left; by apply commit_refused].
  destruct (commit_runs w planned projection now st Hinv Ha Hp Hscr) as (st' & mc & Hrun & Hcm).
  exists st', mc. split; [done|]. split; [by eapply screened_current|done].
Qed.

Lemma write_law w now st :
  store_inv st →
  refused st (commit_schedule_write w now st) ∨
  ∃ st', commit_schedule_write w now st = (st', Ok (transition_commit w (sw_schedule w))) ∧
    admits (sw_precondition w) (schedule_key <$> schedules st !! sched_id (sw_schedule w)) ∧
    sw_pending_supersession w = None ∧
    schedules st' !! sched_id (sw_schedule w) = Some (sw_schedule w) ∧
    occurrences st' = occurrences st.
Proof.
  intros Hinv. unfold commit_schedule_write, admits.
  destruct (sw_pending_supersession w); [left; by eexists|].
  unfold check_schedule_precondition.
  destruct (check_schedule_cases (sw_precondition w) st (sched_id (sw_schedule w)) Hinv) as [Hc|[e Hc]].
  2: { left. eexists. apply run_bind_err. rewrite (run_bind_ok _ _ st st st) by done.
    unfold lift. by rewrite Hc. }
  rewrite (run_bind_ok _ _ st st tt).
  2: { rewrite (run_bind_ok _ _ st st st) by done. unfold lift. by rewrite Hc. }
  rewrite (run_bind_ok _ _ st st st) by done.
  destruct (validate_schedule_cases (sw_schedule w)) as [Hv|[e Hv]].
  2: { left. eexists. apply run_bind_err. unfold lift. by rewrite Hv. }
  right. rewrite (run_bind_ok _ _ st st tt) by (unfold lift; by rewrite Hv).
  rewrite (run_bind_ok _ _ _ _ tt) by done. rewrite (run_bind_ok _ _ _ _ tt) by done.
  eexists. split; [done|]. split_and!; [done|done|by cbn; rewrite lookup_insert_eq|].
  cbn. apply update_refill_rows.
Qed.

Lemma deadline_law id revision expected next now st :
  refused st (record_refill_deadline_if_current id revision expected next now st) ∨
  ∃ st', record_refill_deadline_if_current id revision expected next now st = (st', Ok tt) ∧
    schedules st' = schedules st ∧ occurrences st' = occurrences st.
Proof.
  unfold record_refill_deadline_if_current. rewrite (run_bind_ok _ _ st st st) by done.
  destruct (schedules st !! id) as [s|]; [|left; by eexists].
  destruct (_ || _); [left; by eexists|right]. eexists. split; [done|].
  split; apply update_refill_rows.
Qed.

Lemma row_law w now st :
  store_inv st → planned_valid w →
  refused st (commit_occurrence_write w now st) ∨
  ∃ st', commit_occurrence_write w now st = (st', Ok w) ∧
    admits (ow_precondition w) (occurrence_key <$> occurrences st !! occ_id (ow_occurrence w)) ∧
    schedules st' = schedules st ∧
    occurrences st' = <[occ_id (ow_occurrence w) := ow_occurrence w]> (occurrences st).
Proof.
  intros Hinv Hv. unfold commit_occurrence_write, check_occurrence_precondition, admits.
  destruct (check_occurrence_cases (ow_precondition w) st (occ_id (ow_occurrence w)) Hinv) as [Hc|[e Hc]].
  2: { left. eexists. apply run_bind_err. rewrite (run_bind_ok _ _ st st st) by done.
    unfold lift. by rewrite Hc. }
  right. rewrite (run_bind_ok _ _ st st tt).
  2: { rewrite (run_bind_ok _ _ st st st) by done. unfold lift. by rewrite Hc. }
  destruct (run_insert now w st Hv) as (st' & Hrun & Hs & Ho).
  rewrite (run_bind_ok _ _ _ _ _ Hrun). by exists st'.
Qed.

Lemma fst_bind_ret {A B} (P : MemoryScheduleState → Prop) (m : Store A) (f : A → B) st :
  P (m st).1 → P ((m ≫= λ a, mret (f a)) st).1.
Proof. unfold mbind, store_bind. by destruct (m st) as [st' []]. Qed.

Lemma on_lease_inv {X} (f : LeaseState → LeaseState * Outcome LeaseError X) st :
  store_inv st → store_inv (on_lease f st).1.
Proof. intros [Ho Hs Hq]. unfold on_lease. by destruct (f (executor st)). Qed.

Lemma memory_answer_inv {X} (c : StoreCall X) now st : store_inv st → store_inv (memory_answer c now st).1.
Proof.
  intros Hinv. destruct (is_read c) eqn:Hr; [by rewrite read_keeps|]. destruct c; try done; cbn.
  - exact (inv_store_step (OpCommitScheduleWrite w) now st Hinv).
  - exact (inv_store_step (OpCommitMutation w planned Derive) now st Hinv).
  - exact (inv_store_step (OpCommitMutation w planned (Exact next_refill_at_utc)) now st Hinv).
  - exact (inv_store_step (OpRecordRefillDeadline id expected_revision expected_refill_at_utc
      next_refill_at_utc) now st Hinv).
  - exact (inv_store_step (OpCommitOccurrenceWrite w) now st Hinv).
  - apply fst_bind_ret. exact (inv_store_step (OpReadRefillCandidates limit) now st Hinv).
  - apply fst_bind_ret. exact (inv_store_step (OpClaimDue lease request fresh) now st Hinv).
  - exact (inv_store_step (OpTransition id expected_attempt expected_claim_token transition) now st Hinv).
  - exact (inv_store_step (OpTransitionWithReceipt id expected_attempt expected_claim_token
      transition outcome) now st Hinv).
  - apply fst_bind_ret. exact (inv_store_step (OpRenewLease r) now st Hinv).
  - exact (on_lease_inv (acquire_executor_lease owner d now fresh) st Hinv).
  - exact (on_lease_inv (renew_executor_lease lease d now) st Hinv).
  - exact (on_lease_inv (λ l, (release_executor_lease lease l, Ok tt)) st Hinv).
Qed.

#[export] Instance memory_lawful : LawfulStore.
Proof.
  refine {| store_wf := store_inv; stored_schedules := schedules; stored_rows := occurrences |}.
  - intros X c now st. apply memory_answer_inv.
  - intros st id s Hinv Hs. by destruct (inv_schedules _ Hinv _ _ Hs).
  - intros st id o Hinv Ho. by destruct (inv_occurrences _ Hinv _ _ Ho).
  - intros X c now st. apply read_keeps.
  - intros id now st so. by intros [= <-].
  - intros f now st l. apply listed_rows.
  - intros w planned c now st. apply mutation_law.
  - intros w now st. apply write_law.
  - intros id revision expected next now st _. apply deadline_law.
  - intros w now st. apply row_law.
Defined.

(** Any call on the store: what its other users do. *)
Definition any_call (st st' : StoreState) : Prop :=
  ∃ op now, st' = store_step op now st.

Lemma any_call_wf st st' : any_call st st' → store_wf st → store_wf st'.
Proof. intros (op & now & ->). apply inv_store_step. Qed.
End contract.
