(* ===== verification/MemoryMoves.v ===== *)
(** * MemoryMoves: the in-memory store keeps the transition contract

    An authorized call drops no row and advances those it writes; a transition
    is applied to the row stored under its claim.  Hence the in-memory store is
    a [TransitionStore]. *)

From stdpp Require Import gmap.
From S2P Require Import Prelude Text Chrono ScheduleTypes Millis Authority ExecutorLease.
From S2P Require Import ScheduleLifecycle OccurrenceLifecycle Rows RowFacts StoreTypes StoreContract.
From S2P Require Import RowMoves MemoryStore MemoryClaims MemoryReads MemoryFacts MemoryCommit MemoryContract.

Section moves.
Context `{RowCodec} {HL : ChronoLaws} {BP : BuildProfile} `{!FaithfulCodec}.

#[local] Existing Instances store_ret store_bind.

(** ** Walking through an operation *)

Definition moves {A} (m : Store A) (st : MemoryScheduleState) : Prop :=
  keyed (occurrences st) →
  keyed (occurrences (m st).1) ∧ rows_advance (occurrences st) (occurrences (m st).1).

Lemma moves_same {A} (m : Store A) st : occurrences (m st).1 = occurrences st → moves m st.
Proof. intros Hs Hk. rewrite Hs. split; [done|apply rows_advance_refl]. Qed.

Lemma moves_bind {A B} (m : Store A) (f : A → Store B) st :
  moves m st → (∀ a st', m st = (st', Ok a) → moves (f a) st') → moves (m ≫= f) st.
Proof.
  intros Hm Hf Hk. specialize (Hm Hk). unfold mbind, store_bind.
  destruct (m st) as [st' [a|e| |]]; [|exact Hm..]. destruct Hm as [Hk' Hadv].
  destruct (Hf a st' eq_refl Hk') as [Hk'' Hadv']. split; [done|]. by eapply rows_advance_trans.
Qed.

Lemma moves_read {B} (f : MemoryScheduleState → Store B) st : moves (f st) st → moves (read ≫= f) st.
Proof. done. Qed.

Lemma moves_lift {A B} wrap (r : Outcome RowError A) (f : A → Store B) st :
  (∀ a, r = Ok a → moves (f a) st) → moves (lift wrap r ≫= f) st.
Proof. intros Hf. destruct r as [a|e| |]; [by apply Hf|by apply moves_same..]. Qed.

Lemma moves_attempt {A B} (r : Outcome RowError A) (f : A + RowError → Store B) st :
  (∀ a, r = Ok a → moves (f (inl a)) st) → (∀ e, moves (f (inr e)) st) → moves (attempt r ≫= f) st.
Proof. intros Ha He. destruct r as [a|e| |]; [by apply Ha|by apply He|by apply moves_same..]. Qed.

Lemma moves_panic {A B} (o : option A) (f : A → Store B) st :
  (∀ a, o = Some a → moves (f a) st) → moves (panic_if_none o ≫= f) st.
Proof. intros Hf. destruct o as [a|]; [by apply Hf|by apply moves_same]. Qed.

Lemma moves_frame {B} g (f : unit → Store B) st :
  occurrences (g st) = occurrences st →
  (∀ st', occurrences st' = occurrences st → moves (f tt) st') → moves (write g ≫= f) st.
Proof. intros Hg Hf. apply moves_bind; [by apply moves_same|]. intros [] st' [= <-]. by apply Hf. Qed.

Lemma moves_put {B} id o o' (f : unit → Store B) st :
  occurrences st !! id = Some o → advances o o' →
  (∀ st', occurrences st' !! id = Some o' → moves (f tt) st') →
  moves (write (put_occurrence o') ≫= f) st.
Proof.
  intros Ho Hadv Hf. apply moves_bind.
  - intros Hk. destruct (rows_advance_put _ _ _ _ Hk Ho Hadv) as [Hid Hr].
    split; [by apply keyed_insert|exact Hr].
  - intros [] st' [= <-] Hk. destruct (decide (occ_id o' = id)) as [Hid|Hne].
    + apply Hf; [|done]. cbn. by rewrite Hid, lookup_insert_eq.
    + exfalso. apply Hne. rewrite (advances_occ_id _ _ Hadv).
      cbn in Hk. specialize (Hk id o). rewrite lookup_insert_ne in Hk by done. auto.
Qed.

Lemma moves_for_each {A B} (f : A → Store B) l st :
  (∀ a st, moves (f a) st) → moves (for_each f l) st.
Proof.
  intros Hf. revert st. induction l as [|x l IH]; intros st; cbn [for_each]; [by apply moves_same|].
  apply moves_bind; [apply Hf|]. intros y st1 _. apply moves_bind; [apply IH|].
  intros ys st2 _. by apply moves_same.
Qed.

Lemma departure_rows a b now st :
  occurrences (memory_note_pending_departure a b now st) = occurrences st.
Proof. apply note_departure_rows. Qed.

Lemma refill_rows a b proj now st :
  occurrences (memory_update_schedule_refill_projection a b proj now st) = occurrences st.
Proof. apply update_refill_rows. Qed.

Ltac move_step :=
  match goal with
  | |- moves (read ≫= _) _ => apply moves_read
  | |- moves (lift _ _ ≫= _) _ => apply moves_lift; intros ? ?
  | |- moves (attempt _ ≫= _) _ => apply moves_attempt; [intros ? ?|intros ?]
  | |- moves (panic_if_none _ ≫= _) _ => apply moves_panic; intros ? ?
  | Ho : occurrences _ !! ?id = Some ?o |- moves (write (put_occurrence _) ≫= _) _ =>
      apply (moves_put id o); [congruence| |intros ? ?]
  | |- moves (write _ ≫= _) _ =>
      apply moves_frame; [first [reflexivity|apply departure_rows|apply refill_rows]|intros ? ?]
  | |- moves (match ?x with _ => _ end) _ => destruct x eqn:?
  | |- moves (if ?x then _ else _) _ => destruct x eqn:?
  | |- moves (mret _) _ => by apply moves_same
  | |- moves (fail _) _ => by apply moves_same
  end.

(** ** Rows that are written *)

Lemma with_receipt_chain o i w0 outcome w :
  occurrence_apply o i = Ok w0 → with_receipt w0 outcome = Ok w → receipt_chain o i w0 w.
Proof.
  intros Ha Hr. unfold with_receipt in Hr. apply Outcome_bind_Ok in Hr as (r & _ & Hr).
  apply Outcome_bind_Ok in Hr as (w1 & Ha1 & Hr). by eapply absorb_chain.
Qed.

Lemma expire_advances o now w receipt :
  expire_occurrence_lease o now = Ok (w, receipt) → advances o (ow_occurrence w).
Proof.
  unfold expire_occurrence_lease. intros (w0 & Ha & Hr)%Outcome_bind_Ok.
  apply Outcome_bind_Ok in Hr as (r & _ & Hr). apply Outcome_bind_Ok in Hr as (w1 & Ha1 & Hr).
  apply Outcome_bind_Ok in Hr as (w2 & Hab & [= <- _]).
  eapply (chain_advances _ (LeaseExpired now)); [done|by eapply absorb_chain].
Qed.

Lemma claim_advances o request at_utc evidence token w :
  claim_occurrence o request at_utc evidence token = Ok w → advances o (ow_occurrence w).
Proof.
  unfold claim_occurrence. intros (lease & _ & Ha)%Outcome_bind_Ok.
  exact (apply_advances _ (Claim _ _ _ _ _) _ eq_refl Ha).
Qed.

Lemma resolved_advances o action evidence now w :
  resolved_write o action evidence now = Ok w → advances o (ow_occurrence w).
Proof.
  unfold resolved_write. intros (i & Hi & Hr)%Outcome_bind_Ok.
  apply Outcome_bind_Ok in Hr as (w0 & Ha & Hr). eapply (chain_advances _ i);
    [|by eapply with_receipt_chain]. unfold due_resolution in Hi.
  destruct action; try (by injection Hi as <-). by apply Outcome_bind_Ok in Hi as (? & _ & [= <-]).
Qed.

Lemma reclaim_advances o now w receipt request evidence token claimed w' :
  expire_occurrence_lease o now = Ok (w, receipt) →
  claim_occurrence (ow_occurrence w) request now evidence token = Ok claimed →
  absorb_followup w claimed = Ok w' → advances o (ow_occurrence w').
Proof.
  intros He%expire_advances Hc%claim_advances Ha. unfold absorb_followup in Ha.
  apply Outcome_bind_Ok in Ha as (? & _ & [= <-]). by etrans.
Qed.

Lemma moves_resolve_due id o action evidence now st :
  occurrences st !! id = Some o → moves (memory_resolve_due_terminal o action evidence now) st.
Proof.
  intros Ho. unfold memory_resolve_due_terminal. repeat move_step. by eapply resolved_advances.
Qed.

Lemma moves_scan_row request now token id acc st : moves (scan_row request now token id acc) st.
Proof.
  assert (Hresolve : ∀ o action evidence acc st, occurrences st !! id = Some o →
    moves (r ← memory_resolve_due_terminal o action evidence now; mret (push_resolution r acc)) st).
  { intros o action evidence acc' st' Ho. apply moves_bind; [by eapply moves_resolve_due|].
    intros. by apply moves_same. }
  unfold scan_row. move_step. destruct (occurrences st !! id) as [existing|] eqn:Ho; [|by apply moves_same].
  cbv zeta. move_step; [|by apply moves_same]. destruct a as [action|]; [|by apply moves_same].
  destruct action; [| | |]; try by apply Hresolve.
  - unfold claim_eligible_row. repeat move_step. by eapply claim_advances.
  - unfold lease_expired_row. repeat move_step; try done.
    + by eapply reclaim_advances.
    + unfold reclaim_refused. cbv zeta. move_step; [by eapply expire_advances|].
      repeat first [move_step | by apply Hresolve].
Qed.

Lemma moves_scan_rows request now fresh ids acc st : moves (scan_rows request now fresh ids acc) st.
Proof.
  revert acc st. induction ids as [|id ids IH]; intros acc st; cbn [scan_rows]; [by apply moves_same|].
  apply moves_bind; [apply moves_scan_row|]. intros. apply IH.
Qed.

Lemma moves_sweep s p st : moves (sweep s p) st.
Proof.
  unfold sweep. destruct p as [p|]; [|by apply moves_same]. apply moves_bind.
  - apply moves_same. unfold sweep_ids. rewrite (run_bind_ok _ _ st st st) by done.
    by destruct (filter_option _ _).
  - intros ids st1 _. apply moves_for_each. intros id st'. unfold sweep_one. repeat move_step; try done.
    by eapply (apply_advances _ (Supersede _ _) _ eq_refl).
Qed.

(** ** Schedule commits *)

Lemma insert_effect now w st :
  occurrences (insert_planned now w st).1 = occurrences st ∨
  occurrences (insert_planned now w st).1
    = <[occ_id (ow_occurrence w) := ow_occurrence w]> (occurrences st).
Proof.
  unfold insert_planned. destruct (validate_occurrence_machine_projection _) as [[]| | |] eqn:Hv;
    [|by left..]. rewrite (run_bind_ok _ _ st st tt) by done.
  rewrite (run_bind_ok _ _ st st st) by done. right.
  destruct (occurrences st !! _) as [previous|]; rewrite (run_bind_ok _ _ _ _ tt) by done; [|done].
  cbn. by rewrite departure_rows.
Qed.

Lemma inserts_advance now planned rows0 st :
  Forall (replaces rows0) planned → keyed (occurrences st) → rows_advance rows0 (occurrences st) →
  keyed (occurrences (for_each (insert_planned now) planned st).1) ∧
  rows_advance rows0 (occurrences (for_each (insert_planned now) planned st).1).
Proof.
  intros Hr. revert st. induction Hr as [|w planned Hw _ IH]; intros st Hk Hadv; [done|].
  cbn [for_each].
  assert (Hst1 : keyed (occurrences (insert_planned now w st).1) ∧
    rows_advance rows0 (occurrences (insert_planned now w st).1)).
  { destruct (insert_effect now w st) as [-> | ->]; [done|].
    split; [by apply keyed_insert|by apply rows_advance_insert]. }
  unfold mbind, store_bind. destruct (insert_planned now w st) as [st1 [a|e| |]]; [|exact Hst1..].
  destruct Hst1 as [Hk1 Hadv1]. specialize (IH st1 Hk1 Hadv1).
  by destruct (for_each (insert_planned now) planned st1) as [st2 []].
Qed.

Lemma screen_run w st :
  ∃ r, screen_planned w st = (st, r) ∧
    ∀ u, r = Ok u → check_current (ow_precondition w)
      (occurrence_key <$> occurrences st !! occ_id (ow_occurrence w)) = Ok tt.
Proof.
  unfold screen_planned. destruct (has_generated_outputs w); [by eexists|].
  eexists. split; [reflexivity|]. cbn. by destruct (check_current _ _) as [[]| | |].
Qed.

Lemma screens_keep planned st : (for_each screen_planned planned st).1 = st.
Proof.
  induction planned as [|w planned IH]; cbn [for_each]; [done|].
  destruct (screen_run w st) as (r & Hr & _). unfold mbind, store_bind. rewrite Hr.
  destruct r; try done. destruct (for_each screen_planned planned st) as [st1 []]; exact IH.
Qed.

Lemma screened_replaces planned st st' l :
  Forall authorized_row planned → for_each screen_planned planned st = (st', Ok l) →
  Forall (replaces (occurrences st)) planned.
Proof.
  intros Ha. revert l. induction Ha as [|w planned Hw _ IH]; intros l; [constructor|].
  cbn [for_each]. destruct (screen_run w st) as (r & Hr & Hc). unfold mbind, store_bind. rewrite Hr.
  destruct r as [u| | |]; [|by intros [=]..].
  destruct (for_each screen_planned planned st) as [st1 [l'| | |]]; [|by intros [=]..].
  intros [= <- _]. constructor; [|by eapply IH]. apply authorized_replaces; [done|]. by apply (Hc u).
Qed.

Lemma moves_commit_mutation w planned projection now st :
  Forall authorized_row planned → moves (commit_schedule_mutation_with_refill w planned projection now) st.
Proof.
  intros Ha. unfold commit_schedule_mutation_with_refill. move_step. cbv zeta.
  apply moves_bind; [by apply moves_same|].
  intros [] st1 Hst1.
  assert (occurrences st1 = occurrences st) as Heq.
  { revert Hst1. unfold check_schedule_precondition, mbind, store_bind, read, lift. by intros [= <- _]. }
  apply moves_bind; [apply moves_same; by rewrite screens_keep|].
  intros l st2 Hscr. pose proof (screened_replaces _ _ _ _ Ha Hscr) as Hrep.
  pose proof (screens_keep planned st1) as Hk2. rewrite Hscr in Hk2. cbn in Hk2. subst st2.
  move_step. apply moves_frame; [done|]. intros st3 Hst3.
  apply moves_bind.
  { intros Hk. rewrite <-Hst3 in Hrep. apply inserts_advance; [done..|apply rows_advance_refl]. }
  intros l' st4 _. apply moves_bind; [apply moves_sweep|]. intros ws st5 _. repeat move_step.
Qed.

Lemma moves_answer {X} (c : StoreCall X) now st : authorized_call c → moves (memory_answer c now) st.
Proof.
  intros Ha. destruct (is_read c) eqn:Hr; [by apply moves_same; rewrite read_keeps|].
  destruct c; try done; cbn [memory_answer authorized_call] in *.
  - unfold commit_schedule_write. destruct (sw_pending_supersession w); [by apply moves_same|].
    apply moves_bind; [by apply moves_same|].
    intros _ st1 _. repeat move_step.
  - by apply moves_commit_mutation.
  - by apply moves_commit_mutation.
  - unfold record_refill_deadline_if_current. move_step. destruct (schedules st !! id); [|by apply moves_same].
    destruct (_ || _); [by apply moves_same|]. apply moves_same. apply refill_rows.
  - unfold commit_occurrence_write. apply moves_bind; [by apply moves_same|]. intros u st1 Hchk.
    assert (Hc : st1 = st ∧ check_current (ow_precondition w)
      (occurrence_key <$> occurrences st !! occ_id (ow_occurrence w)) = Ok tt).
    { revert Hchk. unfold check_occurrence_precondition, mbind, store_bind, read, lift.
      by destruct (check_current _ _) as [[]| | |]; intros [= <-]. }
    destruct Hc as [-> Hc]. apply moves_bind; [|intros; by apply moves_same].
    intros Hk. pose proof (authorized_replaces _ _ Ha Hc) as Hrep.
    destruct (insert_effect now w st) as [-> | ->]; [split; [done|apply rows_advance_refl]|].
    split; [by apply keyed_insert|]. apply rows_advance_insert; [apply rows_advance_refl|done].
  - apply moves_same. unfold read_due_refill_candidates. by destruct (limit =? 0)%nat.
  - apply moves_bind; [|intros; by apply moves_same]. unfold claim_due_occurrences. move_step.
    destruct (negb _); [by apply moves_same|]. destruct (_ =? 0)%nat; [by apply moves_same|].
    apply moves_scan_rows.
  - unfold transition_occurrence_if_current. repeat move_step. by eapply apply_advances.
  - unfold transition_occurrence_with_receipt_if_current. repeat move_step.
    eapply chain_advances; [exact Ha|]. by eapply with_receipt_chain.
  - apply moves_bind; [|intros; by apply moves_same]. unfold renew_occurrence_lease_if_current.
    repeat move_step. by eapply (apply_advances _ (RenewLease _ _ _) _ eq_refl).
  - apply moves_same. unfold on_lease. by destruct (acquire_executor_lease _ _ _ _ _).
  - apply moves_same. unfold on_lease. by destruct (renew_executor_lease _ _ _ _).
  - by apply moves_same.
Qed.

(** ** Transitions *)

Lemma run_transition id attempt token i now st w :
  keyed (occurrences st) → plans i = false →
  (transition_occurrence_if_current id attempt token i now st).2 = Ok (Some w) →
  ∃ o, occurrences st !! id = Some o ∧ attempt_count (occurrence_machine o) = attempt ∧
    claim_token (occurrence_machine o) = token ∧ occurrence_apply o i = Ok w ∧
    occurrences (transition_occurrence_if_current id attempt token i now st).1
      = <[id := ow_occurrence w]> (occurrences st).
Proof.
  intros Hk Hp. unfold transition_occurrence_if_current. rewrite (run_bind_ok _ _ st st st) by done.
  destruct (occurrences st !! id) as [o|] eqn:Ho; [|done].
  unfold claim_is_current. destruct (negb _) eqn:Hc; [done|].
  apply negb_false_iff, andb_true_iff in Hc as [Hat%bool_decide_eq_true Htok%bool_decide_eq_true].
  destruct (occurrence_apply o i) as [w'| | |] eqn:Ha; try done.
  rewrite (run_bind_ok _ _ st st w') by done. rewrite (run_bind_ok _ _ _ _ tt) by done.
  rewrite (run_bind_ok _ _ _ _ tt) by done. intros [= <-]. exists o.
  split_and!; try done. cbn. rewrite departure_rows. f_equal.
  rewrite (advances_occ_id _ _ (apply_advances _ _ _ Hp Ha)). by apply Hk.
Qed.

Lemma run_receipt id attempt token i outcome now st w :
  keyed (occurrences st) → plans i = false →
  (transition_occurrence_with_receipt_if_current id attempt token i outcome now st).2 = Ok (Some w) →
  ∃ o w0, occurrences st !! id = Some o ∧ attempt_count (occurrence_machine o) = attempt ∧
    claim_token (occurrence_machine o) = token ∧ receipt_chain o i w0 w ∧
    occurrences (transition_occurrence_with_receipt_if_current id attempt token i outcome now st).1
      = <[id := ow_occurrence w]> (occurrences st).
Proof.
  intros Hk Hp. unfold transition_occurrence_with_receipt_if_current.
  rewrite (run_bind_ok _ _ st st st) by done.
  destruct (occurrences st !! id) as [o|] eqn:Ho; [|done].
  unfold claim_is_current. destruct (negb _) eqn:Hc; [done|].
  apply negb_false_iff, andb_true_iff in Hc as [Hat%bool_decide_eq_true Htok%bool_decide_eq_true].
  destruct (occurrence_apply o i) as [w0| | |] eqn:Ha; try done.
  rewrite (run_bind_ok _ _ st st w0) by done.
  destruct (with_receipt w0 outcome) as [w'| | |] eqn:Hr; try done.
  rewrite (run_bind_ok _ _ st st w') by done.
  destruct (last_receipt (ow_occurrence w')); [|done]. do 3 rewrite (run_bind_ok _ _ _ _ tt) by done.
  intros [= <-]. pose proof (with_receipt_chain _ _ _ _ _ Ha Hr) as Hch. exists o, w0.
  split_and!; try done. cbn. rewrite departure_rows. cbn. f_equal.
  rewrite (advances_occ_id _ _ (chain_advances _ _ _ _ Hp Hch)). by apply Hk.
Qed.

Lemma inv_keyed st : store_inv st → keyed (occurrences st).
Proof. intros Hinv id o Ho. by destruct (inv_occurrences _ Hinv _ _ Ho). Qed.

#[export] Instance memory_transitions : TransitionStore.
Proof.
  split.
  - intros X c now st Hinv Ha. by apply (moves_answer c now st Ha), inv_keyed.
  - intros id attempt token i now st w Hinv. apply run_transition. by apply inv_keyed.
  - intros id attempt token i outcome now st w Hinv. apply run_receipt. by apply inv_keyed.
Qed.
End moves.
