(* ===== verification/Discipline.v ===== *)
(** * Discipline: what every program of the scheduler keeps to

    A program only makes authorized calls, and asks for a delivery only with a
    permit: the occurrence and attempt whose dispatch it has just committed.
    A delivery uses the permit up, and names its row by the identity the row
    has for good.  A row's schedule never changes, so the answers a program
    may rely on agree with one assignment of schedules to rows ([owner]). *)

From stdpp Require Import gmap.
From S2P Require Import Prelude Text Chrono ScheduleTypes Targets Millis Authority ExecutorLease.
From S2P Require Import ScheduleLifecycle OccurrenceLifecycle Rows RowFacts StoreTypes StoreContract RowMoves.
From S2P Require Import Planner PlannedRows Programs Service ServiceFacts Driver.

Section discipline.
Context `{RowCodec} {HL : ChronoLaws} {BP : BuildProfile}.

#[local] Existing Instances service_ret service_bind.

(** An occurrence and one of its attempts. *)
Definition Key : Type := OccurrenceId * N.
Definition row_key (o : Occurrence) : Key := (occ_id o, attempt_count (occurrence_machine o)).

(** The permit a call's answer gives. *)
Definition granted {X} (c : StoreCall X) : Outcome StoreError X → option Key :=
  match c with
  | TransitionWithReceiptIfCurrent _ _ _ _ _ => λ r,
      match r with
      | Ok (Some w) => if has is_dispatch_started w then Some (row_key (ow_occurrence w)) else None
      | _ => None
      end
  | _ => λ _, None
  end.

Definition renewed_permit (granted permit : option Key) : option Key :=
  match granted with Some key => Some key | None => permit end.

Definition delivery_of {X} (q : Query X) : option (Occurrence * ScheduleDeliveryIdentity) :=
  match q with
  | DeliverOccurrence o identity => Some (o, identity)
  | DeliverExistingOccurrence o identity _ => Some (o, identity)
  | _ => None
  end.

(** A row under the schedule it belongs to. *)
Definition owned (owner : OccurrenceId → ScheduleId) (o : Occurrence) : Prop :=
  owner (occ_id o) = schedule_id (occurrence_machine o).

(** A transition answers with the row it was called for. *)
Definition own_row (owner : OccurrenceId → ScheduleId) (id : OccurrenceId)
    (r : Outcome StoreError (option OccurrenceWrite)) : Prop :=
  ∀ w, r = Ok (Some w) → occ_id (ow_occurrence w) = id ∧ owned owner (ow_occurrence w).

Definition consistent (owner : OccurrenceId → ScheduleId) {X} (c : StoreCall X)
  : Outcome StoreError X → Prop :=
  match c with
  | TransitionIfCurrent id _ _ _ | TransitionWithReceiptIfCurrent id _ _ _ _ => own_row owner id
  | _ => λ _, True
  end.

Section owner.
Variable owner : OccurrenceId → ScheduleId.

Fixpoint disciplined {A} (Q : A → Prop) (permit : option Key) (m : Prog A) : Prop :=
  match m with
  | Done a => Q a
  | Call c k =>
      authorized_call c ∧
      ∀ r, consistent owner c r → disciplined Q (renewed_permit (granted c r) permit) (k r)
  | Notify k => disciplined Q permit k
  | Ask q k =>
      match delivery_of q with
      | Some (o, identity) =>
          (permit = Some (row_key o) ∧ identity = for_occurrence o ∧ owned owner o) ∧
          ∀ x, disciplined Q None (k x)
      | None => ∀ x, disciplined Q permit (k x)
      end
  end.

Lemma disciplined_weaken {A} (Q : A → Prop) permit m : disciplined Q None m → disciplined Q permit m.
Proof.
  revert permit. induction m as [a|X c k IH|k IH|X q k IH]; intros permit; cbn; [done| |apply IH|].
  - intros [Hc Hk]. split; [done|]. intros r Hr. specialize (Hk r Hr). destruct (granted c r); [done|by apply IH].
  - destruct (delivery_of q) as [[o identity]|]; [by intros [(? & _) _]|]. intros Hk x. by apply IH.
Qed.

Lemma disciplined_bind {A B} (Q : A → Prop) (Q' : B → Prop) permit (m : Prog A) (f : A → Prog B) :
  disciplined Q permit m → (∀ a, Q a → disciplined Q' None (f a)) →
  disciplined Q' permit (prog_bind m f).
Proof.
  intros Hm Hf. revert permit Hm. induction m as [a|X c k IH|k IH|X q k IH]; intros permit; cbn.
  - intros Ha. by apply disciplined_weaken, Hf.
  - intros [Hc Hk]. split; [done|]. intros r Hr. by apply IH, Hk.
  - apply IH.
  - destruct (delivery_of q) as [[o identity]|]; [intros [Hp Hk]; split; [done|]|intros Hk];
      intros x; by apply IH.
Qed.

Lemma disciplined_mono {A} (Q Q' : A → Prop) permit (m : Prog A) :
  (∀ a, Q a → Q' a) → disciplined Q permit m → disciplined Q' permit m.
Proof.
  intros HQ. revert permit.
  induction m as [r|X c k IH|k IH|X q k IH]; intros permit; cbn; [by eauto| |apply IH|].
  - intros [Hc Hk]. split; [done|]. intros r Hr. by apply IH, Hk.
  - destruct (delivery_of q) as [[o identity]|]; [intros [Hp Hk]; split; [done|]|intros Hk];
      intros x; by apply IH.
Qed.

(** Programs that need no permit; [Q] holds of what they succeed with. *)
Definition guided {A} (m : Service A) (Q : A → Prop) : Prop :=
  disciplined (λ r, ∀ a, r = Ok a → Q a) None m.

Lemma guided_done {A} (r : Outcome ServiceError A) (Q : A → Prop) :
  (∀ a, r = Ok a → Q a) → guided (Done r) Q.
Proof. done. Qed.

Lemma guided_ret {A} (a : A) (Q : A → Prop) : Q a → guided (mret a) Q.
Proof. intros Ha. apply guided_done. by intros ? [= <-]. Qed.

Lemma guided_fault {A} e (Q : A → Prop) : guided (fault e) Q.
Proof. by apply guided_done. Qed.

Lemma guided_notify : guided notify_mutation (λ _, True).
Proof. done. Qed.

Lemma guided_require {E A} (wrap : E → ServiceError) (r : Outcome E A) (Q : A → Prop) :
  (∀ a, r = Ok a → Q a) → guided (require wrap r) Q.
Proof. intros HQ. apply guided_done. intros a Ha. apply HQ. destruct r; cbn in Ha; congruence. Qed.

Lemma guided_call {X} (c : StoreCall X) : authorized_call c → guided (call c) (λ _, True).
Proof. intros Hc. split; [done|]. intros r _. destruct (granted c r); cbn; done. Qed.

Lemma permitted_mono {A} (m : Service A) (Q Q' : A → Prop) permit :
  (∀ a, Q a → Q' a) → disciplined (λ r, ∀ a, r = Ok a → Q a) permit m →
  disciplined (λ r, ∀ a, r = Ok a → Q' a) permit m.
Proof. intros HQ. apply disciplined_mono. eauto. Qed.

Lemma guided_any {A} (m : Service A) (Q : A → Prop) : guided m Q → guided m (λ _, True).
Proof. by apply permitted_mono. Qed.

Lemma permitted_bind {A B} (Q : A → Prop) (Q' : B → Prop) permit (m : Service A) (f : A → Service B) :
  disciplined (λ r, ∀ a, r = Ok a → Q a) permit m → (∀ a, Q a → guided (f a) Q') →
  disciplined (λ r, ∀ b, r = Ok b → Q' b) permit (m ≫= f).
Proof.
  intros Hm Hf. unfold mbind, service_bind. eapply disciplined_bind; [exact Hm|].
  intros [a|e| |] Ha; [by apply Hf, Ha|done..].
Qed.

Lemma guided_bind {A B} (m : Service A) (f : A → Service B) Q Q' :
  guided m Q → (∀ a, Q a → guided (f a) Q') → guided (m ≫= f) Q'.
Proof. apply permitted_bind. Qed.

(** What follows a call may use its answer and the permit that comes with it. *)
Lemma granted_bind {X B} (c : StoreCall X) (f : X → Service B) (Q : B → Prop) :
  authorized_call c →
  (∀ a, consistent owner c (Ok a) →
     disciplined (λ r, ∀ b, r = Ok b → Q b) (granted c (Ok a)) (f a)) →
  guided (call c ≫= f) Q.
Proof.
  intros Hc Hf. split; [done|]. intros r Hr. cbn.
  destruct r as [a|e| |]; cbn; try done.
  specialize (Hf a Hr). by destruct (granted c (Ok a)).
Qed.

Lemma guided_require_bind {E A B} (wrap : E → ServiceError) (r : Outcome E A) (f : A → Service B) Q :
  (∀ a, r = Ok a → guided (f a) Q) → guided (require wrap r ≫= f) Q.
Proof. intros Hf. eapply guided_bind; [by apply (guided_require wrap r (λ a, r = Ok a))|]. done. Qed.

Lemma guided_catch {A} (m : Service A) : guided m (λ _, True) → guided (catch m) (λ _, True).
Proof.
  intros Hm. unfold catch. eapply disciplined_bind; [exact Hm|]. by intros [a|e| |].
Qed.

Lemma guided_ask {X A} (q : Query X) (k : X → Service A) (Q : A → Prop) :
  delivery_of q = None → (∀ x, guided (k x) Q) → guided (Ask q k) Q.
Proof. intros Hq Hk. unfold guided. cbn. by rewrite Hq. Qed.

End owner.

(** ** Authorized writes *)

Lemma applied_authorized o i w :
  plans i = false → occurrence_apply o i = Ok w → authorized_row w.
Proof.
  intros Hp Ha. apply (authorized_change _ o); [|by eapply apply_advances].
  apply occurrence_apply_applied in Ha as (dsl_i & [Hok _ _ _ _ _ ->]).
  unfold occurrence_precondition, occurrence_write_fingerprint. unfold row_ok in Hok. by rewrite Hok.
Qed.

Lemma planned_authorized fresh now s store_now existing p :
  plan_schedule_occurrences_from_snapshot fresh now s store_now existing = Ok p →
  Forall authorized_row (planned_occurrences p).
Proof.
  intros [Hp _]%plan_for. eapply Forall_impl; [exact Hp|]. intros w []. by eapply authorized_new.
Qed.
End discipline.

#[export] Hint Resolve guided_fault guided_notify guided_catch : guided.

(** Follow a program to its ends. *)
Ltac guide :=
  repeat first
    [ done
    | progress intros
    | apply guided_ret; exact I
    | apply guided_fault
    | solve [eauto with guided]
    | apply guided_require; done
    | apply guided_require_bind; intros ? ?
    | apply guided_call; cbn; solve [eauto with guided]
    | apply guided_ask; [done|intros ?]
    | apply guided_catch
    | eapply guided_bind; [solve [eauto with guided | apply guided_call; cbn; eauto with guided]|intros ? _; cbv beta]
    | case_match
    | eapply (guided_bind _ _ _ (λ _, True)) ].
