(* ===== verification/Guided.v ===== *)
(** * Guided: the service and the driver keep to the discipline

    Every operation of the service, every tick of the driver and every
    completion waiter makes authorized calls only, and asks for a delivery only
    with the permit of the dispatch it has just committed. *)

From stdpp Require Import gmap.
From S2P Require Import Prelude Text Chrono ScheduleTypes Targets Millis Authority ExecutorLease.
From S2P Require Import ScheduleLifecycle OccurrenceLifecycle Rows RowFacts StoreTypes StoreContract RowMoves.
From S2P Require Import Planner Programs Service Driver Discipline.

Section guided.
Context `{RowCodec} {HL : ChronoLaws} {BP : BuildProfile}.

#[local] Existing Instances service_ret service_bind.

Variable owner : OccurrenceId → ScheduleId.

Notation safe m := (guided owner m (λ _, True)).
#[local] Hint Extern 1 (authorized_row _) => eapply applied_authorized; [|eassumption]; done : guided.

(** ** The service *)

Lemma get_guided id : safe (get id).
Proof. unfold get. guide. Qed.
#[local] Hint Resolve get_guided : guided.

Lemma plan_guided amb s now :
  guided owner (plan_schedule_occurrences amb s now) (λ p, Forall authorized_row (planned_occurrences p)).
Proof.
  unfold plan_schedule_occurrences. eapply guided_bind; [by apply guided_call|]. intros existing _.
  apply guided_require. intros p. apply planned_authorized.
Qed.

Lemma commit_planned_guided amb w now : safe (commit_planned amb w now).
Proof.
  unfold commit_planned. eapply guided_bind; [apply plan_guided|]. intros p Hp. guide.
Qed.
#[local] Hint Resolve commit_planned_guided : guided.

Lemma create_guided svc amb request : safe (create svc amb request).
Proof. unfold create. guide. Qed.

Lemma update_guided svc amb id request : safe (update svc amb id request).
Proof. unfold update. guide. Qed.

Lemma pause_guided amb id : safe (pause amb id).
Proof. unfold pause. guide. Qed.

Lemma resume_guided amb id : safe (resume amb id).
Proof. unfold resume. guide. Qed.

Lemma delete_guided amb id : safe (delete_schedule amb id).
Proof. unfold delete_schedule. guide. Qed.

Lemma refill_horizon_guided amb id : safe (refill_horizon amb id).
Proof.
  unfold refill_horizon. eapply guided_bind; [apply get_guided|]. intros s _.
  eapply guided_bind; [by apply guided_call|]. intros now _.
  eapply guided_bind; [apply plan_guided|]. intros p Hp. guide.
Qed.

Lemma refill_candidate_guided amb candidate now : safe (refill_candidate amb candidate now).
Proof.
  unfold refill_candidate. apply guided_require_bind. intros p Hp%planned_authorized. guide.
Qed.

Lemma sync_occurrence_guided o target : safe (sync_occurrence o target).
Proof. unfold sync_occurrence. guide. Qed.
#[local] Hint Resolve sync_occurrence_guided : guided.

Lemma sync_with_schedule_guided o : safe (sync_occurrence_target_with_schedule o).
Proof. unfold sync_occurrence_target_with_schedule. guide. Qed.

Lemma record_materialization_guided o session_id : safe (record_dispatch_materialization o session_id).
Proof. unfold record_dispatch_materialization. guide. Qed.

Lemma rebound_authorized session_id revision pending ws :
  rebound session_id revision pending = Ok ws → Forall authorized_row ws.
Proof.
  revert ws. induction pending as [|o pending IH]; cbn [rebound]; intros ws; [by intros [= <-]|].
  case_match; [apply IH|]. case_match; [|apply IH].
  intros (w & Hw & (ws' & Hws & [= <-])%Outcome_bind_Ok)%Outcome_bind_Ok.
  constructor; [eapply applied_authorized; [|exact Hw]; done|by apply IH].
Qed.

Lemma commit_writes_guided ws : Forall authorized_row ws → safe (commit_occurrence_writes ws).
Proof. induction 1; cbn [commit_occurrence_writes]; guide. Qed.
#[local] Hint Resolve rebound_authorized commit_writes_guided : guided.

Lemma bind_schedule_guided amb s session_id : safe (bind_schedule_session amb s session_id).
Proof. unfold bind_schedule_session. guide. Qed.

Lemma bind_pending_guided sid revision session_id : safe (bind_pending_sessions sid revision session_id).
Proof. unfold bind_pending_sessions. guide. Qed.
#[local] Hint Resolve bind_schedule_guided bind_pending_guided : guided.

Lemma bind_materialized_guided amb o session_id :
  safe (bind_materialized_session_for_occurrence amb o session_id).
Proof. unfold bind_materialized_session_for_occurrence. guide. Qed.

(** ** Renewals *)

Lemma renew_lease_guided o token holder d : safe (renew_lease_once o token holder d).
Proof. unfold renew_lease_once. split; [done|]. intros r _. destruct (granted _ r); cbn; done. Qed.
#[local] Hint Resolve renew_lease_guided : guided.

Lemma renew_while_guided o token holder d due renewed : safe (renew_while o token holder d due renewed).
Proof.
  revert renewed. induction due as [|spent due IH]; intros renewed; cbn [renew_while]; guide.
Qed.
#[local] Hint Resolve renew_while_guided : guided.

Lemma after_renewals_guided {T} o d (answer : list bool * T) : safe (after_renewals o d answer).
Proof. unfold after_renewals, lease_renewals. guide. Qed.
#[local] Hint Resolve after_renewals_guided : guided.

Lemma renewal_guided {T} o d (work : Query (list bool * T)) :
  delivery_of work = None → safe (run_with_lease_renewal o d work).
Proof. unfold run_with_lease_renewal. guide. Qed.

(** ** Terminal transitions and completions *)

Context `{!ErrorText}.

Lemma transition_guided o i : plans i = false → safe (transition_current o i).
Proof. intros Hi. by apply guided_call. Qed.

Lemma receipt_guided o i outcome : plans i = false → safe (transition_with_receipt o i outcome).
Proof. intros Hi. by apply guided_call. Qed.
#[local] Hint Resolve transition_guided receipt_guided : guided.

Lemma terminalize_late_guided o i :
  plans i = false → safe (terminalize_late_completion_on_superseded o i).
Proof. intros Hi. unfold terminalize_late_completion_on_superseded. guide. Qed.
#[local] Hint Resolve terminalize_late_guided : guided.

Lemma terminalize_inner_guided o i outcome :
  plans i = false → safe (terminalize_occurrence_inner o i outcome).
Proof. intros Hi. unfold terminalize_occurrence_inner. guide. Qed.
#[local] Hint Resolve terminalize_inner_guided : guided.

Lemma terminalize_guided o i : plans i = false → safe (terminalize_occurrence o i).
Proof. intros Hi. unfold terminalize_occurrence. guide. Qed.
#[local] Hint Resolve terminalize_guided : guided.

Lemma classify_stale_guided id trigger : safe (classify_stale_arrival id trigger).
Proof. unfold classify_stale_arrival. guide. Qed.
#[local] Hint Resolve classify_stale_guided : guided.

Lemma resolve_supersession_guided o now s : safe (resolve_completion_supersession o now s).
Proof. unfold resolve_completion_supersession. guide. Qed.

Lemma resolve_or_classify_guided o i trigger outcome :
  plans i = false → safe (resolve_or_classify o i trigger outcome).
Proof. intros Hi. unfold resolve_or_classify. guide. Qed.
#[local] Hint Resolve resolve_supersession_guided resolve_or_classify_guided : guided.

Lemma terminal_resolution_plans terminal now i trigger :
  terminal_resolution terminal now = Ok (i, trigger) → plans i = false.
Proof. unfold terminal_resolution. intros Hr. repeat case_match; by simplify_eq. Qed.
#[local] Hint Resolve terminal_resolution_plans : guided.

Lemma complete_guided o completion : safe (complete_dispatched_occurrence o completion).
Proof. unfold complete_dispatched_occurrence. guide. Qed.
#[local] Hint Resolve complete_guided : guided.

Lemma waiter_guided o dispatch d : safe (completion_waiter o dispatch d).
Proof.
  unfold completion_waiter. eapply guided_bind; [by apply renewal_guided|]. guide.
Qed.

(** ** The dispatch of a claimed occurrence *)

Lemma reconcile_guided o : safe (reconcile_claimed_occurrence_before_dispatch o).
Proof.
  unfold reconcile_claimed_occurrence_before_dispatch.
  pose proof (sync_with_schedule_guided o). guide.
Qed.

#[local] Hint Resolve reconcile_guided : guided.

(** A committed transition answers with a row under its own schedule. *)
Definition owned_write (w : option OccurrenceWrite) : Prop :=
  match w with Some w => owned owner (ow_occurrence w) | None => True end.

Lemma transition_owned o i : plans i = false → guided owner (transition_current o i) owned_write.
Proof.
  intros Hi. split; [done|]. intros r Hr a Ha.
  destruct r as [[w|]|e| |]; try discriminate Ha; injection Ha as <-; [by apply (Hr w)|done].
Qed.

Lemma receipt_owned o i outcome :
  plans i = false → guided owner (transition_with_receipt o i outcome) owned_write.
Proof.
  intros Hi. split; [done|]. intros r Hr. apply disciplined_weaken.
  intros a Ha.
  destruct r as [[w|]|e| |]; try discriminate Ha; injection Ha as <-; [by apply (Hr w)|done].
Qed.

(** A probe lets the dispatch go on with the row its commit answered. *)
Definition owned_probe (r : TargetProbeResolution) : Prop :=
  match r with ProbeContinue o => owned owner o | _ => True end.

Lemma probe_resolution_owned commit r :
  owned owner (ow_occurrence commit) → probe_resolution commit = Ok r → owned_probe r.
Proof. unfold probe_resolution. intros Hw Hr. repeat case_match; by simplify_eq. Qed.

Lemma probe_guided o now existing : guided owner (resolve_target_probe o now existing) owned_probe.
Proof.
  unfold resolve_target_probe, ask. apply (guided_bind _ (Ask _ _) _ (λ _, True)); [done|].
  intros outcome _. destruct (probed outcome) as [answer detail]. cbv zeta.
  apply guided_require_bind. intros predicted _.
  apply (guided_bind _ _ _ owned_write).
  - case_match; first [by apply transition_owned|by apply receipt_owned|apply guided_fault].
  - intros [commit|] Hw; [|by apply guided_ret].
    apply guided_require. intros r. by apply probe_resolution_owned.
Qed.

(** A delivery needs the permit of its occurrence and the identity it has for good. *)
Lemma deliver_permitted cfg o existing :
  owned owner o →
  disciplined owner (λ r, ∀ d, r = Ok d → True) (Some (row_key o))
    (deliver cfg o (for_occurrence o) existing).
Proof.
  intros Ho. unfold deliver, run_with_lease_renewal. destruct existing.
  all: split; [done|]; intros [due answer].
  all: eapply (guided_bind _ (after_renewals _ _ _)); [apply after_renewals_guided|intros ? _]; guide.
Qed.

Lemma record_materialization_of_guided amb o dispatch : safe (record_materialization amb o dispatch).
Proof.
  unfold record_materialization.
  pose proof (λ sid, bind_materialized_guided amb o sid).
  pose proof (λ sid, record_materialization_guided o sid). guide.
Qed.

Lemma record_admission_guided o dispatch admission now :
  safe (record_admission o dispatch admission now).
Proof. unfold record_admission. guide. Qed.

Lemma await_guided o now : safe (await_completion o now).
Proof. unfold await_completion. guide. Qed.
#[local] Hint Resolve record_materialization_of_guided record_admission_guided await_guided : guided.

Lemma record_dispatch_guided cfg amb o identity dispatch now :
  safe (record_dispatch cfg amb o identity dispatch now).
Proof. unfold record_dispatch. guide. Qed.

Lemma not_admitted_guided o existing now : safe (resolve_existing_delivery_not_admitted o existing now).
Proof. unfold resolve_existing_delivery_not_admitted. destruct existing; guide. Qed.
#[local] Hint Resolve record_dispatch_guided not_admitted_guided : guided.

(** Rows that agree on what they are have one delivery identity. *)
Lemma identity_of_owned o o' :
  owned owner o → owned owner o' → occ_id o' = occ_id o → for_occurrence o' = for_occurrence o.
Proof. unfold owned, for_occurrence, occ_id. intros Ho Ho' Hid. rewrite <-Ho, <-Ho', Hid. done. Qed.

Lemma dispatch_guided drv amb o now existing : safe (dispatch_occurrence drv amb o now existing).
Proof.
  unfold dispatch_occurrence. eapply guided_bind; [apply probe_guided|]. intros [o'| |] Ho; [|guide..].
  cbv zeta. apply granted_bind; [done|]. intros [commit|] Hc; [cbn [granted]|done].
  destruct (Hc commit eq_refl) as [Hid Hw].
  destruct (has is_dispatch_started commit); cbn [negb]; [|done].
  rewrite <-(identity_of_owned o' (ow_occurrence commit)) by done.
  eapply permitted_bind; [by apply deliver_permitted|]. cbv beta. guide.
Qed.
#[local] Hint Resolve dispatch_guided : guided.

Lemma handle_guided drv amb o now existing : safe (handle_claimed_occurrence drv amb o now existing).
Proof. unfold handle_claimed_occurrence. guide. Qed.
#[local] Hint Resolve handle_guided : guided.

(** ** Ticks *)

#[local] Hint Resolve refill_candidate_guided : guided.

Lemma refill_candidates_guided amb now candidates report :
  safe (Driver.refill_candidates amb now candidates report).
Proof.
  revert report. induction candidates as [|c candidates IH]; intros report; cbn [refill_candidates]; guide.
Qed.
#[local] Hint Resolve refill_candidates_guided : guided.

Lemma handle_transitions_guided drv amb now ws first report :
  safe (handle_transitions drv amb now ws first report).
Proof.
  revert first report. induction ws as [|w ws IH]; intros first report; cbn [handle_transitions]; guide.
Qed.
#[local] Hint Resolve handle_transitions_guided : guided.

Lemma tick_authorized_guided drv amb report lease : safe (tick_once_authorized drv amb report lease).
Proof. unfold tick_once_authorized. guide. Qed.

Notation harmless m := (disciplined owner (λ _, True) None m).

Lemma acquire_into_guided drv d fresh slot : harmless (acquire_executor_lease_into drv d fresh slot).
Proof.
  unfold acquire_executor_lease_into. by eapply disciplined_bind; [apply (guided_call _ (AcquireExecutorLease _ _ _))|].
Qed.

Lemma acquire_guided drv fresh slot : harmless (acquire_or_renew_executor_lease drv fresh slot).
Proof.
  unfold acquire_or_renew_executor_lease.
  destruct (executor_lease_duration _) as [d|e| |]; [|done..].
  destruct slot; [|apply acquire_into_guided].
  eapply disciplined_bind; [by apply guided_call|]. intros r _.
  repeat case_match; done || apply acquire_into_guided.
Qed.

Lemma tick_guided drv amb slot : harmless (tick_once drv amb slot).
Proof.
  unfold tick_once. eapply disciplined_bind; [apply acquire_guided|]. intros [slot' [[lease|]|e| |]] _; try done.
  eapply disciplined_bind; [apply tick_authorized_guided|]. done.
Qed.

Lemma release_guided slot : harmless (release_executor_lease slot).
Proof.
  unfold release_executor_lease. destruct slot; [|done].
  eapply disciplined_bind; [by apply guided_call|]. done.
Qed.
End guided.

#[export] Hint Extern 1 (authorized_row _) => eapply applied_authorized; [|eassumption]; done : guided.
#[export] Hint Resolve get_guided commit_planned_guided refill_horizon_guided
  refill_candidate_guided sync_with_schedule_guided record_materialization_guided
  bind_materialized_guided after_renewals_guided : guided.
