(* ===== verification/System.v ===== *)
(** * System: drivers, services and waiters over one store

    Any number of programs run over one store: service operations, driver ticks
    and releases, and the completion waiters that dispatches spawn.  Their steps
    interleave freely, adapters answer as they like, and a program may be
    abandoned before any of its steps, as a process that dies or a tick that is
    cancelled is; a delivery abandoned while it runs may have been made.  The
    deliveries asked for so far are kept with the identity each named. *)

From stdpp Require Import gmap.
From S2P Require Import Prelude Text Chrono ScheduleTypes Targets Millis Authority ExecutorLease.
From S2P Require Import ScheduleLifecycle OccurrenceLifecycle OccurrenceFacts Rows RowFacts.
From S2P Require Import StoreTypes StoreContract RowMoves.
From S2P Require Import Planner Programs Service Driver Discipline Guided.

Section system.
Context `{RowCodec} {HL : ChronoLaws} {BP : BuildProfile} `{!ErrorText} `{!ScheduleStore}.

Record System := mkSystem {
  sys_store : StoreState;
  sys_threads : list (Prog unit);
  sys_deliveries : list (Occurrence * ScheduleDeliveryIdentity);
}.

Definition forget {A} (m : Prog A) : Prog unit := prog_bind m (λ _, Done tt).

(** What a process may start. *)
Inductive entry : Prog unit → Prop :=
| entry_read X (c : StoreCall X) : is_read c = true → entry (forget (call c))
| entry_create svc amb request : entry (forget (create svc amb request))
| entry_update svc amb id request : entry (forget (update svc amb id request))
| entry_pause amb id : entry (forget (pause amb id))
| entry_resume amb id : entry (forget (resume amb id))
| entry_delete amb id : entry (forget (delete_schedule amb id))
| entry_refill_horizon amb id : entry (forget (refill_horizon amb id))
| entry_refill_candidate amb candidate now : entry (forget (refill_candidate amb candidate now))
| entry_sync o : entry (forget (sync_occurrence_target_with_schedule o))
| entry_materialize o session_id : entry (forget (record_dispatch_materialization o session_id))
| entry_bind amb o session_id : entry (forget (bind_materialized_session_for_occurrence amb o session_id))
| entry_tick drv amb slot : entry (forget (tick_once drv amb slot))
| entry_release slot : entry (forget (release_executor_lease slot)).

Definition spawned {X} (q : Query X) : list (Prog unit) :=
  match q with SpawnWaiter o dispatch d => [forget (completion_waiter o dispatch d)] | _ => [] end.

Definition asked {X} (q : Query X) : list (Occurrence * ScheduleDeliveryIdentity) :=
  option_list (delivery_of q).

Inductive sys_step : System → System → Prop :=
| step_call st l X (c : StoreCall X) k l' log now :
    sys_step (mkSystem st (l ++ Call c k :: l') log)
      (mkSystem (answer c now st).1 (l ++ k (answer c now st).2 :: l') log)
| step_notify st l k l' log :
    sys_step (mkSystem st (l ++ Notify k :: l') log) (mkSystem st (l ++ k :: l') log)
| step_ask st l X (q : Query X) k x l' log :
    sys_step (mkSystem st (l ++ Ask q k :: l') log)
      (mkSystem st (l ++ k x :: l' ++ spawned q) (log ++ asked q))
| step_lost st l X (q : Query X) k l' log :
    sys_step (mkSystem st (l ++ Ask q k :: l') log) (mkSystem st (l ++ l') (log ++ asked q))
| step_abandon st l m l' log : sys_step (mkSystem st (l ++ m :: l') log) (mkSystem st (l ++ l') log)
| step_enter st l m log : entry m → sys_step (mkSystem st l log) (mkSystem st (l ++ [m]) log).

(** ** One thread at a time

    The threads at [l] and [l'] wait while one takes up to [fuel] steps;
    questions are answered by [oracle] and the store's clock stands at [now]. *)

Fixpoint solo (fuel : nat) (oracle : ∀ X, Query X → X) (now : DateTime) (l : list (Prog unit))
    (m : Prog unit) (l' : list (Prog unit)) (st : StoreState)
    (log : list (Occurrence * ScheduleDeliveryIdentity)) : System :=
  match fuel, m with
  | 0, _ | _, Done _ => mkSystem st (l ++ m :: l') log
  | S fuel, Call c k => let '(st, r) := answer c now st in solo fuel oracle now l (k r) l' st log
  | S fuel, Notify k => solo fuel oracle now l k l' st log
  | S fuel, Ask q k => solo fuel oracle now l (k (oracle _ q)) (l' ++ spawned q) st (log ++ asked q)
  end.

Lemma solo_reaches fuel oracle now l m l' st log :
  rtc sys_step (mkSystem st (l ++ m :: l') log) (solo fuel oracle now l m l' st log).
Proof.
  revert m l' st log. induction fuel as [|fuel IH]; intros m l' st log; cbn [solo]; [done|].
  destruct m as [a|X c k|k|X q k].
  - done.
  - destruct (answer c now st) as [st' r] eqn:Hr. eapply rtc_l; [|apply IH].
    pose proof (step_call st l X c k l' log now) as Hs. by rewrite Hr in Hs.
  - eapply rtc_l; [apply step_notify|apply IH].
  - eapply rtc_l; [apply (step_ask _ _ _ _ _ (oracle X q))|apply IH].
Qed.

(** The [n]-th thread runs, up to [fuel] steps. *)
Definition run_at (fuel : nat) (oracle : ∀ X, Query X → X) (now : DateTime) (n : nat) (s : System)
  : System :=
  match drop n (sys_threads s) with
  | m :: l' => solo fuel oracle now (take n (sys_threads s)) m l' (sys_store s) (sys_deliveries s)
  | [] => s
  end.

Lemma run_at_reaches fuel oracle now n s : rtc sys_step s (run_at fuel oracle now n s).
Proof.
  unfold run_at. destruct s as [st ms log]. cbn. destruct (drop n ms) as [|m l'] eqn:Hd; [done|].
  rewrite <-(take_drop n ms) at 1. rewrite Hd. apply solo_reaches.
Qed.

Definition enter (m : Prog unit) (s : System) : System :=
  mkSystem (sys_store s) (sys_threads s ++ [m]) (sys_deliveries s).

Lemma enter_reaches m s : entry m → rtc sys_step s (enter m s).
Proof. intros Hm. apply rtc_once. destruct s. by apply step_enter. Qed.

(** ** Entries keep to the discipline *)

Lemma forget_harmless owner {A} (m : Prog A) :
  disciplined owner (λ _, True) None m → disciplined owner (λ _, True) None (forget m).
Proof. intros Hm. by eapply disciplined_bind; [exact Hm|]. Qed.

Lemma harmless_weaken owner {A} (m : Service A) Q :
  guided owner m Q → disciplined owner (λ _, True) None m.
Proof. apply (disciplined_mono owner). done. Qed.

Lemma entry_harmless owner m : entry m → disciplined owner (λ _, True) None m.
Proof.
  intros []; apply forget_harmless; try (eapply harmless_weaken).
  - apply guided_call. by destruct c.
  - apply create_guided.
  - apply update_guided.
  - apply pause_guided.
  - apply resume_guided.
  - apply delete_guided.
  - apply refill_horizon_guided.
  - apply refill_candidate_guided.
  - apply sync_with_schedule_guided.
  - apply record_materialization_guided.
  - apply bind_materialized_guided.
  - apply tick_guided.
  - apply release_guided.
Qed.

Lemma spawned_harmless owner {X} (q : Query X) :
  Forall (disciplined owner (λ _, True) None) (spawned q).
Proof.
  destruct q; cbn [spawned]; [by constructor..|]. constructor; [|by constructor].
  apply forget_harmless, (harmless_weaken _ _ (λ _, True)), waiter_guided.
Qed.

(** ** What holds of every reachable system *)

Context `{!LawfulStore} `{!TransitionStore}.

Definition agrees (owner : OccurrenceId → ScheduleId) (rows : gmap OccurrenceId Occurrence) : Prop :=
  ∀ id o, rows !! id = Some o → owner id = schedule_id (occurrence_machine o).

(** The attempt of [key] is spent in the store. *)
Definition recorded (rows : gmap OccurrenceId Occurrence) (key : Key) : Prop :=
  ∃ o, rows !! key.1 = Some o ∧ spent key.2 o.

Definition delivered_keys (log : list (Occurrence * ScheduleDeliveryIdentity)) : list Key :=
  (λ d, row_key d.1) <$> log.

Definition held (permits : list (option Key)) : list Key := omap id permits.

(** A delivery names its row by the identity the row has for good. *)
Definition named (owner : OccurrenceId → ScheduleId) (d : Occurrence * ScheduleDeliveryIdentity) : Prop :=
  d.2 = for_occurrence d.1 ∧ owned owner d.1.

Record sys_inv (permits : list (option Key)) (s : System) : Prop := {
  inv_store : store_wf (sys_store s);
  inv_once : NoDup (held permits ++ delivered_keys (sys_deliveries s));
  inv_recorded : Forall (recorded (stored_rows (sys_store s)))
    (held permits ++ delivered_keys (sys_deliveries s));
  inv_threads owner : agrees owner (stored_rows (sys_store s)) →
    Forall2 (disciplined owner (λ _, True)) permits (sys_threads s);
  inv_named owner : agrees owner (stored_rows (sys_store s)) → Forall (named owner) (sys_deliveries s);
}.

Definition owner_of (rows : gmap OccurrenceId Occurrence) (id : OccurrenceId) : ScheduleId :=
  from_option (λ o, schedule_id (occurrence_machine o)) "" (rows !! id).

Lemma owner_of_agrees rows : agrees (owner_of rows) rows.
Proof. intros id o Ho. unfold owner_of. by rewrite Ho. Qed.

Lemma agrees_back owner rows rows' : rows_advance rows rows' → agrees owner rows' → agrees owner rows.
Proof.
  intros Hadv Hag id o Ho. destruct (Hadv _ _ Ho) as (o' & Ho' & Ha).
  rewrite (Hag _ _ Ho'). apply advances_identity in Ha as (_ & Hs & _). done.
Qed.

Lemma recorded_advance rows rows' key : rows_advance rows rows' → recorded rows key → recorded rows' key.
Proof.
  intros Hadv (o & Ho & Hs). destruct (Hadv _ _ Ho) as (o' & Ho' & Ha).
  exists o'. split; [done|]. by eapply advances_spent.
Qed.

(** *** Answers *)

Lemma put_owned owner st id w :
  store_wf st → agrees owner (stored_rows st) → stored_rows st !! id = Some (ow_occurrence w) →
  occ_id (ow_occurrence w) = id ∧ owned owner (ow_occurrence w).
Proof.
  intros Hwf Hag Hw. destruct (stored_row_valid _ _ _ Hwf Hw) as [_ Hid]. split; [done|].
  unfold owned. rewrite Hid. by apply Hag.
Qed.

Lemma answer_consistent owner {X} (c : StoreCall X) now st :
  store_wf st → authorized_call c → agrees owner (stored_rows (answer c now st).1) →
  consistent owner c (answer c now st).2.
Proof.
  intros Hwf Hc Hag. pose proof (answer_wf _ c now st Hwf) as Hwf'. destruct c; try done.
  - intros w Hw. destruct (transition_commits _ _ _ _ _ _ _ Hwf Hc Hw) as (o & _ & _ & _ & _ & Hst).
    apply (put_owned _ (answer (TransitionIfCurrent id expected_attempt expected_claim_token transition) now st).1);
      [done..|]. by rewrite Hst, lookup_insert_eq.
  - intros w Hw.
    destruct (receipt_commits _ _ _ _ _ _ _ _ Hwf Hc Hw) as (o & w0 & _ & _ & _ & _ & Hst).
    apply (put_owned _ (answer (TransitionWithReceiptIfCurrent id expected_attempt
                          expected_claim_token transition outcome) now st).1); [done..|].
    by rewrite Hst, lookup_insert_eq.
Qed.

(** A permit is new: until then its attempt could still be dispatched. *)
Lemma granted_fresh {X} (c : StoreCall X) now st key :
  store_wf st → authorized_call c → granted c (answer c now st).2 = Some key →
  ¬ recorded (stored_rows st) key ∧ recorded (stored_rows (answer c now st).1) key.
Proof.
  intros Hwf Hc Hg. pose proof (answer_wf _ c now st Hwf) as Hwf'. destruct c; try done.
  cbn [granted] in Hg. destruct (answer _ now st).2 as [[w|]|e| |] eqn:Hr; try done.
  destruct (has is_dispatch_started w) eqn:Hst; [|done]. injection Hg as <-.
  destruct (receipt_commits _ _ _ _ _ _ _ _ Hwf Hc Hr) as (o & w0 & Ho & Hat & _ & Hch & Hrows).
  assert (Hin : E_DispatchStarted ∈ ow_effects w).
  { apply existsb_exists in Hst as ([] & Hin & ?); try done. by apply list_elem_of_In. }
  destruct (chain_started _ _ _ _ Hch Hin) as (Hcl & Hsame & Hsp).
  assert (Hput : stored_rows (answer (TransitionWithReceiptIfCurrent id expected_attempt
      expected_claim_token transition outcome) now st).1 !! id = Some (ow_occurrence w))
    by (by rewrite Hrows, lookup_insert_eq).
  destruct (stored_row_valid _ _ _ Hwf' Hput) as [_ Hid].
  unfold recorded, row_key. cbn. rewrite Hid, Hsame. split; [|by exists (ow_occurrence w)].
  intros (o' & Ho' & [|[_ Hn]]); rewrite Ho in Ho'; injection Ho' as <-; [lia|done].
Qed.

(** *** Steps *)

Lemma held_split p1 p p2 :
  held (p1 ++ p :: p2) ≡ₚ option_list p ++ held (p1 ++ p2).
Proof.
  unfold held. rewrite !omap_app. destruct p; cbn; [|done]. by rewrite Permutation_middle.
Qed.

(** A thread that goes on with another permit. *)
Lemma keys_split p1 p p2 (log : list Key) :
  held (p1 ++ p :: p2) ++ log ≡ₚ option_list p ++ (held (p1 ++ p2) ++ log).
Proof. by rewrite held_split, (assoc (++)). Qed.

Notation disciplined_at owner := (disciplined owner (λ _, True)).

Lemma threads_split owner permits l (m : Prog unit) l' :
  Forall2 (disciplined_at owner) permits (l ++ m :: l') →
  ∃ p1 p p2, permits = p1 ++ p :: p2 ∧ Forall2 (disciplined_at owner) p1 l ∧
    disciplined_at owner p m ∧ Forall2 (disciplined_at owner) p2 l' ∧ length p1 = length l.
Proof.
  intros (p1 & p' & H1' & (p & p2 & H2' & H3' & ->)%Forall2_cons_inv_r & ->)%Forall2_app_inv_r.
  exists p1, p, p2. split_and!; try done. by eapply Forall2_length.
Qed.

(** The invariant of a system whose [l]-th thread is at hand. *)
Lemma inv_split permits st l m l' log :
  sys_inv permits (mkSystem st (l ++ m :: l') log) →
  ∃ p1 p p2, permits = p1 ++ p :: p2 ∧
    ∀ owner, agrees owner (stored_rows st) →
      Forall2 (disciplined_at owner) p1 l ∧ disciplined_at owner p m ∧
      Forall2 (disciplined_at owner) p2 l'.
Proof.
  intros [_ _ _ Hth _]. cbn in Hth.
  destruct (threads_split _ _ _ _ _ (Hth _ (owner_of_agrees _))) as (p1 & p & p2 & -> & _ & _ & _ & Hl).
  exists p1, p, p2. split; [done|]. intros owner Hag. specialize (Hth _ Hag).
  apply Forall2_app_inv in Hth as [Hl1 Hl2]; [|done]. by inversion Hl2.
Qed.

Lemma inv_call permits st l X (c : StoreCall X) k l' log now :
  sys_inv permits (mkSystem st (l ++ Call c k :: l') log) →
  ∃ permits', sys_inv permits' (mkSystem (answer c now st).1 (l ++ k (answer c now st).2 :: l') log).
Proof.
  intros Hinv. destruct (inv_split _ _ _ _ _ _ Hinv) as (p1 & p & p2 & -> & Hth).
  destruct Hinv as [Hwf Honce Hrec _ Hnamed]. cbn in Hwf, Honce, Hrec, Hnamed.
  destruct (Hth _ (owner_of_agrees _)) as (_ & [Hc _] & _).
  pose proof (calls_advance _ c now st Hwf Hc) as Hadv.
  exists (p1 ++ renewed_permit (granted c (answer c now st).2) p :: p2).
  rewrite keys_split in Honce, Hrec.
  assert (Hkeys : NoDup (option_list (renewed_permit (granted c (answer c now st).2) p) ++
      (held (p1 ++ p2) ++ delivered_keys log)) ∧
    Forall (recorded (stored_rows (answer c now st).1))
      (option_list (renewed_permit (granted c (answer c now st).2) p) ++
      (held (p1 ++ p2) ++ delivered_keys log))).
  { destruct (granted c (answer c now st).2) as [key|] eqn:Hg; cbn [renewed_permit].
    - destruct (granted_fresh _ _ _ _ Hwf Hc Hg) as [Hnew Hrec'].
      apply NoDup_app in Honce as (_ & _ & Honce). apply Forall_app in Hrec as [_ Hrec]. split.
      + constructor; [|done]. intros Hin. rewrite Forall_forall in Hrec. by apply Hnew, Hrec.
      + constructor; [done|]. eapply Forall_impl; [exact Hrec|]. intros key'. by apply recorded_advance.
    - split; [done|]. eapply Forall_impl; [exact Hrec|]. intros key'. by apply recorded_advance. }
  destruct Hkeys as [Hnd Hall].
  split; cbn; [by apply answer_wf|by rewrite keys_split|by rewrite keys_split| |].
  - intros owner Hag. destruct (Hth owner (agrees_back _ _ _ Hadv Hag)) as (Hl1 & [_ Hk] & Hl2).
    apply Forall2_app; [done|]. constructor; [|done]. by apply Hk, answer_consistent.
  - intros owner Hag. by apply Hnamed, (agrees_back _ _ _ Hadv).
Qed.

Lemma held_none permits n : held (permits ++ replicate n None) = held permits.
Proof.
  unfold held. rewrite omap_app. replace (omap id (replicate n (None : option Key))) with (@nil Key);
    [by rewrite app_nil_r|]. by induction n.
Qed.

(** The permit a question leaves. *)
Definition left_permit {X} (q : Query X) (p : option Key) : option Key :=
  match delivery_of q with Some _ => None | None => p end.

Lemma disciplined_ask owner {X} (q : Query X) (k : X → Prog unit) p :
  disciplined_at owner p (Ask q k) →
  (∀ x, disciplined_at owner (left_permit q p) (k x)) ∧
  option_list p = option_list (left_permit q p) ++ delivered_keys (asked q) ∧
  Forall (named owner) (asked q).
Proof.
  unfold left_permit, asked. cbn [disciplined]. destruct (delivery_of q) as [[o identity]|]; cbn.
  - intros [(-> & -> & Ho) Hk]. split_and!; [done|done|]. by repeat constructor.
  - intros Hk. rewrite app_nil_r. by split_and!.
Qed.

Lemma inv_ask permits st l X (q : Query X) k l' log :
  sys_inv permits (mkSystem st (l ++ Ask q k :: l') log) →
  ∃ p1 p p2, 
    (∀ owner, agrees owner (stored_rows st) →
      Forall2 (disciplined_at owner) p1 l ∧ (∀ x, disciplined_at owner p (k x)) ∧
      Forall2 (disciplined_at owner) p2 l') ∧
    NoDup (option_list p ++ held (p1 ++ p2) ++ delivered_keys (log ++ asked q)) ∧
    Forall (recorded (stored_rows st))
      (option_list p ++ held (p1 ++ p2) ++ delivered_keys (log ++ asked q)) ∧
    (∀ owner, agrees owner (stored_rows st) → Forall (named owner) (log ++ asked q)).
Proof.
  intros Hinv. destruct (inv_split _ _ _ _ _ _ Hinv) as (p1 & p & p2 & -> & Hth).
  destruct Hinv as [Hwf Honce Hrec _ Hnamed]. cbn in Hwf, Honce, Hrec, Hnamed.
  exists p1, (left_permit q p), p2.
  assert (Hkeys : held (p1 ++ p :: p2) ++ delivered_keys log ≡ₚ
    option_list (left_permit q p) ++ held (p1 ++ p2) ++ delivered_keys (log ++ asked q)).
  { destruct (Hth _ (owner_of_agrees _)) as (_ & (_ & Hp & _)%disciplined_ask & _).
    rewrite keys_split, Hp. unfold delivered_keys. rewrite fmap_app.
    rewrite <-!(assoc (++)). f_equiv. rewrite (assoc (++) (held _)). apply Permutation_app_comm. }
  rewrite Hkeys in Honce, Hrec. split_and!; [|done..|].
  - intros owner Hag. destruct (Hth owner Hag) as (? & (? & _)%disciplined_ask & ?). done.
  - intros owner Hag. destruct (Hth owner Hag) as (_ & (_ & _ & ?)%disciplined_ask & _).
    apply Forall_app. auto.
Qed.

(** Threads that hold nothing may start, and any thread may go. *)
Lemma inv_start permits st l ms log :
  sys_inv permits (mkSystem st l log) → (∀ owner, Forall (disciplined_at owner None) ms) →
  sys_inv (permits ++ replicate (length ms) None) (mkSystem st (l ++ ms) log).
Proof.
  intros [Hwf Honce Hrec Hth Hnamed] Hms. cbn in Hwf, Honce, Hrec, Hth, Hnamed.
  split; cbn; rewrite ?held_none; try done. intros owner Hag.
  apply Forall2_app; [by apply Hth|]. apply Forall2_replicate_l; [done|]. apply Hms.
Qed.

Lemma inv_abandon permits st l m l' log :
  sys_inv permits (mkSystem st (l ++ m :: l') log) →
  ∃ permits', sys_inv permits' (mkSystem st (l ++ l') log).
Proof.
  intros Hinv. destruct (inv_split _ _ _ _ _ _ Hinv) as (p1 & p & p2 & -> & Hth).
  destruct Hinv as [Hwf Honce Hrec _ Hnamed]. cbn in Hwf, Honce, Hrec, Hnamed.
  rewrite keys_split in Honce, Hrec. exists (p1 ++ p2).
  split; cbn; [done|by apply NoDup_app in Honce as (_ & _ & ?)|by apply Forall_app in Hrec as [_ ?]| |done].
  intros owner Hag. destruct (Hth owner Hag) as (? & _ & ?). by apply Forall2_app.
Qed.

Lemma sys_step_inv permits s s' :
  sys_inv permits s → sys_step s s' → ∃ permits', sys_inv permits' s'.
Proof.
  intros Hinv Hs. destruct Hs as [st l X c k l' log now|st l k l' log|st l X q k x l' log
    |st l X q k l' log|st l m l' log|st l m log He].
  - by eapply inv_call.
  - destruct (inv_split _ _ _ _ _ _ Hinv) as (p1 & p & p2 & -> & Hth). exists (p1 ++ p :: p2).
    destruct Hinv as [Hwf Honce Hrec _ Hnamed]. split; try done. cbn. intros owner Hag.
    destruct (Hth owner Hag) as (? & Hk & ?). apply Forall2_app; [done|]. by constructor.
  - apply inv_ask in Hinv as Hask. destruct Hask as (p1 & p & p2 & Hth & Honce & Hrec & Hnamed).
    exists ((p1 ++ p :: p2) ++ replicate (length (spawned q)) None).
    replace (l ++ k x :: l' ++ spawned q) with ((l ++ k x :: l') ++ spawned q) by (by rewrite <-(assoc (++))).
    apply inv_start; [|intros owner; apply spawned_harmless].
    split; cbn; [by destruct Hinv|by rewrite keys_split|by rewrite keys_split| |done].
    intros owner Hag. destruct (Hth owner Hag) as (? & ? & ?). apply Forall2_app; [done|]. by constructor.
  - apply inv_ask in Hinv as Hask. destruct Hask as (p1 & p & p2 & Hth & Honce & Hrec & Hnamed).
    exists (p1 ++ p2). apply NoDup_app in Honce as (_ & _ & ?). apply Forall_app in Hrec as [_ ?].
    split; cbn; [by destruct Hinv|done|done| |done].
    intros owner Hag. destruct (Hth owner Hag) as (? & _ & ?). by apply Forall2_app.
  - by eapply inv_abandon.
  - exists (permits ++ replicate 1 None). apply (inv_start _ _ _ [m]); [done|].
    intros owner. constructor; [|constructor]. by apply entry_harmless.
Qed.

(** A store on its own. *)
Definition sys_init (st : StoreState) : System := mkSystem st [] [].

Lemma sys_init_inv st : store_wf st → sys_inv [] (sys_init st).
Proof. intros Hwf. split; cbn; [done|constructor|constructor|by constructor|constructor]. Qed.

Lemma reachable_inv st s : store_wf st → rtc sys_step (sys_init st) s → ∃ permits, sys_inv permits s.
Proof.
  intros Hwf Hr. assert (∃ permits, sys_inv permits (sys_init st)) as Hi by (exists []; by apply sys_init_inv).
  revert Hi. induction Hr; [done|]. intros [permits Hi]. apply IHHr. by eapply sys_step_inv.
Qed.
End system.
