(* ===== verification/DemoSystem.v ===== *)
(** * DemoSystem: a tick and its waiters over the small store

    The rows of the small store are claimed before their misfire deadline; the
    target accepts each delivery and completes it.  A fingerprint is the row
    itself, so fingerprints tell rows apart. *)

From stdpp Require Import gmap.
From S2P Require Import Prelude Text Chrono ScheduleTypes Targets Millis Authority ExecutorLease.
From S2P Require Import ScheduleLifecycle OccurrenceLifecycle Rows RowFacts ScheduleRows.
From S2P Require Import StoreTypes StoreContract MemoryStore MemoryClaims MemoryFacts MemoryContract.
From S2P Require Import DemoStore Planner Programs Service Driver System.

#[local] Existing Instances dev_profile demo_targets demo_data.

#[local] Instance date_eq_dec : EqDecision DateTime.
Proof.
  intros a b. destruct (decide (ns a = ns b)) as [He|Hn]; [left; by apply (inj ns)|right; congruence].
Defined.
#[local] Instance interval_eq_dec : EqDecision IntervalTriggerSpec.
Proof. solve_decision. Defined.
#[local] Instance trigger_eq_dec : EqDecision TriggerSpec.
Proof. solve_decision. Defined.
#[local] Instance config_eq_dec : EqDecision ScheduleConfig.
Proof. solve_decision. Defined.
#[local] Instance schedule_eq_dec : EqDecision Schedule.
Proof. solve_decision. Defined.
#[local] Instance row_eq_dec : EqDecision Occurrence.
Proof. solve_decision. Defined.

Definition row_codec : RowCodec := {|
  Fingerprint := Schedule + Occurrence; schedule_bytes := inl; occurrence_bytes := inr |}.
#[local] Existing Instance row_codec.

Lemma row_codec_faithful : FaithfulCodec.
Proof. split. by intros o o' [= ->]. Qed.

Definition demo_error_text : ErrorText := λ _, "delivery failed".
#[local] Existing Instance demo_error_text.

Definition accepted_receipt (o : Occurrence) (identity : ScheduleDeliveryIdentity) : DeliveryReceipt := {|
  r_occurrence_id := occ_id o; r_attempt := attempt_count (occurrence_machine o);
  r_stage := DeliveryReceiptStage_DispatchAccepted; r_recorded_at_utc_ms := 2000%N;
  r_correlation_id := Some (identity_correlation_id identity); r_detail := None;
  r_failure_class := None; r_runtime_outcome := Some AdmissionAccepted;
  r_materialized_session_id := None |}.

Definition accepted_dispatch (o : Occurrence) (identity : ScheduleDeliveryIdentity) : DeliveryDispatch := {|
  dispatch_receipt := accepted_receipt o identity;
  dispatch_correlation_id := Some (identity_correlation_id identity); dispatch_session_id := None |}.

Definition completed_terminal : DeliveryTerminal := {|
  terminal_phase := Completed; terminal_receipt := None; terminal_detail := None;
  terminal_failure_reason := None; terminal_completion_outcome := None;
  terminal_runtime_outcome := None |}.

(** Every delivery is accepted after one lease renewal, and completes. *)
Definition willing (X : Type) (q : Query X) : X :=
  match q with
  | ProbeTarget _ => Ok Ready
  | DeliverOccurrence o identity => ([false], Ok (accepted_dispatch o identity))
  | DeliverExistingOccurrence o identity _ => ([false], Ok (Dispatch (accepted_dispatch o identity)))
  | CompletionOf _ _ => ([], Ok completed_terminal)
  | SpawnWaiter _ _ _ => tt
  end.

Definition demo_driver : ScheduleDriver := {|
  driver_service := mkService None []; driver_owner_id := "worker-1"; executor_owner_id := lit "host-1";
  driver_config := {| claim_limit := 8; config_lease_duration := (30 * 10 ^ 9)%Z |} |}.

Definition demo_tick_ambient : TickAmbient := {|
  ambient_of _ := {| fresh_schedule_id := "schedule-1"; fresh_occurrence_id _ := "occ-z";
                     apply_now := UniformClock.at_seconds 2; plan_now := UniformClock.at_seconds 2 |};
  fresh_lease := 1%N; fresh_claims id := "claim-" +:+ id |}.

Definition demo_tick : Prog unit := forget (tick_once demo_driver demo_tick_ambient None).

(** A thousand steps are more than any program here takes. *)
Notation to_the_end := (run_at 1000 willing).

(** The tick enters and runs, then the two waiters it spawned. *)
Definition ticked : System :=
  to_the_end (UniformClock.at_seconds 2) 0 (enter demo_tick (sys_init (demo_store : StoreState))).

Definition half_completed : System := to_the_end (UniformClock.at_seconds 4) 1 ticked.
Definition completed : System := to_the_end (UniformClock.at_seconds 5) 2 half_completed.

Lemma ticked_reachable : rtc sys_step (sys_init (demo_store : StoreState)) ticked.
Proof. etrans; [apply (enter_reaches demo_tick), entry_tick|apply run_at_reaches]. Qed.

Lemma half_reachable : rtc sys_step (sys_init (demo_store : StoreState)) half_completed.
Proof. etrans; [apply ticked_reachable|apply run_at_reaches]. Qed.

Lemma completed_reachable : rtc sys_step half_completed completed.
Proof. apply run_at_reaches. Qed.

(** The schedule is deleted while a waiter or a delivery is under way. *)
Definition demo_delete : Prog unit :=
  forget (delete_schedule (ambient_of demo_tick_ambient "schedule-0") "schedule-0").

Definition deleted_meanwhile (fuel thread : nat) (s : System) : System :=
  let s := enter demo_delete (run_at fuel willing (UniformClock.at_seconds 4) thread s) in
  to_the_end (UniformClock.at_seconds 6) thread
    (to_the_end (UniformClock.at_seconds 5) (pred (length (sys_threads s))) s).

Lemma deleted_reachable fuel thread s : rtc sys_step s (deleted_meanwhile fuel thread s).
Proof.
  unfold deleted_meanwhile. etrans; [apply (run_at_reaches fuel)|].
  etrans; [apply (enter_reaches demo_delete), entry_delete|].
  etrans; apply run_at_reaches.
Qed.

Definition ended (m : Prog unit) : bool := match m with Done _ => true | _ => false end.

Definition stages_of (s : System) (id : OccurrenceId) : list DeliveryReceiptStage :=
  r_stage <$> default [] (receipts (sys_store s : MemoryScheduleState) !! id).

Definition row_of (s : System) (id : OccurrenceId) : option Occurrence :=
  occurrences (sys_store s : MemoryScheduleState) !! id.

(** The first delivery returns just after the deletion. *)
Definition deleted_before_acceptance : System :=
  deleted_meanwhile 10 0 (enter demo_tick (sys_init (demo_store : StoreState))).

(** The deletion comes between a waiter's read of its row and its transition. *)
Definition deleted_before_completion : System := deleted_meanwhile 4 1 ticked.
