(* ===== verification/SystemProps.v ===== *)
(** * SystemProps: what no interleaving can break

    Drivers, services and completion waiters share one store, and any of them
    may die at any step.  Still no attempt is delivered twice, a delivery is
    asked for only once its attempt is recorded in the store, all deliveries of
    an occurrence carry one identity, and outcomes are final. *)

From stdpp Require Import gmap.
From S2P Require Import Prelude Text Chrono ScheduleTypes Targets Millis Authority ExecutorLease.
From S2P Require Import ScheduleLifecycle OccurrenceLifecycle OccurrenceFacts OccurrenceTerminal.
From S2P Require Import Rows RowFacts ScheduleRows StoreTypes StoreContract RowMoves.
From S2P Require Import MemoryStore MemoryClaims MemoryFacts MemoryContract MemoryMoves DemoStore.
From S2P Require Import Planner Programs Service Driver Discipline Guided System DemoSystem.

Section properties.
Context `{RowCodec} {HL : ChronoLaws} {BP : BuildProfile} `{!ErrorText} `{!ScheduleStore}.
Context `{!LawfulStore} `{!TransitionStore}.

(** ** Rows of a running system *)

Lemma sys_step_advances permits s s' :
  sys_inv permits s → sys_step s s' → rows_advance (stored_rows (sys_store s)) (stored_rows (sys_store s')).
Proof.
  intros Hinv Hs. destruct Hs as [st l X c k l' log now| | | | | ]; try apply rows_advance_refl. cbn.
  destruct (inv_split _ _ _ _ _ _ Hinv) as (p1 & p & p2 & -> & Hth).
  destruct (Hth _ (owner_of_agrees _)) as (_ & [Hc _] & _). apply calls_advance; [|done]. by destruct Hinv.
Qed.

Lemma sys_steps_advance permits s s' :
  sys_inv permits s → rtc sys_step s s' → rows_advance (stored_rows (sys_store s)) (stored_rows (sys_store s')).
Proof.
  intros Hinv Hr. revert permits Hinv. induction Hr as [|s s1 s' Hs _ IH]; intros permits Hinv.
  { apply rows_advance_refl. }
  destruct (sys_step_inv _ _ _ Hinv Hs) as [permits' Hinv'].
  eapply rows_advance_trans; [by eapply sys_step_advances|by eapply IH].
Qed.

Lemma step_terminal o o' :
  row_step o o' → is_terminal (lifecycle_phase (occurrence_machine o)) = true →
  OccurrenceTerminal.same_outcome (occurrence_machine o) (occurrence_machine o').
Proof.
  intros (i & w & _ & Ha & <-) Ht. apply occurrence_apply_fires in Ha as (dsl_i & t & _ & HF).
  by apply (fires_terminal _ _ _ _ _ HF).
Qed.

Lemma advances_terminal o o' :
  advances o o' → is_terminal (lifecycle_phase (occurrence_machine o)) = true →
  OccurrenceTerminal.same_outcome (occurrence_machine o) (occurrence_machine o').
Proof.
  induction 1 as [|o o1 o2 Hs _ IH]; intros Ht; [apply same_outcome_refl|].
  pose proof (step_terminal _ _ Hs Ht) as Ho1. eapply same_outcome_trans; [exact Ho1|].
  apply IH. apply same_outcome_phase in Ho1 as [-> _]. done.
Qed.

(** ** Properties *)

(** C1: however the drivers, services and completion waiters of any number of
    processes interleave over one store, and whichever of them die, no attempt
    at an occurrence is delivered twice, and an attempt is delivered only after
    the store has recorded it: its row stands past the claim of that attempt,
    so no later claim can start it again. *)
Theorem attempts_delivered_once st s :
  store_wf st → rtc sys_step (sys_init st) s →
  NoDup (delivered_keys (sys_deliveries s)) ∧
  Forall (recorded (stored_rows (sys_store s))) (delivered_keys (sys_deliveries s)).
Proof.
  intros Hwf Hr. destruct (reachable_inv _ _ Hwf Hr) as [permits [_ Honce Hrec _ _]].
  apply NoDup_app in Honce as (_ & _ & ?). by apply Forall_app in Hrec as [_ ?].
Qed.

(** C2: every delivery names the identity of its occurrence, the one its stored
    row has: redeliveries of an occurrence, by whichever driver and after
    whichever changes to the row, carry the idempotency key and the correlation
    of the first, so a target can recognise them. *)
Theorem deliveries_keep_identity st s :
  store_wf st → rtc sys_step (sys_init st) s →
  (∀ o identity, (o, identity) ∈ sys_deliveries s →
     ∃ row, stored_rows (sys_store s) !! occ_id o = Some row ∧ identity = for_occurrence row) ∧
  ∀ o identity o' identity', (o, identity) ∈ sys_deliveries s → (o', identity') ∈ sys_deliveries s →
    identity = identity' ↔ occ_id o = occ_id o'.
Proof.
  intros Hwf Hr. destruct (reachable_inv _ _ Hwf Hr) as [permits [Hst _ Hrec _ Hnamed]].
  specialize (Hnamed _ (owner_of_agrees _)). rewrite Forall_forall in Hnamed. rewrite Forall_forall in Hrec.
  assert (Hrow : ∀ o identity, (o, identity) ∈ sys_deliveries s →
     ∃ row, stored_rows (sys_store s) !! occ_id o = Some row ∧ identity = for_occurrence row).
  { intros o identity Hin. destruct (Hnamed _ Hin) as [Hid Hown]. cbn in Hid, Hown. subst identity.
    destruct (Hrec (row_key o)) as (row & Hrow & _).
    { apply elem_of_app. right. by apply (list_elem_of_fmap_2 (λ d, row_key d.1) _ (o, for_occurrence o)). }
    exists row. split; [done|]. destruct (stored_row_valid _ _ _ Hst Hrow) as [_ Hid].
    symmetry. eapply identity_of_owned; [exact Hown| |done].
    unfold owned. rewrite Hid. by apply owner_of_agrees. }
  split; [done|]. intros o i o' i' Hin Hin'.
  destruct (Hrow _ _ Hin) as (row & Ho & ->), (Hrow _ _ Hin') as (row' & Ho' & ->). split.
  - intros Heq%(f_equal identity_correlation_id).
    destruct (stored_row_valid _ _ _ Hst Ho) as [_ <-], (stored_row_valid _ _ _ Hst Ho') as [_ <-]. done.
  - intros Heq. rewrite Heq, Ho' in Ho. by injection Ho as ->.
Qed.

(** C4: outcomes are final.  A row that has ended in a reachable system is never
    lost, and whatever programs run afterwards leave its phase, failure class,
    completion time and superseding revision as they are. *)
Theorem outcomes_final st s s' id o :
  store_wf st → rtc sys_step (sys_init st) s → rtc sys_step s s' →
  stored_rows (sys_store s) !! id = Some o →
  is_terminal (lifecycle_phase (occurrence_machine o)) = true →
  ∃ o', stored_rows (sys_store s') !! id = Some o' ∧
    OccurrenceTerminal.same_outcome (occurrence_machine o) (occurrence_machine o').
Proof.
  intros Hwf Hr Hr' Ho Ht. destruct (reachable_inv _ _ Hwf Hr) as [permits Hinv].
  destruct (sys_steps_advance _ _ _ Hinv Hr' _ _ Ho) as (o' & Ho' & Hadv).
  exists o'. split; [done|]. by apply advances_terminal.
Qed.
End properties.

(** ** Examples *)

#[local] Existing Instances dev_profile demo_targets demo_data row_codec demo_error_text row_codec_faithful.

Lemma attempts_delivered_once_witness :
  rtc sys_step (sys_init (demo_store : StoreState)) ticked ∧
  delivered_keys (sys_deliveries ticked) = [("occ-a", 1%N); ("occ-b", 1%N)] ∧
  NoDup (delivered_keys (sys_deliveries ticked)) ∧
  Forall (recorded (stored_rows (sys_store ticked))) (delivered_keys (sys_deliveries ticked)).
Proof.
  pose proof ticked_reachable as Hr. split; [exact Hr|]. split; [vm_compute; reflexivity|].
  exact (attempts_delivered_once _ _ demo_store_inv Hr).
Defined.

Lemma deliveries_keep_identity_witness :
  snd <$> sys_deliveries ticked =
    [{| idempotency_key := "schedule:schedule-0:occurrence:occ-a"; identity_correlation_id := "occ-a" |};
     {| idempotency_key := "schedule:schedule-0:occurrence:occ-b"; identity_correlation_id := "occ-b" |}] ∧
  ∀ o identity, (o, identity) ∈ sys_deliveries ticked →
    ∃ row, stored_rows (sys_store ticked) !! occ_id o = Some row ∧ identity = for_occurrence row.
Proof.
  split; [vm_compute; reflexivity|].
  exact (proj1 (deliveries_keep_identity _ _ demo_store_inv ticked_reachable)).
Defined.

Lemma outcomes_final_witness :
  ∃ o o', stored_rows (sys_store half_completed) !! "occ-a" = Some o ∧ phase_of o = Completed ∧
    stored_rows (sys_store completed) !! "occ-a" = Some o' ∧
    OccurrenceTerminal.same_outcome (occurrence_machine o) (occurrence_machine o').
Proof.
  assert (Hrow : (phase_of <$> (stored_rows (sys_store half_completed) !! "occ-a")) = Some Completed)
    by (vm_compute; reflexivity).
  destruct (stored_rows (sys_store half_completed) !! "occ-a") as [o|] eqn:Ho; [|discriminate Hrow].
  injection Hrow as Hph. exists o.
  pose proof (λ Hwf, outcomes_final _ _ completed "occ-a" o Hwf half_reachable completed_reachable Ho)
    as Hfinal.
  destruct (Hfinal demo_store_inv) as (o' & Ho' & Hs); [unfold phase_of in Hph; by rewrite Hph|].
  exists o'. by split_and!.
Defined.

(** A schedule deleted while a target admits a delivery: the row is superseded,
    its acceptance is refused and the tick ends without a waiter, so that what
    the delivery came to is never recorded. *)
Example deletion_before_acceptance_loses_completion :
  rtc sys_step (sys_init (demo_store : StoreState)) deleted_before_acceptance ∧
  delivered_keys (sys_deliveries deleted_before_acceptance) = [("occ-a", 1%N)] ∧
  forallb ended (sys_threads deleted_before_acceptance) = true ∧
  stages_of deleted_before_acceptance "occ-a" =
    [DeliveryReceiptStage_DispatchStarted; DeliveryReceiptStage_Superseded] ∧
  (late_completion_resolution ∘ occurrence_machine <$> row_of deleted_before_acceptance "occ-a") =
    Some None.
Proof.
  split; [|vm_compute; by split_and!].
  etrans; [apply (enter_reaches demo_tick), entry_tick|apply deleted_reachable].
Qed.

(** A schedule deleted between a waiter's read of its row and its transition:
    the late completion is recorded with a second receipt of the supersession. *)
Example deletion_before_completion_doubles_receipt :
  rtc sys_step (sys_init (demo_store : StoreState)) deleted_before_completion ∧
  stages_of deleted_before_completion "occ-a" =
    [DeliveryReceiptStage_DispatchStarted; DeliveryReceiptStage_DispatchAccepted;
     DeliveryReceiptStage_Superseded; DeliveryReceiptStage_Superseded] ∧
  (late_completion_resolution ∘ occurrence_machine <$> row_of deleted_before_completion "occ-a") =
    Some (Some LateCompletionResolutionClass_DeliveryCompleted).
Proof.
  split; [|vm_compute; by split_and!]. etrans; [apply ticked_reachable|apply deleted_reachable].
Qed.
