(* ===== verification/RefillPages.v ===== *)
(** * RefillPages: the pages of schedules due for planning

    [read_due_refill_candidates] answers a bounded page of the refill queue and
    moves a cursor to the last entry of it.  The due entries after the cursor,
    followed by those up to it, are a rotation of the due queue; a page is the
    front of the rotation and the next rotation starts behind the page, so that
    no due entry is starved by the entries before it. *)

From stdpp Require Import gmap sorting.
From S2P Require Import Prelude Text Chrono ScheduleTypes Millis Authority.
From S2P Require Import ScheduleLifecycle OccurrenceLifecycle Rows RowFacts ScheduleRows.
From S2P Require Import StoreTypes StoreContract MemoryStore MemoryClaims MemoryReads MemoryFacts MemoryCommit.
From S2P Require Import MemoryContract DemoStore.

(** ** The order of the queue *)

Lemma entry_le_spec a b : entry_le a b ↔ (a.1 < b.1)%Z ∨ a.1 = b.1 ∧ String.le a.2 b.2.
Proof.
  unfold entry_le, entry_leb, String.le. rewrite orb_true_iff, andb_true_iff, Z.ltb_lt, Z.eqb_eq.
  by rewrite Is_true_true.
Qed.

#[export] Instance entry_le_total : Total entry_le.
Proof.
  intros [x s] [y t]. rewrite !entry_le_spec. cbn.
  destruct (Z.lt_trichotomy x y) as [?|[->|?]]; [tauto| |tauto].
  destruct (total String.le s t); tauto.
Qed.

#[export] Instance entry_le_trans : Transitive entry_le.
Proof.
  intros [x s] [y t] [z u]. rewrite !entry_le_spec. cbn.
  intros [?|[-> ?]] [?|[-> ?]]; [left; lia|tauto|tauto|right; split; [done|by etrans]].
Qed.

#[export] Instance entry_le_antisymm : AntiSymm (=) entry_le.
Proof.
  intros [x s] [y t]. rewrite !entry_le_spec. cbn.
  intros [?|[-> ?]] [?|[Heq ?]]; [lia..|]. f_equal. by apply (anti_symm String.le).
Qed.

Lemma entry_leb_false a b : entry_leb a b = false → entry_le b a ∧ a ≠ b.
Proof.
  intros Hf. destruct (total entry_le a b) as [Hle|Hle]; unfold entry_le in Hle; [congruence|].
  split; [done|]. intros ->. congruence.
Qed.

(** ** Sorted lists cut at an entry *)

Notation entry := (Z * ScheduleId)%type.
Implicit Types D : list entry.

Lemma filter_all {A} (P : A → Prop) `{!∀ x, Decision (P x)} (l : list A) : Forall P l → filter P l = l.
Proof. induction 1; [done|]. rewrite filter_cons_True by done. by f_equal. Qed.

Lemma filter_none {A} (P : A → Prop) `{!∀ x, Decision (P x)} (l : list A) :
  Forall (λ x, ¬ P x) l → filter P l = [].
Proof. induction 1; [done|]. by rewrite filter_cons_False. Qed.

Notation upto c := (filter (λ e : entry, entry_leb e c = true)).
Notation after c := (filter (λ e : entry, entry_leb e c = false)).

Lemma cut_at_entry (X Y : list entry) c :
  StronglySorted entry_le (X ++ c :: Y) → NoDup (X ++ c :: Y) →
  upto c (X ++ c :: Y) = X ++ [c] ∧ after c (X ++ c :: Y) = Y.
Proof.
  intros Hs Hnd.
  assert (HX : Forall (λ e, entry_leb e c = true) (X ++ [c])).
  { apply Forall_app. split; [|by repeat constructor; destruct (total entry_le c c)].
    apply Forall_forall. intros e He. eapply (StronglySorted_app_1_elem_of _ _ _ _ _ Hs); [done|by left]. }
  assert (HY : Forall (λ e, entry_leb e c = false) Y).
  { apply Forall_forall. intros e He. apply StronglySorted_app_1_r, StronglySorted_cons in Hs as [Hc _].
    rewrite Forall_forall in Hc. specialize (Hc e He).
    destruct (entry_leb e c) eqn:Hle; [|done]. exfalso.
    assert (e = c) as -> by by apply (anti_symm entry_le).
    by apply NoDup_app in Hnd as (_ & _ & [? _]%NoDup_cons). }
  rewrite (cons_middle c X Y), (app_assoc X [c] Y).
  split; rewrite (filter_app _ (X ++ [c]) Y).
  - rewrite (filter_all _ _ HX), filter_none, app_nil_r; [done|].
    eapply Forall_impl; [exact HY|]. by intros e ->.
  - rewrite (filter_all _ _ HY), filter_none; [done|].
    eapply Forall_impl; [exact HX|]. by intros e ->.
Qed.

Lemma split_at_cursor c D : StronglySorted entry_le D → upto c D ++ after c D = D.
Proof.
  induction 1 as [|e D Hs IH Hall]; [done|]. destruct (entry_leb e c) eqn:He.
  - rewrite filter_cons_True, filter_cons_False by congruence. cbn. by rewrite IH.
  - rewrite filter_cons_False, filter_cons_True by congruence.
    rewrite filter_none; cbn; [|].
    + f_equal. apply filter_all. eapply Forall_impl; [exact Hall|]. intros e' Hle.
      destruct (entry_leb e' c) eqn:He'; [|done]. exfalso.
      assert (entry_le e c) by (by etrans). unfold entry_le in *. congruence.
    + eapply Forall_impl; [exact Hall|]. intros e' Hle He'.
      assert (entry_le e c) by (by etrans). unfold entry_le in *. congruence.
Qed.

(** ** Rotations *)

Definition rotation (cursor : option entry) D : list entry :=
  match cursor with None => D | Some c => after c D ++ upto c D end.

Lemma rotation_split cursor D :
  StronglySorted entry_le D → ∃ A B, D = A ++ B ∧ rotation cursor D = B ++ A.
Proof.
  intros Hs. destruct cursor as [c|].
  - exists (upto c D), (after c D). by rewrite split_at_cursor.
  - exists [], D. by rewrite app_nil_r.
Qed.

Lemma rotation_Permutation cursor D : StronglySorted entry_le D → rotation cursor D ≡ₚ D.
Proof. intros (A & B & -> & ->)%(rotation_split cursor). by rewrite Permutation_app_comm. Qed.

Lemma rotation_at (X Y : list entry) c :
  StronglySorted entry_le (X ++ c :: Y) → NoDup (X ++ c :: Y) →
  rotation (Some c) (X ++ c :: Y) = Y ++ X ++ [c].
Proof. intros Hs Hnd. cbn. by destruct (cut_at_entry X Y c Hs Hnd) as [-> ->]. Qed.

(** Behind a page starts the next rotation. *)
Lemma rotation_next cursor D n :
  StronglySorted entry_le D → NoDup D → n ≠ O →
  let R := rotation cursor D in rotation (last (take n R)) D = drop n R ++ take n R.
Proof.
  intros Hs Hnd Hn R. destruct (rotation_split cursor D Hs) as (A & B & HD & HR). fold R in HR.
  destruct (last (take n R)) as [c|] eqn:Hl.
  2: { apply last_None in Hl. rewrite Hl, app_nil_r. cbn.
    assert (R = []) as HR0 by (destruct R, n; done). rewrite HR0, drop_nil.
    rewrite HR0 in HR. symmetry in HR. apply app_nil in HR as [-> ->]. by rewrite HD. }
  apply last_Some in Hl as [R1 Hl]. pose proof (take_drop n R) as Htd. rewrite Hl in Htd |- *.
  set (R2 := drop n R) in *. rewrite HR in Htd. symmetry in Htd.
  assert (Hc : ∃ X Y, D = X ++ c :: Y ∧ Y ++ X ++ [c] = R2 ++ R1 ++ [c]).
  { apply app_eq_inv in Htd as [(k & HB & Hk)|(k & HB & Hk)]; rewrite HD.
    - exists (A ++ R1), k. by rewrite HB, Hk, <-!app_assoc.
    - destruct k as [|c' k _] using rev_ind; [|rewrite app_assoc in HB].
      + rewrite app_nil_r in HB. cbn in Hk. exists (A ++ R1), []. rewrite <-HB, <-Hk. cbn.
        by rewrite <-!app_assoc.
      + apply app_inj_tail in HB as [HR1 <-]. exists k, (R2 ++ B).
        rewrite HR1, Hk, <-!app_assoc. done. }
  destruct Hc as (X & Y & HDX & <-). subst D. rewrite HDX in *. by apply rotation_at.
Qed.

(** ** The due queue *)

Lemma sorted_filter (P : entry → Prop) `{!∀ e, Decision (P e)} D :
  StronglySorted entry_le D → StronglySorted entry_le (filter P D).
Proof.
  induction 1 as [|e D Hs IH Hall]; [constructor|]. rewrite filter_cons. case_decide; [|done].
  constructor; [done|]. rewrite Forall_forall in *. intros e' [_ ?]%list_elem_of_filter. auto.
Qed.

Lemma filter_comm (P Q : entry → Prop) `{!∀ e, Decision (P e)} `{!∀ e, Decision (Q e)} D :
  filter P (filter Q D) = filter Q (filter P D).
Proof.
  rewrite !list_filter_filter. apply list_filter_iff. tauto.
Qed.

Lemma take_while_due n D :
  StronglySorted entry_le D → take_while (λ e, (e.1 <=? n)%Z) D = filter (λ e, (e.1 ≤ n)%Z) D.
Proof.
  induction 1 as [|e D Hs IH Hall]; [done|]. cbn [take_while]. destruct (Z.leb_spec e.1 n).
  - rewrite filter_cons_True by done. by f_equal.
  - rewrite filter_cons_False by lia. symmetry. apply filter_none. eapply Forall_impl; [exact Hall|].
    intros e' Hle. apply entry_le_spec in Hle as [?|[? _]]; lia.
Qed.

Lemma length_omap_le {A B} (f : A → option B) (l : list A) : (length (omap f l) ≤ length l)%nat.
Proof. induction l as [|x l IH]; cbn; [done|]. destruct (f x); cbn; lia. Qed.

Section pages.
Context `{RowCodec} {HL : ChronoLaws} {BP : BuildProfile}.

#[local] Existing Instances store_ret store_bind.

Lemma queue_order_spec st :
  StronglySorted entry_le (queue_order st) ∧ NoDup (queue_order st) ∧
  ∀ e, e ∈ queue_order st ↔ e ∈ refill_queue st.
Proof.
  unfold queue_order. pose proof (merge_sort_Permutation entry_le (elements (refill_queue st))) as Hp.
  split_and!; [apply StronglySorted_merge_sort; apply _|rewrite Hp; apply NoDup_elements|].
  intros e. by rewrite Hp, elem_of_elements.
Qed.

Definition due_queue (now : DateTime) (st : MemoryScheduleState) : list entry :=
  filter (λ e, (e.1 ≤ ns now)%Z) (queue_order st).

Lemma due_queue_spec now st :
  StronglySorted entry_le (due_queue now st) ∧ NoDup (due_queue now st).
Proof.
  destruct (queue_order_spec st) as (Hs & Hnd & _).
  split; [by apply sorted_filter|by apply NoDup_filter].
Qed.

(** A page is the front of the rotation of the due queue. *)
Lemma due_entries_rotation limit now st :
  due_entries limit now st = take limit (rotation (refill_scan_cursor st) (due_queue now st)).
Proof.
  destruct (queue_order_spec st) as (Hs & _ & _). unfold due_entries, due_queue.
  destruct (refill_scan_cursor st) as [c|]; cbn [rotation]; cbv zeta beta; [|by rewrite take_while_due].
  rewrite !take_while_due by (by apply sorted_filter).
  rewrite (filter_comm _ (λ e, entry_leb e c = false)), (filter_comm _ (λ e, entry_leb e c = true)).
  rewrite take_app. set (P := after c _). set (U := upto c _).
  destruct (Nat.ltb_spec (length (take limit P)) limit) as [Hlt|Hge]; rewrite length_take in *.
  - assert (limit `min` length P = length P)%nat as -> by lia. done.
  - replace (limit - length P)%nat with 0%nat by lia. cbn. by rewrite app_nil_r.
Qed.

(** ** Consecutive pages *)

(** [k] pages read at one time. *)
Fixpoint refill_pages (k limit : nat) (now : DateTime) : Store (list (list ScheduleRefillCandidate)) :=
  match k with
  | O => mret []
  | S k =>
      page ← read_due_refill_candidates limit now;
      pages ← refill_pages k limit now;
      mret (page :: pages)
  end.

Definition move_cursor (cursor : option entry) (st : MemoryScheduleState) : MemoryScheduleState :=
  st <| refill_scan_cursor := cursor |>.

Lemma read_page limit now st :
  limit ≠ O →
  read_due_refill_candidates limit now st
  = (move_cursor (last (due_entries limit now st)) st, Ok (omap (refill_candidate st) (due_entries limit now st))).
Proof. intros Hl. unfold read_due_refill_candidates. by rewrite (proj2 (Nat.eqb_neq _ _) Hl). Qed.

(** Reading pages moves the cursor only; [entries] are the entries behind the pages. *)
Lemma refill_pages_entries k limit now st :
  limit ≠ O →
  ∃ (pages : list (list entry)) cursor,
    refill_pages k limit now st = (move_cursor cursor st, Ok (map (λ page : list entry, omap (refill_candidate st) page) pages)) ∧
    length pages = k ∧ Forall (λ page, (length page ≤ limit)%nat ∧ page ⊆ due_queue now st) pages ∧
    take (k * limit) (rotation (refill_scan_cursor st) (due_queue now st)) ⊆ concat pages.
Proof.
  intros Hl. revert st. induction k as [|k IH]; intros st.
  - exists [], (refill_scan_cursor st). cbn. split_and!; [by destruct st|done|constructor|apply list_subseteq_nil].
  - set (R := rotation (refill_scan_cursor st) (due_queue now st)).
    set (st1 := move_cursor (last (take limit R)) st).
    destruct (IH st1) as (pages & cursor & Hrun & Hlen & Hall & Hcover).
    destruct (due_queue_spec now st) as [Hs Hnd].
    exists (take limit R :: pages), cursor. split_and!.
    + cbn [refill_pages]. unfold mbind, store_bind. rewrite read_page by done.
      rewrite due_entries_rotation. fold R st1. rewrite Hrun. done.
    + cbn. by rewrite Hlen.
    + constructor; [|exact Hall]. split; [rewrite length_take; lia|].
      intros e He. rewrite <-(rotation_Permutation (refill_scan_cursor st)) by done.
      by eapply subseteq_take.
    + change (due_queue now st1) with (due_queue now st) in Hcover.
      change (refill_scan_cursor st1) with (last (take limit R)) in Hcover.
      rewrite (rotation_next _ _ limit Hs Hnd Hl : rotation (last (take limit R)) _ = _) in Hcover.
      fold R. intros e He. cbn [concat]. change (S k * limit)%nat with (limit + k * limit)%nat in He.
      rewrite <-take_take_drop in He. apply elem_of_app in He as [He|He]; apply elem_of_app; [by left|right].
      apply Hcover. rewrite take_app. apply elem_of_app. by left.
Qed.
(** ** What a page offers *)

(** An active schedule due for planning, with its pending rows of its revision. *)
Record offered (st : MemoryScheduleState) (now : DateTime) (c : ScheduleRefillCandidate) : Prop := {
  offered_schedule :
    schedules st !! sched_id (candidate_schedule c) = Some (candidate_schedule c);
  offered_active : sched_phase (candidate_schedule c) = Active;
  offered_deadline :
    refill_deadlines st !! sched_id (candidate_schedule c) = Some (candidate_refill_at_utc c);
  offered_due : (ns (candidate_refill_at_utc c) ≤ ns now)%Z;
  offered_pending o :
    o ∈ pending_occurrences c ↔
    occurrences st !! occ_id o = Some o ∧
    schedule_id (occurrence_machine o) = sched_id (candidate_schedule c) ∧
    schedule_revision (occurrence_machine o) = sched_revision (candidate_schedule c) ∧
    lifecycle_phase (occurrence_machine o) = Pending;
}.

Lemma candidate_offered now st e c :
  store_inv st → e ∈ due_queue now st → refill_candidate st e = Some c → offered st now c.
Proof.
  intros Hinv [Hle He]%list_elem_of_filter Hc. destruct e as [d id]. cbn in Hle.
  apply (queue_order_spec st), (inv_refill _ Hinv) in He as (t & Ht & <-).
  unfold refill_candidate in Hc. cbn [snd] in Hc.
  destruct (schedules st !! id) as [s|] eqn:Hs; [|done]. cbn in Hc. rewrite Ht in Hc. cbn in Hc.
  destruct (inv_schedules _ Hinv _ _ Hs) as [Hid _].
  destruct (sched_phase s != Active) eqn:Hact; [done|]. apply bool_neq_false in Hact.
  injection Hc as <-. split; cbn; rewrite ?Hid; try done.
  intros o. rewrite list_elem_of_filter, elem_of_values. split.
  - intros [? [oid Ho]]. destruct (inv_occurrences _ Hinv _ _ Ho) as [<- _]. tauto.
  - intros [Ho ?]. split; [tauto|eauto].
Qed.

Lemma due_candidate now st id s d :
  store_inv st → schedules st !! id = Some s → sched_phase s = Active →
  refill_deadlines st !! id = Some d → (ns d ≤ ns now)%Z →
  ∃ e c, e ∈ due_queue now st ∧ refill_candidate st e = Some c ∧ candidate_schedule c = s.
Proof.
  intros Hinv Hs Hact Hd Hle.
  assert (He : (ns d, id) ∈ due_queue now st).
  { apply list_elem_of_filter. split; [done|]. apply (queue_order_spec st), (inv_refill _ Hinv). eauto. }
  exists (ns d, id). eexists. split; [done|]. unfold refill_candidate. cbn [snd].
  rewrite Hs. cbn. rewrite Hd. cbn. rewrite Hact, bool_decide_true by done. by split.
Qed.

(** C39: enough consecutive pages offer every active schedule due for planning,
    and nothing else: a page is bounded by its limit, reading it moves the scan
    cursor only, and [k] pages cover a due queue of [k * limit] entries from
    wherever the cursor stands, so no schedule is starved by those due before it. *)
Theorem refill_pages_cover k limit now st :
  store_inv st → limit ≠ O → (length (due_queue now st) ≤ k * limit)%nat →
  ∃ pages cursor, refill_pages k limit now st = (move_cursor cursor st, Ok pages) ∧
    length pages = k ∧ Forall (λ page, length page ≤ limit)%nat pages ∧
    Forall (offered st now) (concat pages) ∧
    ∀ id s d, schedules st !! id = Some s → sched_phase s = Active →
      refill_deadlines st !! id = Some d → (ns d ≤ ns now)%Z →
      ∃ c, c ∈ concat pages ∧ candidate_schedule c = s.
Proof.
  intros Hinv Hl Hlen.
  destruct (refill_pages_entries k limit now st Hl) as (entries & cursor & Hrun & Hk & Hall & Hcover).
  assert (Hin : ∀ c, c ∈ concat (map (λ page : list entry, omap (refill_candidate st) page) entries)
    ↔ ∃ e, e ∈ concat entries ∧ refill_candidate st e = Some c).
  { intros c. clear. induction entries as [|page entries IH]; cbn; [set_solver|].
    setoid_rewrite elem_of_app. rewrite IH, list_elem_of_omap. naive_solver. }
  eexists _, cursor. split_and!; [exact Hrun|by rewrite length_map| | |].
  - apply Forall_map. eapply Forall_impl; [exact Hall|]. intros page [Hle _]. cbn.
    etrans; [|exact Hle]. apply length_omap_le.
  - apply Forall_forall. intros c (e & He & Hc)%Hin. eapply candidate_offered; [done| |exact Hc].
    apply list_elem_of_In, in_concat in He as (page & Hp & He). apply list_elem_of_In in Hp, He.
    rewrite Forall_forall in Hall. by apply (Hall page Hp).
  - intros id s d Hs Hact Hd Hle. destruct (due_candidate now st id s d) as (e & c & He & Hc & Hcs); [done..|].
    exists c. split; [|done]. apply Hin. exists e. split; [|done]. apply Hcover.
    destruct (due_queue_spec now st) as [Hsorted _].
    rewrite take_ge; [by rewrite rotation_Permutation|]. by rewrite rotation_Permutation.
Qed.
End pages.

(** ** Example *)

#[local] Existing Instance dev_profile.
#[local] Existing Instance demo_targets.
#[local] Existing Instance demo_data.
#[local] Existing Instance demo_codec.

Definition demo_schedule_1 : Schedule :=
  demo_schedule <| schedule_machine := schedule_init <| ScheduleLifecycle.schedule_id := "schedule-1" |> |>.

(** Two schedules are due; the cursor stands at the first. *)
Definition demo_due_store : MemoryScheduleState :=
  move_cursor (Some (ns demo_now, "schedule-0"))
    (memory_set_schedule_refill_deadline "schedule-1" (Some demo_now)
       (memory_set_schedule_refill_deadline "schedule-0" (Some demo_now)
          (put_schedule demo_schedule_1 demo_store))).

Lemma demo_due_store_inv : store_inv demo_due_store.
Proof.
  assert (Hinv : store_inv (memory_set_schedule_refill_deadline "schedule-1" (Some demo_now)
    (memory_set_schedule_refill_deadline "schedule-0" (Some demo_now)
       (put_schedule demo_schedule_1 demo_store)))).
  { do 2 apply inv_set_deadline. apply inv_put_schedule; [vm_compute; reflexivity|apply demo_store_inv]. }
  by destruct Hinv.
Qed.

Lemma refill_pages_cover_witness :
  ∃ pages cursor, refill_pages 2 1 demo_now demo_due_store = (move_cursor cursor demo_due_store, Ok pages) ∧
    ∃ c, c ∈ concat pages ∧ candidate_schedule c = demo_schedule_1.
Proof.
  assert (Hlen : (length (due_queue demo_now demo_due_store) ≤ 2 * 1)%nat)
    by (vm_compute; do 2 constructor).
  destruct (refill_pages_cover 2 1 demo_now demo_due_store demo_due_store_inv ltac:(discriminate) Hlen)
    as (pages & cursor & Hrun & _ & _ & _ & Hcover).
  exists pages, cursor. split; [exact Hrun|].
  apply (Hcover "schedule-1" _ demo_now); [reflexivity..|apply Z.le_refl].
Defined.
