(* ===== verification/MemoryWake.v ===== *)
(** * MemoryWake: when the in-memory store next has something to do

    [next_action_time_utc] is exact: at any later instant some row of an active
    schedule calls for an action or some schedule is due for planning, and at
    no earlier one. *)

From stdpp Require Import gmap sorting.
From S2P Require Import Prelude Text Chrono ScheduleTypes Trigger FirstDue TriggerFacts Millis Authority.
From S2P Require Import ScheduleLifecycle OccurrenceLifecycle OccurrenceFacts OccurrenceVerdicts.
From S2P Require Import Rows RowFacts RowValidity RowReturns ScheduleRows.
From S2P Require Import StoreTypes StoreContract MemoryStore MemoryClaims MemoryReads MemoryFacts.
From S2P Require Import MemoryCommit MemoryContract RefillPages DemoStore.

Section wake.
Context `{RowCodec} {HL : ChronoLaws} {BP : BuildProfile}.

#[local] Existing Instances store_ret store_bind.

(** ** What a row calls for *)

Definition action_of (verdict : OccurrenceEffect) : option OccurrenceDueAction :=
  match due_classification verdict with Some action => action | None => None end.

Lemma verdict_classified s ms ev : ∃ action, due_classification (due_verdict s ms ev) = Some action.
Proof.
  unfold due_verdict. destruct (lifecycle_phase s), ev; try destruct (lease_expires_at_utc_ms s);
    repeat destruct (_ <? _)%N; repeat destruct (_ <=? _)%N; eauto.
Qed.

(** Classifying a valid row answers with its machine's verdict. *)
Lemma classify_valid_row o now ev ms :
  row_ok o → to_millis now "now_utc" = Ok ms →
  classify_due_action o now ev = Ok (action_of (due_verdict (occurrence_machine o) ms ev)).
Proof.
  intros Hok Hms. unfold classify_due_action. rewrite occurrence_apply_valid by done.
  apply row_ok_valid in Hok as [Hrec _ Hd _ _]. cbn [convert_occurrence_input]. rewrite Hms.
  cbn [mbind Outcome_bind]. unfold run_dsl. rewrite Hrec.
  pose proof (due_verdict_answered _ ms ev Hrec) as Ha. unfold answers in Ha. rewrite Ha.
  cbn [mbind Outcome_bind effects]. unfold write_back_occurrence. rewrite Hd. cbn [mbind Outcome_bind].
  unfold due_action_from_effects, action_of. cbn.
  by destruct (verdict_classified (occurrence_machine o) ms ev) as [action ->].
Qed.

(** The verdict calls for an action exactly once the row's next action is reached. *)
Lemma verdict_acts s ms ev :
  action_of (due_verdict s ms ev) ≠ None ↔
  match lifecycle_phase s with
  | Pending => (due_at_utc_ms s ≤ ms)%N
  | Claimed | Dispatching | AwaitingCompletion =>
      ∃ lease, lease_expires_at_utc_ms s = Some lease ∧ (lease ≤ ms)%N
  | _ => False
  end.
Proof.
  unfold due_verdict. destruct (lifecycle_phase s); try (by split).
  - destruct (N.ltb_spec ms (due_at_utc_ms s)); cbn; [split; [done|lia]|].
    split; [done|]. intros _. repeat case_match; done.
  - destruct (lease_expires_at_utc_ms s) as [l|]; [|by split; [|intros (? & ? & _)]].
    destruct (N.leb_spec l ms); cbn; (split; [by eauto|]); [done|]. intros (? & [= <-] & ?). lia.
  - destruct (lease_expires_at_utc_ms s) as [l|]; [|by split; [|intros (? & ? & _)]].
    destruct (N.leb_spec l ms); cbn; (split; [by eauto|]); [done|]. intros (? & [= <-] & ?). lia.
  - destruct (lease_expires_at_utc_ms s) as [l|]; [|by split; [|intros (? & ? & _)]].
    destruct (N.leb_spec l ms); cbn; (split; [by eauto|]); [done|]. intros (? & [= <-] & ?). lia.
Qed.

(** ** The instants of a row *)

Definition action_instant (o : Occurrence) : option DateTime :=
  ms ← occurrence_next_action_at o; millis_to_datetime ms.

Lemma next_action_shown o ms :
  row_ok o → occurrence_next_action_at o = Some ms → ∃ t, millis_to_datetime ms = Some t.
Proof.
  intros [_ _ Hd _ _]%row_ok_valid. revert Hd. unfold occurrence_next_action_at, display_fields.
  intros Hd. apply Outcome_bind_Ok in Hd as (due & Hdue%from_millis_Ok & Hd).
  apply Outcome_bind_Ok in Hd as (? & _ & Hd). apply Outcome_bind_Ok in Hd as (? & Hl & _).
  destruct (lifecycle_phase _); intros Hms; try discriminate Hms; [injection Hms as <-; eauto|..].
  all: rewrite Hms in Hl; cbn in Hl; apply Outcome_bind_Ok in Hl as (t & Ht%from_millis_Ok & _); eauto.
Qed.

Lemma reached_millis m t now ms field :
  millis_to_datetime m = Some t → to_millis now field = Ok ms → (ns t ≤ ns now)%Z ↔ (m ≤ ms)%N.
Proof.
  intros Ht%millis_to_datetime_ns (Hpos & ->)%to_millis_Ok. rewrite timestamp_millis_ns in *.
  rewrite Ht. assert (0 < milli_ns)%Z by done. split.
  - intros Hle. apply N2Z.inj_le. rewrite Z2N.id by done. apply Z.div_le_lower_bound; lia.
  - intros Hle. apply N2Z.inj_le in Hle. rewrite Z2N.id in Hle by done.
    pose proof (Z.mul_div_le (ns now) milli_ns ltac:(done)). nia.
Qed.

Lemma lease_acts o lease now ms :
  row_ok o → to_millis now "now_utc" = Ok ms → occurrence_next_action_at o = lease →
  (∃ l, lease = Some l ∧ (l ≤ ms)%N) ↔
  ∃ t, (m ← lease; millis_to_datetime m) = Some t ∧ (ns t ≤ ns now)%Z.
Proof.
  intros Hok Hms Hl. destruct lease as [l|]; cbn.
  - destruct (next_action_shown o l Hok Hl) as [t Ht]. pose proof (reached_millis _ _ _ _ _ Ht Hms) as Hr.
    rewrite Ht. split; [intros (? & [= <-] & ?)|intros (? & [= <-] & ?)]; naive_solver.
  - split; [by intros (? & [=] & _)|by intros (? & [=] & _)].
Qed.

(** A valid row calls for an action at [now] exactly if its instant is reached. *)
Lemma row_acts o now ev :
  row_ok o → (0 ≤ ns now)%Z →
  (∃ action, classify_due_action o now ev = Ok (Some action)) ↔
  ∃ t, action_instant o = Some t ∧ (ns t ≤ ns now)%Z.
Proof.
  intros Hok Hpos.
  destruct (to_millis_some now "now_utc") as (ms & _ & Hms & _); [by rewrite timestamp_millis_ns; apply Z.div_pos|].
  rewrite (classify_valid_row _ _ _ _ Hok Hms).
  transitivity (action_of (due_verdict (occurrence_machine o) ms ev) ≠ None).
  { destruct (action_of _) as [a|]; split; try done; [by eexists|by intros [? [=]]]. }
  rewrite verdict_acts. unfold action_instant.
  assert (Hshown : ∀ p, lifecycle_phase (occurrence_machine o) = p → occurrence_next_action_at o =
    match p with
    | Pending => Some (due_at_utc_ms (occurrence_machine o))
    | Claimed | Dispatching | AwaitingCompletion => lease_expires_at_utc_ms (occurrence_machine o)
    | _ => None
    end) by (unfold occurrence_next_action_at; by intros p ->).
  destruct (lifecycle_phase (occurrence_machine o)); specialize (Hshown _ eq_refl); cbv iota in Hshown;
    rewrite Hshown; try (by split; [|intros (? & [=] & _)]); try by eapply lease_acts.
  rewrite <-(lease_acts o _ now ms Hok Hms Hshown). split; [by eauto|]. by intros (? & [= <-] & ?).
Qed.

(** ** The store *)

Lemma minimum_spec l :
  match minimum l with
  | None => l = []
  | Some d => d ∈ l ∧ Forall (λ t, (ns d ≤ ns t)%Z) l
  end.
Proof.
  destruct l as [|d l]; [done|]. cbn. revert d. induction l as [|t l IH]; intros d; cbn.
  { split; [by left|]. by repeat constructor. }
  specialize (IH (dt_min d t)) as [Hin Hall].
  apply Forall_cons in Hall as [Hm Hall]. unfold dt_min, dt_leb in *.
  destruct (Z.leb_spec (ns d) (ns t)).
  - split; [set_solver|]. constructor; [done|]. constructor; [lia|done].
  - split; [set_solver|]. constructor; [lia|]. constructor; [done|done].
Qed.

Lemma minimum_reached l now :
  (∃ d, minimum l = Some d ∧ (ns d ≤ ns now)%Z) ↔ ∃ t, t ∈ l ∧ (ns t ≤ ns now)%Z.
Proof.
  pose proof (minimum_spec l) as Hm. destruct (minimum l) as [d|].
  - destruct Hm as [Hin Hall]. rewrite Forall_forall in Hall. split; [intros (? & [= <-] & ?); eauto|].
    intros (t & Ht & Hle). exists d. split; [done|]. specialize (Hall t Ht). lia.
  - subst l. split; [by intros (? & [=] & _)|]. intros (t & Ht & _). by apply elem_of_nil in Ht.
Qed.

(** Some row of an active schedule, or the planning of some schedule, is due. *)
Definition row_due (st : MemoryScheduleState) (now : DateTime) : Prop :=
  ∃ id o, occurrences st !! id = Some o ∧ owner_active st o = true ∧
    ∀ ev, ∃ action, classify_due_action o now ev = Ok (Some action).
Definition planning_due (st : MemoryScheduleState) (now : DateTime) : Prop :=
  ∃ entry, entry ∈ refill_queue st ∧ (entry.1 ≤ ns now)%Z.

Lemma rows_reached st now :
  store_inv st → (0 ≤ ns now)%Z →
  (∃ d, minimum (next_occurrence_actions st) = Some d ∧ (ns d ≤ ns now)%Z) ↔ row_due st now.
Proof.
  intros Hinv Hpos. rewrite minimum_reached. unfold next_occurrence_actions. split.
  - intros (t & (o & [Ho [id Hid]%elem_of_values]%list_elem_of_filter & Ht)%list_elem_of_omap & Hle).
    exists id, o. split; [done|]. split; [done|]. intros ev.
    apply row_acts; [by destruct (inv_occurrences _ Hinv _ _ Hid)|done|eauto].
  - intros (id & o & Hid & Hact & Hall).
    destruct (row_acts o now AdmissionEvidence_Unrecorded) as [Hto _];
      [by destruct (inv_occurrences _ Hinv _ _ Hid)|done|].
    destruct (Hto (Hall _)) as (t & Ht & Hle). exists t. split; [|done].
    apply list_elem_of_omap. exists o. split; [|done]. apply list_elem_of_filter.
    split; [done|]. apply elem_of_values. eauto.
Qed.

Lemma refill_reached st now :
  store_inv st → (∃ d, next_refill st = Some d ∧ (ns d ≤ ns now)%Z) ↔ planning_due st now.
Proof.
  intros Hinv. destruct (queue_order_spec st) as (Hs & _ & Hq). unfold next_refill, planning_due.
  setoid_rewrite <-Hq. destruct (queue_order st) as [|[d id] D] eqn:HD; cbn.
  - split; [by intros (? & [=] & _)|]. by intros (? & ?%elem_of_nil & _).
  - assert ((d, id) ∈ refill_queue st) as (t & Ht & Htd)%(inv_refill _ Hinv) by (apply Hq; by left).
    rewrite Ht. cbn. split.
    + intros (? & [= <-] & Hle). exists (d, id). split; [by left|]. cbn. lia.
    + intros (e & He & Hle). exists t. split; [done|].
      apply StronglySorted_cons in Hs as [Hall _]. rewrite Forall_forall in Hall.
      apply elem_of_cons in He as [->|He]; [cbn in Hle; lia|].
      apply Hall, entry_le_spec in He as [?|[? _]]; cbn in *; lia.
Qed.

Lemma opt_min_reached a b (n : Z) :
  (∃ d, opt_min a b = Some d ∧ (ns d ≤ n)%Z) ↔
  (∃ d, a = Some d ∧ (ns d ≤ n)%Z) ∨ (∃ d, b = Some d ∧ (ns d ≤ n)%Z).
Proof.
  destruct a as [a|], b as [b|]; cbn; [|naive_solver..].
  unfold dt_min, dt_leb. destruct (Z.leb_spec (ns a) (ns b)).
  - split; [intros (? & [= <-] & ?); left; eauto|]. intros [(? & [= <-] & ?)|(? & [= <-] & ?)]; exists a; split; done || lia.
  - split; [intros (? & [= <-] & ?); right; eauto|]. intros [(? & [= <-] & ?)|(? & [= <-] & ?)]; exists b; split; done || lia.
Qed.

(** C40: the store's next time to act is exact.  Reading it changes nothing, and
    the instant it names is reached at [t] exactly if at [t] some occurrence of
    an active schedule calls for an action - a claim, a misfire, the end of a
    lease - or the planning of some schedule is due: a host that sleeps until
    then misses nothing and does not wake for nothing. *)
Theorem memory_wakes_exactly now st :
  store_inv st →
  ∃ next, next_action_time_utc now st = (st, Ok (now, next)) ∧
    ∀ t, (0 ≤ ns t)%Z →
      (∃ d, next = Some d ∧ (ns d ≤ ns t)%Z) ↔ row_due st t ∨ planning_due st t.
Proof.
  intros Hinv. eexists. split; [reflexivity|]. intros t Ht.
  by rewrite opt_min_reached, rows_reached, refill_reached by done.
Qed.
End wake.

(** ** Example *)

#[local] Existing Instance dev_profile.
#[local] Existing Instance demo_targets.
#[local] Existing Instance demo_data.
#[local] Existing Instance demo_codec.

(** The store has something to do at once. *)
Lemma memory_wakes_exactly_witness :
  ∃ next, next_action_time_utc demo_now demo_due_store = (demo_due_store, Ok (demo_now, next)) ∧
    ∃ d, next = Some d ∧ (ns d ≤ ns demo_now)%Z.
Proof.
  destruct (memory_wakes_exactly demo_now demo_due_store demo_due_store_inv) as (next & Hrun & Hexact).
  exists next. split; [exact Hrun|]. apply Hexact; [vm_compute; discriminate|].
  right. exists (ns demo_now, "schedule-0"). split; [|apply Z.le_refl].
  apply (inv_refill _ demo_due_store_inv). exists demo_now. split; reflexivity.
Defined.
