(* ===== verification/ServiceProps.v ===== *)
(** * ServiceProps: properties of the schedule service

    Stated against the store contract and any behaviour of the store's other
    users that keeps it well-formed; the examples run the service over the
    in-memory store. *)

From stdpp Require Import gmap.
From S2P Require Import Prelude Text Chrono ScheduleTypes Trigger Targets Millis Authority.
From S2P Require Import ScheduleLifecycle OccurrenceLifecycle Rows RowFacts ScheduleRows.
From S2P Require Import StoreTypes StoreContract MemoryStore MemoryFacts MemoryContract Planner PlannedRows.
From S2P Require Import Programs Service ServiceFacts ServiceLogic ServiceAtomic ServiceRefill DemoStore.

Section service.
Context `{RowCodec} {HL : ChronoLaws} {BP : BuildProfile} `{!ScheduleStore} `{!LawfulStore}.
Context (others : StoreState → StoreState → Prop).

(** C15: create, update, pause, resume and delete take effect at one instant,
    whatever the store's other users do between the calls of the operation.  One
    that fails leaves no trace and sends no notification.  One that succeeds
    has its transition - of the schedule it had read, which is still the stored
    one then - take place between two states of the store, with the planned
    rows inserted and the stale rows superseded, and notifies once; it never
    overwrites a change made since it read. *)
Theorem service_operation_atomic svc amb op w r w' :
  (∀ st st', others st st' → store_wf st → store_wf st') → store_wf (w_store w) →
  runs others (op_program svc amb op) w r w' →
  match r with
  | Ok s =>
      w_generation w' = bump_generation (w_generation w) ∧
      ∃ base at_utc w0 st1 st2, op_base op base ∧ op_write svc amb op base at_utc w0 ∧
        rtc others (w_store w) st1 ∧ applied_at amb base w0 s st1 st2 ∧ rtc others st2 (w_store w')
  | _ => w_generation w' = w_generation w ∧ rtc others (w_store w) (w_store w')
  end.
Proof.
  intros Hothers Hwf Hrun. destruct (op_atomic others Hothers svc amb op w Hwf r w' Hrun) as [_ Hr].
  destruct r as [s|e| |]; [|by destruct Hr..].
  destruct Hr as [_ (st1 & st2 & b & Ho1 & (-> & base & at_utc & w0 & Hb & Hw & Hat) & Ho2 & Hg)].
  split; [done|]. by exists base, at_utc, w0, st1, st2.
Qed.

(** C17: a refill - from the service's own reads or from a candidate of the
    store's page - and a target update of an occurrence also take effect at one
    instant or not at all.  A refill that plans anything inserts exactly the rows
    it answers with, in one commit with the window that records them, and only
    while the schedule it planned from is still the stored one. *)
Theorem service_refill_atomic amb :
  (∀ st st', others st st' → store_wf st → store_wf st') →
  (∀ id, atomic others (refill_horizon amb id)
     (λ rows st1 st2 _, ∃ s, sched_id s = id ∧ refilled amb s rows st1 st2)) ∧
  (∀ candidate store_now, atomic others (refill_candidate amb candidate store_now)
     (λ rows st1 st2 _, refilled amb (candidate_schedule candidate) rows st1 st2)) ∧
  (∀ o, atomic others (sync_occurrence_target_with_schedule o) (retargeted_or_same o)) ∧
  (∀ o session_id, atomic others (record_dispatch_materialization o session_id)
     (retargeted_or_same o)).
Proof.
  intros Hothers. split_and!.
  - intros id. by apply atomic_refill_horizon.
  - intros candidate store_now. by apply atomic_refill_candidate.
  - intros o. by apply atomic_sync_target.
  - intros o session_id. by apply atomic_record_materialization.
Qed.

(** C19: the service's checks of what the store committed never fail over a
    store that keeps the contract: no operation, the materialized-session binding
    included, answers that a commit dropped or contradicted its authority, and
    the store stays well-formed. *)
Theorem service_observes_commits svc amb :
  (∀ st st', others st st' → store_wf st → store_wf st') →
  (∀ op, sound others (op_program svc amb op) (λ _, True)) ∧
  (∀ id, sound others (refill_horizon amb id) (λ _, True)) ∧
  (∀ candidate store_now, sound others (refill_candidate amb candidate store_now) (λ _, True)) ∧
  (∀ o, sound others (sync_occurrence_target_with_schedule o) (λ _, True)) ∧
  (∀ o session_id, sound others (record_dispatch_materialization o session_id) (λ _, True)) ∧
  (∀ o session_id, sound others (bind_materialized_session_for_occurrence amb o session_id)
     (λ _, True)).
Proof.
  intros Hothers. split_and!.
  - intros op. eapply atomic_sound. by apply op_atomic.
  - intros id. eapply atomic_sound. by apply atomic_refill_horizon.
  - intros candidate store_now. eapply atomic_sound. by apply atomic_refill_candidate.
  - intros o. eapply atomic_sound. by apply atomic_sync_target.
  - intros o session_id. eapply atomic_sound. by apply atomic_record_materialization.
  - intros o session_id. by apply sound_bind_session.
Qed.
End service.

(** ** Examples *)

#[local] Existing Instance dev_profile.
#[local] Existing Instance demo_targets.
#[local] Existing Instance demo_data.
#[local] Existing Instance demo_codec.

Definition minute_at (n : Z) : DateTime := UniformClock.at_seconds (n * 60).

(** Three occurrences a day, one every ten minutes. *)
Definition demo_create : CreateScheduleRequest := {|
  create_name := Some "report"; create_description := None; create_labels := ∅;
  create_trigger :=
    Interval {| start_at_utc := minute_at 10; every_seconds := 600; end_at_utc := None |};
  create_target := runnable_target "target-0"; create_misfire_policy := Skip;
  create_overlap_policy := ScheduleLifecycle.OverlapPolicy_SkipIfRunning;
  create_missing_target_policy := ScheduleLifecycle.MissingTargetPolicy_MarkMisfired;
  create_horizon_days := Some 1%N; create_horizon_occurrences := Some 3%N |}.

Definition demo_ambient : Ambient := {|
  fresh_schedule_id := "report-schedule";
  fresh_occurrence_id n := if (n =? 1)%N then "occ-1" else if (n =? 2)%N then "occ-2" else "occ-3";
  apply_now := minute_at 15; plan_now := minute_at 15 |}.

Definition demo_service : ScheduleService := mkService None [].

Definition demo_world : World := mkWorld (memory_init : StoreState) 0.

(** Create the schedule at minute 15, then delete it at minute 25. *)
Definition created :=
  exec silent (minute_at 15) (op_program demo_service demo_ambient (OpCreate demo_create)) demo_world.

Definition deleted :=
  exec silent (minute_at 25) (op_program demo_service demo_ambient (OpDelete "report-schedule")) created.2.

Lemma created_wf : store_wf (w_store created.2).
Proof.
  pose proof (op_atomic any_call any_call_wf demo_service demo_ambient (OpCreate demo_create) demo_world
    memory_init_inv created.1 created.2 (exec_runs _ silent (minute_at 15) _ _)) as [_ Hr].
  destruct created.1; apply Hr.
Qed.

(** Creation plans three rows; deletion succeeds, the three rows kept. *)
Lemma service_operation_atomic_witness :
  ∃ s, deleted.1 = Ok s ∧ size (occurrences (w_store created.2)) = 3%nat ∧
    w_generation deleted.2 = bump_generation (w_generation created.2) ∧
    ∃ base at_utc w0 st1 st2, op_base (OpDelete "report-schedule") base ∧
      op_write demo_service demo_ambient (OpDelete "report-schedule") base at_utc w0 ∧
      rtc any_call (w_store created.2) st1 ∧ applied_at demo_ambient base w0 s st1 st2 ∧
      rtc any_call st2 (w_store deleted.2).
Proof.
  assert (Hok : match deleted.1 with Ok _ => true | _ => false end = true) by (vm_compute; reflexivity).
  assert (Hrows : size (occurrences (w_store created.2)) = 3%nat) by (vm_compute; reflexivity).
  pose proof (service_operation_atomic any_call demo_service demo_ambient (OpDelete "report-schedule")
    created.2 deleted.1 deleted.2 any_call_wf created_wf (exec_runs _ silent (minute_at 25) _ _)) as Hat.
  destruct deleted.1 as [s|e| |]; [|discriminate Hok..]. exists s.
  split; [reflexivity|]. split; [exact Hrows|exact Hat].
Defined.

(** A refill of the created schedule, which has the occurrences it wants. *)
Definition refilled_again := exec silent (minute_at 16) (refill_horizon demo_ambient "report-schedule") created.2.

Lemma service_refill_atomic_witness :
  refilled_again.1 = Ok [] ∧
  effected any_call (λ rows st1 st2 _, ∃ s, sched_id s = "report-schedule" ∧
    refilled demo_ambient s rows st1 st2) [] created.2 refilled_again.2.
Proof.
  assert (Hok : match refilled_again.1 with Ok [] => true | _ => false end = true)
    by (vm_compute; reflexivity).
  pose proof (service_refill_atomic any_call demo_ambient any_call_wf) as (Hrefill & _).
  destruct (Hrefill "report-schedule" created.2 created_wf refilled_again.1 refilled_again.2
    (exec_runs _ silent (minute_at 16) _ _)) as [_ Hr].
  destruct refilled_again.1 as [[|]|e| |]; [|discriminate Hok..]. by split.
Defined.

Lemma service_observes_commits_witness :
  sound any_call (op_program demo_service demo_ambient (OpCreate demo_create)) (λ _, True) ∧
  store_wf (w_store demo_world).
Proof.
  split; [|exact memory_init_inv].
  by apply (service_observes_commits any_call demo_service demo_ambient any_call_wf).
Defined.
