(* ===== verification/DetachedJob.v ===== *)
(** * DetachedJobMachine

    The job authority of [catalog/dsl/detached_job.rs]: a submitted job, the
    attempts of workers under a fence and a lease, the notifications they emit,
    the terminal outcome, and the acknowledgement of both kinds of delivery.
    The conventions are those of [OccurrenceLifecycle]; strings are texts
    ([Text]).  A guard that reads a state map misses when the key is absent
    ([tr_absent]). *)

From stdpp Require Import gmap.
From S2P Require Export Authority Text.

(** ** Data *)

(** Literals stay folded. *)
#[global] Arguments lit _ : simpl never.

(** [Option<String>::get("value")] of the machine language. *)
Definition get_text (o : option str) : str := default [] o.

Inductive DetachedJobPhase := | Unsubmitted | Queued | Claimed | Running | WaitingExternal
  | LossObserved | RetryScheduled | Succeeded | Failed | Cancelled | WorkerLost
  | NeedsAttention.

Inductive DetachedJobRestartClass := | DetachedJobRestartClass_Adoptable
  | DetachedJobRestartClass_CheckpointResumable | DetachedJobRestartClass_Replayable
  | DetachedJobRestartClass_NonResumable.

Inductive DetachedJobTerminalKind := | DetachedJobTerminalKind_Succeeded
  | DetachedJobTerminalKind_Failed | DetachedJobTerminalKind_Cancelled
  | DetachedJobTerminalKind_WorkerLost | DetachedJobTerminalKind_NeedsAttention.

Inductive DetachedJobInputVariant := | V_Submit | V_ClaimAttempt | V_RenewLease
  | V_ReportProgress | V_EmitNotification | V_RecordCheckpoint | V_WaitExternal
  | V_ResumeRunning | V_CompleteAttempt | V_FailAttempt | V_RequestCancel
  | V_AcknowledgeCancel | V_LeaseExpired | V_ScheduleRetry | V_ClassifyWorkerLoss
  | V_MarkNeedsAttention | V_MarkDeliveryApplied.

#[export] Instance DetachedJobPhase_eq_dec : EqDecision DetachedJobPhase.
Proof. solve_decision. Defined.
#[export] Instance DetachedJobRestartClass_eq_dec : EqDecision DetachedJobRestartClass.
Proof. solve_decision. Defined.
#[export] Instance DetachedJobTerminalKind_eq_dec : EqDecision DetachedJobTerminalKind.
Proof. solve_decision. Defined.
#[export] Instance DetachedJobInputVariant_eq_dec : EqDecision DetachedJobInputVariant.
Proof. solve_decision. Defined.

Record DetachedJobMachineState := mkJob {
  lifecycle_phase : DetachedJobPhase;
  job_id : str;
  restart_class : DetachedJobRestartClass;
  attempt_count : N;
  current_attempt_id : option str;
  current_fence : N;
  current_worker_id : option str;
  lease_expires_at_ms : option N;
  heartbeat_at_ms : option N;
  checkpoint_ref : option str;
  runner_handle : option str;
  progress_cursor : N;
  lease_expired : bool;
  retry_due_at_ms : option N;
  cancel_requested : bool;
  delivery_sequence : N;
  notification_ids : gset str;
  notification_idempotency_keys : gset str;
  notification_id_by_key : gmap str str;
  notification_delivery_ids : gmap str str;
  notification_sequences : gmap str N;
  notification_applied : gset str;
  terminal_kind : option DetachedJobTerminalKind;
  terminal_delivery_sequence : N;
  terminal_delivery_applied : bool;
}.

#[export] Instance job_fields : Fields DetachedJobMachineState := λ s,
  mkJob
    (lifecycle_phase s) (job_id s) (restart_class s) (attempt_count s)
    (current_attempt_id s) (current_fence s) (current_worker_id s) (lease_expires_at_ms s)
    (heartbeat_at_ms s) (checkpoint_ref s) (runner_handle s) (progress_cursor s)
    (lease_expired s) (retry_due_at_ms s) (cancel_requested s) (delivery_sequence s)
    (notification_ids s) (notification_idempotency_keys s) (notification_id_by_key s)
    (notification_delivery_ids s) (notification_sequences s) (notification_applied s)
    (terminal_kind s) (terminal_delivery_sequence s) (terminal_delivery_applied s).

#[export] Instance job_state_eq_dec : EqDecision DetachedJobMachineState.
Proof. solve_decision. Defined.

Definition job_init : DetachedJobMachineState := {|
  lifecycle_phase := Unsubmitted;
  job_id := [];
  restart_class := DetachedJobRestartClass_NonResumable;
  attempt_count := 0;
  current_attempt_id := None;
  current_fence := 0;
  current_worker_id := None;
  lease_expires_at_ms := None;
  heartbeat_at_ms := None;
  checkpoint_ref := None;
  runner_handle := None;
  progress_cursor := 0;
  lease_expired := false;
  retry_due_at_ms := None;
  cancel_requested := false;
  delivery_sequence := 0;
  notification_ids := ∅;
  notification_idempotency_keys := ∅;
  notification_id_by_key := ∅;
  notification_delivery_ids := ∅;
  notification_sequences := ∅;
  notification_applied := ∅;
  terminal_kind := None;
  terminal_delivery_sequence := 0;
  terminal_delivery_applied := false;
|}.

Inductive DetachedJobInput :=
| I_Submit (job_id' : str) (restart_class' : DetachedJobRestartClass)
| I_ClaimAttempt (attempt_id : str) (worker_id : str) (claimed_at_ms : N)
    (lease_expires_at_ms' : N) (runner_handle' : str)
| I_RenewLease (attempt_id : str) (fence : N) (heartbeat_at_ms' : N)
    (lease_expires_at_ms' : N)
| I_ReportProgress (attempt_id : str) (fence : N) (cursor : N) (observed_at_ms : N)
| I_EmitNotification (attempt_id : str) (fence : N) (notification_id : str)
    (idempotency_key : str) (runtime_delivery_id : str) (observed_at_ms : N)
| I_RecordCheckpoint (attempt_id : str) (fence : N) (checkpoint_ref' : str)
    (observed_at_ms : N)
| I_WaitExternal (attempt_id : str) (fence : N) (observed_at_ms : N)
| I_ResumeRunning (attempt_id : str) (fence : N) (observed_at_ms : N)
| I_CompleteAttempt (attempt_id : str) (fence : N) (completed_at_ms : N)
| I_FailAttempt (attempt_id : str) (fence : N) (failed_at_ms : N)
| I_RequestCancel
| I_AcknowledgeCancel (attempt_id : str) (fence : N) (acknowledged_at_ms : N)
| I_LeaseExpired (attempt_id : str) (fence : N) (observed_at_ms : N)
| I_ScheduleRetry (retry_due_at_ms' : N)
| I_ClassifyWorkerLoss (observed_at_ms : N)
| I_MarkNeedsAttention (observed_at_ms : N)
| I_MarkDeliveryApplied (delivery_id : str) (delivery_sequence' : N).

Inductive DetachedJobEffect :=
| E_JobSubmitted (job_id : str)
| E_AttemptClaimed (attempt_id : str) (attempt_count : N) (fence : N)
    (lease_expires_at_ms : N) (resume_checkpoint : option str)
| E_LeaseRenewed (lease_expires_at_ms : N)
| E_ProgressAccepted (cursor : N)
| E_NotificationCommitted (notification_id : str) (idempotency_key : str)
    (runtime_delivery_id : str) (delivery_sequence : N)
| E_NotificationSuppressed (notification_id : str) (idempotency_key : str)
    (runtime_delivery_id : str) (delivery_sequence : N)
| E_CheckpointAccepted (checkpoint_ref : str)
| E_ExternalWaitAccepted
| E_RunningResumed
| E_CancelRequested
| E_LeaseExpiryRecorded
| E_RetryScheduled (retry_due_at_ms : N)
| E_TerminalCommitted (job_id : str) (terminal_kind : DetachedJobTerminalKind)
    (delivery_sequence : N)
| E_DeliveryApplied (delivery_id : str) (delivery_sequence : N).

Definition job_variant (i : DetachedJobInput)
    : DetachedJobInputVariant :=
  match i with
  | I_Submit _ _ => V_Submit
  | I_ClaimAttempt _ _ _ _ _ => V_ClaimAttempt
  | I_RenewLease _ _ _ _ => V_RenewLease
  | I_ReportProgress _ _ _ _ => V_ReportProgress
  | I_EmitNotification _ _ _ _ _ _ => V_EmitNotification
  | I_RecordCheckpoint _ _ _ _ => V_RecordCheckpoint
  | I_WaitExternal _ _ _ => V_WaitExternal
  | I_ResumeRunning _ _ _ => V_ResumeRunning
  | I_CompleteAttempt _ _ _ => V_CompleteAttempt
  | I_FailAttempt _ _ _ => V_FailAttempt
  | I_RequestCancel => V_RequestCancel
  | I_AcknowledgeCancel _ _ _ => V_AcknowledgeCancel
  | I_LeaseExpired _ _ _ => V_LeaseExpired
  | I_ScheduleRetry _ => V_ScheduleRetry
  | I_ClassifyWorkerLoss _ => V_ClassifyWorkerLoss
  | I_MarkNeedsAttention _ => V_MarkNeedsAttention
  | I_MarkDeliveryApplied _ _ => V_MarkDeliveryApplied
  end.

Definition job_terminal : list DetachedJobPhase :=
  [Succeeded; Failed; Cancelled; WorkerLost; NeedsAttention].

(** ** Declared invariants *)

Definition fence_tracks_claim_count
    (s : DetachedJobMachineState) : bool :=
  (current_fence s =? attempt_count s)%N.

Definition no_attempt_has_no_attempt_authority
    (s : DetachedJobMachineState) : bool :=
  (negb (attempt_count s =? 0)%N)
  || ((current_attempt_id s == None)
      && (current_worker_id s == None)
      && (lease_expires_at_ms s == None)
      && (heartbeat_at_ms s == None)
      && (runner_handle s == None)).

Definition checkpoint_requires_attempt
    (s : DetachedJobMachineState) : bool :=
  (checkpoint_ref s == None) || (0 <? attempt_count s)%N.

Definition active_execution_requires_attempt_authority
    (s : DetachedJobMachineState) : bool :=
  ((lifecycle_phase s != Running)
      && (lifecycle_phase s != WaitingExternal)
      && (lifecycle_phase s != LossObserved)
      && (lifecycle_phase s != RetryScheduled))
  || ((current_attempt_id s != None)
      && (current_worker_id s != None)
      && (lease_expires_at_ms s != None)
      && (runner_handle s != None)
      && (0 <? current_fence s)%N).

Definition terminal_requires_delivery
    (s : DetachedJobMachineState) : bool :=
  ((lifecycle_phase s != Succeeded)
      && (lifecycle_phase s != Failed)
      && (lifecycle_phase s != Cancelled)
      && (lifecycle_phase s != WorkerLost)
      && (lifecycle_phase s != NeedsAttention))
  || ((terminal_kind s != None)
      && (0 <? terminal_delivery_sequence s)%N
      && (terminal_delivery_sequence s <=? delivery_sequence s)%N).

Definition notification_identity_and_sequence_cardinality_match
    (s : DetachedJobMachineState) : bool :=
  (N.of_nat (size (notification_ids s))
     =? N.of_nat (size (notification_idempotency_keys s)))%N
  && (dom (notification_id_by_key s) == notification_idempotency_keys s)
  && (dom (notification_delivery_ids s) == notification_ids s)
  && (dom (notification_sequences s) == notification_ids s).

Definition applied_notifications_are_committed
    (s : DetachedJobMachineState) : bool :=
  (N.of_nat (size (notification_applied s)) <=? N.of_nat (size (notification_ids s)))%N.

Definition nonterminal_has_no_terminal_delivery
    (s : DetachedJobMachineState) : bool :=
  ((lifecycle_phase s == Succeeded)
      || (lifecycle_phase s == Failed)
      || (lifecycle_phase s == Cancelled)
      || (lifecycle_phase s == WorkerLost)
      || (lifecycle_phase s == NeedsAttention))
  || ((terminal_kind s == None)
      && (terminal_delivery_sequence s =? 0)%N
      && (terminal_delivery_applied s == false)).

Definition terminal_delivery_follows_every_notification
    (s : DetachedJobMachineState) : bool :=
  (terminal_kind s == None)
  || forallb (λ id, (get_value (notification_sequences s !! id)
                       <? terminal_delivery_sequence s)%N)
       (elements (dom (notification_sequences s))).

(** ** Transitions *)

#[export] Instance job_phased :
    Phased DetachedJobMachineState DetachedJobPhase := {|
  phase := lifecycle_phase;
  set_phase := λ p s, s <| lifecycle_phase := p |>;
  phase_name := λ p, match p with
   | Unsubmitted => "Unsubmitted" | Queued => "Queued" | Claimed => "Claimed"
    | Running => "Running" | WaitingExternal => "WaitingExternal"
    | LossObserved => "LossObserved" | RetryScheduled => "RetryScheduled"
    | Succeeded => "Succeeded" | Failed => "Failed" | Cancelled => "Cancelled"
    | WorkerLost => "WorkerLost" | NeedsAttention => "NeedsAttention" end;
|}.

Section Transitions.
Context {BP : BuildProfile}.

Abbreviation State := DetachedJobMachineState.
Abbreviation transition :=
  (Transition DetachedJobMachineState DetachedJobPhase
     DetachedJobEffect).

Definition SubmitQueued (job_id' : str) (restart_class' : DetachedJobRestartClass)
    : transition := {|
  tr_name := "SubmitQueued";
  tr_guard := λ s, (lifecycle_phase s == Unsubmitted) && (job_id' != []);
  tr_absent := no_map_read;
  tr_update := λ s,
    Some (s <| job_id := job_id' |> <| restart_class := restart_class' |>);
  tr_to := Queued;
  tr_emit := λ s, [E_JobSubmitted (job_id s)];
|}.

(** The update block of [ClaimQueued], [ClaimRetryScheduled]. *)
Definition claim_update (attempt_id : str) (worker_id : str) (claimed_at_ms : N)
    (lease_expires_at_ms' : N) (runner_handle' : str) (s : State) : option State :=
  n ← u64_add (attempt_count s) 1%N;
  let s := s <| attempt_count := n |> in
  n ← u64_add (current_fence s) 1%N;
  let s := s <| current_fence := n |> in
  Some (s <| current_attempt_id := Some attempt_id |> <| current_worker_id := Some worker_id |>
       <| lease_expires_at_ms := Some lease_expires_at_ms' |>
       <| heartbeat_at_ms := Some claimed_at_ms |>
       <| runner_handle := Some runner_handle' |> <| lease_expired := false |>
       <| retry_due_at_ms := None |> <| cancel_requested := false |>).

Definition ClaimQueued (attempt_id : str) (worker_id : str) (claimed_at_ms : N)
    (lease_expires_at_ms' : N) (runner_handle' : str) : transition := {|
  tr_name := "ClaimQueued";
  tr_guard := λ s,
       (lifecycle_phase s == Queued)
    && (attempt_id != [])
    && (worker_id != [])
    && (runner_handle' != [])
    && (claimed_at_ms <? lease_expires_at_ms')%N;
  tr_absent := no_map_read;
  tr_update :=
    claim_update attempt_id worker_id claimed_at_ms lease_expires_at_ms' runner_handle';
  tr_to := Running;
  tr_emit := λ s,
      [E_AttemptClaimed attempt_id (attempt_count s) (current_fence s) lease_expires_at_ms'
         (checkpoint_ref s)];
|}.

Definition ClaimRetryScheduled (attempt_id : str) (worker_id : str) (claimed_at_ms : N)
    (lease_expires_at_ms' : N) (runner_handle' : str) : transition := {|
  tr_name := "ClaimRetryScheduled";
  tr_guard := λ s,
       (lifecycle_phase s == RetryScheduled)
    && (attempt_id != [])
    && (worker_id != [])
    && (runner_handle' != [])
    && (retry_due_at_ms s != None)
    && (get_value (retry_due_at_ms s) <=? claimed_at_ms)%N
    && (claimed_at_ms <? lease_expires_at_ms')%N
    && (attempt_id != get_text (current_attempt_id s));
  tr_absent := no_map_read;
  tr_update :=
    claim_update attempt_id worker_id claimed_at_ms lease_expires_at_ms' runner_handle';
  tr_to := Running;
  tr_emit := λ s,
      [E_AttemptClaimed attempt_id (attempt_count s) (current_fence s) lease_expires_at_ms'
         (checkpoint_ref s)];
|}.

(** The update block of [RenewRunningLease], [RenewExternalWaitLease]. *)
Definition renew_update (heartbeat_at_ms' : N) (lease_expires_at_ms' : N)
    (s : State) : option State :=
  Some (s <| heartbeat_at_ms := Some heartbeat_at_ms' |>
       <| lease_expires_at_ms := Some lease_expires_at_ms' |>).

Definition RenewRunningLease (attempt_id : str) (fence : N) (heartbeat_at_ms' : N)
    (lease_expires_at_ms' : N) : transition := {|
  tr_name := "RenewRunningLease";
  tr_guard := λ s,
       (lifecycle_phase s == Running)
    && (current_attempt_id s == Some attempt_id)
    && (current_fence s =? fence)%N
    && (lease_expired s == false)
    && (lease_expires_at_ms s != None)
    && (heartbeat_at_ms s != None)
    && (get_value (heartbeat_at_ms s) <? heartbeat_at_ms')%N
    && (heartbeat_at_ms' <? lease_expires_at_ms')%N
    && (get_value (lease_expires_at_ms s) <? lease_expires_at_ms')%N;
  tr_absent := no_map_read;
  tr_update := renew_update heartbeat_at_ms' lease_expires_at_ms';
  tr_to := Running;
  tr_emit := λ s, [E_LeaseRenewed lease_expires_at_ms'];
|}.

Definition RenewExternalWaitLease (attempt_id : str) (fence : N) (heartbeat_at_ms' : N)
    (lease_expires_at_ms' : N) : transition := {|
  tr_name := "RenewExternalWaitLease";
  tr_guard := λ s,
       (lifecycle_phase s == WaitingExternal)
    && (current_attempt_id s == Some attempt_id)
    && (current_fence s =? fence)%N
    && (lease_expired s == false)
    && (lease_expires_at_ms s != None)
    && (heartbeat_at_ms s != None)
    && (get_value (heartbeat_at_ms s) <? heartbeat_at_ms')%N
    && (heartbeat_at_ms' <? lease_expires_at_ms')%N
    && (get_value (lease_expires_at_ms s) <? lease_expires_at_ms')%N;
  tr_absent := no_map_read;
  tr_update := renew_update heartbeat_at_ms' lease_expires_at_ms';
  tr_to := WaitingExternal;
  tr_emit := λ s, [E_LeaseRenewed lease_expires_at_ms'];
|}.

Definition ReportRunningProgress (attempt_id : str) (fence : N) (cursor : N)
    (observed_at_ms : N) : transition := {|
  tr_name := "ReportRunningProgress";
  tr_guard := λ s,
       (lifecycle_phase s == Running)
    && (current_attempt_id s == Some attempt_id)
    && (current_fence s =? fence)%N
    && (lease_expired s == false)
    && (lease_expires_at_ms s != None)
    && (observed_at_ms <=? get_value (lease_expires_at_ms s))%N
    && (progress_cursor s <? cursor)%N;
  tr_absent := no_map_read;
  tr_update := λ s,
    Some (s <| progress_cursor := cursor |>);
  tr_to := Running;
  tr_emit := λ s, [E_ProgressAccepted cursor];
|}.

Definition ReportExternalWaitProgress (attempt_id : str) (fence : N) (cursor : N)
    (observed_at_ms : N) : transition := {|
  tr_name := "ReportExternalWaitProgress";
  tr_guard := λ s,
       (lifecycle_phase s == WaitingExternal)
    && (current_attempt_id s == Some attempt_id)
    && (current_fence s =? fence)%N
    && (lease_expired s == false)
    && (lease_expires_at_ms s != None)
    && (observed_at_ms <=? get_value (lease_expires_at_ms s))%N
    && (progress_cursor s <? cursor)%N;
  tr_absent := no_map_read;
  tr_update := λ s,
    Some (s <| progress_cursor := cursor |>);
  tr_to := WaitingExternal;
  tr_emit := λ s, [E_ProgressAccepted cursor];
|}.

(** The update block of [EmitRunningNotification], [EmitExternalWaitNotification]. *)
Definition notify_update (notification_id : str) (idempotency_key : str)
    (runtime_delivery_id : str) (s : State) : option State :=
  n ← u64_add (delivery_sequence s) 1%N;
  let s := s <| delivery_sequence := n |> in
  Some (s <| notification_ids := {[notification_id]} ∪ notification_ids s |>
       <| notification_idempotency_keys :=
            {[idempotency_key]} ∪ notification_idempotency_keys s |>
       <| notification_id_by_key :=
            <[idempotency_key := notification_id]> (notification_id_by_key s) |>
       <| notification_delivery_ids :=
            <[notification_id := runtime_delivery_id]> (notification_delivery_ids s) |>
       <| notification_sequences :=
            <[notification_id := delivery_sequence s]> (notification_sequences s) |>).

Definition EmitRunningNotification (attempt_id : str) (fence : N) (notification_id : str)
    (idempotency_key : str) (runtime_delivery_id : str) (observed_at_ms : N)
    : transition := {|
  tr_name := "EmitRunningNotification";
  tr_guard := λ s,
       (lifecycle_phase s == Running)
    && (current_attempt_id s == Some attempt_id)
    && (current_fence s =? fence)%N
    && (lease_expired s == false)
    && (lease_expires_at_ms s != None)
    && (observed_at_ms <=? get_value (lease_expires_at_ms s))%N
    && (notification_id != [])
    && (idempotency_key != [])
    && (runtime_delivery_id != [])
    && ((bool_decide (notification_id ∈ notification_ids s)) == false)
    && ((bool_decide (idempotency_key ∈ notification_idempotency_keys s)) == false)
    && (delivery_sequence s <? u64_max)%N;
  tr_absent := no_map_read;
  tr_update := notify_update notification_id idempotency_key runtime_delivery_id;
  tr_to := Running;
  tr_emit := λ s,
      [E_NotificationCommitted notification_id idempotency_key runtime_delivery_id
         (delivery_sequence s)];
|}.

Definition EmitExternalWaitNotification (attempt_id : str) (fence : N)
    (notification_id : str) (idempotency_key : str) (runtime_delivery_id : str)
    (observed_at_ms : N) : transition := {|
  tr_name := "EmitExternalWaitNotification";
  tr_guard := λ s,
       (lifecycle_phase s == WaitingExternal)
    && (current_attempt_id s == Some attempt_id)
    && (current_fence s =? fence)%N
    && (lease_expired s == false)
    && (lease_expires_at_ms s != None)
    && (observed_at_ms <=? get_value (lease_expires_at_ms s))%N
    && (notification_id != [])
    && (idempotency_key != [])
    && (runtime_delivery_id != [])
    && ((bool_decide (notification_id ∈ notification_ids s)) == false)
    && ((bool_decide (idempotency_key ∈ notification_idempotency_keys s)) == false)
    && (delivery_sequence s <? u64_max)%N;
  tr_absent := no_map_read;
  tr_update := notify_update notification_id idempotency_key runtime_delivery_id;
  tr_to := WaitingExternal;
  tr_emit := λ s,
      [E_NotificationCommitted notification_id idempotency_key runtime_delivery_id
         (delivery_sequence s)];
|}.

Definition SuppressRunningNotificationReplay (attempt_id : str) (fence : N)
    (notification_id : str) (idempotency_key : str) (runtime_delivery_id : str)
    (observed_at_ms : N) : transition := {|
  tr_name := "SuppressRunningNotificationReplay";
  tr_guard := λ s,
       (lifecycle_phase s == Running)
    && (current_attempt_id s == Some attempt_id)
    && (current_fence s =? fence)%N
    && (lease_expired s == false)
    && (lease_expires_at_ms s != None)
    && (observed_at_ms <=? get_value (lease_expires_at_ms s))%N
    && (notification_id != [])
    && (runtime_delivery_id != [])
    && (bool_decide (idempotency_key ∈ notification_idempotency_keys s));
  tr_absent := no_map_read;
  tr_update := Some;
  tr_to := Running;
  tr_emit := λ s,
      [E_NotificationSuppressed (get_text (notification_id_by_key s !! idempotency_key))
         idempotency_key
         (get_text (notification_delivery_ids s
                      !! get_text (notification_id_by_key s !! idempotency_key)))
         (get_value (notification_sequences s
                       !! get_text (notification_id_by_key s !! idempotency_key)))];
|}.

Definition SuppressExternalWaitNotificationReplay (attempt_id : str) (fence : N)
    (notification_id : str) (idempotency_key : str) (runtime_delivery_id : str)
    (observed_at_ms : N) : transition := {|
  tr_name := "SuppressExternalWaitNotificationReplay";
  tr_guard := λ s,
       (lifecycle_phase s == WaitingExternal)
    && (current_attempt_id s == Some attempt_id)
    && (current_fence s =? fence)%N
    && (lease_expired s == false)
    && (lease_expires_at_ms s != None)
    && (observed_at_ms <=? get_value (lease_expires_at_ms s))%N
    && (notification_id != [])
    && (runtime_delivery_id != [])
    && (bool_decide (idempotency_key ∈ notification_idempotency_keys s));
  tr_absent := no_map_read;
  tr_update := Some;
  tr_to := WaitingExternal;
  tr_emit := λ s,
      [E_NotificationSuppressed (get_text (notification_id_by_key s !! idempotency_key))
         idempotency_key
         (get_text (notification_delivery_ids s
                      !! get_text (notification_id_by_key s !! idempotency_key)))
         (get_value (notification_sequences s
                       !! get_text (notification_id_by_key s !! idempotency_key)))];
|}.

Definition RecordRunningCheckpoint (attempt_id : str) (fence : N) (checkpoint_ref' : str)
    (observed_at_ms : N) : transition := {|
  tr_name := "RecordRunningCheckpoint";
  tr_guard := λ s,
       (lifecycle_phase s == Running)
    && (current_attempt_id s == Some attempt_id)
    && (current_fence s =? fence)%N
    && (lease_expired s == false)
    && (lease_expires_at_ms s != None)
    && (observed_at_ms <=? get_value (lease_expires_at_ms s))%N
    && (checkpoint_ref' != []);
  tr_absent := no_map_read;
  tr_update := λ s,
    Some (s <| checkpoint_ref := Some checkpoint_ref' |>);
  tr_to := Running;
  tr_emit := λ s, [E_CheckpointAccepted checkpoint_ref'];
|}.

Definition RecordExternalWaitCheckpoint (attempt_id : str) (fence : N)
    (checkpoint_ref' : str) (observed_at_ms : N) : transition := {|
  tr_name := "RecordExternalWaitCheckpoint";
  tr_guard := λ s,
       (lifecycle_phase s == WaitingExternal)
    && (current_attempt_id s == Some attempt_id)
    && (current_fence s =? fence)%N
    && (lease_expired s == false)
    && (lease_expires_at_ms s != None)
    && (observed_at_ms <=? get_value (lease_expires_at_ms s))%N
    && (checkpoint_ref' != []);
  tr_absent := no_map_read;
  tr_update := λ s,
    Some (s <| checkpoint_ref := Some checkpoint_ref' |>);
  tr_to := WaitingExternal;
  tr_emit := λ s, [E_CheckpointAccepted checkpoint_ref'];
|}.

Definition WaitExternalFromRunning (attempt_id : str) (fence : N) (observed_at_ms : N)
    : transition := {|
  tr_name := "WaitExternalFromRunning";
  tr_guard := λ s,
       (lifecycle_phase s == Running)
    && (current_attempt_id s == Some attempt_id)
    && (current_fence s =? fence)%N
    && (lease_expired s == false)
    && (lease_expires_at_ms s != None)
    && (observed_at_ms <=? get_value (lease_expires_at_ms s))%N;
  tr_absent := no_map_read;
  tr_update := Some;
  tr_to := WaitingExternal;
  tr_emit := λ s, [E_ExternalWaitAccepted];
|}.

Definition ResumeRunningFromExternal (attempt_id : str) (fence : N) (observed_at_ms : N)
    : transition := {|
  tr_name := "ResumeRunningFromExternal";
  tr_guard := λ s,
       (lifecycle_phase s == WaitingExternal)
    && (current_attempt_id s == Some attempt_id)
    && (current_fence s =? fence)%N
    && (lease_expired s == false)
    && (lease_expires_at_ms s != None)
    && (observed_at_ms <=? get_value (lease_expires_at_ms s))%N;
  tr_absent := no_map_read;
  tr_update := Some;
  tr_to := Running;
  tr_emit := λ s, [E_RunningResumed];
|}.

Definition RequestCancelRunning : transition := {|
  tr_name := "RequestCancelRunning";
  tr_guard := λ s, (lifecycle_phase s == Running) && (cancel_requested s == false);
  tr_absent := no_map_read;
  tr_update := λ s,
    Some (s <| cancel_requested := true |>);
  tr_to := Running;
  tr_emit := λ s, [E_CancelRequested];
|}.

Definition RequestCancelWaitingExternal : transition := {|
  tr_name := "RequestCancelWaitingExternal";
  tr_guard := λ s, (lifecycle_phase s == WaitingExternal) && (cancel_requested s == false);
  tr_absent := no_map_read;
  tr_update := λ s,
    Some (s <| cancel_requested := true |>);
  tr_to := WaitingExternal;
  tr_emit := λ s, [E_CancelRequested];
|}.

Definition RequestCancelAlreadyRequestedRunning : transition := {|
  tr_name := "RequestCancelAlreadyRequestedRunning";
  tr_guard := λ s, (lifecycle_phase s == Running) && (cancel_requested s);
  tr_absent := no_map_read;
  tr_update := Some;
  tr_to := Running;
  tr_emit := λ s, [E_CancelRequested];
|}.

Definition RequestCancelAlreadyRequestedWaitingExternal : transition := {|
  tr_name := "RequestCancelAlreadyRequestedWaitingExternal";
  tr_guard := λ s, (lifecycle_phase s == WaitingExternal) && (cancel_requested s);
  tr_absent := no_map_read;
  tr_update := Some;
  tr_to := WaitingExternal;
  tr_emit := λ s, [E_CancelRequested];
|}.

Definition RequestCancelAlreadyCancelled : transition := {|
  tr_name := "RequestCancelAlreadyCancelled";
  tr_guard := λ s, lifecycle_phase s == Cancelled;
  tr_absent := no_map_read;
  tr_update := Some;
  tr_to := Cancelled;
  tr_emit := λ s, [E_CancelRequested];
|}.

(** The update block of [RequestCancelQueued] and the two arms that repeat it. *)
Definition cancel_now_update (s : State) : option State :=
  let s := s <| cancel_requested := true |>
          <| terminal_kind := Some DetachedJobTerminalKind_Cancelled |> in
  n ← u64_add (delivery_sequence s) 1%N;
  let s := s <| terminal_delivery_sequence := n |> in
  n ← u64_add (delivery_sequence s) 1%N;
  Some (s <| delivery_sequence := n |>).

Definition RequestCancelQueued : transition := {|
  tr_name := "RequestCancelQueued";
  tr_guard := λ s, lifecycle_phase s == Queued;
  tr_absent := no_map_read;
  tr_update := cancel_now_update;
  tr_to := Cancelled;
  tr_emit := λ s,
      [E_TerminalCommitted (job_id s) DetachedJobTerminalKind_Cancelled
         (terminal_delivery_sequence s)];
|}.

Definition RequestCancelRetryScheduled : transition := {|
  tr_name := "RequestCancelRetryScheduled";
  tr_guard := λ s, lifecycle_phase s == RetryScheduled;
  tr_absent := no_map_read;
  tr_update := cancel_now_update;
  tr_to := Cancelled;
  tr_emit := λ s,
      [E_TerminalCommitted (job_id s) DetachedJobTerminalKind_Cancelled
         (terminal_delivery_sequence s)];
|}.

Definition RequestCancelLossObserved : transition := {|
  tr_name := "RequestCancelLossObserved";
  tr_guard := λ s, lifecycle_phase s == LossObserved;
  tr_absent := no_map_read;
  tr_update := cancel_now_update;
  tr_to := Cancelled;
  tr_emit := λ s,
      [E_TerminalCommitted (job_id s) DetachedJobTerminalKind_Cancelled
         (terminal_delivery_sequence s)];
|}.

Definition LeaseExpiresRunning (attempt_id : str) (fence : N) (observed_at_ms : N)
    : transition := {|
  tr_name := "LeaseExpiresRunning";
  tr_guard := λ s,
       (lifecycle_phase s == Running)
    && (current_attempt_id s == Some attempt_id)
    && (current_fence s =? fence)%N
    && (lease_expired s == false)
    && (lease_expires_at_ms s != None)
    && (get_value (lease_expires_at_ms s) <? observed_at_ms)%N;
  tr_absent := no_map_read;
  tr_update := λ s,
    Some (s <| lease_expired := true |>);
  tr_to := LossObserved;
  tr_emit := λ s, [E_LeaseExpiryRecorded];
|}.

Definition LeaseExpiresWaitingExternal (attempt_id : str) (fence : N) (observed_at_ms : N)
    : transition := {|
  tr_name := "LeaseExpiresWaitingExternal";
  tr_guard := λ s,
       (lifecycle_phase s == WaitingExternal)
    && (current_attempt_id s == Some attempt_id)
    && (current_fence s =? fence)%N
    && (lease_expired s == false)
    && (lease_expires_at_ms s != None)
    && (get_value (lease_expires_at_ms s) <? observed_at_ms)%N;
  tr_absent := no_map_read;
  tr_update := λ s,
    Some (s <| lease_expired := true |>);
  tr_to := LossObserved;
  tr_emit := λ s, [E_LeaseExpiryRecorded];
|}.

Definition ScheduleRetryAfterLoss (retry_due_at_ms' : N) : transition := {|
  tr_name := "ScheduleRetryAfterLoss";
  tr_guard := λ s,
       (lifecycle_phase s == LossObserved)
    && (lease_expired s)
    && (restart_class s != DetachedJobRestartClass_NonResumable)
    && ((restart_class s != DetachedJobRestartClass_CheckpointResumable)
        || (checkpoint_ref s != None))
    && (lease_expires_at_ms s != None)
    && (get_value (lease_expires_at_ms s) <? retry_due_at_ms')%N;
  tr_absent := no_map_read;
  tr_update := λ s,
    Some (s <| retry_due_at_ms := Some retry_due_at_ms' |>);
  tr_to := RetryScheduled;
  tr_emit := λ s, [E_RetryScheduled retry_due_at_ms'];
|}.

Definition ClassifyNonResumableWorkerLoss (observed_at_ms : N) : transition := {|
  tr_name := "ClassifyNonResumableWorkerLoss";
  tr_guard := λ s,
       (lifecycle_phase s == LossObserved)
    && (lease_expired s)
    && (restart_class s == DetachedJobRestartClass_NonResumable)
    && (lease_expires_at_ms s != None)
    && (get_value (lease_expires_at_ms s) <? observed_at_ms)%N;
  tr_absent := no_map_read;
  tr_update := λ s,
    let s := s <| terminal_kind := Some DetachedJobTerminalKind_WorkerLost |> in
    n ← u64_add (delivery_sequence s) 1%N;
    let s := s <| terminal_delivery_sequence := n |> in
    n ← u64_add (delivery_sequence s) 1%N;
    Some (s <| delivery_sequence := n |>);
  tr_to := WorkerLost;
  tr_emit := λ s,
      [E_TerminalCommitted (job_id s) DetachedJobTerminalKind_WorkerLost
         (terminal_delivery_sequence s)];
|}.

(** The update block of [CompleteRunningAttempt], [CompleteWaitingExternalAttempt]. *)
Definition succeed_update (s : State) : option State :=
  let s := s <| terminal_kind := Some DetachedJobTerminalKind_Succeeded |> in
  n ← u64_add (delivery_sequence s) 1%N;
  let s := s <| terminal_delivery_sequence := n |> in
  n ← u64_add (delivery_sequence s) 1%N;
  Some (s <| delivery_sequence := n |>).

Definition CompleteRunningAttempt (attempt_id : str) (fence : N) (completed_at_ms : N)
    : transition := {|
  tr_name := "CompleteRunningAttempt";
  tr_guard := λ s,
       (lifecycle_phase s == Running)
    && (cancel_requested s == false)
    && (current_attempt_id s == Some attempt_id)
    && (current_fence s =? fence)%N
    && (lease_expired s == false)
    && (lease_expires_at_ms s != None)
    && (completed_at_ms <=? get_value (lease_expires_at_ms s))%N;
  tr_absent := no_map_read;
  tr_update := succeed_update;
  tr_to := Succeeded;
  tr_emit := λ s,
      [E_TerminalCommitted (job_id s) DetachedJobTerminalKind_Succeeded
         (terminal_delivery_sequence s)];
|}.

Definition CompleteWaitingExternalAttempt (attempt_id : str) (fence : N)
    (completed_at_ms : N) : transition := {|
  tr_name := "CompleteWaitingExternalAttempt";
  tr_guard := λ s,
       (lifecycle_phase s == WaitingExternal)
    && (cancel_requested s == false)
    && (current_attempt_id s == Some attempt_id)
    && (current_fence s =? fence)%N
    && (lease_expired s == false)
    && (lease_expires_at_ms s != None)
    && (completed_at_ms <=? get_value (lease_expires_at_ms s))%N;
  tr_absent := no_map_read;
  tr_update := succeed_update;
  tr_to := Succeeded;
  tr_emit := λ s,
      [E_TerminalCommitted (job_id s) DetachedJobTerminalKind_Succeeded
         (terminal_delivery_sequence s)];
|}.

(** The update block of [FailRunningAttempt], [FailWaitingExternalAttempt]. *)
Definition fail_update (s : State) : option State :=
  let s := s <| terminal_kind := Some DetachedJobTerminalKind_Failed |> in
  n ← u64_add (delivery_sequence s) 1%N;
  let s := s <| terminal_delivery_sequence := n |> in
  n ← u64_add (delivery_sequence s) 1%N;
  Some (s <| delivery_sequence := n |>).

Definition FailRunningAttempt (attempt_id : str) (fence : N) (failed_at_ms : N)
    : transition := {|
  tr_name := "FailRunningAttempt";
  tr_guard := λ s,
       (lifecycle_phase s == Running)
    && (cancel_requested s == false)
    && (current_attempt_id s == Some attempt_id)
    && (current_fence s =? fence)%N
    && (lease_expired s == false)
    && (lease_expires_at_ms s != None)
    && (failed_at_ms <=? get_value (lease_expires_at_ms s))%N;
  tr_absent := no_map_read;
  tr_update := fail_update;
  tr_to := Failed;
  tr_emit := λ s,
      [E_TerminalCommitted (job_id s) DetachedJobTerminalKind_Failed (terminal_delivery_sequence s)];
|}.

Definition FailWaitingExternalAttempt (attempt_id : str) (fence : N) (failed_at_ms : N)
    : transition := {|
  tr_name := "FailWaitingExternalAttempt";
  tr_guard := λ s,
       (lifecycle_phase s == WaitingExternal)
    && (cancel_requested s == false)
    && (current_attempt_id s == Some attempt_id)
    && (current_fence s =? fence)%N
    && (lease_expired s == false)
    && (lease_expires_at_ms s != None)
    && (failed_at_ms <=? get_value (lease_expires_at_ms s))%N;
  tr_absent := no_map_read;
  tr_update := fail_update;
  tr_to := Failed;
  tr_emit := λ s,
      [E_TerminalCommitted (job_id s) DetachedJobTerminalKind_Failed (terminal_delivery_sequence s)];
|}.

(** The update block of [AcknowledgeRunningCancel], [AcknowledgeWaitingExternalCancel]. *)
Definition acknowledge_cancel_update (s : State) : option State :=
  let s := s <| terminal_kind := Some DetachedJobTerminalKind_Cancelled |> in
  n ← u64_add (delivery_sequence s) 1%N;
  let s := s <| terminal_delivery_sequence := n |> in
  n ← u64_add (delivery_sequence s) 1%N;
  Some (s <| delivery_sequence := n |>).

Definition AcknowledgeRunningCancel (attempt_id : str) (fence : N)
    (acknowledged_at_ms : N) : transition := {|
  tr_name := "AcknowledgeRunningCancel";
  tr_guard := λ s,
       (lifecycle_phase s == Running)
    && (cancel_requested s)
    && (current_attempt_id s == Some attempt_id)
    && (current_fence s =? fence)%N
    && (lease_expired s == false)
    && (lease_expires_at_ms s != None)
    && (acknowledged_at_ms <=? get_value (lease_expires_at_ms s))%N;
  tr_absent := no_map_read;
  tr_update := acknowledge_cancel_update;
  tr_to := Cancelled;
  tr_emit := λ s,
      [E_TerminalCommitted (job_id s) DetachedJobTerminalKind_Cancelled
         (terminal_delivery_sequence s)];
|}.

Definition AcknowledgeWaitingExternalCancel (attempt_id : str) (fence : N)
    (acknowledged_at_ms : N) : transition := {|
  tr_name := "AcknowledgeWaitingExternalCancel";
  tr_guard := λ s,
       (lifecycle_phase s == WaitingExternal)
    && (cancel_requested s)
    && (current_attempt_id s == Some attempt_id)
    && (current_fence s =? fence)%N
    && (lease_expired s == false)
    && (lease_expires_at_ms s != None)
    && (acknowledged_at_ms <=? get_value (lease_expires_at_ms s))%N;
  tr_absent := no_map_read;
  tr_update := acknowledge_cancel_update;
  tr_to := Cancelled;
  tr_emit := λ s,
      [E_TerminalCommitted (job_id s) DetachedJobTerminalKind_Cancelled
         (terminal_delivery_sequence s)];
|}.

(** The update block of [MarkQueuedNeedsAttention] and the 4 arms that repeat it. *)
Definition needs_attention_update (s : State) : option State :=
  let s := s <| terminal_kind := Some DetachedJobTerminalKind_NeedsAttention |> in
  n ← u64_add (delivery_sequence s) 1%N;
  let s := s <| terminal_delivery_sequence := n |> in
  n ← u64_add (delivery_sequence s) 1%N;
  Some (s <| delivery_sequence := n |>).

Definition MarkQueuedNeedsAttention (observed_at_ms : N) : transition := {|
  tr_name := "MarkQueuedNeedsAttention";
  tr_guard := λ s, (lifecycle_phase s == Queued) && (0 <? observed_at_ms)%N;
  tr_absent := no_map_read;
  tr_update := needs_attention_update;
  tr_to := NeedsAttention;
  tr_emit := λ s,
      [E_TerminalCommitted (job_id s) DetachedJobTerminalKind_NeedsAttention
         (terminal_delivery_sequence s)];
|}.

Definition MarkRunningNeedsAttention (observed_at_ms : N) : transition := {|
  tr_name := "MarkRunningNeedsAttention";
  tr_guard := λ s, (lifecycle_phase s == Running) && (0 <? observed_at_ms)%N;
  tr_absent := no_map_read;
  tr_update := needs_attention_update;
  tr_to := NeedsAttention;
  tr_emit := λ s,
      [E_TerminalCommitted (job_id s) DetachedJobTerminalKind_NeedsAttention
         (terminal_delivery_sequence s)];
|}.

Definition MarkWaitingExternalNeedsAttention (observed_at_ms : N) : transition := {|
  tr_name := "MarkWaitingExternalNeedsAttention";
  tr_guard := λ s, (lifecycle_phase s == WaitingExternal) && (0 <? observed_at_ms)%N;
  tr_absent := no_map_read;
  tr_update := needs_attention_update;
  tr_to := NeedsAttention;
  tr_emit := λ s,
      [E_TerminalCommitted (job_id s) DetachedJobTerminalKind_NeedsAttention
         (terminal_delivery_sequence s)];
|}.

Definition MarkLossObservedNeedsAttention (observed_at_ms : N) : transition := {|
  tr_name := "MarkLossObservedNeedsAttention";
  tr_guard := λ s, (lifecycle_phase s == LossObserved) && (0 <? observed_at_ms)%N;
  tr_absent := no_map_read;
  tr_update := needs_attention_update;
  tr_to := NeedsAttention;
  tr_emit := λ s,
      [E_TerminalCommitted (job_id s) DetachedJobTerminalKind_NeedsAttention
         (terminal_delivery_sequence s)];
|}.

Definition MarkRetryScheduledNeedsAttention (observed_at_ms : N) : transition := {|
  tr_name := "MarkRetryScheduledNeedsAttention";
  tr_guard := λ s, (lifecycle_phase s == RetryScheduled) && (0 <? observed_at_ms)%N;
  tr_absent := no_map_read;
  tr_update := needs_attention_update;
  tr_to := NeedsAttention;
  tr_emit := λ s,
      [E_TerminalCommitted (job_id s) DetachedJobTerminalKind_NeedsAttention
         (terminal_delivery_sequence s)];
|}.

Definition ApplySucceededDelivery (delivery_id : str) (delivery_sequence' : N)
    : transition := {|
  tr_name := "ApplySucceededDelivery";
  tr_guard := λ s,
       (lifecycle_phase s == Succeeded)
    && (delivery_id == lit "terminal")
    && (terminal_delivery_applied s == false)
    && (delivery_sequence' =? terminal_delivery_sequence s)%N;
  tr_absent := no_map_read;
  tr_update := λ s,
    Some (s <| terminal_delivery_applied := true |>);
  tr_to := Succeeded;
  tr_emit := λ s, [E_DeliveryApplied delivery_id delivery_sequence'];
|}.

Definition ApplyFailedDelivery (delivery_id : str) (delivery_sequence' : N)
    : transition := {|
  tr_name := "ApplyFailedDelivery";
  tr_guard := λ s,
       (lifecycle_phase s == Failed)
    && (delivery_id == lit "terminal")
    && (terminal_delivery_applied s == false)
    && (delivery_sequence' =? terminal_delivery_sequence s)%N;
  tr_absent := no_map_read;
  tr_update := λ s,
    Some (s <| terminal_delivery_applied := true |>);
  tr_to := Failed;
  tr_emit := λ s, [E_DeliveryApplied delivery_id delivery_sequence'];
|}.

Definition ApplyCancelledDelivery (delivery_id : str) (delivery_sequence' : N)
    : transition := {|
  tr_name := "ApplyCancelledDelivery";
  tr_guard := λ s,
       (lifecycle_phase s == Cancelled)
    && (delivery_id == lit "terminal")
    && (terminal_delivery_applied s == false)
    && (delivery_sequence' =? terminal_delivery_sequence s)%N;
  tr_absent := no_map_read;
  tr_update := λ s,
    Some (s <| terminal_delivery_applied := true |>);
  tr_to := Cancelled;
  tr_emit := λ s, [E_DeliveryApplied delivery_id delivery_sequence'];
|}.

Definition ApplyWorkerLostDelivery (delivery_id : str) (delivery_sequence' : N)
    : transition := {|
  tr_name := "ApplyWorkerLostDelivery";
  tr_guard := λ s,
       (lifecycle_phase s == WorkerLost)
    && (delivery_id == lit "terminal")
    && (terminal_delivery_applied s == false)
    && (delivery_sequence' =? terminal_delivery_sequence s)%N;
  tr_absent := no_map_read;
  tr_update := λ s,
    Some (s <| terminal_delivery_applied := true |>);
  tr_to := WorkerLost;
  tr_emit := λ s, [E_DeliveryApplied delivery_id delivery_sequence'];
|}.

Definition ApplyNeedsAttentionDelivery (delivery_id : str) (delivery_sequence' : N)
    : transition := {|
  tr_name := "ApplyNeedsAttentionDelivery";
  tr_guard := λ s,
       (lifecycle_phase s == NeedsAttention)
    && (delivery_id == lit "terminal")
    && (terminal_delivery_applied s == false)
    && (delivery_sequence' =? terminal_delivery_sequence s)%N;
  tr_absent := no_map_read;
  tr_update := λ s,
    Some (s <| terminal_delivery_applied := true |>);
  tr_to := NeedsAttention;
  tr_emit := λ s, [E_DeliveryApplied delivery_id delivery_sequence'];
|}.

Definition ObserveSucceededDeliveryAlreadyApplied (delivery_id : str)
    (delivery_sequence' : N) : transition := {|
  tr_name := "ObserveSucceededDeliveryAlreadyApplied";
  tr_guard := λ s,
       (lifecycle_phase s == Succeeded)
    && (delivery_id == lit "terminal")
    && (terminal_delivery_applied s)
    && (delivery_sequence' =? terminal_delivery_sequence s)%N;
  tr_absent := no_map_read;
  tr_update := Some;
  tr_to := Succeeded;
  tr_emit := λ s, [E_DeliveryApplied delivery_id delivery_sequence'];
|}.

Definition ObserveFailedDeliveryAlreadyApplied (delivery_id : str)
    (delivery_sequence' : N) : transition := {|
  tr_name := "ObserveFailedDeliveryAlreadyApplied";
  tr_guard := λ s,
       (lifecycle_phase s == Failed)
    && (delivery_id == lit "terminal")
    && (terminal_delivery_applied s)
    && (delivery_sequence' =? terminal_delivery_sequence s)%N;
  tr_absent := no_map_read;
  tr_update := Some;
  tr_to := Failed;
  tr_emit := λ s, [E_DeliveryApplied delivery_id delivery_sequence'];
|}.

Definition ObserveCancelledDeliveryAlreadyApplied (delivery_id : str)
    (delivery_sequence' : N) : transition := {|
  tr_name := "ObserveCancelledDeliveryAlreadyApplied";
  tr_guard := λ s,
       (lifecycle_phase s == Cancelled)
    && (delivery_id == lit "terminal")
    && (terminal_delivery_applied s)
    && (delivery_sequence' =? terminal_delivery_sequence s)%N;
  tr_absent := no_map_read;
  tr_update := Some;
  tr_to := Cancelled;
  tr_emit := λ s, [E_DeliveryApplied delivery_id delivery_sequence'];
|}.

Definition ObserveWorkerLostDeliveryAlreadyApplied (delivery_id : str)
    (delivery_sequence' : N) : transition := {|
  tr_name := "ObserveWorkerLostDeliveryAlreadyApplied";
  tr_guard := λ s,
       (lifecycle_phase s == WorkerLost)
    && (delivery_id == lit "terminal")
    && (terminal_delivery_applied s)
    && (delivery_sequence' =? terminal_delivery_sequence s)%N;
  tr_absent := no_map_read;
  tr_update := Some;
  tr_to := WorkerLost;
  tr_emit := λ s, [E_DeliveryApplied delivery_id delivery_sequence'];
|}.

Definition ObserveNeedsAttentionDeliveryAlreadyApplied (delivery_id : str)
    (delivery_sequence' : N) : transition := {|
  tr_name := "ObserveNeedsAttentionDeliveryAlreadyApplied";
  tr_guard := λ s,
       (lifecycle_phase s == NeedsAttention)
    && (delivery_id == lit "terminal")
    && (terminal_delivery_applied s)
    && (delivery_sequence' =? terminal_delivery_sequence s)%N;
  tr_absent := no_map_read;
  tr_update := Some;
  tr_to := NeedsAttention;
  tr_emit := λ s, [E_DeliveryApplied delivery_id delivery_sequence'];
|}.

Definition ApplyRunningNotificationDelivery (delivery_id : str) (delivery_sequence' : N)
    : transition := {|
  tr_name := "ApplyRunningNotificationDelivery";
  tr_guard := λ s,
       (lifecycle_phase s == Running)
    && (bool_decide (delivery_id ∈ notification_ids s))
    && ((bool_decide (delivery_id ∈ notification_applied s)) == false)
    && (notification_sequences s !! delivery_id == Some delivery_sequence');
  tr_absent := λ s, strict_read
      ((lifecycle_phase s == Running)
       && (bool_decide (delivery_id ∈ notification_ids s))
       && ((bool_decide (delivery_id ∈ notification_applied s)) == false))
      (notification_sequences s !! delivery_id) "notification_sequences";
  tr_update := λ s,
    Some (s <| notification_applied := {[delivery_id]} ∪ notification_applied s |>);
  tr_to := Running;
  tr_emit := λ s, [E_DeliveryApplied delivery_id delivery_sequence'];
|}.

Definition ApplyWaitingExternalNotificationDelivery (delivery_id : str)
    (delivery_sequence' : N) : transition := {|
  tr_name := "ApplyWaitingExternalNotificationDelivery";
  tr_guard := λ s,
       (lifecycle_phase s == WaitingExternal)
    && (bool_decide (delivery_id ∈ notification_ids s))
    && ((bool_decide (delivery_id ∈ notification_applied s)) == false)
    && (notification_sequences s !! delivery_id == Some delivery_sequence');
  tr_absent := λ s, strict_read
      ((lifecycle_phase s == WaitingExternal)
       && (bool_decide (delivery_id ∈ notification_ids s))
       && ((bool_decide (delivery_id ∈ notification_applied s)) == false))
      (notification_sequences s !! delivery_id) "notification_sequences";
  tr_update := λ s,
    Some (s <| notification_applied := {[delivery_id]} ∪ notification_applied s |>);
  tr_to := WaitingExternal;
  tr_emit := λ s, [E_DeliveryApplied delivery_id delivery_sequence'];
|}.

Definition ApplyLossObservedNotificationDelivery (delivery_id : str)
    (delivery_sequence' : N) : transition := {|
  tr_name := "ApplyLossObservedNotificationDelivery";
  tr_guard := λ s,
       (lifecycle_phase s == LossObserved)
    && (bool_decide (delivery_id ∈ notification_ids s))
    && ((bool_decide (delivery_id ∈ notification_applied s)) == false)
    && (notification_sequences s !! delivery_id == Some delivery_sequence');
  tr_absent := λ s, strict_read
      ((lifecycle_phase s == LossObserved)
       && (bool_decide (delivery_id ∈ notification_ids s))
       && ((bool_decide (delivery_id ∈ notification_applied s)) == false))
      (notification_sequences s !! delivery_id) "notification_sequences";
  tr_update := λ s,
    Some (s <| notification_applied := {[delivery_id]} ∪ notification_applied s |>);
  tr_to := LossObserved;
  tr_emit := λ s, [E_DeliveryApplied delivery_id delivery_sequence'];
|}.

Definition ApplyRetryScheduledNotificationDelivery (delivery_id : str)
    (delivery_sequence' : N) : transition := {|
  tr_name := "ApplyRetryScheduledNotificationDelivery";
  tr_guard := λ s,
       (lifecycle_phase s == RetryScheduled)
    && (bool_decide (delivery_id ∈ notification_ids s))
    && ((bool_decide (delivery_id ∈ notification_applied s)) == false)
    && (notification_sequences s !! delivery_id == Some delivery_sequence');
  tr_absent := λ s, strict_read
      ((lifecycle_phase s == RetryScheduled)
       && (bool_decide (delivery_id ∈ notification_ids s))
       && ((bool_decide (delivery_id ∈ notification_applied s)) == false))
      (notification_sequences s !! delivery_id) "notification_sequences";
  tr_update := λ s,
    Some (s <| notification_applied := {[delivery_id]} ∪ notification_applied s |>);
  tr_to := RetryScheduled;
  tr_emit := λ s, [E_DeliveryApplied delivery_id delivery_sequence'];
|}.

Definition ApplySucceededNotificationDelivery (delivery_id : str) (delivery_sequence' : N)
    : transition := {|
  tr_name := "ApplySucceededNotificationDelivery";
  tr_guard := λ s,
       (lifecycle_phase s == Succeeded)
    && (bool_decide (delivery_id ∈ notification_ids s))
    && ((bool_decide (delivery_id ∈ notification_applied s)) == false)
    && (notification_sequences s !! delivery_id == Some delivery_sequence');
  tr_absent := λ s, strict_read
      ((lifecycle_phase s == Succeeded)
       && (bool_decide (delivery_id ∈ notification_ids s))
       && ((bool_decide (delivery_id ∈ notification_applied s)) == false))
      (notification_sequences s !! delivery_id) "notification_sequences";
  tr_update := λ s,
    Some (s <| notification_applied := {[delivery_id]} ∪ notification_applied s |>);
  tr_to := Succeeded;
  tr_emit := λ s, [E_DeliveryApplied delivery_id delivery_sequence'];
|}.

Definition ApplyFailedNotificationDelivery (delivery_id : str) (delivery_sequence' : N)
    : transition := {|
  tr_name := "ApplyFailedNotificationDelivery";
  tr_guard := λ s,
       (lifecycle_phase s == Failed)
    && (bool_decide (delivery_id ∈ notification_ids s))
    && ((bool_decide (delivery_id ∈ notification_applied s)) == false)
    && (notification_sequences s !! delivery_id == Some delivery_sequence');
  tr_absent := λ s, strict_read
      ((lifecycle_phase s == Failed)
       && (bool_decide (delivery_id ∈ notification_ids s))
       && ((bool_decide (delivery_id ∈ notification_applied s)) == false))
      (notification_sequences s !! delivery_id) "notification_sequences";
  tr_update := λ s,
    Some (s <| notification_applied := {[delivery_id]} ∪ notification_applied s |>);
  tr_to := Failed;
  tr_emit := λ s, [E_DeliveryApplied delivery_id delivery_sequence'];
|}.

Definition ApplyCancelledNotificationDelivery (delivery_id : str) (delivery_sequence' : N)
    : transition := {|
  tr_name := "ApplyCancelledNotificationDelivery";
  tr_guard := λ s,
       (lifecycle_phase s == Cancelled)
    && (bool_decide (delivery_id ∈ notification_ids s))
    && ((bool_decide (delivery_id ∈ notification_applied s)) == false)
    && (notification_sequences s !! delivery_id == Some delivery_sequence');
  tr_absent := λ s, strict_read
      ((lifecycle_phase s == Cancelled)
       && (bool_decide (delivery_id ∈ notification_ids s))
       && ((bool_decide (delivery_id ∈ notification_applied s)) == false))
      (notification_sequences s !! delivery_id) "notification_sequences";
  tr_update := λ s,
    Some (s <| notification_applied := {[delivery_id]} ∪ notification_applied s |>);
  tr_to := Cancelled;
  tr_emit := λ s, [E_DeliveryApplied delivery_id delivery_sequence'];
|}.

Definition ApplyWorkerLostNotificationDelivery (delivery_id : str)
    (delivery_sequence' : N) : transition := {|
  tr_name := "ApplyWorkerLostNotificationDelivery";
  tr_guard := λ s,
       (lifecycle_phase s == WorkerLost)
    && (bool_decide (delivery_id ∈ notification_ids s))
    && ((bool_decide (delivery_id ∈ notification_applied s)) == false)
    && (notification_sequences s !! delivery_id == Some delivery_sequence');
  tr_absent := λ s, strict_read
      ((lifecycle_phase s == WorkerLost)
       && (bool_decide (delivery_id ∈ notification_ids s))
       && ((bool_decide (delivery_id ∈ notification_applied s)) == false))
      (notification_sequences s !! delivery_id) "notification_sequences";
  tr_update := λ s,
    Some (s <| notification_applied := {[delivery_id]} ∪ notification_applied s |>);
  tr_to := WorkerLost;
  tr_emit := λ s, [E_DeliveryApplied delivery_id delivery_sequence'];
|}.

Definition ApplyNeedsAttentionNotificationDelivery (delivery_id : str)
    (delivery_sequence' : N) : transition := {|
  tr_name := "ApplyNeedsAttentionNotificationDelivery";
  tr_guard := λ s,
       (lifecycle_phase s == NeedsAttention)
    && (bool_decide (delivery_id ∈ notification_ids s))
    && ((bool_decide (delivery_id ∈ notification_applied s)) == false)
    && (notification_sequences s !! delivery_id == Some delivery_sequence');
  tr_absent := λ s, strict_read
      ((lifecycle_phase s == NeedsAttention)
       && (bool_decide (delivery_id ∈ notification_ids s))
       && ((bool_decide (delivery_id ∈ notification_applied s)) == false))
      (notification_sequences s !! delivery_id) "notification_sequences";
  tr_update := λ s,
    Some (s <| notification_applied := {[delivery_id]} ∪ notification_applied s |>);
  tr_to := NeedsAttention;
  tr_emit := λ s, [E_DeliveryApplied delivery_id delivery_sequence'];
|}.

Definition ObserveRunningNotificationDeliveryAlreadyApplied (delivery_id : str)
    (delivery_sequence' : N) : transition := {|
  tr_name := "ObserveRunningNotificationDeliveryAlreadyApplied";
  tr_guard := λ s,
       (lifecycle_phase s == Running)
    && (bool_decide (delivery_id ∈ notification_ids s))
    && (bool_decide (delivery_id ∈ notification_applied s))
    && (notification_sequences s !! delivery_id == Some delivery_sequence');
  tr_absent := λ s, strict_read
      ((lifecycle_phase s == Running)
       && (bool_decide (delivery_id ∈ notification_ids s))
       && (bool_decide (delivery_id ∈ notification_applied s)))
      (notification_sequences s !! delivery_id) "notification_sequences";
  tr_update := Some;
  tr_to := Running;
  tr_emit := λ s, [E_DeliveryApplied delivery_id delivery_sequence'];
|}.

Definition ObserveWaitingExternalNotificationDeliveryAlreadyApplied (delivery_id : str)
    (delivery_sequence' : N) : transition := {|
  tr_name := "ObserveWaitingExternalNotificationDeliveryAlreadyApplied";
  tr_guard := λ s,
       (lifecycle_phase s == WaitingExternal)
    && (bool_decide (delivery_id ∈ notification_ids s))
    && (bool_decide (delivery_id ∈ notification_applied s))
    && (notification_sequences s !! delivery_id == Some delivery_sequence');
  tr_absent := λ s, strict_read
      ((lifecycle_phase s == WaitingExternal)
       && (bool_decide (delivery_id ∈ notification_ids s))
       && (bool_decide (delivery_id ∈ notification_applied s)))
      (notification_sequences s !! delivery_id) "notification_sequences";
  tr_update := Some;
  tr_to := WaitingExternal;
  tr_emit := λ s, [E_DeliveryApplied delivery_id delivery_sequence'];
|}.

Definition ObserveLossObservedNotificationDeliveryAlreadyApplied (delivery_id : str)
    (delivery_sequence' : N) : transition := {|
  tr_name := "ObserveLossObservedNotificationDeliveryAlreadyApplied";
  tr_guard := λ s,
       (lifecycle_phase s == LossObserved)
    && (bool_decide (delivery_id ∈ notification_ids s))
    && (bool_decide (delivery_id ∈ notification_applied s))
    && (notification_sequences s !! delivery_id == Some delivery_sequence');
  tr_absent := λ s, strict_read
      ((lifecycle_phase s == LossObserved)
       && (bool_decide (delivery_id ∈ notification_ids s))
       && (bool_decide (delivery_id ∈ notification_applied s)))
      (notification_sequences s !! delivery_id) "notification_sequences";
  tr_update := Some;
  tr_to := LossObserved;
  tr_emit := λ s, [E_DeliveryApplied delivery_id delivery_sequence'];
|}.

Definition ObserveRetryScheduledNotificationDeliveryAlreadyApplied (delivery_id : str)
    (delivery_sequence' : N) : transition := {|
  tr_name := "ObserveRetryScheduledNotificationDeliveryAlreadyApplied";
  tr_guard := λ s,
       (lifecycle_phase s == RetryScheduled)
    && (bool_decide (delivery_id ∈ notification_ids s))
    && (bool_decide (delivery_id ∈ notification_applied s))
    && (notification_sequences s !! delivery_id == Some delivery_sequence');
  tr_absent := λ s, strict_read
      ((lifecycle_phase s == RetryScheduled)
       && (bool_decide (delivery_id ∈ notification_ids s))
       && (bool_decide (delivery_id ∈ notification_applied s)))
      (notification_sequences s !! delivery_id) "notification_sequences";
  tr_update := Some;
  tr_to := RetryScheduled;
  tr_emit := λ s, [E_DeliveryApplied delivery_id delivery_sequence'];
|}.

Definition ObserveSucceededNotificationDeliveryAlreadyApplied (delivery_id : str)
    (delivery_sequence' : N) : transition := {|
  tr_name := "ObserveSucceededNotificationDeliveryAlreadyApplied";
  tr_guard := λ s,
       (lifecycle_phase s == Succeeded)
    && (bool_decide (delivery_id ∈ notification_ids s))
    && (bool_decide (delivery_id ∈ notification_applied s))
    && (notification_sequences s !! delivery_id == Some delivery_sequence');
  tr_absent := λ s, strict_read
      ((lifecycle_phase s == Succeeded)
       && (bool_decide (delivery_id ∈ notification_ids s))
       && (bool_decide (delivery_id ∈ notification_applied s)))
      (notification_sequences s !! delivery_id) "notification_sequences";
  tr_update := Some;
  tr_to := Succeeded;
  tr_emit := λ s, [E_DeliveryApplied delivery_id delivery_sequence'];
|}.

Definition ObserveFailedNotificationDeliveryAlreadyApplied (delivery_id : str)
    (delivery_sequence' : N) : transition := {|
  tr_name := "ObserveFailedNotificationDeliveryAlreadyApplied";
  tr_guard := λ s,
       (lifecycle_phase s == Failed)
    && (bool_decide (delivery_id ∈ notification_ids s))
    && (bool_decide (delivery_id ∈ notification_applied s))
    && (notification_sequences s !! delivery_id == Some delivery_sequence');
  tr_absent := λ s, strict_read
      ((lifecycle_phase s == Failed)
       && (bool_decide (delivery_id ∈ notification_ids s))
       && (bool_decide (delivery_id ∈ notification_applied s)))
      (notification_sequences s !! delivery_id) "notification_sequences";
  tr_update := Some;
  tr_to := Failed;
  tr_emit := λ s, [E_DeliveryApplied delivery_id delivery_sequence'];
|}.

Definition ObserveCancelledNotificationDeliveryAlreadyApplied (delivery_id : str)
    (delivery_sequence' : N) : transition := {|
  tr_name := "ObserveCancelledNotificationDeliveryAlreadyApplied";
  tr_guard := λ s,
       (lifecycle_phase s == Cancelled)
    && (bool_decide (delivery_id ∈ notification_ids s))
    && (bool_decide (delivery_id ∈ notification_applied s))
    && (notification_sequences s !! delivery_id == Some delivery_sequence');
  tr_absent := λ s, strict_read
      ((lifecycle_phase s == Cancelled)
       && (bool_decide (delivery_id ∈ notification_ids s))
       && (bool_decide (delivery_id ∈ notification_applied s)))
      (notification_sequences s !! delivery_id) "notification_sequences";
  tr_update := Some;
  tr_to := Cancelled;
  tr_emit := λ s, [E_DeliveryApplied delivery_id delivery_sequence'];
|}.

Definition ObserveWorkerLostNotificationDeliveryAlreadyApplied (delivery_id : str)
    (delivery_sequence' : N) : transition := {|
  tr_name := "ObserveWorkerLostNotificationDeliveryAlreadyApplied";
  tr_guard := λ s,
       (lifecycle_phase s == WorkerLost)
    && (bool_decide (delivery_id ∈ notification_ids s))
    && (bool_decide (delivery_id ∈ notification_applied s))
    && (notification_sequences s !! delivery_id == Some delivery_sequence');
  tr_absent := λ s, strict_read
      ((lifecycle_phase s == WorkerLost)
       && (bool_decide (delivery_id ∈ notification_ids s))
       && (bool_decide (delivery_id ∈ notification_applied s)))
      (notification_sequences s !! delivery_id) "notification_sequences";
  tr_update := Some;
  tr_to := WorkerLost;
  tr_emit := λ s, [E_DeliveryApplied delivery_id delivery_sequence'];
|}.

Definition ObserveNeedsAttentionNotificationDeliveryAlreadyApplied (delivery_id : str)
    (delivery_sequence' : N) : transition := {|
  tr_name := "ObserveNeedsAttentionNotificationDeliveryAlreadyApplied";
  tr_guard := λ s,
       (lifecycle_phase s == NeedsAttention)
    && (bool_decide (delivery_id ∈ notification_ids s))
    && (bool_decide (delivery_id ∈ notification_applied s))
    && (notification_sequences s !! delivery_id == Some delivery_sequence');
  tr_absent := λ s, strict_read
      ((lifecycle_phase s == NeedsAttention)
       && (bool_decide (delivery_id ∈ notification_ids s))
       && (bool_decide (delivery_id ∈ notification_applied s)))
      (notification_sequences s !! delivery_id) "notification_sequences";
  tr_update := Some;
  tr_to := NeedsAttention;
  tr_emit := λ s, [E_DeliveryApplied delivery_id delivery_sequence'];
|}.

(** The arms of each input, in the order they are declared. *)
Definition job_transitions (i : DetachedJobInput) : list transition :=
  match i with
  | I_Submit job_id' restart_class' =>
      [SubmitQueued job_id' restart_class']
  | I_ClaimAttempt attempt_id worker_id claimed_at_ms lease_expires_at_ms' runner_handle'
      =>
      [ClaimQueued attempt_id worker_id claimed_at_ms lease_expires_at_ms' runner_handle';
       ClaimRetryScheduled attempt_id worker_id claimed_at_ms lease_expires_at_ms' runner_handle']
  | I_RenewLease attempt_id fence heartbeat_at_ms' lease_expires_at_ms' =>
      [RenewRunningLease attempt_id fence heartbeat_at_ms' lease_expires_at_ms';
       RenewExternalWaitLease attempt_id fence heartbeat_at_ms' lease_expires_at_ms']
  | I_ReportProgress attempt_id fence cursor observed_at_ms =>
      [ReportRunningProgress attempt_id fence cursor observed_at_ms;
       ReportExternalWaitProgress attempt_id fence cursor observed_at_ms]
  | I_EmitNotification attempt_id fence notification_id idempotency_key
      runtime_delivery_id observed_at_ms =>
      [EmitRunningNotification attempt_id fence notification_id idempotency_key runtime_delivery_id
         observed_at_ms;
       EmitExternalWaitNotification attempt_id fence notification_id idempotency_key
         runtime_delivery_id observed_at_ms;
       SuppressRunningNotificationReplay attempt_id fence notification_id idempotency_key
         runtime_delivery_id observed_at_ms;
       SuppressExternalWaitNotificationReplay attempt_id fence notification_id idempotency_key
         runtime_delivery_id observed_at_ms]
  | I_RecordCheckpoint attempt_id fence checkpoint_ref' observed_at_ms =>
      [RecordRunningCheckpoint attempt_id fence checkpoint_ref' observed_at_ms;
       RecordExternalWaitCheckpoint attempt_id fence checkpoint_ref' observed_at_ms]
  | I_WaitExternal attempt_id fence observed_at_ms =>
      [WaitExternalFromRunning attempt_id fence observed_at_ms]
  | I_ResumeRunning attempt_id fence observed_at_ms =>
      [ResumeRunningFromExternal attempt_id fence observed_at_ms]
  | I_CompleteAttempt attempt_id fence completed_at_ms =>
      [CompleteRunningAttempt attempt_id fence completed_at_ms;
       CompleteWaitingExternalAttempt attempt_id fence completed_at_ms]
  | I_FailAttempt attempt_id fence failed_at_ms =>
      [FailRunningAttempt attempt_id fence failed_at_ms;
       FailWaitingExternalAttempt attempt_id fence failed_at_ms]
  | I_RequestCancel =>
      [RequestCancelRunning;
       RequestCancelWaitingExternal;
       RequestCancelAlreadyRequestedRunning;
       RequestCancelAlreadyRequestedWaitingExternal;
       RequestCancelAlreadyCancelled;
       RequestCancelQueued;
       RequestCancelRetryScheduled;
       RequestCancelLossObserved]
  | I_AcknowledgeCancel attempt_id fence acknowledged_at_ms =>
      [AcknowledgeRunningCancel attempt_id fence acknowledged_at_ms;
       AcknowledgeWaitingExternalCancel attempt_id fence acknowledged_at_ms]
  | I_LeaseExpired attempt_id fence observed_at_ms =>
      [LeaseExpiresRunning attempt_id fence observed_at_ms;
       LeaseExpiresWaitingExternal attempt_id fence observed_at_ms]
  | I_ScheduleRetry retry_due_at_ms' =>
      [ScheduleRetryAfterLoss retry_due_at_ms']
  | I_ClassifyWorkerLoss observed_at_ms =>
      [ClassifyNonResumableWorkerLoss observed_at_ms]
  | I_MarkNeedsAttention observed_at_ms =>
      [MarkQueuedNeedsAttention observed_at_ms;
       MarkRunningNeedsAttention observed_at_ms;
       MarkWaitingExternalNeedsAttention observed_at_ms;
       MarkLossObservedNeedsAttention observed_at_ms;
       MarkRetryScheduledNeedsAttention observed_at_ms]
  | I_MarkDeliveryApplied delivery_id delivery_sequence' =>
      [ApplySucceededDelivery delivery_id delivery_sequence';
       ApplyFailedDelivery delivery_id delivery_sequence';
       ApplyCancelledDelivery delivery_id delivery_sequence';
       ApplyWorkerLostDelivery delivery_id delivery_sequence';
       ApplyNeedsAttentionDelivery delivery_id delivery_sequence';
       ObserveSucceededDeliveryAlreadyApplied delivery_id delivery_sequence';
       ObserveFailedDeliveryAlreadyApplied delivery_id delivery_sequence';
       ObserveCancelledDeliveryAlreadyApplied delivery_id delivery_sequence';
       ObserveWorkerLostDeliveryAlreadyApplied delivery_id delivery_sequence';
       ObserveNeedsAttentionDeliveryAlreadyApplied delivery_id delivery_sequence';
       ApplyRunningNotificationDelivery delivery_id delivery_sequence';
       ApplyWaitingExternalNotificationDelivery delivery_id delivery_sequence';
       ApplyLossObservedNotificationDelivery delivery_id delivery_sequence';
       ApplyRetryScheduledNotificationDelivery delivery_id delivery_sequence';
       ApplySucceededNotificationDelivery delivery_id delivery_sequence';
       ApplyFailedNotificationDelivery delivery_id delivery_sequence';
       ApplyCancelledNotificationDelivery delivery_id delivery_sequence';
       ApplyWorkerLostNotificationDelivery delivery_id delivery_sequence';
       ApplyNeedsAttentionNotificationDelivery delivery_id delivery_sequence';
       ObserveRunningNotificationDeliveryAlreadyApplied delivery_id delivery_sequence';
       ObserveWaitingExternalNotificationDeliveryAlreadyApplied delivery_id delivery_sequence';
       ObserveLossObservedNotificationDeliveryAlreadyApplied delivery_id delivery_sequence';
       ObserveRetryScheduledNotificationDeliveryAlreadyApplied delivery_id delivery_sequence';
       ObserveSucceededNotificationDeliveryAlreadyApplied delivery_id delivery_sequence';
       ObserveFailedNotificationDeliveryAlreadyApplied delivery_id delivery_sequence';
       ObserveCancelledNotificationDeliveryAlreadyApplied delivery_id delivery_sequence';
       ObserveWorkerLostNotificationDeliveryAlreadyApplied delivery_id delivery_sequence';
       ObserveNeedsAttentionNotificationDeliveryAlreadyApplied delivery_id delivery_sequence']
  end.

#[export] Instance DetachedJobMachine :
    Machine DetachedJobMachineState DetachedJobPhase DetachedJobInput
      DetachedJobInputVariant DetachedJobEffect := {|
  variant := job_variant;
  init := job_init;
  transitions := job_transitions;
  invariants :=
    [("fence_tracks_claim_count", fence_tracks_claim_count);
     ("no_attempt_has_no_attempt_authority", no_attempt_has_no_attempt_authority);
     ("checkpoint_requires_attempt", checkpoint_requires_attempt);
     ("active_execution_requires_attempt_authority", active_execution_requires_attempt_authority);
     ("terminal_requires_delivery", terminal_requires_delivery);
     ("notification_identity_and_sequence_cardinality_match", notification_identity_and_sequence_cardinality_match);
     ("applied_notifications_are_committed", applied_notifications_are_committed);
     ("nonterminal_has_no_terminal_delivery", nonterminal_has_no_terminal_delivery);
     ("terminal_delivery_follows_every_notification", terminal_delivery_follows_every_notification)];
|}.
End Transitions.

#[export] Hint Unfold claim_update renew_update notify_update cancel_now_update
  succeed_update fail_update acknowledge_cancel_update needs_attention_update : updates.
