(* ===== verification/JobFacts.v ===== *)
(** * What every reachable job satisfies

    The invariant of the machine defined in [DetachedJob], stronger than the
    declared ones: the terminal record fits the phase, the notification tables
    describe one numbering of the deliveries, and that numbering has no gap.
    Every transition preserves it; the declared invariants follow. *)

From stdpp Require Import gmap.
From S2P Require Export DetachedJob.

(** ** Vocabulary of the statements *)

Abbreviation Job := DetachedJobMachineState.
Abbreviation JobLog :=
  (list (DetachedJobInput * TransitionRecord DetachedJobPhase DetachedJobEffect)).

Definition terminal_kind_of (p : DetachedJobPhase) : option DetachedJobTerminalKind :=
  match p with
  | Succeeded => Some DetachedJobTerminalKind_Succeeded
  | Failed => Some DetachedJobTerminalKind_Failed
  | Cancelled => Some DetachedJobTerminalKind_Cancelled
  | WorkerLost => Some DetachedJobTerminalKind_WorkerLost
  | NeedsAttention => Some DetachedJobTerminalKind_NeedsAttention
  | _ => None
  end.

(** An attempt holds the job. *)
Definition is_active (p : DetachedJobPhase) : bool :=
  match p with Running | WaitingExternal => true | _ => false end.

Definition notification_count (s : Job) : N := N.of_nat (size (notification_ids s)).

(** The number of the terminal delivery; zero before there is one. *)
Definition terminal_number (s : Job) : N :=
  match terminal_kind s with Some _ => delivery_sequence s | None => 0 end.

(** The attempt that holds a job, its lease and its fence. *)
Record HasAttempt (s : Job) : Prop := {
  attempt_named : current_attempt_id s ≠ None;
  attempt_worker : current_worker_id s ≠ None;
  attempt_lease : lease_expires_at_ms s ≠ None;
  attempt_heartbeat : heartbeat_at_ms s ≠ None;
  attempt_handle : runner_handle s ≠ None;
  attempt_numbered : (0 < attempt_count s)%N;
}.

(** No attempt was ever made. *)
Record NoAttempt (s : Job) : Prop := {
  no_attempt_named : current_attempt_id s = None;
  no_attempt_worker : current_worker_id s = None;
  no_attempt_lease : lease_expires_at_ms s = None;
  no_attempt_heartbeat : heartbeat_at_ms s = None;
  no_attempt_handle : runner_handle s = None;
  no_attempt_checkpoint : checkpoint_ref s = None;
  no_attempt_numbered : attempt_count s = 0%N;
  no_attempt_notified : notification_ids s = ∅;
}.

(** The notification tables: one row per notification, found by its key, and
    numbered; [n] deliveries are numbered so far. *)
Record Tables (ids keys applied : gset str) (by_key deliveries : gmap str str)
    (sequences : gmap str N) (n : N) : Prop := {
  tables_keys : dom by_key = keys;
  tables_deliveries : dom deliveries = ids;
  tables_sequences : dom sequences = ids;
  tables_size : size keys = size ids;
  tables_by_key k id : by_key !! k = Some id → id ∈ ids;
  tables_by_key_inj k k' id : by_key !! k = Some id → by_key !! k' = Some id → k = k';
  tables_named id : id ∈ ids → ∃ k, by_key !! k = Some id;
  tables_applied : applied ⊆ ids;
  tables_range id m : sequences !! id = Some m → (1 ≤ m ≤ N.of_nat (size ids))%N;
  tables_sequence_inj id id' m :
    sequences !! id = Some m → sequences !! id' = Some m → id = id';
  tables_count : n = N.of_nat (size ids);
}.

Definition numbered_notifications (s : Job) : N :=
  match terminal_kind s with
  | Some _ => delivery_sequence s - 1
  | None => delivery_sequence s
  end.

Definition tables_of (s : Job) : Prop :=
  Tables (notification_ids s) (notification_idempotency_keys s) (notification_applied s)
    (notification_id_by_key s) (notification_delivery_ids s) (notification_sequences s)
    (numbered_notifications s).

Record Shape (s : Job) : Prop := {
  shape_fence : current_fence s = attempt_count s;
  shape_attempt : HasAttempt s ∨ NoAttempt s;
  shape_phase : match lifecycle_phase s with
                | Unsubmitted | Queued => NoAttempt s
                | Running | WaitingExternal | LossObserved | RetryScheduled => HasAttempt s
                | Claimed => False
                | _ => True
                end;
  shape_expired : match lifecycle_phase s with
                  | Running | WaitingExternal => lease_expired s = false
                  | LossObserved | RetryScheduled => lease_expired s = true
                  | _ => True
                  end;
  shape_retry : lifecycle_phase s = RetryScheduled → retry_due_at_ms s ≠ None;
  shape_terminal : terminal_kind s = terminal_kind_of (lifecycle_phase s);
  shape_number : terminal_delivery_sequence s = terminal_number s;
  shape_positive : terminal_kind s ≠ None → (0 < delivery_sequence s)%N;
  shape_applied : terminal_kind s = None → terminal_delivery_applied s = false;
  shape_tables : tables_of s;
}.

Lemma set_job_phase_same (s : Job) p : lifecycle_phase s = p → s <| lifecycle_phase := p |> = s.
Proof. intros <-. by destruct s. Qed.

(** ** The moves of a job *)

(** The attempt [a] holds the job at fence [f], and [now] is within its lease. *)
Record Holds (s : Job) (a : str) (f : N) : Prop := {
  holds_active : is_active (lifecycle_phase s) = true;
  holds_attempt : current_attempt_id s = Some a;
  holds_fence : current_fence s = f;
  holds_lease : lease_expired s = false;
}.

Definition leased_at (s : Job) (now : N) : Prop :=
  ∃ lease, lease_expires_at_ms s = Some lease ∧ (now ≤ lease)%N.

Definition overdue_at (s : Job) (now : N) : Prop :=
  ∃ lease, lease_expires_at_ms s = Some lease ∧ (lease < now)%N.

(** The terminal outcome an input commits in a state. *)
Definition outcome_of (s : Job) (i : DetachedJobInput) : option DetachedJobTerminalKind :=
  match i, lifecycle_phase s with
  | I_CompleteAttempt _ _ _, (Running | WaitingExternal) => Some DetachedJobTerminalKind_Succeeded
  | I_FailAttempt _ _ _, (Running | WaitingExternal) => Some DetachedJobTerminalKind_Failed
  | I_AcknowledgeCancel _ _ _, (Running | WaitingExternal) =>
      Some DetachedJobTerminalKind_Cancelled
  | I_RequestCancel, (Queued | LossObserved | RetryScheduled) =>
      Some DetachedJobTerminalKind_Cancelled
  | I_ClassifyWorkerLoss _, LossObserved => Some DetachedJobTerminalKind_WorkerLost
  | I_MarkNeedsAttention _, (Queued | Running | WaitingExternal | LossObserved | RetryScheduled) =>
      Some DetachedJobTerminalKind_NeedsAttention
  | _, _ => None
  end.

Definition phase_of_kind (k : DetachedJobTerminalKind) : DetachedJobPhase :=
  match k with
  | DetachedJobTerminalKind_Succeeded => Succeeded
  | DetachedJobTerminalKind_Failed => Failed
  | DetachedJobTerminalKind_Cancelled => Cancelled
  | DetachedJobTerminalKind_WorkerLost => WorkerLost
  | DetachedJobTerminalKind_NeedsAttention => NeedsAttention
  end.

(** The worker write an input carries: its attempt and its fence. *)
Definition write_of (i : DetachedJobInput) : option (str * N) :=
  match i with
  | I_RenewLease a f _ _ | I_ReportProgress a f _ _ | I_EmitNotification a f _ _ _ _
  | I_RecordCheckpoint a f _ _ | I_WaitExternal a f _ | I_ResumeRunning a f _
  | I_CompleteAttempt a f _ | I_FailAttempt a f _ | I_AcknowledgeCancel a f _
  | I_LeaseExpired a f _ => Some (a, f)
  | _ => None
  end.

Definition finished (k : DetachedJobTerminalKind) (n : N) (s : Job) : Job :=
  s <| terminal_kind := Some k |> <| terminal_delivery_sequence := n |>
    <| delivery_sequence := n |> <| lifecycle_phase := phase_of_kind k |>.

(** What the arms ask of the cancellation request. *)
Definition cancel_answered (s : Job) (i : DetachedJobInput) : Prop :=
  match i with
  | I_CompleteAttempt _ _ _ | I_FailAttempt _ _ _ => cancel_requested s = false
  | I_AcknowledgeCancel _ _ _ => cancel_requested s = true
  | _ => True
  end.

Section Moves.
Context {BP : BuildProfile}.

(** What an accepted input does, phase by phase. *)
Inductive Move (s : Job) : DetachedJobInput → Job → list DetachedJobEffect → Prop :=
| Move_submit id cls :
    lifecycle_phase s = Unsubmitted → id ≠ [] →
    Move s (I_Submit id cls)
      (s <| job_id := id |> <| restart_class := cls |> <| lifecycle_phase := Queued |>)
      [E_JobSubmitted id]
| Move_claim a w now lease h count fence :
    lifecycle_phase s = Queued ∨
      (lifecycle_phase s = RetryScheduled ∧ a ≠ get_text (current_attempt_id s) ∧
       ∃ due, retry_due_at_ms s = Some due ∧ (due ≤ now)%N) →
    a ≠ [] → w ≠ [] → h ≠ [] → (now < lease)%N →
    u64_add (attempt_count s) 1 = Some count → u64_add (current_fence s) 1 = Some fence →
    Move s (I_ClaimAttempt a w now lease h)
      (s <| attempt_count := count |> <| current_fence := fence |>
         <| current_attempt_id := Some a |> <| current_worker_id := Some w |>
         <| lease_expires_at_ms := Some lease |> <| heartbeat_at_ms := Some now |>
         <| runner_handle := Some h |> <| lease_expired := false |>
         <| retry_due_at_ms := None |> <| cancel_requested := false |>
         <| lifecycle_phase := Running |>)
      [E_AttemptClaimed a count fence lease (checkpoint_ref s)]
| Move_renew a f beat lease :
    Holds s a f → (beat < lease)%N →
    (∃ l, lease_expires_at_ms s = Some l ∧ (l < lease)%N) →
    (∃ b, heartbeat_at_ms s = Some b ∧ (b < beat)%N) →
    Move s (I_RenewLease a f beat lease)
      (s <| heartbeat_at_ms := Some beat |> <| lease_expires_at_ms := Some lease |>)
      [E_LeaseRenewed lease]
| Move_progress a f cursor now :
    Holds s a f → leased_at s now → (progress_cursor s < cursor)%N →
    Move s (I_ReportProgress a f cursor now) (s <| progress_cursor := cursor |>)
      [E_ProgressAccepted cursor]
| Move_notify a f id key delivery now n s' :
    Holds s a f → leased_at s now → id ≠ [] → key ≠ [] → delivery ≠ [] →
    id ∉ notification_ids s → key ∉ notification_idempotency_keys s →
    (delivery_sequence s < u64_max)%N → n = (delivery_sequence s + 1)%N →
    s' = s <| delivery_sequence := n |> <| notification_ids := {[id]} ∪ notification_ids s |>
           <| notification_idempotency_keys := {[key]} ∪ notification_idempotency_keys s |>
           <| notification_id_by_key := <[key := id]> (notification_id_by_key s) |>
           <| notification_delivery_ids := <[id := delivery]> (notification_delivery_ids s) |>
           <| notification_sequences := <[id := n]> (notification_sequences s) |> →
    Move s (I_EmitNotification a f id key delivery now) s'
      [E_NotificationCommitted id key delivery n]
| Move_suppress a f id key delivery now :
    Holds s a f → leased_at s now → key ∈ notification_idempotency_keys s →
    Move s (I_EmitNotification a f id key delivery now) s
      [E_NotificationSuppressed (get_text (notification_id_by_key s !! key)) key
         (get_text (notification_delivery_ids s !! get_text (notification_id_by_key s !! key)))
         (get_value (notification_sequences s !! get_text (notification_id_by_key s !! key)))]
| Move_checkpoint a f r now :
    Holds s a f → leased_at s now → r ≠ [] →
    Move s (I_RecordCheckpoint a f r now) (s <| checkpoint_ref := Some r |>)
      [E_CheckpointAccepted r]
| Move_wait a f now :
    Holds s a f → leased_at s now → lifecycle_phase s = Running →
    Move s (I_WaitExternal a f now) (s <| lifecycle_phase := WaitingExternal |>)
      [E_ExternalWaitAccepted]
| Move_resume a f now :
    Holds s a f → leased_at s now → lifecycle_phase s = WaitingExternal →
    Move s (I_ResumeRunning a f now) (s <| lifecycle_phase := Running |>) [E_RunningResumed]
| Move_request_cancel :
    is_active (lifecycle_phase s) = true →
    Move s I_RequestCancel (s <| cancel_requested := true |>) [E_CancelRequested]
| Move_cancel_again :
    lifecycle_phase s = Cancelled → Move s I_RequestCancel s [E_CancelRequested]
| Move_expire a f now :
    Holds s a f → overdue_at s now →
    Move s (I_LeaseExpired a f now)
      (s <| lease_expired := true |> <| lifecycle_phase := LossObserved |>)
      [E_LeaseExpiryRecorded]
| Move_retry due :
    lifecycle_phase s = LossObserved → lease_expired s = true →
    restart_class s ≠ DetachedJobRestartClass_NonResumable →
    (restart_class s = DetachedJobRestartClass_CheckpointResumable → checkpoint_ref s ≠ None) →
    overdue_at s due →
    Move s (I_ScheduleRetry due)
      (s <| retry_due_at_ms := Some due |> <| lifecycle_phase := RetryScheduled |>)
      [E_RetryScheduled due]
| Move_finish i k c n :
    outcome_of s i = Some k →
    (∀ a f, write_of i = Some (a, f) → Holds s a f) → cancel_answered s i →
    c = (if i is I_RequestCancel then true else cancel_requested s) →
    u64_add (delivery_sequence s) 1 = Some n →
    Move s i (finished k n (s <| cancel_requested := c |>)) [E_TerminalCommitted (job_id s) k n]
| Move_apply_terminal n :
    terminal_kind_of (lifecycle_phase s) ≠ None → n = terminal_delivery_sequence s →
    Move s (I_MarkDeliveryApplied (lit "terminal") n) (s <| terminal_delivery_applied := true |>)
      [E_DeliveryApplied (lit "terminal") n]
| Move_apply_notification id n :
    lifecycle_phase s ∉ [Unsubmitted; Queued; Claimed] →
    id ∈ notification_ids s → notification_sequences s !! id = Some n →
    Move s (I_MarkDeliveryApplied id n)
      (s <| notification_applied := {[id]} ∪ notification_applied s |>)
      [E_DeliveryApplied id n].

Lemma Move_eq s i s1 es1 s' es : Move s i s1 es1 → s' = s1 → es = es1 → Move s i s' es.
Proof. by intros ? -> ->. Qed.

Lemma leased_at_guard s now :
  lease_expires_at_ms s ≠ None → (now ≤ get_value (lease_expires_at_ms s))%N → leased_at s now.
Proof. unfold leased_at. destruct (lease_expires_at_ms s); [eauto|done]. Qed.

Lemma overdue_at_guard s now :
  lease_expires_at_ms s ≠ None → (get_value (lease_expires_at_ms s) < now)%N → overdue_at s now.
Proof. unfold overdue_at. destruct (lease_expires_at_ms s); [eauto|done]. Qed.

Lemma present_lt (o : option N) n : o ≠ None → (get_value o < n)%N → ∃ m, o = Some m ∧ (m < n)%N.
Proof. destruct o; [eauto|done]. Qed.

Lemma present_le (o : option N) n : o ≠ None → (get_value o ≤ n)%N → ∃ m, o = Some m ∧ (m ≤ n)%N.
Proof. destruct o; [eauto|done]. Qed.

Hint Resolve leased_at_guard overdue_at_guard present_lt present_le : moves.

(** The guards of an arm are the side conditions of a move. *)
Ltac move_side :=
  match goal with
  | |- Holds _ _ _ => split; first [assumption | reflexivity
       | match goal with H : lifecycle_phase _ = _ |- _ => by rewrite H end]
  | |- ∀ a f, _ = Some (a, f) → _ =>
      let E := fresh in intros ? ? E; cbn in E; first [discriminate E | injection E as <- <-; move_side]
  | |- outcome_of _ _ = _ => cbn; match goal with H : lifecycle_phase _ = _ |- _ => by rewrite H end
  | |- is_active _ = true => match goal with H : lifecycle_phase _ = _ |- _ => by rewrite H end
  | |- terminal_kind_of _ ≠ None => match goal with H : lifecycle_phase _ = _ |- _ => by rewrite H end
  | |- lifecycle_phase _ ∉ _ =>
      match goal with H : lifecycle_phase _ = _ |- _ => rewrite H; set_solver end
  | |- cancel_answered _ _ => first [exact I | assumption]
  | |- _ ∨ _ => first [left; assumption | right; split_and!; eauto with moves]
  | |- u64_add _ _ = _ => eassumption
  | |- _ = _ → _ ≠ _ => intros; case_guards; congruence
  | |- _ => by eauto with moves
  end.

Ltac state_eq :=
  lazymatch goal with
  | |- _ <| notification_sequences := _ |> <| lifecycle_phase := _ |> = _ =>
      rewrite set_job_phase_same by assumption; reflexivity
  | |- _ => match goal with s : Job |- _ => destruct s; cbn in *; subst; reflexivity end
  end.

Ltac by_move C := eapply Move_eq; [eapply C; solve [move_side]|state_eq|state_eq].

(** Two updates of a terminal arm compute the same number. *)
Ltac same_sums :=
  repeat match goal with
  | A : u64_add ?n 1 = Some ?x, B : u64_add ?n 1 = Some ?y |- _ =>
      rewrite A in B; injection B as <-
  end.

Lemma Move_notified a f id key delivery now n s :
  Holds s a f → leased_at s now → id ≠ [] → key ≠ [] → delivery ≠ [] →
  id ∉ notification_ids s → key ∉ notification_idempotency_keys s →
  (delivery_sequence s < u64_max)%N → u64_add (delivery_sequence s) 1 = Some n →
  Move s (I_EmitNotification a f id key delivery now)
    (s <| delivery_sequence := n |> <| notification_ids := {[id]} ∪ notification_ids s |>
       <| notification_idempotency_keys := {[key]} ∪ notification_idempotency_keys s |>
       <| notification_id_by_key := <[key := id]> (notification_id_by_key s) |>
       <| notification_delivery_ids := <[id := delivery]> (notification_delivery_ids s) |>
       <| notification_sequences := <[id := n]> (notification_sequences s) |>)
    [E_NotificationCommitted id key delivery n].
Proof.
  intros. rewrite u64_add_small in * by (unfold u64_max in *; lia). simplify_eq.
  by eapply Move_notify.
Qed.

Lemma Move_observed id n s :
  lifecycle_phase s ∉ [Unsubmitted; Queued; Claimed] →
  id ∈ notification_ids s → id ∈ notification_applied s → notification_sequences s !! id = Some n →
  Move s (I_MarkDeliveryApplied id n) s [E_DeliveryApplied id n].
Proof.
  intros. eapply Move_eq; [by eapply Move_apply_notification| |done].
  replace ({[id]} ∪ notification_applied s) with (notification_applied s) by set_solver.
  by destruct s.
Qed.

Lemma fires_move i t s s' es : Fires i t s s' es → Move s i s' es.
Proof.
  intros HF. fires_cases HF.
  all: same_sums; lazymatch goal with
  | |- Move _ (I_Submit _ _) _ _ => by_move Move_submit
  | |- Move _ (I_ClaimAttempt _ _ _ _ _) _ _ => by_move Move_claim
  | |- Move _ (I_RenewLease _ _ _ _) _ _ => by_move Move_renew
  | |- Move _ (I_ReportProgress _ _ _ _) _ _ => by_move Move_progress
  | |- Move _ (I_EmitNotification _ _ _ _ _ _) _ _ =>
      first [by_move Move_notified | by_move Move_suppress]
  | |- Move _ (I_RecordCheckpoint _ _ _ _) _ _ => by_move Move_checkpoint
  | |- Move _ (I_WaitExternal _ _ _) _ _ => by_move Move_wait
  | |- Move _ (I_ResumeRunning _ _ _) _ _ => by_move Move_resume
  | |- Move _ I_RequestCancel _ _ =>
      first [by_move Move_cancel_again | by_move Move_request_cancel | by_move Move_finish]
  | |- Move _ (I_LeaseExpired _ _ _) _ _ => by_move Move_expire
  | |- Move _ (I_ScheduleRetry _) _ _ => by_move Move_retry
  | |- Move _ (I_MarkDeliveryApplied _ _) _ _ =>
      first [by_move Move_apply_terminal | by_move Move_observed | by_move Move_apply_notification]
  | |- _ => by_move Move_finish
  end.
Qed.
End Moves.

(** ** The invariant *)

Section Shape.
Implicit Types s : Job.

Lemma Tables_insert ids keys applied by_key deliveries sequences n id key delivery :
  Tables ids keys applied by_key deliveries sequences n → id ∉ ids → key ∉ keys →
  Tables ({[id]} ∪ ids) ({[key]} ∪ keys) applied (<[key := id]> by_key)
    (<[id := delivery]> deliveries) (<[id := (n + 1)%N]> sequences) (n + 1).
Proof.
  intros [Tk Td Ts Tz Tb Tbi Tn Ta Tr Tsi Tc] Hid Hkey.
  assert (Hz : size ({[id]} ∪ ids) = S (size ids)) by (rewrite size_union by set_solver; by rewrite size_singleton).
  assert (Hfresh : sequences !! id = None) by (apply not_elem_of_dom; congruence).
  assert (Hold : ∀ k, by_key !! k ≠ Some id) by (intros k Hk; by apply Hid, (Tb k)).
  split; try (rewrite dom_insert_L; congruence).
  - rewrite Hz, size_union by set_solver. rewrite size_singleton. lia.
  - intros k i [[-> ->]|[_ ?%Tb]]%lookup_insert_Some; set_solver.
  - intros k k' i [[-> ->]|[? Hk]]%lookup_insert_Some [[-> ?]|[? Hk']]%lookup_insert_Some;
      subst; [done|by apply Hold in Hk'|by apply Hold in Hk|by eapply Tbi].
  - intros i [->%elem_of_singleton|[k Hk]%Tn]%elem_of_union.
    + exists key. by rewrite lookup_insert_eq.
    + exists k. rewrite lookup_insert_ne; [done|]. intros ->. apply Hkey. rewrite <-Tk.
      by eapply elem_of_dom_2.
  - set_solver.
  - intros i m [[-> <-]|[_ ?%Tr]]%lookup_insert_Some; lia.
  - intros i i' m [[-> <-]|[? Hi]]%lookup_insert_Some [[-> ?]|[? Hi']]%lookup_insert_Some;
      subst; [done|apply Tr in Hi'; lia|apply Tr in Hi; lia|by eapply Tsi].
  - lia.
Qed.

Lemma Tables_apply ids keys applied by_key deliveries sequences n id :
  Tables ids keys applied by_key deliveries sequences n → id ∈ ids →
  Tables ids keys ({[id]} ∪ applied) by_key deliveries sequences n.
Proof. intros [] ?. split; try done. set_solver. Qed.

(** A key that is taken names a notification that is recorded and numbered. *)
Lemma tables_known ids keys applied by_key deliveries sequences n key :
  Tables ids keys applied by_key deliveries sequences n → key ∈ keys →
  ∃ id delivery m, by_key !! key = Some id ∧ deliveries !! id = Some delivery ∧
    sequences !! id = Some m ∧ (1 ≤ m ≤ n)%N.
Proof.
  intros [Tk Td Ts Tz Tb Tbi Tn Ta Tr Tsi Tc] Hk. rewrite <-Tk in Hk.
  apply elem_of_dom in Hk as [id Hid]. pose proof (Tb _ _ Hid) as Hin.
  assert (is_Some (deliveries !! id)) as [d Hd] by (apply elem_of_dom; congruence).
  assert (is_Some (sequences !! id)) as [m Hm] by (apply elem_of_dom; congruence).
  exists id, d, m. split_and!; [done..| |]; apply Tr in Hm; lia.
Qed.

Lemma job_init_shape : Shape job_init.
Proof. assert (NoAttempt job_init) by by split. split; auto; done. Qed.

Lemma holds_has_attempt s a f : Holds s a f → Shape s → HasAttempt s.
Proof. intros [Ha _ _ _] [_ _ Hp _ _ _ _ _ _ _]. by destruct (lifecycle_phase s). Qed.

Lemma holds_open s a f : Holds s a f → terminal_kind_of (lifecycle_phase s) = None.
Proof. intros [Ha _ _ _]. by destruct (lifecycle_phase s). Qed.

Lemma outcome_of_open s i k : outcome_of s i = Some k → terminal_kind_of (lifecycle_phase s) = None.
Proof. by destruct i; cbn; destruct (lifecycle_phase s). Qed.

Lemma terminal_kind_of_kind k : terminal_kind_of (phase_of_kind k) = Some k.
Proof. by destruct k. Qed.
End Shape.

#[local] Arguments tables_of : simpl never.
#[local] Arguments terminal_number : simpl never.

(** The fields an attempt is made of. *)
Definition same_attempt (s s' : Job) : Prop :=
  current_attempt_id s' = current_attempt_id s ∧ current_worker_id s' = current_worker_id s ∧
  lease_expires_at_ms s' = lease_expires_at_ms s ∧ heartbeat_at_ms s' = heartbeat_at_ms s ∧
  runner_handle s' = runner_handle s ∧ checkpoint_ref s' = checkpoint_ref s ∧
  attempt_count s' = attempt_count s ∧ notification_ids s' = notification_ids s.

Lemma same_attempt_has s s' : same_attempt s s' → HasAttempt s → HasAttempt s'.
Proof. intros (E1 & E2 & E3 & E4 & E5 & E6 & E7 & E8) []. split; congruence. Qed.

Lemma same_attempt_no s s' : same_attempt s s' → NoAttempt s → NoAttempt s'.
Proof. intros (E1 & E2 & E3 & E4 & E5 & E6 & E7 & E8) []. split; congruence. Qed.

Lemma same_attempt_either s s' :
  same_attempt s s' → HasAttempt s ∨ NoAttempt s → HasAttempt s' ∨ NoAttempt s'.
Proof. intros ? [?|?]; eauto using same_attempt_has, same_attempt_no. Qed.

(** The clauses of the invariant that speak of the attempt. *)
Ltac attempt_clause :=
  lazymatch goal with
  | |- HasAttempt _ ∨ _ => first [assumption | left; assumption
      | eapply same_attempt_either; [|eassumption]; repeat split]
  | |- HasAttempt _ => first [assumption | eapply same_attempt_has; [|eassumption]; repeat split]
  | |- NoAttempt _ => first [assumption | eapply same_attempt_no; [|eassumption]; repeat split]
  | |- match lifecycle_phase ?s with _ => _ end =>
      destruct (lifecycle_phase s); first [done | attempt_clause]
  end.

Ltac shape_arm := split; cbn; first [assumption | done | attempt_clause | congruence | idtac].

Section Inductive.
Context {BP : BuildProfile} {CA : CheckedArithmetic}.
Implicit Types s : Job.

Lemma move_shape i s s' es : Move s i s' es → Shape s → Shape s'.
Proof.
  intros HM HS. pose proof HS as [Sf Sa Sp Se Sr St Sn Spos Sap Stb].
  destruct HM.
  all: try match goal with A : Holds _ _ _ |- _ =>
    pose proof (holds_has_attempt _ _ _ A HS); pose proof (holds_open _ _ _ A);
    pose proof (holds_active _ _ _ A) end.
  all: try match goal with A : lifecycle_phase ?s = _ |- _ => rewrite A in Sp, Se, St end.
  all: try solve [shape_arm].
  - (* claim *)
    assert (HasAttempt (s <| attempt_count := count |> <| current_fence := fence |>
         <| current_attempt_id := Some a |> <| current_worker_id := Some w |>
         <| lease_expires_at_ms := Some lease |> <| heartbeat_at_ms := Some now |>
         <| runner_handle := Some h |> <| lease_expired := false |>
         <| retry_due_at_ms := None |> <| cancel_requested := false |>
         <| lifecycle_phase := Running |>)).
    { apply u64_add_checked in H4. split; cbn; try done; lia. }
    assert (terminal_kind s = None) by (destruct H as [A|[A _]]; rewrite A in St; done).
    shape_arm.
  - (* renew *)
    assert (HasAttempt (s <| heartbeat_at_ms := Some beat |>
                          <| lease_expires_at_ms := Some lease |>))
      by (destruct H3; split; cbn; done).
    shape_arm.
  - (* notify *)
    subst s' n. assert (Hk : terminal_kind s = None) by congruence.
    match goal with |- Shape ?s' =>
      assert (HasAttempt s') by (match goal with A : HasAttempt s |- _ => destruct A end; by split)
    end.
    shape_arm.
    { unfold terminal_number in *. cbn. by rewrite Hk in *. }
    { unfold tables_of in *.
      replace (numbered_notifications s) with (delivery_sequence s) in Stb
        by (unfold numbered_notifications; by rewrite Hk).
      replace (numbered_notifications _) with (delivery_sequence s + 1)%N
        by (unfold numbered_notifications; cbn; by rewrite Hk).
      by apply Tables_insert. }
  - (* checkpoint *)
    assert (HasAttempt (s <| checkpoint_ref := Some r |>)) by (destruct H2; split; cbn; done).
    shape_arm.
  - (* finish *)
    assert (Hk : terminal_kind s = None) by (rewrite St; by eapply outcome_of_open).
    apply u64_add_checked in H3 as ->.
    shape_arm.
    all: try by destruct k.
    { lia. }
    unfold tables_of in *.
    replace (numbered_notifications s) with (delivery_sequence s) in Stb
      by (unfold numbered_notifications; by rewrite Hk).
    replace (numbered_notifications (finished _ _ _)) with (delivery_sequence s);
      [exact Stb|unfold numbered_notifications; cbn; lia].
  - (* apply a notification *)
    shape_arm. by apply Tables_apply.
Qed.

Lemma job_fires_shape i t s s' es : Fires i t s s' es → Shape s → Shape s'.
Proof. intros HF%fires_move HS. by eapply move_shape. Qed.

Lemma job_execution_shape l s : Execution init l s → Shape s.
Proof.
  intros HE. eapply (Execution_ind_invariant Shape); [|done|apply job_init_shape].
  intros. by eapply job_fires_shape.
Qed.

(** The declared invariants follow from the shape. *)
Lemma job_shape_invariants s : Shape s → invariants_hold s = true.
Proof.
  intros [Sf Sa Sp Se Sr St Sn Spos Sap Stb]. unfold invariants_hold. cbn.
  unfold fence_tracks_claim_count, no_attempt_has_no_attempt_authority,
    checkpoint_requires_attempt, active_execution_requires_attempt_authority,
    terminal_requires_delivery, notification_identity_and_sequence_cardinality_match,
    applied_notifications_are_committed, nonterminal_has_no_terminal_delivery,
    terminal_delivery_follows_every_notification.
  assert (HA : HasAttempt s → current_attempt_id s ≠ None ∧ current_worker_id s ≠ None ∧
    lease_expires_at_ms s ≠ None ∧ runner_handle s ≠ None ∧ (0 < attempt_count s)%N)
    by (intros []; done).
  destruct Stb as [Tk Td Ts Tz Tb Tbi Tn Ta Tr Tsi Tc].
  repeat (apply andb_true_iff; split).
  - apply N.eqb_eq. congruence.
  - destruct Sa as [[]|[]]; [apply bool_or_else; intros; exfalso; prop_guards; lia|].
    apply orb_true_iff. right. by repeat (apply andb_true_iff; split); apply bool_decide_eq_true.
  - destruct Sa as [[]|[]]; apply orb_true_iff;
      [right; by apply N.ltb_lt|left; by apply bool_decide_eq_true].
  - destruct (lifecycle_phase s) eqn:Ep; try reflexivity.
    all: cbn; destruct (HA Sp) as (? & ? & ? & ? & ?).
    all: repeat (apply andb_true_iff; split); try by apply bool_neq_true.
    all: apply N.ltb_lt; congruence.
  - destruct (terminal_kind s) eqn:Ek.
    + apply orb_true_iff. right. rewrite Sn. unfold terminal_number. rewrite Ek.
      specialize (Spos ltac:(done)). rewrite (proj2 (N.ltb_lt _ _) Spos). apply N.leb_refl.
    + by destruct (lifecycle_phase s).
  - apply N.eqb_eq. congruence.
  - by apply bool_decide_eq_true.
  - by apply bool_decide_eq_true.
  - by apply bool_decide_eq_true.
  - apply N.leb_le. apply subseteq_size in Ta. lia.
  - destruct (terminal_kind s) eqn:Ek; [by destruct (lifecycle_phase s)|].
    apply orb_true_iff. right. rewrite Sn, Sap by done. unfold terminal_number. by rewrite Ek.
  - destruct (terminal_kind s) eqn:Ek; [|done]. apply orb_true_iff. right.
    apply forallb_forall. intros id Hid%list_elem_of_In%elem_of_elements%elem_of_dom.
    destruct Hid as [m Hm]. rewrite Hm. cbn. apply N.ltb_lt.
    apply Tr in Hm. specialize (Spos ltac:(done)). rewrite Sn. unfold terminal_number. rewrite Ek.
    unfold numbered_notifications in Tc. rewrite Ek in Tc. lia.
  - done.
Qed.

(** The strict reads of the acknowledgement guards find their key. *)
Lemma strict_read_known (ids : gset str) (sequences : gmap str N) id (b c : bool) field :
  dom sequences = ids →
  strict_read (b && bool_decide (id ∈ ids) && c) (sequences !! id) field = None.
Proof.
  intros <-. unfold strict_read. destruct (sequences !! id) eqn:E; [done|].
  rewrite (bool_decide_false (id ∈ _)) by (by apply not_elem_of_dom).
  by rewrite andb_false_r.
Qed.

Lemma shape_no_absent_key s i : Shape s → absent_field (transitions i) s = None.
Proof.
  intros HS. pose proof (tables_sequences _ _ _ _ _ _ _ (shape_tables _ HS)) as Hdom.
  apply absent_field_None. destruct i; cbn -[app]; repeat apply Forall_cons_2; try apply Forall_nil_2.
  all: try reflexivity.
  all: by apply strict_read_known.
Qed.

Lemma u64_add_none n : u64_add n 1 = None → (u64_max ≤ n)%N.
Proof.
  intros H. destruct (decide (n + 1 ≤ u64_max)%N); [by rewrite u64_add_small in H|lia].
Qed.

(** Only a counter at the top of its range makes an input panic. *)
Lemma shape_panics s i :
  Shape s → apply i s = Panicked →
  (u64_max ≤ attempt_count s)%N ∨ (u64_max ≤ delivery_sequence s)%N.
Proof.
  intros HS (t & Hin & Hg & [Hup|(s' & es & HF & Hinv)])%apply_panicked_inv.
  - rewrite <-(shape_fence _ HS). destruct i; cbn -[app] in Hin; split_declared Hin; subst t.
    all: unfold_update Hup; try discriminate Hup.
    all: repeat match type of Hup with (mbind _ ?m = None) =>
      let E := fresh in destruct m eqn:E; cbn [mbind option_bind] in Hup;
      [|apply u64_add_none in E; cbn in E; rewrite ?(shape_fence _ HS) in *; by auto] end; done.
  - apply job_fires_shape in HF; [|done]. apply job_shape_invariants in HF. congruence.
Qed.
End Inductive.
