(* ===== verification/JobDeliveries.v ===== *)
(** * The deliveries a job commits

    The notifications and the terminal outcome a job commits are numbered
    without a gap, none is committed twice, and an acknowledgement is accepted
    exactly for what was committed. *)

From stdpp Require Import gmap.
From S2P Require Export JobFacts.

(** ** Vocabulary of the statements *)

(** A delivery as an effect commits it. *)
Inductive Delivery :=
| Notified (id key runtime_id : str)
| Ended (job : str) (kind : DetachedJobTerminalKind).

Definition delivery_of (e : DetachedJobEffect) : option (N * Delivery) :=
  match e with
  | E_NotificationCommitted id key runtime_id n => Some (n, Notified id key runtime_id)
  | E_TerminalCommitted job kind n => Some (n, Ended job kind)
  | _ => None
  end.

(** The deliveries an execution committed, in order. *)
Definition committed (l : JobLog) : list (N * Delivery) :=
  l ≫= λ ir, omap delivery_of (effects ir.2).

(** The name under which a delivery is acknowledged. *)
Definition delivery_name (d : Delivery) : str :=
  match d with Notified id _ _ => id | Ended _ _ => lit "terminal" end.

Definition notified_id (nd : N * Delivery) : option str :=
  match nd.2 with Notified id _ _ => Some id | Ended _ _ => None end.

Definition notified_key (nd : N * Delivery) : option str :=
  match nd.2 with Notified _ key _ => Some key | Ended _ _ => None end.

(** The numbers 1, 2, ..., n. *)
Definition numbers_to (n : N) : list N := (λ k, N.of_nat (S k)) <$> seq 0 (N.to_nat n).

Lemma numbers_to_succ n : numbers_to (n + 1) = numbers_to n ++ [(n + 1)%N].
Proof.
  unfold numbers_to. replace (N.to_nat (n + 1)) with (N.to_nat n + 1) by lia.
  rewrite seq_app, fmap_app. cbn. f_equal. f_equal. lia.
Qed.

Lemma committed_app l1 l2 : committed (l1 ++ l2) = committed l1 ++ committed l2.
Proof. apply bind_app. Qed.

Lemma committed_cons i r l : committed ((i, r) :: l) = omap delivery_of (effects r) ++ committed l.
Proof. done. Qed.

(** ** The log and the tables agree *)

(** What the log [c] of commitments has to do with the state. *)
Record Recorded (c : list (N * Delivery)) (s : Job) : Prop := {
  recorded_numbers : c.*1 = numbers_to (delivery_sequence s);
  recorded_notified n id key rt :
    (n, Notified id key rt) ∈ c ↔
    notification_id_by_key s !! key = Some id ∧ notification_delivery_ids s !! id = Some rt ∧
    notification_sequences s !! id = Some n;
  recorded_ended n j k :
    (n, Ended j k) ∈ c ↔ terminal_kind s = Some k ∧ n = delivery_sequence s ∧ j = job_id s;
}.

Section Recorded.
Context {BP : BuildProfile} {CA : CheckedArithmetic}.
Implicit Types s : Job.

Lemma init_recorded : Recorded [] job_init.
Proof.
  split; [done| |].
  - intros. split; [by intros ?%elem_of_nil|]. by intros (? & _).
  - intros. split; [by intros ?%elem_of_nil|]. by intros (? & _).
Qed.

(** The fields the commitments are read from. *)
Definition same_deliveries (s s' : Job) : Prop :=
  delivery_sequence s' = delivery_sequence s ∧ terminal_kind s' = terminal_kind s ∧
  notification_id_by_key s' = notification_id_by_key s ∧
  notification_delivery_ids s' = notification_delivery_ids s ∧
  notification_sequences s' = notification_sequences s.

Lemma same_recorded c s s' :
  same_deliveries s s' → (terminal_kind s ≠ None → job_id s' = job_id s) →
  Recorded c s → Recorded c s'.
Proof.
  intros (E1 & E2 & E3 & E4 & E5) Ej [Rn Rt Re]. split.
  - by rewrite E1.
  - intros. by rewrite E3, E4, E5.
  - intros n j k. rewrite Re, E1, E2. split; intros (Hk & -> & ->);
      (split_and!; [done..|]); rewrite Ej by congruence; done.
Qed.

(** A move commits a notification, the outcome, or nothing. *)
Lemma move_commits i s s' es :
  Move s i s' es →
  (omap delivery_of es = [] ∧ same_deliveries s s' ∧ (terminal_kind_of (lifecycle_phase s) ≠ None → job_id s' = job_id s)) ∨
  (∃ id key rt, omap delivery_of es = [((delivery_sequence s + 1)%N, Notified id key rt)] ∧
     id ∉ notification_ids s ∧ key ∉ notification_idempotency_keys s ∧
     terminal_kind_of (lifecycle_phase s) = None ∧ terminal_kind s' = terminal_kind s ∧
     job_id s' = job_id s ∧
     delivery_sequence s' = (delivery_sequence s + 1)%N ∧
     notification_id_by_key s' = <[key := id]> (notification_id_by_key s) ∧
     notification_delivery_ids s' = <[id := rt]> (notification_delivery_ids s) ∧
     notification_sequences s' = <[id := (delivery_sequence s + 1)%N]> (notification_sequences s)) ∨
  (∃ k, omap delivery_of es = [((delivery_sequence s + 1)%N, Ended (job_id s) k)] ∧
     terminal_kind_of (lifecycle_phase s) = None ∧ terminal_kind s' = Some k ∧
     job_id s' = job_id s ∧ delivery_sequence s' = (delivery_sequence s + 1)%N ∧
     notification_id_by_key s' = notification_id_by_key s ∧
     notification_delivery_ids s' = notification_delivery_ids s ∧
     notification_sequences s' = notification_sequences s).
Proof.
  destruct 1; try (left; repeat split; cbn; congruence).
  - left. repeat split. cbn. by rewrite H.
  - right; left. subst s' n. exists id, key, delivery. split_and!; try done. by eapply holds_open.
  - right; right. apply u64_add_checked in H3 as ->. exists k.
    split_and!; try done. by eapply outcome_of_open.
Qed.

Lemma shape_open_kind s : Shape s → terminal_kind_of (lifecycle_phase s) = None → terminal_kind s = None.
Proof. intros HS ?. by rewrite (shape_terminal _ HS). Qed.

Lemma move_recorded i s s' es c :
  Move s i s' es → Shape s → Recorded c s → Recorded (c ++ omap delivery_of es) s'.
Proof.
  intros [(-> & Hsame & Hj)|[(id & key & rt & -> & Hid & Hkey & Hop & Ek & Ej & En & Eb & Ed & Es)|
    (k & -> & Hop & Ek & Ej & En & Eb & Ed & Es)]]%move_commits HS HR.
  - rewrite app_nil_r. eapply same_recorded; [done| |done]. by rewrite (shape_terminal _ HS).
  - pose proof (shape_open_kind _ HS Hop) as Hk. destruct HR as [Rn Rt Re].
    destruct (shape_tables _ HS) as [Tk Td Ts Tz Tb Tbi Tn Ta Tr Tsi Tc].
    assert (Hb : notification_id_by_key s !! key = None) by (apply not_elem_of_dom; congruence).
    assert (Hold : ∀ k', notification_id_by_key s !! k' ≠ Some id) by (intros k' ?%Tb; done).
    split.
    + rewrite fmap_app, Rn, En, numbers_to_succ. done.
    + intros n i' k' r'. rewrite elem_of_app, list_elem_of_singleton, Rt, Eb, Ed, Es.
      rewrite !lookup_insert_Some. naive_solver.
    + intros n j k'. rewrite elem_of_app, list_elem_of_singleton, Re, Ek, Hk. naive_solver.
  - pose proof (shape_open_kind _ HS Hop) as Hk. destruct HR as [Rn Rt Re]. split.
    + rewrite fmap_app, Rn, En, numbers_to_succ. done.
    + intros. rewrite elem_of_app, list_elem_of_singleton, Rt, Eb, Ed, Es. naive_solver.
    + intros n j k'. rewrite elem_of_app, list_elem_of_singleton, Re, Ek, Ej, En, Hk. naive_solver.
Qed.

Lemma execution_recorded l s s' c :
  Execution s l s' → Shape s → Recorded c s → Recorded (c ++ committed l) s'.
Proof.
  intros HE. revert c. induction HE as [|s i s1 r l s2 Happ _ IH]; intros c HS HR.
  - by rewrite app_nil_r.
  - apply apply_accepted in Happ as (t & HF%fires_move & _).
    rewrite committed_cons, app_assoc. apply IH; [by eapply move_shape|by eapply move_recorded].
Qed.

Lemma init_execution_recorded l s : Execution init l s → Recorded (committed l) s.
Proof.
  intros HE. apply (execution_recorded l _ _ [] HE); [apply job_init_shape|apply init_recorded].
Qed.

(** ** Commitments are distinct *)

(** A committed key, and a committed identifier, name one notification. *)
Lemma recorded_distinct c s n m id id' key key' rt rt' :
  Recorded c s → Shape s → (n, Notified id key rt) ∈ c → (m, Notified id' key' rt') ∈ c →
  id = id' ∨ key = key' ∨ n = m → n = m ∧ id = id' ∧ key = key' ∧ rt = rt'.
Proof.
  intros [_ Rt _] HS (Hk & Hd & Hs)%Rt (Hk' & Hd' & Hs')%Rt Heq.
  destruct (shape_tables _ HS) as [Tk Td Ts Tz Tb Tbi Tn Ta Tr Tsi Tc].
  assert (id = id') as <- by (destruct Heq as [?|[<-|<-]]; [done|congruence|by eapply Tsi]).
  rewrite Hd in Hd'. rewrite Hs in Hs'. simplify_eq. split_and!; try done. by eapply Tbi.
Qed.

Lemma NoDup_omap_keys {A B} (f : A → option B) (g : A → N) (c : list A) :
  NoDup (g <$> c) → (∀ x y b, x ∈ c → y ∈ c → f x = Some b → f y = Some b → g x = g y) →
  NoDup (omap f c).
Proof.
  induction c as [|x c IH]; cbn; [constructor|]. intros [Hx Hc]%NoDup_cons Hf.
  assert (HN : NoDup (omap f c)) by (apply IH; [done|]; intros; eapply Hf; by try apply list_elem_of_further).
  destruct (f x) as [b|] eqn:E; [|done]. apply NoDup_cons. split; [|done].
  intros (y & Hy & Hfy)%list_elem_of_omap. apply Hx.
  rewrite (Hf x y b) by (done || by constructor). by apply list_elem_of_fmap_2.
Qed.

Lemma numbers_to_NoDup n : NoDup (numbers_to n).
Proof. apply NoDup_fmap_2; [intros ? ?; lia|]. apply NoDup_seq. Qed.

Lemma numbers_to_bounded n m : m ∈ numbers_to n → (1 ≤ m ≤ n)%N.
Proof. unfold numbers_to. rewrite list_elem_of_fmap. intros (k & -> & ?%elem_of_seq). lia. Qed.

Lemma numbers_to_lookup n i m : numbers_to n !! i = Some m → m = N.of_nat (S i) ∧ (i < N.to_nat n).
Proof.
  unfold numbers_to. rewrite list_lookup_fmap_Some. intros (k & -> & Hk).
  apply lookup_seq in Hk as [-> ?]. split; [f_equal; lia|lia].
Qed.

Lemma numbers_to_length n : length (numbers_to n) = N.to_nat n.
Proof. unfold numbers_to. by rewrite length_fmap, length_seq. Qed.

(** The delivery with the last number is the last one. *)
Lemma recorded_last (c1 c2 : list (N * Delivery)) n d m :
  (c1 ++ (n, d) :: c2).*1 = numbers_to m → n = m → c2 = [].
Proof.
  intros Hc ->. assert (Hl : numbers_to m !! length c1 = Some m).
  { rewrite <-Hc, fmap_app, lookup_app_r by (rewrite length_fmap; lia).
    by rewrite length_fmap, Nat.sub_diag. }
  apply numbers_to_lookup in Hl as [Hm _].
  apply (f_equal length) in Hc. rewrite numbers_to_length, length_fmap, length_app in Hc.
  cbn in Hc. destruct c2; [done|cbn in Hc; lia].
Qed.

Lemma recorded_notified_once c s :
  Recorded c s → Shape s → NoDup (omap notified_id c) ∧ NoDup (omap notified_key c).
Proof.
  intros HR HS. assert (Hnd : NoDup c.*1)
    by (rewrite (recorded_numbers _ _ HR); apply numbers_to_NoDup).
  split; (eapply NoDup_omap_keys; [done|]);
    intros [n [i k r|]] [m [i' k' r'|]] b Hx Hy; try done.
  all: cbn; intros [= <-] [= <-]; eapply (recorded_distinct _ _ n m) in Hy as [? _]; eauto.
Qed.

(** The identifiers committed are the ones of the table. *)
Lemma recorded_ids c s :
  Recorded c s → Shape s → list_to_set (omap notified_id c) = notification_ids s.
Proof.
  intros HR HS. apply set_eq. intros id.
  destruct (shape_tables _ HS) as [Tk Td Ts Tz Tb Tbi Tn Ta Tr Tsi Tc].
  rewrite elem_of_list_to_set, list_elem_of_omap. split.
  - intros ([n [i k r|]] & Hin & Hid); [|done]. cbn in Hid. simplify_eq.
    apply (recorded_notified _ _ HR) in Hin as (Hk & _). by eapply Tb.
  - intros Hid. destruct (Tn _ Hid) as [key Hkey].
    assert (is_Some (notification_delivery_ids s !! id)) as [rt Hrt]
      by (apply elem_of_dom; congruence).
    assert (is_Some (notification_sequences s !! id)) as [n Hn] by (apply elem_of_dom; congruence).
    exists (n, Notified id key rt). split; [by apply (recorded_notified _ _ HR)|done].
Qed.

(** ** Acknowledgements *)

(** What an acknowledgement changes. *)
Definition acknowledged (d : Delivery) (s : Job) : Job :=
  match d with
  | Notified id _ _ => s <| notification_applied := {[id]} ∪ notification_applied s |>
  | Ended _ _ => s <| terminal_delivery_applied := true |>
  end.

Lemma move_acknowledges c s id n s' es :
  Move s (I_MarkDeliveryApplied id n) s' es → Recorded c s → Shape s →
  ∃ d, (n, d) ∈ c ∧ delivery_name d = id ∧ s' = acknowledged d s ∧ es = [E_DeliveryApplied id n].
Proof.
  intros HM [Rn Rt Re] HS. destruct (shape_tables _ HS) as [Tk Td Ts Tz Tb Tbi Tn Ta Tr Tsi Tc].
  inversion HM as [ | | | | | | | | | | | | |? ? ? ? Ho|? Hk Hn|? ? ? Hid Hn]; simplify_eq/=.
  - rewrite <-(shape_terminal _ HS) in Hk. destruct (terminal_kind s) as [k|] eqn:Ek; [|done].
    exists (Ended (job_id s) k). split_and!; [|done..]. apply Re. split_and!; [done| |done].
    rewrite (shape_number _ HS). unfold terminal_number. by rewrite Ek.
  - destruct (Tn _ Hid) as [key Hkey].
    assert (is_Some (notification_delivery_ids s !! id)) as [rt Hrt]
      by (apply elem_of_dom; by rewrite Td).
    exists (Notified id key rt). split_and!; [by apply Rt|done..].
Qed.

Lemma mark_notification_selected s id n :
  Shape s → id ∈ notification_ids s → notification_sequences s !! id = Some n →
  select (transitions (I_MarkDeliveryApplied id n)) s ≠ None.
Proof.
  intros HS Hid Hn. pose proof (shape_phase _ HS) as Hp. unfold select. cbn -[elem_of lookup].
  rewrite Hn, (bool_decide_true (id ∈ notification_ids s)), (bool_decide_true (Some n = Some n)) by done.
  destruct (bool_decide (id ∈ notification_applied s)); destruct (lifecycle_phase s); try done.
  all: try (apply no_attempt_notified in Hp; set_solver).
  all: cbn -[elem_of lookup]; repeat (case_match; [done|]); done.
Qed.

Lemma mark_terminal_selected s :
  Shape s → terminal_kind s ≠ None →
  select (transitions (I_MarkDeliveryApplied (lit "terminal") (terminal_delivery_sequence s))) s ≠ None.
Proof.
  intros HS. rewrite (shape_terminal _ HS). intros Hk. unfold select. cbn -[elem_of lookup].
  rewrite (bool_decide_true (lit "terminal" = lit "terminal")) by done. rewrite N.eqb_refl.
  destruct (terminal_delivery_applied s); destruct (lifecycle_phase s); try done.
Qed.
End Recorded.
