(* ===== verification/JobProps.v ===== *)
(** * Properties of the job authority

    Reachable jobs recover and never read an absent key, deliveries are
    numbered without a gap and committed once, workers write under the last
    fence only, acknowledgements are accepted for what was committed, and a
    cancellation request keeps the attempt that holds the job from ending it
    otherwise. *)

From stdpp Require Import gmap.
From S2P Require Export JobDeliveries.

(** ** Vocabulary of the statements *)

Definition claim_of (i : DetachedJobInput) : option str :=
  match i with I_ClaimAttempt a _ _ _ _ => Some a | _ => None end.

(** The attempts an execution claimed, in order. *)
Definition attempts (l : JobLog) : list str := omap (λ ir, claim_of ir.1) l.

Section Lemmas.
Context {BP : BuildProfile} {CA : CheckedArithmetic}.
Implicit Types s : Job.

Lemma attempts_app l1 l2 : attempts (l1 ++ l2) = attempts l1 ++ attempts l2.
Proof. apply omap_app. Qed.

Lemma move_attempts i s s' es :
  Move s i s' es →
  match claim_of i with
  | Some a => attempt_count s' = (attempt_count s + 1)%N ∧ current_attempt_id s' = Some a
  | None => attempt_count s' = attempt_count s ∧ current_attempt_id s' = current_attempt_id s
  end.
Proof.
  destruct 1; try (split; reflexivity).
  - split; [|done]. by apply u64_add_checked.
  - by subst s'.
  - by destruct i; try (split; reflexivity); cbn in H; destruct (lifecycle_phase s).
Qed.

Lemma move_write i s s' es a f :
  Move s i s' es → write_of i = Some (a, f) → Holds s a f.
Proof. destruct 1; cbn; try (by intros [= <- <-]); try done; auto. Qed.

(** The attempt of a reachable job is the last claimed one, its fence the
    number of claims. *)
Lemma job_execution_attempts l s :
  Execution init l s →
  attempt_count s = N.of_nat (length (attempts l)) ∧ current_attempt_id s = last (attempts l).
Proof.
  revert s. induction l as [|[i r] l IH] using rev_ind; intros s HE.
  { by inversion HE. }
  apply Execution_snoc_inv in HE as (s1 & [IHc IHa]%IH & (t & HF%fires_move & _)%apply_accepted).
  apply move_attempts in HF. rewrite attempts_app. cbn.
  destruct (claim_of i) as [a|]; destruct HF as [-> ->]; cbn.
  - rewrite length_app, last_snoc. cbn. split; [lia|done].
  - by rewrite app_nil_r.
Qed.

Lemma mark_panics s id n : Shape s → apply (I_MarkDeliveryApplied id n) s ≠ Panicked.
Proof.
  intros HS (t & Hin & Hg & [Hup|(s' & es & HF & Hinv)])%apply_panicked_inv.
  - cbn -[app] in Hin. split_declared Hin; subst t; discriminate Hup.
  - apply job_fires_shape in HF; [|done]. apply job_shape_invariants in HF. congruence.
Qed.

Lemma mark_answer c s id n :
  Recorded c s → Shape s →
  match apply (I_MarkDeliveryApplied id n) s with
  | Returned s' (inl r) =>
      ∃ d, (n, d) ∈ c ∧ delivery_name d = id ∧ s' = acknowledged d s ∧
           effects r = [E_DeliveryApplied id n]
  | Returned s' (inr e) =>
      s' = s ∧ e = GuardRejected (lifecycle_phase s) V_MarkDeliveryApplied ∧
      ∀ d, (n, d) ∈ c → delivery_name d ≠ id
  | Panicked => False
  end.
Proof.
  intros HR HS. pose proof HR as [Rn Rt Re].
  destruct (shape_tables _ HS) as [Tk Td Ts Tz Tb Tbi Tn Ta Tr Tsi Tc].
  destruct (apply _ _) as [s' [r|e]|] eqn:Ha.
  - apply apply_accepted in Ha as (t & HF%fires_move & _).
    by eapply move_acknowledges.
  - apply apply_rejected_inv in Ha as (-> & [[? _]|(_ & Hsel & ->)]); [done|].
    split; [done|]. split.
    { unfold refusal. by rewrite shape_no_absent_key. }
    intros [i k rt|j k] Hd; cbn; intros <-.
    + apply Rt in Hd as (Hk & Hd & Hs). eapply mark_notification_selected; [done| |done|done].
      by eapply Tb.
    + apply Re in Hd as (Hk & -> & ->).
      eapply (mark_terminal_selected s); [done|congruence|].
      rewrite (shape_number _ HS). unfold terminal_number. by rewrite Hk.
  - by apply mark_panics in Ha.
Qed.

Lemma move_cancel i s s' es :
  Move s i s' es → cancel_requested s = true → claim_of i = None →
  cancel_requested s' = true ∧
  ∀ n j k, (n, Ended j k) ∈ omap delivery_of es →
    k ≠ DetachedJobTerminalKind_Succeeded ∧ k ≠ DetachedJobTerminalKind_Failed.
Proof.
  intros HM Hc Hi. destruct HM; try done.
  all: try (split; [try done; by subst|]; cbn; by intros ? ? ? ?%elem_of_nil).
  - split; [by subst|]. cbn. intros ? ? ? [=]%list_elem_of_singleton.
  - split; [cbn; subst; by destruct i|]. cbn. intros ? ? ? [= -> -> ->]%list_elem_of_singleton.
    destruct i; cbn in *; try done; try congruence; destruct (lifecycle_phase s); by simplify_eq.
Qed.
End Lemmas.

(** ** Properties *)

Section Properties.
Context {BP : BuildProfile} {CA : CheckedArithmetic}.
Implicit Types s : Job.
Implicit Types l : JobLog.

(** C16: every reachable job can be recovered from storage and has the shape
    its phase promises: an attempt with its lease and fence exactly while one
    was claimed, a terminal record exactly in the terminal phases, one row per
    notification.  Whatever input comes, the outcome is a recoverable job, a
    refusal by the guards that changes nothing (no guard ever reads an absent
    key), or, at the top of a 64-bit counter only, a panic. *)
Theorem job_reachable_sound l s i :
  Execution init l s →
  Shape s ∧ recover_from_state s = inl s ∧
  match apply i s with
  | Returned s' (inl _) => recover_from_state s' = inl s'
  | Returned s' (inr e) => s' = s ∧ e = GuardRejected (lifecycle_phase s) (job_variant i)
  | Panicked => (u64_max ≤ attempt_count s)%N ∨ (u64_max ≤ delivery_sequence s)%N
  end.
Proof.
  intros HS%job_execution_shape. split; [done|]. split; [by apply recover_ok, job_shape_invariants|].
  destruct (apply i s) as [s' [r|e]|] eqn:Ha.
  - apply apply_accepted in Ha as (t & HF & _). apply recover_ok, job_shape_invariants.
    by eapply job_fires_shape.
  - apply apply_rejected_inv in Ha as (-> & [[Hno _]|(_ & _ & ->)]); [by destruct i|].
    split; [done|]. unfold refusal. by rewrite shape_no_absent_key.
  - by eapply shape_panics.
Qed.

(** C9: the deliveries a job commits are numbered 1, 2, 3, ... without a gap;
    no notification identifier and no idempotency key is committed twice; a
    terminal outcome is committed exactly when the job ends, it is the last
    delivery, and it names the job and the outcome of its phase. *)
Theorem job_deliveries_numbered l s :
  Execution init l s →
  (committed l).*1 = numbers_to (delivery_sequence s) ∧
  NoDup (omap notified_id (committed l)) ∧ NoDup (omap notified_key (committed l)) ∧
  (∀ c1 n j k c2, committed l = c1 ++ (n, Ended j k) :: c2 →
     c2 = [] ∧ j = job_id s ∧ lifecycle_phase s = phase_of_kind k) ∧
  (∀ k, terminal_kind_of (lifecycle_phase s) = Some k →
     (delivery_sequence s, Ended (job_id s) k) ∈ committed l).
Proof.
  intros HE. pose proof (init_execution_recorded _ _ HE) as HR.
  pose proof (job_execution_shape _ _ HE) as HS. pose proof HR as [Rn Rt Re].
  destruct (recorded_notified_once _ _ HR HS) as [Hids Hkeys].
  split; [done|]. split; [done|]. split; [done|]. split.
  - intros c1 n j k c2 Hc. assert (Hin : (n, Ended j k) ∈ committed l) by (rewrite Hc; set_solver).
    apply Re in Hin as (Hk & Hn & ->). rewrite Hc in Rn. split; [by eapply recorded_last|].
    split; [done|]. rewrite (shape_terminal _ HS) in Hk.
    by destruct (lifecycle_phase s); simplify_eq/=.
  - intros k Hk. apply Re. by rewrite (shape_terminal _ HS).
Qed.

(** C18: a worker writes only under the last claim.  Every accepted input that
    carries an attempt and a fence names the attempt claimed last before it,
    and its fence is the number of claims up to then; once a later attempt is
    claimed nothing of an earlier one is accepted again. *)
Theorem job_writes_fenced l1 i r l2 s a f :
  Execution init (l1 ++ (i, r) :: l2) s → write_of i = Some (a, f) →
  last (attempts l1) = Some a ∧ f = N.of_nat (length (attempts l1)).
Proof.
  intros (s1 & HE1 & HE2)%Execution_app_inv Hw.
  inversion HE2 as [|? ? s2 ? ? ? Happ _]; subst.
  apply apply_accepted in Happ as (t & HF%fires_move & _).
  destruct (move_write _ _ _ _ _ _ HF Hw) as [_ Ha Hf _].
  destruct (job_execution_attempts _ _ HE1) as [Hc Hl].
  rewrite <-Hl, <-Hc, <-(shape_fence _ (job_execution_shape _ _ HE1)). done.
Qed.

(** C20: acknowledgements are exact.  In a reachable job an acknowledgement of
    a name and a number is accepted, any number of times and whatever happened
    since, exactly when a delivery of that name was committed under that
    number; it marks that delivery and nothing else, so that a notification
    named like the terminal delivery is told apart from it.  Every other
    acknowledgement is refused and changes nothing. *)
Theorem job_acknowledgements_exact l s id n :
  Execution init l s →
  match apply (I_MarkDeliveryApplied id n) s with
  | Returned s' (inl r) =>
      ∃ d, (n, d) ∈ committed l ∧ delivery_name d = id ∧ s' = acknowledged d s ∧
           effects r = [E_DeliveryApplied id n]
  | Returned s' (inr e) =>
      s' = s ∧ e = GuardRejected (lifecycle_phase s) V_MarkDeliveryApplied ∧
      ∀ d, (n, d) ∈ committed l → delivery_name d ≠ id
  | Panicked => False
  end.
Proof.
  intros HE. apply mark_answer; [by apply init_execution_recorded|by eapply job_execution_shape].
Qed.

(** C24: once a cancellation is requested, and until the job is claimed again,
    the request stays and the job cannot end as succeeded or failed: the
    attempt that holds it can only acknowledge the cancellation, lose its
    lease, or be given up. *)
Theorem job_cancel_request_binds l s s' :
  Execution s l s' → cancel_requested s = true → attempts l = [] →
  cancel_requested s' = true ∧
  ∀ n j k, (n, Ended j k) ∈ committed l →
    k ≠ DetachedJobTerminalKind_Succeeded ∧ k ≠ DetachedJobTerminalKind_Failed.
Proof.
  induction 1 as [|s i s1 r l s2 Happ _ IH]; intros Hc Hl.
  { split; [done|]. by intros ? ? ? ?%elem_of_nil. }
  apply apply_accepted in Happ as (t & HF%fires_move & _).
  unfold attempts in Hl. cbn in Hl. destruct (claim_of i) eqn:Hi; [done|].
  destruct (move_cancel _ _ _ _ HF Hc Hi) as [Hc1 Hk1]. destruct (IH Hc1 Hl) as [Hc2 Hk2].
  split; [done|]. intros n j k. rewrite committed_cons, elem_of_app. intros [?|?]; eauto.
Qed.
End Properties.

(** ** Witnesses *)

#[local] Existing Instance dev_profile.

#[local] Instance witness_checked : CheckedArithmetic.
Proof. reflexivity. Defined.

(** Submitted, claimed, two notifications and a replay of the first, lease
    lost, retried, claimed again, and completed by the second attempt. *)
Definition demo_job_inputs : list DetachedJobInput :=
  [I_Submit (lit "job") DetachedJobRestartClass_Replayable;
   I_ClaimAttempt (lit "a1") (lit "w1") 0 100 (lit "h1");
   I_EmitNotification (lit "a1") 1 (lit "terminal") (lit "k1") (lit "job:1") 10;
   I_EmitNotification (lit "a1") 1 (lit "again") (lit "k1") (lit "job:x") 11;
   I_EmitNotification (lit "a1") 1 (lit "n2") (lit "k2") (lit "job:2") 12;
   I_LeaseExpired (lit "a1") 1 101; I_ScheduleRetry 150;
   I_ClaimAttempt (lit "a2") (lit "w2") 160 300 (lit "h2");
   I_MarkDeliveryApplied (lit "terminal") 1;
   I_CompleteAttempt (lit "a2") 2 200].

Definition demo_job := replay job_init demo_job_inputs.

Lemma demo_job_execution : Execution init demo_job.1 demo_job.2.
Proof. apply (run_inputs_execution demo_job_inputs). vm_compute. reflexivity. Qed.

Lemma job_reachable_sound_witness :
  length demo_job.1 = 10 ∧ Shape demo_job.2 ∧ recover_from_state demo_job.2 = inl demo_job.2.
Proof.
  split; [by vm_compute|].
  destruct (job_reachable_sound demo_job.1 demo_job.2 I_RequestCancel demo_job_execution)
    as (HS & Hr & _).
  split; [exact HS|exact Hr].
Defined.

Lemma job_deliveries_numbered_witness :
  (committed demo_job.1).*1 = [1; 2; 3]%N ∧
  NoDup (omap notified_key (committed demo_job.1)) ∧
  (3%N, Ended (lit "job") DetachedJobTerminalKind_Succeeded) ∈ committed demo_job.1.
Proof.
  destruct (job_deliveries_numbered demo_job.1 demo_job.2 demo_job_execution)
    as (Hn & _ & Hk & _ & Ht).
  split; [rewrite Hn; by vm_compute|]. split; [exact Hk|].
  specialize (Ht DetachedJobTerminalKind_Succeeded). apply Ht. by vm_compute.
Defined.

Lemma job_writes_fenced_witness :
  last (attempts (take 9 demo_job.1)) = Some (lit "a2") ∧
  2%N = N.of_nat (length (attempts (take 9 demo_job.1))).
Proof.
  apply (job_writes_fenced (take 9 demo_job.1) (I_CompleteAttempt (lit "a2") 2 200)
    {| from_phase := Running; to_phase := Succeeded;
       effects := [E_TerminalCommitted (lit "job") DetachedJobTerminalKind_Succeeded 3] |}
    [] demo_job.2).
  - apply (run_inputs_execution demo_job_inputs). vm_compute. reflexivity.
  - reflexivity.
Defined.

(** The notification named "terminal" has number 1, the terminal delivery 3. *)
Lemma job_acknowledgements_exact_witness :
  match apply (I_MarkDeliveryApplied (lit "terminal") 3) demo_job.2 with
  | Returned s' (inl r) =>
      ∃ d, (3%N, d) ∈ committed demo_job.1 ∧ delivery_name d = lit "terminal" ∧
           s' = acknowledged d demo_job.2 ∧ effects r = [E_DeliveryApplied (lit "terminal") 3]
  | _ => False
  end.
Proof.
  pose proof (job_acknowledgements_exact demo_job.1 demo_job.2 (lit "terminal") 3
    demo_job_execution) as H.
  remember (apply (I_MarkDeliveryApplied (lit "terminal") 3) demo_job.2) as c eqn:Ec.
  destruct c as [s' [r|e]|].
  - exact H.
  - exfalso. vm_compute in Ec. discriminate Ec.
  - exact H.
Defined.

(** A running job whose cancellation was requested, and what its attempt still does. *)
Definition demo_cancelling := (replay job_init (take 2 demo_job_inputs ++ [I_RequestCancel])).2.
Definition demo_cancelled := replay demo_cancelling
  [I_ReportProgress (lit "a1") 1 5 20; I_AcknowledgeCancel (lit "a1") 1 30].

Lemma job_cancel_request_binds_witness :
  length demo_cancelled.1 = 2 ∧ cancel_requested demo_cancelled.2 = true ∧
  ∀ n j k, (n, Ended j k) ∈ committed demo_cancelled.1 →
    k ≠ DetachedJobTerminalKind_Succeeded ∧ k ≠ DetachedJobTerminalKind_Failed.
Proof.
  split; [by vm_compute|].
  apply (job_cancel_request_binds demo_cancelled.1 demo_cancelling demo_cancelled.2).
  - apply (run_inputs_execution [I_ReportProgress (lit "a1") 1 5 20;
      I_AcknowledgeCancel (lit "a1") 1 30]). vm_compute. reflexivity.
  - by vm_compute.
  - by vm_compute.
Defined.

(** The claim after a lost lease forgets the request: the job is running again
    as if its cancellation had never been asked for, and succeeds. *)
Example cancel_request_forgotten_by_claim :
  let before := replay demo_cancelling [I_LeaseExpired (lit "a1") 1 101; I_ScheduleRetry 150] in
  let after := replay before.2 [I_ClaimAttempt (lit "a2") (lit "w2") 160 300 (lit "h2");
                                I_CompleteAttempt (lit "a2") 2 200] in
  cancel_requested before.2 = true ∧ length after.1 = 2 ∧
  lifecycle_phase after.2 = Succeeded ∧ cancel_requested after.2 = false.
Proof. by vm_compute. Qed.
