(* ===== verification/JobTypes.v ===== *)
(** * JobTypes: the vocabulary of detached jobs

    [meerkat-jobs/src/types.rs] and [error.rs]: validated texts and
    identifiers, submissions, worker writes, progress, notifications,
    subscriptions, the outbox, and the projections shown to callers.  Texts are
    lists of characters ([Text]); their byte length is that of their UTF-8
    encoding.  Identifiers minted from a UUID take its text as an argument. *)

From stdpp Require Import gmap.
From S2P Require Export DetachedJob.

(** ** Texts *)

(** [char::is_control]: the category Cc. *)
Definition is_control (c : N) : bool := ((c <? 32) || (127 <=? c) && (c <=? 159))%N.

(** [char::len_utf8] and [str::len]. *)
Definition utf8_width (c : N) : N :=
  if (c <? 128)%N then 1 else if (c <? 2048)%N then 2 else if (c <? 65536)%N then 3 else 4.
Definition byte_len (s : str) : N := fold_right (λ c n, utf8_width c + n)%N 0%N s.

Abbreviation JobId := str.
Abbreviation AttemptId := str.
Abbreviation WorkerId := str.
Abbreviation JobSubmissionKey := str.
Abbreviation CanonicalArgumentsHash := str.
Abbreviation CheckpointRef := str.
Abbreviation RunnerHandleRef := str.
Abbreviation RunnerSpecificationRef := str.
Abbreviation JobResultRef := str.
Abbreviation JobFailureCode := str.
Abbreviation OriginMemberId := str.
Abbreviation NotificationId := str.
Abbreviation NotificationIdempotencyKey := str.
Abbreviation PredicateDeliveryIdempotencyKey := str.
Abbreviation JobSubscriptionId := str.
Abbreviation ExecutionIntentId := str.
Abbreviation InteractionLineageId := str.
Abbreviation FenceToken := N.

(** A [SessionId] is a UUID, by its 128 bits. *)
Abbreviation SessionId := N.

(** ** Errors *)

(** How the machine refused. *)
Inductive RefusalDetail :=
| Refused (e : TransitionError DetachedJobPhase DetachedJobInputVariant)
| RecoveryRejected (e : TransitionError DetachedJobPhase DetachedJobInputVariant)
| Unexpected (detail : string).

(** [DetachedJobError]; the messages are named, not formatted. *)
Inductive DetachedJobError :=
| InvalidInput (reason : string)
| NotFound (id : JobId)
| SubmissionConflict
| StaleRevision (id : JobId) (expected actual : N)
| StaleAttempt (id : JobId) (attempt : AttemptId) (fence : FenceToken)
| InvalidTransition (id : JobId) (detail : RefusalDetail)
| StoreFailure (reason : string).

Definition is_stale_attempt (e : DetachedJobError) : bool :=
  match e with StaleAttempt _ _ _ => true | _ => false end.

Abbreviation Fallible := (Outcome DetachedJobError).

(** [validate_component], and the constructor of every [string_id!] type. *)
Definition validate_component (label : string) (value : str) : Fallible str :=
  let trimmed := trim value in
  if (trimmed == []) || existsb is_control trimmed then Err (InvalidInput label) else Ok trimmed.

Definition validate_bounded_component (label : string) (value : str) (max_bytes : N)
    : Fallible str :=
  value ← validate_component label value;
  if (max_bytes <? byte_len value)%N then Err (InvalidInput label) else Ok value.

Definition string_id (label : string) (value : str) : Fallible str := validate_component label value.

(** The texts the identifier types hold. *)
Definition canonical (s : str) : Prop := trim s = s ∧ s ≠ [] ∧ existsb is_control s = false.

(** ** Identities *)

Definition JobId_generated (uuid : str) : JobId := lit "job_" ++ uuid.
Definition AttemptId_generated (uuid : str) : AttemptId := lit "attempt_" ++ uuid.
Definition ExecutionIntentId_new (uuid : str) : ExecutionIntentId := lit "intent_" ++ uuid.
Definition InteractionLineageId_new (uuid : str) : InteractionLineageId :=
  lit "interaction_" ++ uuid.

Definition ExecutionIntentId_from_string (value : str) : Fallible ExecutionIntentId :=
  validate_component "execution intent id" value.
Definition InteractionLineageId_from_string (value : str) : Fallible InteractionLineageId :=
  validate_component "interaction lineage id" value.

Record PredicateDeliveryIdentity := mkIdentity {
  idempotency_key : PredicateDeliveryIdempotencyKey;
  occurrence_id : str;
  runnable : str;
}.
#[export] Instance PredicateDeliveryIdentity_eq_dec : EqDecision PredicateDeliveryIdentity.
Proof. solve_decision. Defined.

Definition PredicateDeliveryIdentity_new (key : PredicateDeliveryIdempotencyKey)
    (occurrence_id runnable : str) : Fallible PredicateDeliveryIdentity :=
  if (4096 <? byte_len key)%N
  then Err (InvalidInput "predicate delivery idempotency key exceeds the 4096-byte limit")
  else
    occurrence_id ← validate_bounded_component "predicate delivery occurrence id" occurrence_id 4096;
    runnable ← validate_bounded_component "predicate delivery runnable" runnable 4096;
    Ok (mkIdentity key occurrence_id runnable).

Record JobReference := mkReference { reference_realm_id : str; reference_job_id : JobId }.

Definition JobReference_new (realm_id : str) (id : JobId) : Fallible JobReference :=
  if trim realm_id != realm_id
  then Err (InvalidInput "job reference realm id must be canonical")
  else realm_id ← validate_component "job reference realm id" realm_id;
       Ok (mkReference realm_id id).

Record ToolIdentity := mkTool { tool_name : str; tool_version : str }.
#[export] Instance ToolIdentity_eq_dec : EqDecision ToolIdentity.
Proof. solve_decision. Defined.

Definition ToolIdentity_new (name version : str) : Fallible ToolIdentity :=
  name ← validate_component "tool name" name;
  version ← validate_component "tool version" version;
  Ok (mkTool name version).

Record RunnerIdentity := mkRunner { runner_name : str; runner_version : str }.
#[export] Instance RunnerIdentity_eq_dec : EqDecision RunnerIdentity.
Proof. solve_decision. Defined.

Definition RunnerIdentity_new (name version : str) : Fallible RunnerIdentity :=
  name ← validate_component "runner name" name;
  version ← validate_component "runner version" version;
  Ok (mkRunner name version).

(** ** Submissions *)

Abbreviation RestartClass := DetachedJobRestartClass.
Abbreviation JobPhase := DetachedJobPhase.
Abbreviation JobTerminalKind := DetachedJobTerminalKind.

Inductive JobTerminalApplication := | Subscribers | Producer.
#[export] Instance JobTerminalApplication_eq_dec : EqDecision JobTerminalApplication.
Proof. solve_decision. Defined.

Inductive BindingOrigin := | Configured | SyntheticEnvDefault.
Record AuthBindingRef := mkAuthBinding {
  auth_realm : str; auth_binding_id : str; auth_profile : option str; auth_origin : BindingOrigin;
}.
Inductive ToolCredentialContextRef :=
| OwningProfile (required_scopes : gset str)
| AuthBinding (auth_binding : AuthBindingRef) (required_scopes : gset str).
#[export] Instance BindingOrigin_eq_dec : EqDecision BindingOrigin.
Proof. solve_decision. Defined.
#[export] Instance AuthBindingRef_eq_dec : EqDecision AuthBindingRef.
Proof. solve_decision. Defined.
#[export] Instance ToolCredentialContextRef_eq_dec : EqDecision ToolCredentialContextRef.
Proof. solve_decision. Defined.

Record JobSpec := mkSpec {
  realm_id : str;
  origin_session_id : SessionId;
  origin_member_id : option OriginMemberId;
  execution_intent_id : ExecutionIntentId;
  interaction_lineage_id : InteractionLineageId;
  spec_tool : ToolIdentity;
  spec_runner : RunnerIdentity;
  runner_specification_ref : option RunnerSpecificationRef;
  spec_restart_class : RestartClass;
  canonical_arguments_hash : CanonicalArgumentsHash;
  credential_context_refs : list ToolCredentialContextRef;
  submission_key : JobSubmissionKey;
  terminal_application : JobTerminalApplication;
}.
#[export] Instance spec_fields : Fields JobSpec := λ s,
  mkSpec (realm_id s) (origin_session_id s) (origin_member_id s) (execution_intent_id s)
    (interaction_lineage_id s) (spec_tool s) (spec_runner s) (runner_specification_ref s)
    (spec_restart_class s) (canonical_arguments_hash s) (credential_context_refs s)
    (submission_key s) (terminal_application s).
#[export] Instance JobSpec_eq_dec : EqDecision JobSpec.
Proof. solve_decision. Defined.

Definition JobSpec_new (realm_id : str) (origin_session_id : SessionId)
    (execution_intent_id : ExecutionIntentId) (interaction_lineage_id : InteractionLineageId)
    (tool : ToolIdentity) (runner : RunnerIdentity) (restart_class : RestartClass)
    (canonical_arguments_hash : CanonicalArgumentsHash) (submission_key : JobSubmissionKey)
    : JobSpec :=
  mkSpec realm_id origin_session_id None execution_intent_id interaction_lineage_id tool runner
    None restart_class canonical_arguments_hash [] submission_key Subscribers.

Definition with_terminal_application (a : JobTerminalApplication) (s : JobSpec) : JobSpec :=
  s <| terminal_application := a |>.
Definition with_origin_member_id (m : OriginMemberId) (s : JobSpec) : JobSpec :=
  s <| origin_member_id := Some m |>.
Definition with_runner_specification_ref (r : RunnerSpecificationRef) (s : JobSpec) : JobSpec :=
  s <| runner_specification_ref := Some r |>.
Definition with_credential_context_refs (rs : list ToolCredentialContextRef) (s : JobSpec)
    : JobSpec :=
  s <| credential_context_refs := rs |>.

Definition equivalent_submission (s other : JobSpec) : bool :=
  (realm_id s == realm_id other) && (origin_session_id s == origin_session_id other)
  && (origin_member_id s == origin_member_id other)
  && (execution_intent_id s == execution_intent_id other)
  && (interaction_lineage_id s == interaction_lineage_id other)
  && (spec_tool s == spec_tool other) && (spec_runner s == spec_runner other)
  && (runner_specification_ref s == runner_specification_ref other)
  && (spec_restart_class s == spec_restart_class other)
  && (canonical_arguments_hash s == canonical_arguments_hash other)
  && (credential_context_refs s == credential_context_refs other).

Definition same_admission (s other : JobSpec) : bool :=
  equivalent_submission s other && (terminal_application s == terminal_application other).

(** ** Attempts and worker writes *)

Record AttemptClaim := mkClaim {
  claim_worker_id : WorkerId;
  claim_claimed_at_ms : N;
  claim_lease_expires_at_ms : N;
  claim_runner_handle : RunnerHandleRef;
}.

Record AttemptClaimReceipt := mkClaimReceipt {
  receipt_attempt_id : AttemptId;
  receipt_attempt_count : N;
  receipt_fence : FenceToken;
  receipt_lease_expires_at_ms : N;
  receipt_resume_checkpoint : option CheckpointRef;
}.

Record AttemptWriteAuthority := mkWrite { write_attempt_id : AttemptId; write_fence : FenceToken }.

Definition write_authority (r : AttemptClaimReceipt) : AttemptWriteAuthority :=
  mkWrite (receipt_attempt_id r) (receipt_fence r).

Inductive JobHealthCondition :=
| Healthy
| MonitorNotificationRateLimited (total_suppressed : N)
| MonitorMalformedOutput
| MonitorOutputTruncated (dropped_bytes : N)
| PredicateSourceUnavailable (retry_after_secs : N).
#[export] Instance JobHealthCondition_eq_dec : EqDecision JobHealthCondition.
Proof. solve_decision. Defined.

Inductive JobProgressKind := | ProgressKind_Progress | ProgressKind_Health (condition : JobHealthCondition).
#[export] Instance JobProgressKind_eq_dec : EqDecision JobProgressKind.
Proof. solve_decision. Defined.

Record JobProgress := mkProgress {
  progress_cursor_of : N; progress_detail : str; progress_kind : JobProgressKind;
}.
#[export] Instance JobProgress_eq_dec : EqDecision JobProgress.
Proof. solve_decision. Defined.

Definition JobProgress_new (cursor : N) (detail : str) : Fallible JobProgress :=
  if (cursor =? 0)%N then Err (InvalidInput "progress cursor must be positive")
  else detail ← validate_component "progress detail" detail;
       Ok (mkProgress cursor detail ProgressKind_Progress).

Definition JobProgress_health (cursor : N) (condition : JobHealthCondition) (detail : str)
    : Fallible JobProgress :=
  progress ← JobProgress_new cursor detail;
  Ok (mkProgress (progress_cursor_of progress) (progress_detail progress)
        (ProgressKind_Health condition)).

(** ** Deliveries *)

Record JobNotification := mkNotification {
  notification_id : NotificationId;
  notification_key : NotificationIdempotencyKey;
  notification_title : str;
  notification_body : str;
}.
#[export] Instance JobNotification_eq_dec : EqDecision JobNotification.
Proof. solve_decision. Defined.

Definition JobNotification_new (id key title body : str) : Fallible JobNotification :=
  id ← validate_bounded_component "notification id" id 1024;
  key ← validate_bounded_component "notification idempotency key" key 4096;
  id ← string_id "notification id" id;
  key ← string_id "notification idempotency key" key;
  title ← validate_bounded_component "notification title" title 4096;
  body ← validate_bounded_component "notification body" body 65536;
  Ok (mkNotification id key title body).

Inductive HandlingMode := | Queue | Steer.
Inductive JobDeliveryKind := | Record_ | Notification_ | Event (handling_mode : HandlingMode).
Record JobSubscription := mkSubscription {
  subscription_id : JobSubscriptionId;
  subscription_session_id : SessionId;
  subscription_delivery : JobDeliveryKind;
}.
#[export] Instance HandlingMode_eq_dec : EqDecision HandlingMode.
Proof. solve_decision. Defined.
#[export] Instance JobDeliveryKind_eq_dec : EqDecision JobDeliveryKind.
Proof. solve_decision. Defined.
#[export] Instance JobSubscription_eq_dec : EqDecision JobSubscription.
Proof. solve_decision. Defined.

Inductive JobTerminalResult :=
| ResultSucceeded (result_ref : option JobResultRef)
| ResultFailed (code : JobFailureCode) (detail_ref : option JobResultRef)
| ResultCancelled
| ResultWorkerLost
| ResultNeedsAttention (reason : JobFailureCode).
#[export] Instance JobTerminalResult_eq_dec : EqDecision JobTerminalResult.
Proof. solve_decision. Defined.

Definition result_kind (r : JobTerminalResult) : JobTerminalKind :=
  match r with
  | ResultSucceeded _ => DetachedJobTerminalKind_Succeeded
  | ResultFailed _ _ => DetachedJobTerminalKind_Failed
  | ResultCancelled => DetachedJobTerminalKind_Cancelled
  | ResultWorkerLost => DetachedJobTerminalKind_WorkerLost
  | ResultNeedsAttention _ => DetachedJobTerminalKind_NeedsAttention
  end.

Inductive JobOutboxPayload :=
| Terminal (result : JobTerminalResult)
| Notification (n : JobNotification).
#[export] Instance JobOutboxPayload_eq_dec : EqDecision JobOutboxPayload.
Proof. solve_decision. Defined.

Record JobOutboxEntry := mkEntry {
  entry_job_id : JobId;
  entry_delivery_id : str;
  entry_sequence : N;
  entry_payload : JobOutboxPayload;
  entry_targets : list JobSubscription;
  entry_applied : bool;
}.
#[export] Instance entry_fields : Fields JobOutboxEntry := λ e,
  mkEntry (entry_job_id e) (entry_delivery_id e) (entry_sequence e) (entry_payload e)
    (entry_targets e) (entry_applied e).
#[export] Instance JobOutboxEntry_eq_dec : EqDecision JobOutboxEntry.
Proof. solve_decision. Defined.

(** [format!("{job}:notification:{id}")] *)
Definition notification_delivery_id (job : JobId) (id : str) : str :=
  job ++ lit ":notification:" ++ id.

Definition runtime_delivery_id (e : JobOutboxEntry) : str :=
  match entry_payload e with
  | Terminal _ => entry_job_id e
  | Notification _ => notification_delivery_id (entry_job_id e) (entry_delivery_id e)
  end.

(** ** Projections *)

Record JobReceipt := mkReceipt {
  receipt_job_id : JobId;
  receipt_phase : JobPhase;
  receipt_deduplicated : bool;
  receipt_restart_class : RestartClass;
}.

Record JobSnapshot := mkSnapshot {
  snap_job_id : JobId;
  snap_revision : N;
  snap_phase : JobPhase;
  snap_attempt_count : N;
  snap_current_attempt_id : option AttemptId;
  snap_current_fence : FenceToken;
  snap_lease_expires_at_ms : option N;
  snap_checkpoint_ref : option CheckpointRef;
  snap_runner_handle : option RunnerHandleRef;
  snap_progress : option JobProgress;
  snap_cancel_requested : bool;
  snap_terminal_kind : option JobTerminalKind;
  snap_terminal_result : option JobTerminalResult;
  snap_subscriptions : list JobSubscription;
  snap_outbox : list JobOutboxEntry;
}.

Record JobNotificationReceipt := mkNotificationReceipt {
  notice_snapshot : JobSnapshot;
  notice_notification_id : NotificationId;
  notice_sequence : N;
  notice_deduplicated : bool;
}.

Record JobDescription := mkDescription {
  desc_job_id : JobId;
  desc_runner : RunnerIdentity;
  desc_phase : JobPhase;
  desc_restart_class : RestartClass;
  desc_attempt_count : N;
  desc_progress : option JobProgress;
  desc_cancel_requested : bool;
  desc_terminal_result : option JobTerminalResult;
  desc_subscription_count : N;
  desc_delivery_backlog : N;
}.

Inductive JobHealthCoverage := | Complete | Truncated (scanned limit : N).

Definition is_complete (c : JobHealthCoverage) : bool :=
  match c with Complete => true | Truncated _ _ => false end.

Inductive JobHealthReading := | ReadingOk | Degraded | Unreadable.

Definition worst (a b : JobHealthReading) : JobHealthReading :=
  match a, b with
  | Unreadable, _ | _, Unreadable => Unreadable
  | Degraded, _ | _, Degraded => Degraded
  | ReadingOk, ReadingOk => ReadingOk
  end.

Record JobHealthSnapshot := mkHealth {
  queued : N;
  running : N;
  awaiting_members : N;
  stale_leases : N;
  needs_attention : N;
  pending_outbox_jobs : N;
  coverage : JobHealthCoverage;
}.
#[export] Instance health_fields : Fields JobHealthSnapshot := λ h,
  mkHealth (queued h) (running h) (awaiting_members h) (stale_leases h) (needs_attention h)
    (pending_outbox_jobs h) (coverage h).

Definition reading (h : JobHealthSnapshot) : JobHealthReading :=
  match coverage h with
  | Truncated _ _ => Unreadable
  | Complete =>
      if ((0 <? stale_leases h) || (0 <? needs_attention h) || (0 <? pending_outbox_jobs h))%N
      then Degraded else ReadingOk
  end.

(** ** Lemmas *)

Lemma validate_component_Ok label s t :
  validate_component label s = Ok t → t = trim s ∧ t ≠ [] ∧ existsb is_control t = false.
Proof.
  unfold validate_component. destruct (_ || _) eqn:E; [done|]. intros [= <-].
  by apply orb_false_iff in E as [?%bool_decide_eq_false ?].
Qed.

Lemma canonical_component label s : canonical s → validate_component label s = Ok s.
Proof.
  intros (Ht & Hn & Hc). unfold validate_component. rewrite Ht, bool_decide_false, Hc by done. done.
Qed.

Lemma trim_start_idem s : trim_start (trim_start s) = trim_start s.
Proof.
  induction s as [|c s IH]; [done|]. cbn. destruct (is_whitespace c) eqn:E; [done|].
  cbn. by rewrite E.
Qed.

Lemma trim_start_suffix s : trim_start s `suffix_of` s.
Proof.
  induction s as [|c s IH]; [done|]. cbn. destruct (is_whitespace c); [|done].
  by apply suffix_cons_r.
Qed.

Lemma trim_start_prefix a b : b `prefix_of` a → trim_start a = a → trim_start b = b.
Proof.
  intros [r ->]. destruct b as [|c b]; [done|]. cbn. destruct (is_whitespace c); [|done].
  intros Hc. pose proof (trim_start_suffix (b ++ r)) as [k Hk%(f_equal length)].
  rewrite Hc in Hk. rewrite !length_app in Hk. cbn in Hk. rewrite length_app in Hk. lia.
Qed.

Lemma trim_idem s : trim (trim s) = trim s.
Proof.
  unfold trim. set (a := trim_start s). set (b := reverse (trim_start (reverse a))).
  assert (Hb : trim_start b = b).
  { apply (trim_start_prefix a); [|apply trim_start_idem].
    unfold b. rewrite <-(reverse_involutive a) at 2. apply suffix_prefix_reverse.
    apply trim_start_suffix. }
  rewrite Hb. unfold b. by rewrite reverse_involutive, trim_start_idem.
Qed.

Lemma component_canonical label s t : validate_component label s = Ok t → canonical t.
Proof.
  intros (-> & ? & ?)%validate_component_Ok. split; [apply trim_idem|done].
Qed.

Lemma bounded_canonical label s n t : validate_bounded_component label s n = Ok t → canonical t.
Proof.
  unfold validate_bounded_component. intros (v & Hv%component_canonical & Ht)%Outcome_bind_Ok.
  destruct (n <? byte_len v)%N; by simplify_eq.
Qed.

Lemma canonical_nonempty s : canonical s → s ≠ [].
Proof. by intros (_ & ? & _). Qed.
