(* ===== verification/PredicateWatch.v ===== *)
(** * PredicateWatch: predicates over observations

    [meerkat-jobs/src/predicate.rs]: the sources, comparisons and polling
    limits of a watch, its observations and checkpoints, and the evaluation
    that decides whether a condition was crossed.  An [f64] is a [spec_float]
    of the Standard Library; the name-based UUID of the [uuid] crate is an
    argument ([NameUuid]). *)

From Stdlib Require Import SpecFloat.
From S2P Require Export JobTypes.

(** ** Floating-point numbers *)

Abbreviation f64 := spec_float.

Definition is_finite (x : f64) : bool :=
  match x with S754_zero _ | S754_finite _ _ _ => true | _ => false end.

Definition NEG_INFINITY : f64 := S754_infinity true.

(** ** Errors and texts *)

Inductive PredicateWatchError :=
| InvalidComponent (label : string)
| PollingIntervalTooShort (requested_secs minimum_secs : N)
| InvalidPollingPolicy (reason : string)
| ObservationTypeMismatch (reason : string)
| NotificationInvalid (e : DetachedJobError).

Abbreviation Watched := (Outcome PredicateWatchError).

Definition MIN_POLL_INTERVAL_SECS : N := 30.
Definition MAX_POLL_CONCURRENCY : N := 64.
Definition MAX_SOURCE_BUDGET_PER_MINUTE : N := 10000.
Definition MAX_ID_BYTES : N := 1024.
Definition MAX_SOURCE_COMPONENT_BYTES : N := 16384.
Definition MAX_OBSERVATION_KEY_BYTES : N := 4096.
Definition MAX_OBSERVATION_MESSAGE_BYTES : N := 65536.

Definition validated_component (label : string) (value : str) : Watched str :=
  let trimmed := trim value in
  if (trimmed == []) || existsb is_control trimmed then Err (InvalidComponent label) else Ok trimmed.

Definition validated_bounded_component (label : string) (value : str) (max_bytes : N) : Watched str :=
  value ← validated_component label value;
  if (max_bytes <? byte_len value)%N then Err (InvalidComponent label) else Ok value.

Definition check_component (label : string) (value : str) : Watched unit :=
  _ ← validated_bounded_component label value MAX_SOURCE_COMPONENT_BYTES; Ok tt.

(** [PredicateWatchId::new] and [ScheduleIdRef::new] *)
Definition predicate_id (label : string) (value : str) : Watched str :=
  validated_bounded_component label value MAX_ID_BYTES.

(** ** Watches *)

Inductive PredicateSource :=
| StableHttp (url : str) (conditional_requests : bool)
| PersistentFile (path : str)
| DurablePush (adapter cursor_name : str)
| HostDependent (adapter : str).

Definition source_restart_class (s : PredicateSource) : RestartClass :=
  match s with
  | StableHttp _ _ => DetachedJobRestartClass_Replayable
  | PersistentFile _ => DetachedJobRestartClass_CheckpointResumable
  | DurablePush _ _ => DetachedJobRestartClass_Adoptable
  | HostDependent _ => DetachedJobRestartClass_NonResumable
  end.

Definition source_validate (s : PredicateSource) : Watched unit :=
  match s with
  | StableHttp url _ => check_component "stable HTTP URL" url
  | PersistentFile path => check_component "persistent file path" path
  | DurablePush adapter cursor_name =>
      _ ← check_component "durable push adapter" adapter;
      check_component "durable push cursor" cursor_name
  | HostDependent adapter => check_component "host-dependent adapter" adapter
  end.

Inductive PredicateComparison :=
| Changed
| Equals (expected : str)
| NumericAtLeast (threshold : f64).

Definition validate_comparison (c : PredicateComparison) : Watched unit :=
  match c with
  | Changed => Ok tt
  | Equals expected => check_component "predicate expected value" expected
  | NumericAtLeast threshold =>
      if is_finite threshold then Ok tt else Err (InvalidComponent "numeric threshold")
  end.

Record PredicatePollingPolicy := mkPolicy {
  interval_secs : N;
  max_concurrency : N;
  jitter_percent : N;
  source_budget_per_minute : N;
  max_backoff_secs : N;
}.

Definition PredicatePollingPolicy_new (interval concurrency jitter budget backoff : N)
    : Watched PredicatePollingPolicy :=
  if (interval <? MIN_POLL_INTERVAL_SECS)%N
  then Err (PollingIntervalTooShort interval MIN_POLL_INTERVAL_SECS)
  else if ((concurrency =? 0) || (budget =? 0))%N
  then Err (InvalidPollingPolicy "concurrency and per-source budget must be positive")
  else if (MAX_POLL_CONCURRENCY <? concurrency)%N
  then Err (InvalidPollingPolicy "concurrency too high")
  else if (MAX_SOURCE_BUDGET_PER_MINUTE <? budget)%N
  then Err (InvalidPollingPolicy "per-source budget too high")
  else if (100 <? jitter)%N
  then Err (InvalidPollingPolicy "jitter percent must not exceed 100")
  else if (backoff <? interval)%N
  then Err (InvalidPollingPolicy "maximum backoff must be at least the polling interval")
  else Ok (mkPolicy interval concurrency jitter budget backoff).

Record PredicateWatch := mkWatch {
  watch_id : str;
  watch_schedule_id : str;
  watch_source : PredicateSource;
  watch_comparison : PredicateComparison;
  watch_polling_policy : PredicatePollingPolicy;
}.

Definition PredicateWatch_scheduled (id schedule : str) (source : PredicateSource)
    (comparison : PredicateComparison) (policy : PredicatePollingPolicy) : Watched PredicateWatch :=
  _ ← source_validate source;
  _ ← validate_comparison comparison;
  Ok (mkWatch id schedule source comparison policy).

Definition watch_restart_class (w : PredicateWatch) : RestartClass :=
  source_restart_class (watch_source w).

(** ** Observations, checkpoints, evaluations *)

Inductive PredicateObservation :=
| Available (stable_key message : str) (numeric_value : option f64)
| Unavailable (reason : str).

Definition observation_available (stable_key message : str) : Watched PredicateObservation :=
  key ← validated_bounded_component "observation stable key" stable_key MAX_OBSERVATION_KEY_BYTES;
  message ← validated_bounded_component "observation message" message MAX_OBSERVATION_MESSAGE_BYTES;
  Ok (Available key message None).

Definition observation_numeric (stable_key message : str) (value : f64)
    : Watched PredicateObservation :=
  if negb (is_finite value) then Err (InvalidComponent "numeric observation")
  else
    key ← validated_bounded_component "observation stable key" stable_key MAX_OBSERVATION_KEY_BYTES;
    message ← validated_bounded_component "observation message" message
                MAX_OBSERVATION_MESSAGE_BYTES;
    Ok (Available key message (Some value)).

Definition observation_unavailable (reason : str) : Watched PredicateObservation :=
  reason ← validated_bounded_component "source unavailability reason" reason
             MAX_OBSERVATION_KEY_BYTES;
  Ok (Unavailable reason).

Record PredicateCheckpoint := mkCheckpoint {
  checkpoint_key : str;
  checkpoint_message : str;
  checkpoint_value : option f64;
}.

Inductive PredicateEvaluation :=
| Baseline (checkpoint : PredicateCheckpoint)
| Unchanged (checkpoint : PredicateCheckpoint)
| Crossed (checkpoint : PredicateCheckpoint) (notification : JobNotification)
| SourceUnavailable (checkpoint : option PredicateCheckpoint) (reason : str)
    (retry_after_secs : N).

Definition evaluation_checkpoint (e : PredicateEvaluation) : option PredicateCheckpoint :=
  match e with
  | Baseline c | Unchanged c | Crossed c _ => Some c
  | SourceUnavailable c _ _ => c
  end.

Definition evaluation_notification (e : PredicateEvaluation) : option JobNotification :=
  match e with Crossed _ n => Some n | _ => None end.

(** [Uuid::new_v5] of the [uuid] crate in the object-identifier name space, as text. *)
Class NameUuid := name_uuid : str → str.

Section Evaluation.
Context `{NameUuid}.

(** Whether an observation crosses the condition, given the checkpoint. *)
Definition crosses (c : PredicateComparison) (previous : PredicateCheckpoint) (stable_key : str)
    (numeric_value : option f64) : Watched bool :=
  match c with
  | Changed => Ok (checkpoint_key previous != stable_key)
  | Equals expected =>
      Ok ((checkpoint_key previous != stable_key) && (stable_key == expected))
  | NumericAtLeast threshold =>
      let previous_value := default NEG_INFINITY (checkpoint_value previous) in
      current ← ok_or numeric_value
        (ObservationTypeMismatch "numeric comparison requires numeric observations");
      Ok (SFltb previous_value threshold && SFleb threshold current)
  end.

(** The notification of a crossing. *)
Definition crossing_notification (w : PredicateWatch) (stable_key message : str)
    : Watched JobNotification :=
  let name := watch_id w ++ lit ":" ++ stable_key in
  map_err NotificationInvalid
    (JobNotification_new (lit "notification_" ++ name_uuid name) (lit "watch:" ++ name)
       (lit "Predicate condition met") message).

Definition evaluate (w : PredicateWatch) (checkpoint : option PredicateCheckpoint)
    (observation : PredicateObservation) : Watched PredicateEvaluation :=
  match observation with
  | Unavailable reason =>
      Ok (SourceUnavailable checkpoint reason (interval_secs (watch_polling_policy w)))
  | Available stable_key message numeric_value =>
      let next := mkCheckpoint stable_key message numeric_value in
      match checkpoint with
      | None => Ok (Baseline next)
      | Some previous =>
          crossed ← crosses (watch_comparison w) previous stable_key numeric_value;
          if negb crossed then Ok (Unchanged next)
          else notification ← crossing_notification w stable_key message;
               Ok (Crossed next notification)
      end
  end.
End Evaluation.
