(* ===== verification/JobStore.v ===== *)
(** * JobStore: stored jobs and the in-memory job store

    [meerkat-jobs/src/store.rs].  First the parts every store shares: the stored
    row of a job and its validation against the generated authority, the rules
    for a replacement, and the receipts of predicate deliveries.  Then
    [MemoryDetachedJobStore]: the rows, the submission index and the
    predicate-delivery ledger behind one lock, the calls of the trait
    [DetachedJobStore] on them, and the snapshot a store can be rebuilt from.  A
    call holds the lock from its first read to its last write, so it is one
    function of the state, which keeps the commit signal's generation too; that
    wraps at 64 bits.  [usize] is taken to be 64 bits wide. *)

From stdpp Require Import gmap sorting.
From S2P Require Export PredicateWatch.

(** ** Rows *)

Record StoredJob := mkStored {
  stored_id : JobId;
  spec : JobSpec;
  revision : N;
  machine_state : DetachedJobMachineState;
  progress : option JobProgress;
  terminal_result : option JobTerminalResult;
  subscriptions : list JobSubscription;
  outbox : list JobOutboxEntry;
}.
#[export] Instance stored_fields : Fields StoredJob := λ j,
  mkStored (stored_id j) (spec j) (revision j) (machine_state j) (progress j)
    (terminal_result j) (subscriptions j) (outbox j).
#[export] Instance StoredJob_eq_dec : EqDecision StoredJob.
Proof. solve_decision. Defined.

(** Whether a census must still look at a row. *)
Definition phase_is_census_live (p : DetachedJobPhase) : bool :=
  match p with
  | Unsubmitted | Queued | Claimed | Running | WaitingExternal | LossObserved | RetryScheduled
  | NeedsAttention => true
  | Succeeded | Failed | Cancelled | WorkerLost => false
  end.

Definition job_is_census_live (j : StoredJob) : bool :=
  phase_is_census_live (lifecycle_phase (machine_state j)).

(** *** The predicate-delivery ledger *)

Record PredicateDeliveryNotificationReceipt := mkDispositionReceipt {
  disposition_notification_id : NotificationId;
  disposition_sequence : N;
  disposition_deduplicated : bool;
}.

Record PredicateDeliveryReceipt := mkDeliveryReceipt {
  ledger_job_id : JobId;
  ledger_identity : PredicateDeliveryIdentity;
  committed_revision : N;
  ledger_evaluation : PredicateEvaluation;
  ledger_notification : option PredicateDeliveryNotificationReceipt;
}.

Record PredicateDeliveryCommit := mkDeliveryCommit {
  commit_identity : PredicateDeliveryIdentity;
  commit_evaluation : PredicateEvaluation;
  commit_notification : option PredicateDeliveryNotificationReceipt;
}.

Inductive InsertJobOutcome := | Inserted (j : StoredJob) | Existing (j : StoredJob).

Inductive PredicateDeliveryCommitOutcome :=
| Committed (j : StoredJob) (receipt : PredicateDeliveryReceipt)
| CommitDeduplicated (j : StoredJob) (receipt : PredicateDeliveryReceipt).

(** ** Validation *)

(** A loop that stops at the first failure. *)
Fixpoint check_each {A} (f : A → Fallible unit) (xs : list A) : Fallible unit :=
  match xs with
  | [] => Ok tt
  | x :: xs => _ ← f x; check_each f xs
  end.

Definition require (b : bool) (reason : string) : Fallible unit :=
  if b then Ok tt else Err (StoreFailure reason).

(** No subscription identifier occurs twice ([BTreeSet::insert] in a loop). *)
Fixpoint distinct_subscriptions (seen : gset str) (subs : list JobSubscription) : bool :=
  match subs with
  | [] => true
  | s :: subs =>
      bool_decide (subscription_id s ∉ seen)
      && distinct_subscriptions ({[subscription_id s]} ∪ seen) subs
  end.

Fixpoint check_outbox (id : JobId) (last : N) (seen : gset N) (entries : list JobOutboxEntry)
    : Fallible unit :=
  match entries with
  | [] => Ok tt
  | e :: entries =>
      _ ← require ((entry_job_id e == id) && negb (entry_sequence e =? 0)%N
                   && (entry_sequence e <=? last)%N && bool_decide (entry_sequence e ∉ seen))
            "outbox identity or delivery sequence";
      _ ← require (distinct_subscriptions ∅ (entry_targets e)) "duplicate subscription target";
      check_outbox id last ({[entry_sequence e]} ∪ seen) entries
  end.

Definition as_notification (e : JobOutboxEntry) : option (JobOutboxEntry * JobNotification) :=
  match entry_payload e with Notification n => Some (e, n) | Terminal _ => None end.

Definition as_terminal (e : JobOutboxEntry) : option (JobOutboxEntry * JobTerminalResult) :=
  match entry_payload e with Terminal r => Some (e, r) | Notification _ => None end.

(** The outbox row of a notification is the one the machine recorded. *)
Definition notification_projected (s : DetachedJobMachineState)
    (en : JobOutboxEntry * JobNotification) : bool :=
  let '(e, n) := en in
  let id := notification_id n in
  let key := notification_key n in
  (entry_delivery_id e == id)
  && bool_decide (id ∈ notification_ids s)
  && bool_decide (key ∈ notification_idempotency_keys s)
  && (notification_id_by_key s !! key == Some id)
  && (notification_delivery_ids s !! id == Some (runtime_delivery_id e))
  && (notification_sequences s !! id == Some (entry_sequence e))
  && (bool_decide (id ∈ notification_applied s) == entry_applied e).

Definition terminal_projected (s : DetachedJobMachineState) (result : option JobTerminalResult)
    (entries : list (JobOutboxEntry * JobTerminalResult)) : bool :=
  match terminal_kind s, result, entries with
  | None, None, [] => true
  | Some kind, Some r, [(e, payload)] =>
      (result_kind r == kind) && (payload == r) && (entry_delivery_id e == lit "terminal")
      && (entry_sequence e =? terminal_delivery_sequence s)%N
      && (entry_applied e == terminal_delivery_applied s)
  | _, _, _ => false
  end.

Definition progress_projected (p : option JobProgress) (cursor : N) : bool :=
  match p with
  | None => (cursor =? 0)%N
  | Some p => (progress_cursor_of p =? cursor)%N
  end.

Section Validation.
Context {BP : BuildProfile}.

Definition validate_stored_job (j : StoredJob) : Fallible unit :=
  let s := machine_state j in
  _ ← require (job_id s == stored_id j) "authority identity";
  _ ← require (restart_class s == spec_restart_class (spec j)) "restart class";
  _ ← match recover_from_state s with
      | inl _ => Ok tt
      | inr _ => Err (StoreFailure "invalid generated authority state")
      end;
  _ ← require (progress_projected (progress j) (progress_cursor s)) "progress projection";
  _ ← require (distinct_subscriptions ∅ (subscriptions j)) "duplicate active subscription";
  _ ← check_outbox (stored_id j) (delivery_sequence s) ∅ (outbox j);
  _ ← require (N.of_nat (length (outbox j)) =? delivery_sequence s)%N "outbox cardinality";
  let notifications := omap as_notification (outbox j) in
  _ ← require (length notifications =? size (notification_ids s))%nat "notification cardinality";
  _ ← check_each (λ en, require (notification_projected s en) "notification outbox projection")
        notifications;
  require (terminal_projected s (terminal_result j) (omap as_terminal (outbox j)))
    "terminal result/outbox projection".

Definition next_revision (current : N) : Fallible N :=
  if (current + 1 <=? u64_max)%N then Ok (current + 1)%N
  else Err (StoreFailure "detached job revision exhausted u64 authority").

Definition validate_job_replacement (current : StoredJob) (expected_revision : N)
    (replacement : StoredJob) : Fallible unit :=
  if negb (revision current =? expected_revision)%N
  then Err (StaleRevision (stored_id replacement) expected_revision (revision current))
  else
    _ ← require ((submission_key (spec current) == submission_key (spec replacement))
                 && same_admission (spec current) (spec replacement))
          "compare-and-swap cannot change the submitted job specification";
    validate_stored_job replacement.

Definition ensure_same_predicate_delivery_identity
    (committed requested : PredicateDeliveryIdentity) : Fallible unit :=
  require (committed == requested) "predicate delivery key is already bound".

Definition validate_predicate_delivery_receipt (j : StoredJob)
    (key : PredicateDeliveryIdempotencyKey) (r : PredicateDeliveryReceipt) : Fallible unit :=
  let identity := ledger_identity r in
  _ ← require (ledger_job_id r == stored_id j) "receipt job disagrees with ledger job";
  _ ← require (idempotency_key identity == key) "ledger key disagrees with receipt";
  _ ← require (negb (committed_revision r =? 0)%N && (committed_revision r <=? revision j)%N)
        "receipt revision is invalid";
  validated_key ← string_id "predicate delivery idempotency key" (idempotency_key identity);
  _ ← require (validated_key == idempotency_key identity) "receipt key is non-canonical";
  validated ← PredicateDeliveryIdentity_new validated_key (occurrence_id identity)
                (runnable identity);
  require (validated == identity) "receipt identity is non-canonical".
End Validation.

(** ** Calls *)

(** The calls of the trait the service makes, with the type of their answers. *)
Inductive JobCall : Type → Type :=
| InsertDeduplicated (j : StoredJob) : JobCall InsertJobOutcome
| GetJob (id : JobId) : JobCall (option StoredJob)
| GetBySubmissionKey (realm_id : str) (key : JobSubmissionKey) : JobCall (option StoredJob)
| CompareAndSwap (expected_revision : N) (replacement : StoredJob) : JobCall StoredJob
| GetDeliveryReceipt (id : JobId) (identity : PredicateDeliveryIdentity)
    : JobCall (option PredicateDeliveryReceipt)
| CommitDelivery (expected_revision : N) (replacement : StoredJob)
    (commit : PredicateDeliveryCommit) : JobCall PredicateDeliveryCommitOutcome
| ListPendingOutbox (limit : N) : JobCall (list JobOutboxEntry)
| ListForOrigin (realm_id : str) (origin_session_id : SessionId) (limit : N)
    : JobCall (list StoredJob)
| ListAll (limit : N) : JobCall (list StoredJob)
| CountPendingOutboxJobs (realm : option str) : JobCall N
| ListCensusCandidates (realm : option str) (limit : N) : JobCall (list StoredJob)
| RecordCommit : JobCall unit.

(** ** The order of a [BTreeMap] *)

(** [Ord] of strings: by their bytes, which is by their characters. *)
Fixpoint text_compare (a b : str) : comparison :=
  match a, b with
  | [], [] => Eq
  | [], _ => Lt
  | _, [] => Gt
  | x :: a, y :: b =>
      match N.compare x y with Eq => text_compare a b | c => c end
  end.

Definition pair_compare {A B} (f : A → A → comparison) (g : B → B → comparison) (a b : A * B)
    : comparison :=
  match f a.1 b.1 with Eq => g a.2 b.2 | c => c end.

Definition entry_le {K A} (f : K → K → comparison) (a b : K * A) : Prop := f a.1 b.1 ≠ Gt.
#[export] Instance entry_le_dec {K A} (f : K → K → comparison) : RelDecision (@entry_le K A f).
Proof. intros a b. unfold entry_le. apply _. Defined.

(** [BTreeMap::iter]: the entries in the order of their keys. *)
Definition entries {K A} `{Countable K} (f : K → K → comparison) (m : gmap K A) : list (K * A) :=
  merge_sort (entry_le f) (map_to_list m).

Definition job_values (m : gmap JobId StoredJob) : list StoredJob :=
  (entries text_compare m).*2.

(** ** State *)

Record MemoryJobs := mkMemory {
  jobs : gmap JobId StoredJob;
  submission_index : gmap (str * JobSubmissionKey) JobId;
  predicate_deliveries : gmap (JobId * PredicateDeliveryIdempotencyKey) PredicateDeliveryReceipt;
  commit_generation : N;
}.
#[export] Instance memory_fields : Fields MemoryJobs := λ st,
  mkMemory (jobs st) (submission_index st) (predicate_deliveries st) (commit_generation st).

Definition memory_new : MemoryJobs := mkMemory ∅ ∅ ∅ 0.

(** [MemoryDetachedJobStoreSnapshot] *)
Record Snapshot := mkJobsSnapshot {
  snapshot_jobs : gmap JobId StoredJob;
  snapshot_index : gmap (str * JobSubmissionKey) JobId;
  snapshot_deliveries : gmap (JobId * PredicateDeliveryIdempotencyKey) PredicateDeliveryReceipt;
}.

Definition index_key (j : StoredJob) : str * JobSubmissionKey :=
  (realm_id (spec j), submission_key (spec j)).

Section Store.
Context {BP : BuildProfile}.

(** *** Snapshots *)

Definition snapshot (st : MemoryJobs) : Snapshot :=
  mkJobsSnapshot (jobs st) (submission_index st) (predicate_deliveries st).

Definition check_index_entry (s : Snapshot) (e : (str * JobSubmissionKey) * JobId) : Fallible unit :=
  match snapshot_jobs s !! e.2 with
  | None => Err (StoreFailure "submission index points to missing job")
  | Some j =>
      _ ← require ((realm_id (spec j) == e.1.1) && (submission_key (spec j) == e.1.2))
            "submission index disagrees with job";
      validate_stored_job j
  end.

Definition check_indexed (s : Snapshot) (j : StoredJob) : Fallible unit :=
  require (snapshot_index s !! index_key j == Some (stored_id j))
    "job has no matching realm-scoped submission index".

Definition check_delivery (s : Snapshot)
    (e : (JobId * PredicateDeliveryIdempotencyKey) * PredicateDeliveryReceipt) : Fallible unit :=
  match snapshot_jobs s !! e.1.1 with
  | None => Err (StoreFailure "predicate delivery index points to missing job")
  | Some j => validate_predicate_delivery_receipt j e.1.2 e.2
  end.

Definition from_snapshot (s : Snapshot) : Fallible MemoryJobs :=
  let pairs := pair_compare text_compare text_compare in
  _ ← check_each (check_index_entry s) (entries pairs (snapshot_index s));
  _ ← check_each (check_indexed s) (job_values (snapshot_jobs s));
  _ ← check_each (check_delivery s) (entries pairs (snapshot_deliveries s));
  Ok (mkMemory (snapshot_jobs s) (snapshot_index s) (snapshot_deliveries s) 0).

(** *** Writes *)

(** A call: the state it leaves and its answer. *)
Definition Step (A : Type) : Type := MemoryJobs * Fallible A.

(** A check that fails ends the call with the state as it was. *)
Definition checked {A B} (st : MemoryJobs) (m : Fallible B) (k : B → Step A) : Step A :=
  match m with
  | Ok b => k b
  | Err e => (st, Err e)
  | Panic => (st, Panic)
  | OutOfFuel => (st, OutOfFuel)
  end.

Definition insert_deduplicated (j : StoredJob) (st : MemoryJobs) : Step InsertJobOutcome :=
  checked st (validate_stored_job j) (λ _,
  match submission_index st !! index_key j with
  | Some existing_id =>
      checked st (ok_or (jobs st !! existing_id)
                    (StoreFailure "submission index points to missing job")) (λ existing,
      if negb (equivalent_submission (spec existing) (spec j)) then (st, Err SubmissionConflict)
      else (st, Ok (Existing existing)))
  | None =>
      if bool_decide (is_Some (jobs st !! stored_id j))
      then (st, Err (StoreFailure "generated job id already exists"))
      else (st <| submission_index := <[index_key j := stored_id j]> (submission_index st) |>
               <| jobs := <[stored_id j := j]> (jobs st) |>, Ok (Inserted j))
  end).

Definition compare_and_swap (expected_revision : N) (replacement : StoredJob) (st : MemoryJobs)
    : Step StoredJob :=
  checked st (ok_or (jobs st !! stored_id replacement) (NotFound (stored_id replacement)))
    (λ current,
  checked st (validate_job_replacement current expected_revision replacement) (λ _,
  checked st (next_revision expected_revision) (λ next,
  let replacement := replacement <| revision := next |> in
  (st <| jobs := <[stored_id replacement := replacement]> (jobs st) |>, Ok replacement)))).

Definition commit_predicate_delivery (expected_revision : N) (replacement : StoredJob)
    (c : PredicateDeliveryCommit) (st : MemoryJobs) : Step PredicateDeliveryCommitOutcome :=
  let id := stored_id replacement in
  let ledger_key := (id, idempotency_key (commit_identity c)) in
  match predicate_deliveries st !! ledger_key with
  | Some receipt =>
      checked st (ensure_same_predicate_delivery_identity (ledger_identity receipt)
                    (commit_identity c)) (λ _,
      checked st (ok_or (jobs st !! id) (NotFound id)) (λ j,
      (st, Ok (CommitDeduplicated j receipt))))
  | None =>
      checked st (ok_or (jobs st !! id) (NotFound id)) (λ current,
      checked st (validate_job_replacement current expected_revision replacement) (λ _,
      checked st (next_revision expected_revision) (λ next,
      let replacement := replacement <| revision := next |> in
      let receipt := mkDeliveryReceipt id (commit_identity c) next (commit_evaluation c)
                       (commit_notification c) in
      checked st (validate_predicate_delivery_receipt replacement
                    (idempotency_key (ledger_identity receipt)) receipt) (λ _,
      (st <| jobs := <[id := replacement]> (jobs st) |>
          <| predicate_deliveries := <[ledger_key := receipt]> (predicate_deliveries st) |>,
       Ok (Committed replacement receipt))))))
  end.

Definition record_commit (st : MemoryJobs) : Step unit :=
  (st <| commit_generation := ((commit_generation st + 1) mod u64_modulus)%N |>, Ok tt).

(** *** Reads *)

(** [Iterator::take] of a [usize]. *)
Definition take_limit {A} (limit : N) (xs : list A) : list A := take (N.to_nat limit) xs.

Definition get_by_submission_key (realm : str) (key : JobSubmissionKey) (st : MemoryJobs)
    : Fallible (option StoredJob) :=
  match submission_index st !! (realm, key) with
  | None => Ok None
  | Some id =>
      j ← ok_or (jobs st !! id) (StoreFailure "submission index points to missing job");
      Ok (Some j)
  end.

Definition predicate_delivery_receipt (id : JobId) (identity : PredicateDeliveryIdentity)
    (st : MemoryJobs) : Fallible (option PredicateDeliveryReceipt) :=
  match jobs st !! id with
  | None => Err (NotFound id)
  | Some _ =>
      match predicate_deliveries st !! (id, idempotency_key identity) with
      | None => Ok None
      | Some receipt =>
          _ ← ensure_same_predicate_delivery_identity (ledger_identity receipt) identity;
          Ok (Some receipt)
      end
  end.

Definition list_pending_outbox (limit : N) (st : MemoryJobs) : list JobOutboxEntry :=
  if (limit =? 0)%N then []
  else take_limit limit
    (filter (λ e, entry_applied e = false) (job_values (jobs st) ≫= outbox)).

Definition list_for_origin (realm : str) (session : SessionId) (limit : N) (st : MemoryJobs)
    : list StoredJob :=
  if (limit =? 0)%N then []
  else take_limit limit
    (filter (λ j, realm_id (spec j) = realm ∧ origin_session_id (spec j) = session)
       (job_values (jobs st))).

Definition list_all (limit : N) (st : MemoryJobs) : list StoredJob :=
  if (limit =? 0)%N then [] else take_limit limit (job_values (jobs st)).

(** [realm.is_none_or(|realm| job.spec.realm_id == realm)] *)
Definition in_realm (realm : option str) (j : StoredJob) : Prop :=
  match realm with None => True | Some r => realm_id (spec j) = r end.
#[global] Instance in_realm_dec realm j : Decision (in_realm realm j).
Proof. destruct realm; cbn; apply _. Defined.

Definition has_pending_outbox (j : StoredJob) : bool :=
  existsb (λ e, negb (entry_applied e)) (outbox j).

Definition count_pending_outbox_jobs (realm : option str) (st : MemoryJobs) : N :=
  N.min (N.of_nat (length (filter (λ j, has_pending_outbox j = true)
                             (filter (in_realm realm) (job_values (jobs st)))))) u64_max.

Definition list_census_candidates (realm : option str) (limit : N) (st : MemoryJobs)
    : list StoredJob :=
  if (limit =? 0)%N then []
  else take_limit limit
    (filter (λ j, job_is_census_live j = true) (filter (in_realm realm) (job_values (jobs st)))).

(** The answer of the store to a call. *)
Definition memory_step {X} (c : JobCall X) (st : MemoryJobs) : Step X :=
  match c with
  | InsertDeduplicated j => insert_deduplicated j st
  | GetJob id => (st, Ok (jobs st !! id))
  | GetBySubmissionKey realm key => (st, get_by_submission_key realm key st)
  | CompareAndSwap rev j => compare_and_swap rev j st
  | GetDeliveryReceipt id identity => (st, predicate_delivery_receipt id identity st)
  | CommitDelivery rev j c => commit_predicate_delivery rev j c st
  | ListPendingOutbox limit => (st, Ok (list_pending_outbox limit st))
  | ListForOrigin realm session limit => (st, Ok (list_for_origin realm session limit st))
  | ListAll limit => (st, Ok (list_all limit st))
  | CountPendingOutboxJobs realm => (st, Ok (count_pending_outbox_jobs realm st))
  | ListCensusCandidates realm limit => (st, Ok (list_census_candidates realm limit st))
  | RecordCommit => record_commit st
  end.
End Store.
