(* ===== verification/JobPrograms.v ===== *)
(** * JobPrograms: programs over the job store, and the rows they write

    The service of [JobService] calls the store of [JobStore] through a
    trait object.  An operation is a program ([JobProg]) that stops at every
    call, so that other users of the store can act between two of its calls;
    [exec] runs one alone.  The second half holds the pure helpers at the end
    of [meerkat-jobs/src/service.rs]: how an effect of the job authority is
    projected onto the stored row, and how a row is shown to callers. *)

From stdpp Require Import gmap.
From S2P Require Export JobStore.

(** ** Programs *)

Inductive JobProg (A : Type) : Type :=
| Done (a : A)
| Call (X : Type) (c : JobCall X) (k : Fallible X → JobProg A).
Arguments Done {A} _.
Arguments Call {A X} _ _.

Fixpoint job_bind {A B} (m : JobProg A) (f : A → JobProg B) : JobProg B :=
  match m with
  | Done a => f a
  | Call c k => Call c (λ r, job_bind (k r) f)
  end.

(** An [async fn] of the service. *)
Abbreviation JobService A := (JobProg (Fallible A)).

(** [m.await?] *)
Definition and_then {A B} (m : JobService A) (f : A → JobService B) : JobService B :=
  job_bind m (λ r, match r with
                   | Ok a => f a
                   | Err e => Done (Err e)
                   | Panic => Done Panic
                   | OutOfFuel => Done OutOfFuel
                   end).

Notation "x ⇐ m ; k" := (and_then m (λ x, k))
  (at level 20, m at level 100, k at level 200, only parsing) : mk_scope.
Notation "' x ⇐ m ; k" := (and_then m (λ x, k))
  (at level 20, x pattern, m at level 100, k at level 200, only parsing) : mk_scope.

Definition call {X} (c : JobCall X) : JobService X := Call c Done.
Definition ret {A} (a : A) : JobService A := Done (Ok a).
Definition lift {A} (r : Fallible A) : JobService A := Done r.
Definition fault {A} (e : DetachedJobError) : JobService A := Done (Err e).

(** A program alone with its store. *)
Fixpoint exec `{BuildProfile} {A} (m : JobProg A) (st : MemoryJobs) : A * MemoryJobs :=
  match m with
  | Done a => (a, st)
  | Call c k => let r := memory_step c st in exec (k r.2) r.1
  end.

(** [.map(f).transpose()?] on an option. *)
Definition traverse {A B} (f : A → Fallible B) (o : option A) : Fallible (option B) :=
  match o with None => Ok None | Some a => b ← f a; Ok (Some b) end.

#[export] Instance DetachedJobEffect_eq_dec : EqDecision DetachedJobEffect.
Proof. solve_decision. Defined.

(** ** The authority on a row *)

Section Authority.
Context {BP : BuildProfile}.

Definition recovered (id : JobId) (s : DetachedJobMachineState)
    : Fallible DetachedJobMachineState :=
  match recover_from_state s with
  | inl s => Ok s
  | inr e => Err (InvalidTransition id (RecoveryRejected e))
  end.

Definition machine_apply (id : JobId) (i : DetachedJobInput) (s : DetachedJobMachineState)
    : Fallible (DetachedJobMachineState * list DetachedJobEffect) :=
  match apply i s with
  | Returned s' (inl r) => Ok (s', effects r)
  | Returned _ (inr e) => Err (InvalidTransition id (Refused e))
  | Panicked => Panic
  end.

Definition apply_predicate_bundle_step (id : JobId) (i : DetachedJobInput)
    (authority : DetachedJobMachineState) (replacement : StoredJob)
    : Fallible (DetachedJobMachineState * StoredJob * list DetachedJobEffect) :=
  '(authority, es) ← machine_apply id i authority;
  Ok (authority, replacement <| machine_state := authority |>, es).
End Authority.

Definition ensure_current_writer (id : JobId) (j : StoredJob) (w : AttemptWriteAuthority)
    : Fallible unit :=
  if (current_attempt_id (machine_state j) != Some (write_attempt_id w))
     || negb (current_fence (machine_state j) =? write_fence w)%N
  then Err (StaleAttempt id (write_attempt_id w) (write_fence w))
  else Ok tt.

(** ** Effects onto rows *)

Definition effect_commits_outbox_entry (e : DetachedJobEffect) : bool :=
  match e with
  | E_TerminalCommitted _ _ _ | E_NotificationCommitted _ _ _ _ => true
  | _ => false
  end.

(** The two halves of a [filter_map]'s iterator the callers look at: its
    first item, and that there is no second one. *)
Definition single {A} (xs : list A) (none several : DetachedJobError) : Fallible A :=
  match xs with
  | [] => Err none
  | [x] => Ok x
  | _ => Err several
  end.

Definition terminal_commitment (e : DetachedJobEffect) : option (str * JobTerminalKind * N) :=
  match e with
  | E_TerminalCommitted id kind n => Some (id, kind, n)
  | _ => None
  end.

Definition is_terminal_entry (e : JobOutboxEntry) : bool :=
  match entry_payload e with Terminal _ => true | Notification _ => false end.

Definition push_entry (e : JobOutboxEntry) (j : StoredJob) : StoredJob :=
  j <| outbox := outbox j ++ [e] |>.

Definition project_optional_terminal (j : StoredJob) (es : list DetachedJobEffect)
    (result : JobTerminalResult) : Fallible (StoredJob * bool) :=
  match omap terminal_commitment es with
  | [] => Ok (j, false)
  | [(emitted, kind, n)] =>
      if kind != result_kind result
      then Err (StoreFailure "machine terminal kind disagrees with typed result")
      else if emitted != stored_id j
      then Err (StoreFailure "machine terminal job id disagrees with stored job")
      else if (terminal_result j != None) || existsb is_terminal_entry (outbox j)
      then Err (StoreFailure "job already has terminal projection state")
      else
        Ok (push_entry (mkEntry (stored_id j) (lit "terminal") n (Terminal result)
                          (subscriptions j) false)
              (j <| terminal_result := Some result |>), true)
  | _ => Err (StoreFailure "machine emitted multiple terminal commitments")
  end.

(** A notification effect: identifier, key, delivery identity, number, and
    whether it was suppressed. *)
Definition disposition_of (e : DetachedJobEffect) : option (str * str * str * N * bool) :=
  match e with
  | E_NotificationCommitted id key rt n => Some (id, key, rt, n, false)
  | E_NotificationSuppressed id key rt n => Some (id, key, rt, n, true)
  | _ => None
  end.

Definition notifies (key : str) (e : JobOutboxEntry) : bool :=
  match entry_payload e with
  | Notification existing => notification_key existing == key
  | Terminal _ => false
  end.

Definition project_notification (j : StoredJob) (es : list DetachedJobEffect)
    (n : JobNotification) : Fallible StoredJob :=
  '(id, key, rt, number, suppressed) ← single (omap disposition_of es)
     (StoreFailure "machine emitted no notification disposition")
     (StoreFailure "machine emitted multiple notification dispositions");
  if key != notification_key n
  then Err (StoreFailure "machine notification idempotency key disagrees with input")
  else if (suppressed : bool) then
    entry ← ok_or (List.find (notifies key) (outbox j))
      (StoreFailure "machine suppressed a notification without a committed outbox entry");
    match entry_payload entry with
    | Terminal _ => Err (StoreFailure "notification idempotency entry has a terminal payload")
    | Notification existing =>
        if (notification_title existing != notification_title n)
           || (notification_body existing != notification_body n)
        then Err (InvalidInput "notification idempotency key was reused with different content")
        else if (entry_delivery_id entry != id) || (runtime_delivery_id entry != rt)
                || negb (entry_sequence entry =? number)%N
        then Err (StoreFailure "suppressed notification disagrees with committed identity")
        else Ok j
    end
  else if id != notification_id n
  then Err (StoreFailure "machine notification id disagrees with input")
  else if rt != notification_delivery_id (stored_id j) id
  then Err (StoreFailure "machine notification runtime delivery id disagrees with job identity")
  else if existsb (λ e, (entry_sequence e =? number)%N) (outbox j)
  then Err (StoreFailure "notification delivery sequence is already committed")
  else Ok (push_entry (mkEntry (stored_id j) id number (Notification n) (subscriptions j) false) j).

Definition notification_disposition (es : list DetachedJobEffect)
    : Fallible (NotificationId * N * bool) :=
  '(id, _, _, number, suppressed) ← single (omap disposition_of es)
     (StoreFailure "predicate notification step emitted no notification disposition")
     (StoreFailure "predicate notification step emitted multiple notification dispositions");
  id ← string_id "notification id" id;
  Ok (id, number, suppressed).

(** The closure of [mark_delivery_applied]. *)
Definition acknowledges (delivery_id : str) (number : N) (e : DetachedJobEffect) : bool :=
  match e with
  | E_DeliveryApplied emitted n => (emitted == delivery_id) && (n =? number)%N
  | _ => false
  end.

(** [iter_mut().find(p)] and an assignment through the reference. *)
Fixpoint update_first {A} (p : A → bool) (f : A → A) (xs : list A) : list A :=
  match xs with
  | [] => []
  | x :: xs => if p x then f x :: xs else x :: update_first p f xs
  end.

Definition project_acknowledgement (delivery_id : str) (number : N) (j : StoredJob)
    (es : list DetachedJobEffect) : Fallible StoredJob :=
  if negb (length (List.filter (acknowledges delivery_id number) es) =? 1)%nat
  then Err (StoreFailure "machine did not authorize exactly one delivery acknowledgement")
  else
    let numbered := λ e, (entry_sequence e =? number)%N in
    entry ← ok_or (List.find numbered (outbox j))
      (StoreFailure "delivery has no committed outbox entry");
    if entry_applied entry then Ok j
    else Ok (j <| outbox := update_first numbered (λ e, e <| entry_applied := true |>) (outbox j) |>).

(** ** Rows as callers see them *)

Definition job_snapshot (j : StoredJob) : Fallible JobSnapshot :=
  let s := machine_state j in
  attempt ← traverse (string_id "attempt id") (current_attempt_id s);
  checkpoint ← traverse (string_id "checkpoint reference") (checkpoint_ref s);
  handle ← traverse (string_id "runner handle reference") (runner_handle s);
  Ok (mkSnapshot (stored_id j) (revision j) (lifecycle_phase s) (attempt_count s) attempt
        (current_fence s) (lease_expires_at_ms s) checkpoint handle (progress j)
        (cancel_requested s) (terminal_kind s) (terminal_result j) (subscriptions j) (outbox j)).

(** [u64::try_from(n).unwrap_or(u64::MAX)] of a length. *)
Definition length_u64 {A} (xs : list A) : N := N.min (N.of_nat (length xs)) u64_max.

Definition job_description (j : StoredJob) : Fallible JobDescription :=
  snap ← job_snapshot j;
  Ok (mkDescription (snap_job_id snap) (spec_runner (spec j)) (snap_phase snap)
        (spec_restart_class (spec j)) (snap_attempt_count snap) (snap_progress snap)
        (snap_cancel_requested snap) (snap_terminal_result snap)
        (length_u64 (snap_subscriptions snap))
        (length_u64 (filter (λ e, entry_applied e = false) (snap_outbox snap)))).

(** [transpose] of [Option<Result>] after a [map], and [collect] into a [Result]. *)
Fixpoint collect {A B} (f : A → Fallible B) (xs : list A) : Fallible (list B) :=
  match xs with
  | [] => Ok []
  | x :: xs => y ← f x; ys ← collect f xs; Ok (y :: ys)
  end.

(** *** Health *)

Definition saturating_succ (n : N) : N := N.min (n + 1) u64_max.

Definition lease_overdue (now : N) (s : DetachedJobMachineState) : bool :=
  match lease_expires_at_ms s with Some expires => (expires <? now)%N | None => false end.

Definition count_health (observed_at_ms : N) (h : JobHealthSnapshot) (j : StoredJob)
    : JobHealthSnapshot :=
  let s := machine_state j in
  match lifecycle_phase s with
  | Queued | RetryScheduled => h <| queued := saturating_succ (queued h) |>
  | Running | WaitingExternal =>
      let h := h <| running := saturating_succ (running h) |> in
      if lease_overdue observed_at_ms s
      then h <| stale_leases := saturating_succ (stale_leases h) |> else h
  | NeedsAttention => h <| needs_attention := saturating_succ (needs_attention h) |>
  | _ => h
  end.

(** *** Predicate checkpoints *)

(** [serde_json] on a [PredicateCheckpoint]. *)
Class CheckpointCodec := {
  encode_checkpoint : PredicateCheckpoint → option str;
  decode_checkpoint : str → option PredicateCheckpoint;
}.

Fixpoint strip_prefix (p s : str) : option str :=
  match p, s with
  | [], _ => Some s
  | c :: p, d :: s => if (c =? d)%N then strip_prefix p s else None
  | _, [] => None
  end.

Definition decode_predicate_checkpoint `{CheckpointCodec} (encoded : str)
    : Fallible PredicateCheckpoint :=
  payload ← ok_or (strip_prefix (lit "predicate:") encoded)
    (InvalidInput "predicate evaluator cannot consume a non-predicate checkpoint");
  ok_or (decode_checkpoint payload) (InvalidInput "predicate checkpoint is invalid").
