(* ===== verification/JobService.v ===== *)
(** * JobService: the detached-job service

    [DetachedJobService] of [meerkat-jobs/src/service.rs], one program per
    method ([JobPrograms]).  Identifiers the service mints from a random UUID
    take its text as an argument.  The two loops without a bound in the source
    ([subscribe], [request_cancel]) take fuel; the loops with a conflict budget
    ([mark_delivery_applied], [evaluate_predicate_idempotent]) run on it. *)

From stdpp Require Import gmap.
From S2P Require Export JobPrograms.

Definition DELIVERY_ACK_CONFLICT_BUDGET : nat := 8.
Definition PREDICATE_EVALUATION_CONFLICT_BUDGET : nat := 8.

(** ** Receipts of predicate evaluations *)

Record PredicateEvaluationReceipt := mkEvaluationReceipt {
  evaluated : PredicateEvaluation;
  evaluated_notification : option JobNotificationReceipt;
  evaluated_snapshot : JobSnapshot;
}.

Inductive PredicateDeliveryOutcome :=
| Applied (receipt : PredicateDeliveryReceipt) (snap : JobSnapshot)
| Deduplicated (receipt : PredicateDeliveryReceipt) (snap : JobSnapshot).

Section Service.
Context {BP : BuildProfile}.

(** How an accepted input is projected onto the row. *)
Abbreviation Projection := (StoredJob → list DetachedJobEffect → Fallible StoredJob).

Definition no_projection : Projection := λ j _, Ok j.

(** ** Writing through the authority *)

Definition required (id : JobId) : JobService StoredJob :=
  found ⇐ call (GetJob id);
  match found with Some j => ret j | None => fault (NotFound id) end.

(** The row the input makes of [current], and the effects. *)
Definition replacement_of (current : StoredJob) (i : DetachedJobInput) (project : Projection)
    : Fallible (StoredJob * list DetachedJobEffect) :=
  let id := stored_id current in
  authority ← recovered id (machine_state current);
  '(s, es) ← machine_apply id i authority;
  replacement ← project (current <| machine_state := s |>) es;
  Ok (replacement, es).

Definition apply_from (current : StoredJob) (i : DetachedJobInput) (project : Projection)
    : JobService (StoredJob * list DetachedJobEffect) :=
  '(replacement, es) ⇐ lift (replacement_of current i project);
  if replacement == current then ret (current, es)
  else
    committed ⇐ call (CompareAndSwap (revision replacement) replacement);
    _ ⇐ (if existsb effect_commits_outbox_entry es then call RecordCommit else ret tt);
    ret (committed, es).

Definition apply_input (id : JobId) (i : DetachedJobInput) (project : Projection)
    : JobService (StoredJob * list DetachedJobEffect) :=
  current ⇐ required id;
  apply_from current i project.

Definition project_terminal (result : JobTerminalResult) : Projection := λ j es,
  '(projected, committed) ← project_optional_terminal j es result;
  if (committed : bool) then Ok projected
  else Err (InvalidTransition (stored_id j)
              (Unexpected "terminal transition emitted no terminal commitment")).

Definition apply_terminal (current : StoredJob) (i : DetachedJobInput) (result : JobTerminalResult)
    : JobService JobSnapshot :=
  '(stored, _) ⇐ apply_from current i (project_terminal result);
  lift (job_snapshot stored).

(** The common shape of the writes of a worker. *)
Definition written (id : JobId) (w : AttemptWriteAuthority) : JobService StoredJob :=
  current ⇐ required id;
  _ ⇐ lift (ensure_current_writer id current w);
  ret current.

Definition apply_written (id : JobId) (w : AttemptWriteAuthority) (i : DetachedJobInput)
    (project : Projection) : JobService JobSnapshot :=
  current ⇐ written id w;
  '(stored, _) ⇐ apply_from current i project;
  lift (job_snapshot stored).

(** ** Submission and reads *)

Definition receipt_of (deduplicated : bool) (j : StoredJob) : JobReceipt :=
  mkReceipt (stored_id j) (lifecycle_phase (machine_state j)) deduplicated
    (spec_restart_class (spec j)).

Definition submitted (uuid : str) (s : JobSpec) : Fallible StoredJob :=
  let id := JobId_generated uuid in
  '(state, _) ← machine_apply id (I_Submit id (spec_restart_class s)) init;
  Ok (mkStored id s 1 state None None [] []).

Definition submit (uuid : str) (s : JobSpec) : JobService JobReceipt :=
  if (realm_id s == []) || (trim (realm_id s) != realm_id s) || existsb is_control (realm_id s)
  then fault (InvalidInput "realm id must be non-empty, canonical, and contain no control characters")
  else
    stored ⇐ lift (submitted uuid s);
    outcome ⇐ call (InsertDeduplicated stored);
    match outcome with
    | Inserted j => ret (receipt_of false j)
    | Existing j => ret (receipt_of true j)
    end.

Definition get (id : JobId) : JobService (option JobSnapshot) :=
  found ⇐ call (GetJob id); lift (traverse job_snapshot found).

Definition get_authorized_for_session (r : JobReference) (session : SessionId)
    : JobService JobSnapshot :=
  found ⇐ call (GetJob (reference_job_id r));
  match found with
  | Some j =>
      if (realm_id (spec j) == reference_realm_id r) && (origin_session_id (spec j) == session)
      then lift (job_snapshot j) else fault (NotFound (reference_job_id r))
  | None => fault (NotFound (reference_job_id r))
  end.

Definition get_for_reference (r : JobReference) : JobService JobSnapshot :=
  found ⇐ call (GetJob (reference_job_id r));
  match found with
  | Some j => if realm_id (spec j) == reference_realm_id r
              then lift (job_snapshot j) else fault (NotFound (reference_job_id r))
  | None => fault (NotFound (reference_job_id r))
  end.

Definition describe (id : JobId) : JobService (option JobDescription) :=
  found ⇐ call (GetJob id); lift (traverse job_description found).

Definition describe_for_realm (realm : str) (id : JobId) : JobService (option JobDescription) :=
  found ⇐ call (GetJob id);
  lift (traverse job_description
          (j ← found; if realm_id (spec j) == realm then Some j else None)).

Definition list_descriptions_for_origin (realm : str) (session : SessionId) (limit : N)
    : JobService (list JobDescription) :=
  found ⇐ call (ListForOrigin realm session limit); lift (collect job_description found).

Definition health_snapshot_for_realm_filter (realm : option str) (observed_at_ms limit : N)
    : JobService JobHealthSnapshot :=
  pending ⇐ call (CountPendingOutboxJobs realm);
  found ⇐ call (ListCensusCandidates realm limit);
  let coverage := if (limit <=? N.of_nat (length found))%N
                  then Truncated (length_u64 found) (N.min limit u64_max) else Complete in
  ret (fold_left (count_health observed_at_ms) found (mkHealth 0 0 0 0 0 pending coverage)).

Definition health_snapshot (observed_at_ms limit : N) : JobService JobHealthSnapshot :=
  health_snapshot_for_realm_filter None observed_at_ms limit.
Definition health_snapshot_for_realm (realm : str) (observed_at_ms limit : N)
    : JobService JobHealthSnapshot :=
  health_snapshot_for_realm_filter (Some realm) observed_at_ms limit.

(** ** Subscriptions *)

Fixpoint subscribe (fuel : nat) (id : JobId) (s : JobSubscription) : JobService JobSnapshot :=
  match fuel with
  | O => lift OutOfFuel
  | S fuel =>
      current ⇐ required id;
      match List.find (λ e, subscription_id e == subscription_id s) (subscriptions current) with
      | Some existing =>
          if existing == s then lift (job_snapshot current)
          else fault (InvalidInput "subscription is already bound to a different target")
      | None =>
          Call (CompareAndSwap (revision current)
                  (current <| subscriptions := subscriptions current ++ [s] |>))
            (λ answer,
               match answer with
               | Ok committed => lift (job_snapshot committed)
               | Err (StaleRevision _ _ _) => subscribe fuel id s
               | Err e => fault e
               | Panic => lift Panic
               | OutOfFuel => lift OutOfFuel
               end)
      end
  end.

Definition unsubscribe (id : JobId) (sid : JobSubscriptionId) : JobService JobSnapshot :=
  current ⇐ required id;
  let kept := filter (λ e, subscription_id e ≠ sid) (subscriptions current) in
  if (length kept =? length (subscriptions current))%nat then lift (job_snapshot current)
  else
    committed ⇐ call (CompareAndSwap (revision current) (current <| subscriptions := kept |>));
    lift (job_snapshot committed).

(** ** Attempts *)

Definition claim_acknowledgement (e : DetachedJobEffect)
    : option (str * N * N * N * option str) :=
  match e with
  | E_AttemptClaimed a count fence lease resume => Some (a, count, fence, lease, resume)
  | _ => None
  end.

(** The loop over the effects: a second acknowledgement is refused before it
    is read, and an unreadable first one before the second is met. *)
Definition claim_receipt (id : JobId) (es : list DetachedJobEffect) : Fallible AttemptClaimReceipt :=
  match omap claim_acknowledgement es with
  | [] => Err (InvalidTransition id (Unexpected "machine emitted no claim acknowledgement"))
  | (a, count, fence, lease, resume) :: others =>
      a ← string_id "attempt id" a;
      resume ← traverse (string_id "checkpoint reference") resume;
      match others with
      | [] => Ok (mkClaimReceipt a count fence lease resume)
      | _ =>
          Err (InvalidTransition id (Unexpected "machine emitted multiple claim acknowledgements"))
      end
  end.

Definition claim_attempt (uuid : str) (id : JobId) (c : AttemptClaim)
    : JobService AttemptClaimReceipt :=
  '(stored, es) ⇐ apply_input id
     (I_ClaimAttempt (AttemptId_generated uuid) (claim_worker_id c) (claim_claimed_at_ms c)
        (claim_lease_expires_at_ms c) (claim_runner_handle c)) no_projection;
  receipt ⇐ lift (claim_receipt id es);
  if debug_assertions
     && negb (attempt_count (machine_state stored) =? receipt_attempt_count receipt)%N
  then lift Panic else ret receipt.

Definition report_progress (id : JobId) (w : AttemptWriteAuthority) (p : JobProgress)
    (observed_at_ms : N) : JobService JobSnapshot :=
  apply_written id w
    (I_ReportProgress (write_attempt_id w) (write_fence w) (progress_cursor_of p) observed_at_ms)
    (λ j _, Ok (j <| progress := Some p |>)).

Definition renew_lease (id : JobId) (w : AttemptWriteAuthority)
    (heartbeat_at_ms lease_expires_at_ms : N) : JobService JobSnapshot :=
  apply_written id w
    (I_RenewLease (write_attempt_id w) (write_fence w) heartbeat_at_ms lease_expires_at_ms)
    no_projection.

Definition record_checkpoint (id : JobId) (w : AttemptWriteAuthority) (r : CheckpointRef)
    (observed_at_ms : N) : JobService JobSnapshot :=
  apply_written id w
    (I_RecordCheckpoint (write_attempt_id w) (write_fence w) r observed_at_ms) no_projection.

Definition notification_input (id : JobId) (w : AttemptWriteAuthority) (observed_at_ms : N)
    (n : JobNotification) : DetachedJobInput :=
  I_EmitNotification (write_attempt_id w) (write_fence w) (notification_id n) (notification_key n)
    (notification_delivery_id id (notification_id n)) observed_at_ms.

Definition emit_notification (id : JobId) (w : AttemptWriteAuthority) (observed_at_ms : N)
    (n : JobNotification) : JobService JobNotificationReceipt :=
  current ⇐ written id w;
  '(stored, es) ⇐ apply_from current (notification_input id w observed_at_ms n)
     (λ j es, project_notification j es n);
  '(nid, _, _, number, deduplicated) ⇐ lift (single (omap disposition_of es)
     (InvalidTransition id (Unexpected "machine emitted no notification disposition"))
     (StoreFailure "machine emitted multiple notification dispositions"));
  snap ⇐ lift (job_snapshot stored);
  nid ⇐ lift (string_id "notification id" nid);
  ret (mkNotificationReceipt snap nid number deduplicated).

Definition wait_external (id : JobId) (w : AttemptWriteAuthority) (observed_at_ms : N)
    : JobService JobSnapshot :=
  apply_written id w (I_WaitExternal (write_attempt_id w) (write_fence w) observed_at_ms)
    no_projection.

Definition resume_running (id : JobId) (w : AttemptWriteAuthority) (observed_at_ms : N)
    : JobService JobSnapshot :=
  apply_written id w (I_ResumeRunning (write_attempt_id w) (write_fence w) observed_at_ms)
    no_projection.

Definition observe_lease_expired (id : JobId) (w : AttemptWriteAuthority) (observed_at_ms : N)
    : JobService JobSnapshot :=
  apply_written id w (I_LeaseExpired (write_attempt_id w) (write_fence w) observed_at_ms)
    no_projection.

Definition schedule_retry (id : JobId) (retry_due_at_ms : N) : JobService JobSnapshot :=
  '(stored, _) ⇐ apply_input id (I_ScheduleRetry retry_due_at_ms) no_projection;
  lift (job_snapshot stored).

(** ** Outcomes *)

(** What ends the attempt: the cancellation a request asked for, or [i]. *)
Definition end_attempt (id : JobId) (w : AttemptWriteAuthority) (now : N) (i : DetachedJobInput)
    (result : JobTerminalResult) : JobService JobSnapshot :=
  current ⇐ written id w;
  if cancel_requested (machine_state current)
  then apply_terminal current (I_AcknowledgeCancel (write_attempt_id w) (write_fence w) now)
         ResultCancelled
  else apply_terminal current i result.

Definition complete_attempt (id : JobId) (w : AttemptWriteAuthority) (completed_at_ms : N)
    (result_ref : option JobResultRef) : JobService JobSnapshot :=
  end_attempt id w completed_at_ms
    (I_CompleteAttempt (write_attempt_id w) (write_fence w) completed_at_ms)
    (ResultSucceeded result_ref).

Definition fail_attempt (id : JobId) (w : AttemptWriteAuthority) (failed_at_ms : N)
    (code : JobFailureCode) (detail_ref : option JobResultRef) : JobService JobSnapshot :=
  end_attempt id w failed_at_ms
    (I_FailAttempt (write_attempt_id w) (write_fence w) failed_at_ms)
    (ResultFailed code detail_ref).

(** The closure of [request_cancel]. *)
Definition project_cancel : Projection := λ j es,
  '(projected, _) ← project_optional_terminal j es ResultCancelled; Ok projected.

Fixpoint request_cancel (fuel : nat) (id : JobId) : JobService JobSnapshot :=
  match fuel with
  | O => lift OutOfFuel
  | S fuel =>
      current ⇐ required id;
      if terminal_result current != None then lift (job_snapshot current)
      else
        job_bind (apply_from current I_RequestCancel project_cancel) (λ answer,
          match answer with
          | Ok (stored, _) => lift (job_snapshot stored)
          | Err (StaleRevision _ _ _) => request_cancel fuel id
          | Err e => fault e
          | Panic => lift Panic
          | OutOfFuel => lift OutOfFuel
          end)
  end.

Definition acknowledge_cancel (id : JobId) (w : AttemptWriteAuthority) (acknowledged_at_ms : N)
    : JobService JobSnapshot :=
  current ⇐ written id w;
  apply_terminal current
    (I_AcknowledgeCancel (write_attempt_id w) (write_fence w) acknowledged_at_ms) ResultCancelled.

Definition classify_worker_loss (id : JobId) (observed_at_ms : N) : JobService JobSnapshot :=
  current ⇐ required id;
  apply_terminal current (I_ClassifyWorkerLoss observed_at_ms) ResultWorkerLost.

Definition mark_needs_attention (id : JobId) (observed_at_ms : N) (reason : JobFailureCode)
    : JobService JobSnapshot :=
  current ⇐ required id;
  apply_terminal current (I_MarkNeedsAttention observed_at_ms) (ResultNeedsAttention reason).

(** One turn of the loop of [mark_delivery_applied]. *)
Definition acknowledge_once (id : JobId) (number : N)
    : JobService (StoredJob * list DetachedJobEffect) :=
  current ⇐ required id;
  entry ⇐ lift (ok_or (List.find (λ e, (entry_sequence e =? number)%N) (outbox current))
                  (StoreFailure "delivery has no committed outbox entry"));
  let delivery_id := entry_delivery_id entry in
  apply_from current (I_MarkDeliveryApplied delivery_id number)
    (project_acknowledgement delivery_id number).

Fixpoint mark_delivery_loop (budget : nat) (id : JobId) (number : N) : JobService JobSnapshot :=
  job_bind (acknowledge_once id number) (λ answer,
    match answer, budget with
    | Ok (stored, _), _ => lift (job_snapshot stored)
    | Err (StaleRevision _ _ _), S budget => mark_delivery_loop budget id number
    | Err e, _ => fault e
    | Panic, _ => lift Panic
    | OutOfFuel, _ => lift OutOfFuel
    end).

Definition mark_delivery_applied (id : JobId) (number : N) : JobService JobSnapshot :=
  mark_delivery_loop DELIVERY_ACK_CONFLICT_BUDGET id number.

(** ** Predicate evaluations *)

Context `{!NameUuid, !CheckpointCodec}.

Definition prior_checkpoint (j : StoredJob) : Fallible (option PredicateCheckpoint) :=
  traverse decode_predicate_checkpoint (checkpoint_ref (machine_state j)).

Definition evaluate_for (watch : PredicateWatch) (o : PredicateObservation) (j : StoredJob)
    : Fallible PredicateEvaluation :=
  checkpoint ← prior_checkpoint j;
  map_err (λ _, InvalidInput "predicate evaluation") (evaluate watch checkpoint o).

Definition encoded_checkpoint (c : PredicateCheckpoint) : Fallible CheckpointRef :=
  encoded ← ok_or (encode_checkpoint c) (InvalidInput "cannot encode predicate checkpoint");
  string_id "checkpoint reference" (lit "predicate:" ++ encoded).

Definition health_of (e : PredicateEvaluation) : JobHealthCondition * str :=
  match e with
  | SourceUnavailable _ reason retry_after_secs =>
      (PredicateSourceUnavailable retry_after_secs, lit "predicate_source_unavailable:" ++ reason)
  | _ => (Healthy, lit "predicate_source_healthy")
  end.

(** The health report that follows an evaluation, given the last progress. *)
Definition health_progress (last : option JobProgress) (e : PredicateEvaluation)
    : Fallible JobProgress :=
  cursor ← match last with
           | None => Ok 1%N
           | Some p => if (progress_cursor_of p + 1 <=? u64_max)%N
                       then Ok (progress_cursor_of p + 1)%N
                       else Err (InvalidInput "predicate health cursor exhausted u64")
           end;
  JobProgress_health cursor (health_of e).1 (health_of e).2.

Definition evaluate_predicate (id : JobId) (w : AttemptWriteAuthority) (watch : PredicateWatch)
    (o : PredicateObservation) (observed_at_ms : N) : JobService PredicateEvaluationReceipt :=
  current ⇐ written id w;
  evaluation ⇐ lift (evaluate_for watch o current);
  notification ⇐ match evaluation_notification evaluation with
                 | Some n => r ⇐ emit_notification id w observed_at_ms n; ret (Some r)
                 | None => ret None
                 end;
  snap ⇐ match evaluation_checkpoint evaluation with
         | Some c =>
             r ⇐ lift (encoded_checkpoint c);
             record_checkpoint id w r observed_at_ms
         | None =>
             found ⇐ get id;
             match found with Some snap => ret snap | None => fault (NotFound id) end
         end;
  p ⇐ lift (health_progress (snap_progress snap) evaluation);
  snap ⇐ report_progress id w p observed_at_ms;
  ret (mkEvaluationReceipt evaluation notification snap).

Definition predicate_delivery_applied (id : JobId) (identity : PredicateDeliveryIdentity)
    : JobService bool :=
  receipt ⇐ call (GetDeliveryReceipt id identity);
  ret (match receipt with Some _ => true | None => false end).

(** The steps of one bundle: an authority, and the row it has made so far. *)
Abbreviation Bundle := (DetachedJobMachineState * StoredJob)%type.

Definition bundle_notification (id : JobId) (w : AttemptWriteAuthority) (observed_at_ms : N)
    (e : PredicateEvaluation) (b : Bundle)
    : Fallible (Bundle * option (NotificationId * N * bool)) :=
  match evaluation_notification e with
  | None => Ok (b, None)
  | Some n =>
      '(authority, replacement, es) ←
        apply_predicate_bundle_step id (notification_input id w observed_at_ms n) b.1 b.2;
      replacement ← project_notification replacement es n;
      disposition ← notification_disposition es;
      Ok (authority, replacement, Some disposition)
  end.

Definition bundle_checkpoint (id : JobId) (w : AttemptWriteAuthority) (observed_at_ms : N)
    (e : PredicateEvaluation) (b : Bundle) : Fallible Bundle :=
  match evaluation_checkpoint e with
  | None => Ok b
  | Some c =>
      r ← encoded_checkpoint c;
      '(authority, replacement, es) ← apply_predicate_bundle_step id
         (I_RecordCheckpoint (write_attempt_id w) (write_fence w) r observed_at_ms) b.1 b.2;
      if es != [E_CheckpointAccepted r]
      then Err (StoreFailure "predicate checkpoint step emitted an unexpected effect set")
      else Ok (authority, replacement)
  end.

Definition bundle_progress (id : JobId) (w : AttemptWriteAuthority) (observed_at_ms : N)
    (e : PredicateEvaluation) (b : Bundle) : Fallible StoredJob :=
  p ← health_progress (progress b.2) e;
  '(_, replacement, es) ← apply_predicate_bundle_step id
     (I_ReportProgress (write_attempt_id w) (write_fence w) (progress_cursor_of p) observed_at_ms)
     b.1 b.2;
  if es != [E_ProgressAccepted (progress_cursor_of p)]
  then Err (StoreFailure "predicate progress step emitted an unexpected effect set")
  else Ok (replacement <| progress := Some p |>).

(** The replacement and the ledger entry one evaluation would commit. *)
Definition predicate_bundle (id : JobId) (w : AttemptWriteAuthority)
    (identity : PredicateDeliveryIdentity) (watch : PredicateWatch) (o : PredicateObservation)
    (observed_at_ms : N) (current : StoredJob) : Fallible (StoredJob * PredicateDeliveryCommit) :=
  _ ← ensure_current_writer id current w;
  evaluation ← evaluate_for watch o current;
  authority ← recovered id (machine_state current);
  '(b, notified) ← bundle_notification id w observed_at_ms evaluation (authority, current);
  b ← bundle_checkpoint id w observed_at_ms evaluation b;
  replacement ← bundle_progress id w observed_at_ms evaluation b;
  Ok (replacement,
      mkDeliveryCommit identity evaluation
        ((λ d : NotificationId * N * bool, mkDispositionReceipt d.1.1 d.1.2 d.2) <$> notified)).

Definition announces (c : PredicateDeliveryCommit) : bool :=
  match commit_notification c with
  | Some d => negb (disposition_deduplicated d)
  | None => false
  end.

Definition delivered (c : PredicateDeliveryCommit) (outcome : PredicateDeliveryCommitOutcome)
    : JobService PredicateDeliveryOutcome :=
  match outcome with
  | Committed j receipt =>
      _ ⇐ (if announces c then call RecordCommit else ret tt);
      snap ⇐ lift (job_snapshot j);
      ret (Applied receipt snap)
  | CommitDeduplicated j receipt =>
      snap ⇐ lift (job_snapshot j);
      ret (Deduplicated receipt snap)
  end.

Fixpoint evaluate_idempotent_loop (budget : nat) (id : JobId) (w : AttemptWriteAuthority)
    (identity : PredicateDeliveryIdentity) (watch : PredicateWatch) (o : PredicateObservation)
    (observed_at_ms : N) : JobService PredicateDeliveryOutcome :=
  prior ⇐ call (GetDeliveryReceipt id identity);
  match prior with
  | Some receipt =>
      current ⇐ required id;
      snap ⇐ lift (job_snapshot current);
      ret (Deduplicated receipt snap)
  | None =>
      current ⇐ required id;
      '(replacement, c) ⇐ lift (predicate_bundle id w identity watch o observed_at_ms current);
      Call (CommitDelivery (revision replacement) replacement c) (λ answer,
        match answer, budget with
        | Ok outcome, _ => delivered c outcome
        | Err (StaleRevision _ _ _), S budget =>
            evaluate_idempotent_loop budget id w identity watch o observed_at_ms
        | Err e, _ => fault e
        | Panic, _ => lift Panic
        | OutOfFuel, _ => lift OutOfFuel
        end)
  end.

Definition evaluate_predicate_idempotent (id : JobId) (w : AttemptWriteAuthority)
    (identity : PredicateDeliveryIdentity) (watch : PredicateWatch) (o : PredicateObservation)
    (observed_at_ms : N) : JobService PredicateDeliveryOutcome :=
  evaluate_idempotent_loop PREDICATE_EVALUATION_CONFLICT_BUDGET id w identity watch o
    observed_at_ms.
End Service.
