(* ===== verification/JobRows.v ===== *)
(** * JobRows: stored rows are runs of the authority

    A stored job is a projection of an execution of the job authority: its
    outbox lists the deliveries the execution committed, in order, each marked
    as the authority has it acknowledged, and its terminal result is the one
    delivery that ends the job ([JobRow]).  The store's own validation accepts
    every such row.  Every replacement the service proposes for a row it has
    read extends the execution the row projects, and keeps its identity
    ([RowMove]): one lemma per projection of [JobService]; [replacement_moves]
    and [bundle_moves] are what the compare-and-swap and the predicate-delivery
    commit rely on. *)

From stdpp Require Import gmap.
From S2P Require Export JobDeliveries JobService.

(** ** Vocabulary of the statements *)

(** The delivery an outbox entry carries, with its number. *)
Definition entry_delivery (e : JobOutboxEntry) : N * Delivery :=
  (entry_sequence e,
   match entry_payload e with
   | Terminal r => Ended (entry_job_id e) (result_kind r)
   | Notification n => Notified (notification_id n) (notification_key n) (runtime_delivery_id e)
   end).

Definition entry_result (e : JobOutboxEntry) : option JobTerminalResult :=
  match entry_payload e with Terminal r => Some r | Notification _ => None end.

Definition acknowledged_in (s : Job) (d : Delivery) : bool :=
  match d with
  | Notified id _ _ => bool_decide (id ∈ notification_applied s)
  | Ended _ _ => terminal_delivery_applied s
  end.

(** An entry of the job [id], as the authority's state [s] has it. *)
Record EntryOf (id : JobId) (s : Job) (e : JobOutboxEntry) : Prop := {
  entry_owned : entry_job_id e = id;
  entry_named : entry_delivery_id e = delivery_name (entry_delivery e).2;
  entry_acknowledged : entry_applied e = acknowledged_in s (entry_delivery e).2;
  entry_addressed : NoDup (subscription_id <$> entry_targets e);
}.

Record Projected (c : list (N * Delivery)) (j : StoredJob) : Prop := {
  projected_id : job_id (machine_state j) = stored_id j;
  projected_class : restart_class (machine_state j) = spec_restart_class (spec j);
  projected_progress : progress_projected (progress j) (progress_cursor (machine_state j)) = true;
  projected_subscriptions : NoDup (subscription_id <$> subscriptions j);
  projected_outbox : entry_delivery <$> outbox j = c;
  projected_entries : Forall (EntryOf (stored_id j) (machine_state j)) (outbox j);
  projected_result : omap entry_result (outbox j) = option_list (terminal_result j);
}.

(** The texts of an attempt are the ones identifier types hold. *)
Record CanonicalTexts (s : Job) : Prop := {
  canonical_attempt a : current_attempt_id s = Some a → canonical a;
  canonical_checkpoint r : checkpoint_ref s = Some r → canonical r;
  canonical_handle h : runner_handle s = Some h → canonical h;
}.

Section Rows.
Context {BP : BuildProfile}.

Record JobRow (l : JobLog) (j : StoredJob) : Prop := {
  row_execution : Execution init l (machine_state j);
  row_projected : Projected (committed l) j;
  row_texts : CanonicalTexts (machine_state j);
  row_submitted : l ≠ [];
}.
End Rows.

(** ** Lists of entries *)

Lemma check_each_Forall {A} (f : A → Fallible unit) xs :
  Forall (λ x, f x = Ok tt) xs → check_each f xs = Ok tt.
Proof. induction 1 as [|x xs Hx _ IH]; [done|]. cbn. by rewrite Hx. Qed.

Lemma check_each_Ok {A} (f : A → Fallible unit) xs u :
  check_each f xs = Ok u → Forall (λ x, f x = Ok tt) xs.
Proof.
  induction xs as [|x xs IH]; cbn; [constructor|].
  intros ([] & Hx & ?%IH)%Outcome_bind_Ok. by constructor.
Qed.

Lemma distinct_subscriptions_NoDup seen subs :
  distinct_subscriptions seen subs = true ↔
  NoDup (subscription_id <$> subs) ∧ ∀ s, s ∈ subs → subscription_id s ∉ seen.
Proof.
  revert seen. induction subs as [|s subs IH]; intros seen; cbn.
  { split; [|done]. intros _. split; [constructor|]. by intros ? ?%elem_of_nil. }
  rewrite andb_true_iff, bool_decide_eq_true, IH, NoDup_cons, list_elem_of_fmap.
  setoid_rewrite elem_of_cons. set_solver.
Qed.

Lemma distinct_subscriptions_empty subs :
  distinct_subscriptions ∅ subs = true ↔ NoDup (subscription_id <$> subs).
Proof. rewrite distinct_subscriptions_NoDup. set_solver. Qed.

Lemma check_outbox_Ok id last seen es :
  Forall (λ e, entry_job_id e = id ∧ NoDup (subscription_id <$> entry_targets e)) es →
  Forall (λ n, (1 ≤ n ≤ last)%N) (entry_sequence <$> es) →
  NoDup (entry_sequence <$> es) → (∀ n, n ∈ entry_sequence <$> es → n ∉ seen) →
  check_outbox id last seen es = Ok tt.
Proof.
  revert seen. induction es as [|e es IH]; intros seen; [done|].
  cbn [fmap list_fmap]. intros [[Hid Ht] Hes]%Forall_cons [Hn Hns]%Forall_cons
    [He Hnd]%NoDup_cons Hseen. cbn [check_outbox].
  rewrite (bool_decide_true (entry_job_id e = id)), (bool_decide_true (_ ∉ seen)) by (done || apply Hseen; by left).
  rewrite (proj2 (N.eqb_neq _ _)), (proj2 (N.leb_le _ _)) by lia.
  rewrite (proj2 (distinct_subscriptions_empty _)) by done.
  cbn -[check_outbox]. apply IH; try done. intros n Hin. specialize (Hseen n). set_solver.
Qed.

(** ** The store's validation accepts a projected row *)

Section Validation.
Context {BP : BuildProfile} {CA : CheckedArithmetic}.
Implicit Types s : Job.
Implicit Types j : StoredJob.

Lemma row_shape l j : JobRow l j → Shape (machine_state j).
Proof. intros [HE _ _ _]. by eapply job_execution_shape. Qed.

Lemma row_recorded l j : JobRow l j → Recorded (committed l) (machine_state j).
Proof. intros [HE _ _ _]. by apply init_execution_recorded. Qed.

Lemma row_recovers l j : JobRow l j → recover_from_state (machine_state j) = inl (machine_state j).
Proof. intros HS%row_shape. by apply recover_ok, job_shape_invariants. Qed.

Lemma row_numbers l j :
  JobRow l j → entry_sequence <$> outbox j = numbers_to (delivery_sequence (machine_state j)).
Proof.
  intros HR. rewrite <-(recorded_numbers _ _ (row_recorded _ _ HR)).
  rewrite <-(projected_outbox _ _ (row_projected _ _ HR)). by rewrite <-list_fmap_compose.
Qed.

Lemma row_entry l j e :
  JobRow l j → e ∈ outbox j →
  entry_delivery e ∈ committed l ∧ EntryOf (stored_id j) (machine_state j) e.
Proof.
  intros [_ [_ _ _ _ <- He _] _ _] Hin. rewrite Forall_forall in He.
  split; [by apply list_elem_of_fmap_2|by apply He].
Qed.

Lemma as_notification_ids (es : list JobOutboxEntry) :
  length (omap as_notification es) = length (omap notified_id (entry_delivery <$> es)).
Proof.
  induction es as [|e es IH]; [done|]. cbn. unfold as_notification at 1, notified_id at 1. cbn.
  destruct (entry_payload e); cbn; by rewrite IH.
Qed.

Lemma as_terminal_results (es : list JobOutboxEntry) :
  (omap as_terminal es).*2 = omap entry_result es.
Proof.
  induction es as [|e es IH]; [done|]. cbn. unfold as_terminal at 1, entry_result at 1.
  destruct (entry_payload e); cbn; by rewrite IH.
Qed.

Lemma row_notification_projected l j e n :
  JobRow l j → e ∈ outbox j → entry_payload e = Notification n →
  notification_projected (machine_state j) (e, n) = true.
Proof.
  intros HR Hin Hp. destruct (row_entry _ _ _ HR Hin) as [Hc [Ho Hn Ha _]].
  unfold entry_delivery in *. rewrite Hp in Hc, Hn, Ha. cbn in Hn, Ha.
  apply (recorded_notified _ _ (row_recorded _ _ HR)) in Hc as (Hk & Hd & Hs).
  destruct (shape_tables _ (row_shape _ _ HR)) as [Tk Td Ts Tz Tb Tbi Tn Tap Tr Tsi Tc].
  unfold notification_projected. rewrite Hn, Ha, Hk, Hd, Hs.
  rewrite (bool_decide_true (notification_id n ∈ notification_ids _)) by (by eapply Tb).
  rewrite (bool_decide_true (notification_key n ∈ _))
    by (rewrite <-Tk; by eapply elem_of_dom_2).
  by rewrite !bool_decide_true by done.
Qed.

(** The entry that ends the job. *)
Lemma row_terminal_entry l j e r :
  JobRow l j → (e, r) ∈ omap as_terminal (outbox j) →
  terminal_kind (machine_state j) = Some (result_kind r) ∧
  entry_sequence e = delivery_sequence (machine_state j) ∧ entry_delivery_id e = lit "terminal" ∧
  entry_applied e = terminal_delivery_applied (machine_state j).
Proof.
  intros HR (e' & Hin & He)%list_elem_of_omap. unfold as_terminal in He.
  destruct (entry_payload e') as [r'|] eqn:Hp; [|done]. simplify_eq.
  destruct (row_entry _ _ _ HR Hin) as [Hc [Ho Hn Ha _]].
  unfold entry_delivery in *. rewrite Hp in Hc, Hn, Ha. cbn in Hn, Ha.
  apply (recorded_ended _ _ (row_recorded _ _ HR)) in Hc as (Hk & Hs & _). done.
Qed.

(** A job has a terminal result exactly when it has ended. *)
Lemma row_result l j :
  JobRow l j → terminal_kind (machine_state j) = result_kind <$> terminal_result j.
Proof.
  intros HR. pose proof (projected_result _ _ (row_projected _ _ HR)) as Hres.
  rewrite <-as_terminal_results in Hres.
  destruct (terminal_result j) as [r|]; cbn in Hres |- *.
  - destruct (omap as_terminal (outbox j)) as [|[e r'] []] eqn:Ho; try done. cbn in Hres.
    simplify_eq. destruct (row_terminal_entry l j e r HR) as [Hk _]; [|done].
    rewrite Ho. by left.
  - destruct (terminal_kind (machine_state j)) as [k|] eqn:Hk; [|done]. exfalso.
    assert (Hin : (delivery_sequence (machine_state j), Ended (job_id (machine_state j)) k)
              ∈ committed l) by (by apply (recorded_ended _ _ (row_recorded _ _ HR))).
    rewrite <-(projected_outbox _ _ (row_projected _ _ HR)) in Hin.
    apply list_elem_of_fmap in Hin as (e & He & Hin). unfold entry_delivery in He.
    destruct (entry_payload e) as [r|] eqn:Hp; [|done].
    assert (Hx : (e, r) ∈ omap as_terminal (outbox j))
      by (apply list_elem_of_omap; exists e; split; [done|]; unfold as_terminal; by rewrite Hp).
    by destruct (omap as_terminal (outbox j)); [apply elem_of_nil in Hx|].
Qed.

Lemma row_terminal_projected l j :
  JobRow l j →
  terminal_projected (machine_state j) (terminal_result j) (omap as_terminal (outbox j)) = true.
Proof.
  intros HR. pose proof (row_result _ _ HR) as Hk.
  pose proof (projected_result _ _ (row_projected _ _ HR)) as Hres.
  rewrite <-as_terminal_results in Hres. unfold terminal_projected. rewrite Hk.
  destruct (terminal_result j) as [r|]; cbn in Hres |- *.
  - destruct (omap as_terminal (outbox j)) as [|[e r'] []] eqn:Ho; try done. cbn in Hres.
    simplify_eq. destruct (row_terminal_entry l j e r HR) as (_ & Hs & Hn & Ha).
    { rewrite Ho. by left. }
    rewrite Hs, Hn, Ha, (shape_number _ (row_shape _ _ HR)).
    unfold terminal_number. rewrite Hk. cbn. rewrite N.eqb_refl. by rewrite !bool_decide_true.
  - by destruct (omap as_terminal (outbox j)).
Qed.

(** The store refuses no row that projects an execution. *)
Lemma row_valid l j : JobRow l j → validate_stored_job j = Ok tt.
Proof.
  intros HR. pose proof HR as [_ [Hid Hcl Hpr Hsub Hout Hent Hres] _ _].
  pose proof (row_shape _ _ HR) as HS. pose proof (row_recorded _ _ HR) as Hrec.
  pose proof (row_numbers _ _ HR) as Hnum.
  unfold validate_stored_job, require.
  rewrite (bool_decide_true _ Hid), (bool_decide_true _ Hcl), (row_recovers _ _ HR), Hpr.
  rewrite (proj2 (distinct_subscriptions_empty _) Hsub). cbn [mbind Outcome_bind].
  rewrite check_outbox_Ok; cbn [mbind Outcome_bind].
  2:{ eapply Forall_impl; [exact Hent|]. by intros e []. }
  2:{ rewrite Hnum. apply Forall_forall. by intros n ?%numbers_to_bounded. }
  2:{ rewrite Hnum. apply numbers_to_NoDup. }
  2:{ set_solver. }
  rewrite (proj2 (N.eqb_eq _ _)); cbn [mbind Outcome_bind].
  2:{ rewrite <-(length_fmap entry_sequence), Hnum, numbers_to_length. lia. }
  rewrite (proj2 (Nat.eqb_eq _ _)); cbn [mbind Outcome_bind].
  2:{ rewrite as_notification_ids, Hout, <-(recorded_ids _ _ Hrec HS).
      rewrite size_list_to_set; [done|]. by destruct (recorded_notified_once _ _ Hrec HS). }
  rewrite check_each_Forall; cbn [mbind Outcome_bind].
  - by rewrite (row_terminal_projected _ _ HR).
  - apply Forall_forall. intros [e n] (e' & Hin & He)%list_elem_of_omap.
    unfold as_notification in He. destruct (entry_payload e') eqn:Hp; [done|]. simplify_eq.
    by erewrite row_notification_projected.
Qed.
End Validation.

Section Moves.
Context {BP : BuildProfile} {CA : CheckedArithmetic}.
Implicit Types s : Job.
Implicit Types j : StoredJob.
Implicit Types i : DetachedJobInput.
Implicit Types es : list DetachedJobEffect.

(** ** Moves of rows *)

(** [j'] continues the execution the row [j] projects. *)
Record Continues (l : JobLog) (j j' : StoredJob) : Prop := {
  continues_id : stored_id j' = stored_id j;
  continues_spec : spec j' = spec j;
  continues_revision : revision j' = revision j;
  continues_row : ∃ l', JobRow (l ++ l') j';
}.

Definition RowMove (j j' : StoredJob) : Prop := ∀ l, JobRow l j → Continues l j j'.

Lemma row_move_refl j : RowMove j j.
Proof. intros l ?. split; try done. exists []. by rewrite app_nil_r. Qed.

Lemma row_move_trans j1 j2 j3 : RowMove j1 j2 → RowMove j2 j3 → RowMove j1 j3.
Proof.
  intros H1 H2 l [? ? ? (l1 & [? ? ? (l2 & ?)]%H2)]%H1. split; try congruence.
  exists (l1 ++ l2). by rewrite app_assoc.
Qed.

(** The texts an input would store. *)
Definition canonical_input i : Prop :=
  match i with
  | I_ClaimAttempt a _ _ _ h => canonical a ∧ canonical h
  | I_RecordCheckpoint _ _ r _ => canonical r
  | _ => True
  end.

Lemma move_texts i s s' es :
  Move s i s' es → canonical_input i → CanonicalTexts s → CanonicalTexts s'.
Proof.
  intros HM Hi [Ha Hr Hh].
  destruct HM; try (split; cbn; assumption); cbn in Hi.
  - destruct Hi. split; cbn; [by intros ? [= <-]|done|by intros ? [= <-]].
  - by subst s'.
  - split; cbn; [done|by intros ? [= <-]|done].
Qed.

Lemma machine_apply_Ok id i s s' es :
  machine_apply id i s = Ok (s', es) →
  Move s i s' es ∧ ∃ r, effects r = es ∧ apply i s = Returned s' (inl r).
Proof.
  unfold machine_apply. destruct (apply i s) as [s1 [r|e]|] eqn:Ha; [|done|done].
  intros [= <- <-]. split; [|by exists r].
  apply apply_accepted in Ha as (t & HF & _). by eapply fires_move.
Qed.

Lemma row_extends l j i id s es j' :
  JobRow l j → machine_apply id i (machine_state j) = Ok (s, es) → canonical_input i →
  machine_state j' = s → Projected (committed l ++ omap delivery_of es) j' →
  ∃ r, effects r = es ∧ JobRow (l ++ [(i, r)]) j'.
Proof.
  intros [HE HP HT Hl] (HM & r & Hr & Ha)%machine_apply_Ok Hi Hs HP'. exists r.
  split; [done|]. split.
  - eapply Execution_app; [exact HE|]. rewrite Hs. by eapply Execution_cons; [|constructor].
  - rewrite committed_app, committed_cons, Hr. cbn. by rewrite app_nil_r.
  - rewrite Hs. by eapply move_texts.
  - by destruct l.
Qed.

Lemma recovered_Ok id s s' : recovered id s = Ok s' → s' = s.
Proof.
  unfold recovered, recover_from_state. destruct (List.find _ _); [done|]. by intros [= ->].
Qed.

(** ** Projections *)

(** The projection of an accepted input onto any row that projects the
    execution so far. *)
Definition projects i (project : StoredJob → list DetachedJobEffect → Fallible StoredJob) : Prop :=
  ∀ l j s es j', JobRow l j → Move (machine_state j) i s es →
    project (j <| machine_state := s |>) es = Ok j' →
    stored_id j' = stored_id j ∧ spec j' = spec j ∧ revision j' = revision j ∧
    machine_state j' = s ∧ Projected (committed l ++ omap delivery_of es) j'.

Lemma projected_move j i id s es j' project :
  canonical_input i → projects i project →
  machine_apply id i (machine_state j) = Ok (s, es) →
  project (j <| machine_state := s |>) es = Ok j' → RowMove j j'.
Proof.
  intros Hi HP Ha Hj l HR.
  pose proof (proj1 (machine_apply_Ok _ _ _ _ _ Ha)) as HM.
  destruct (HP _ _ _ _ _ HR HM Hj) as (? & ? & ? & Hs & HPr). split; try done.
  destruct (row_extends l j i id s es j' HR Ha Hi Hs HPr) as (r & _ & ?). by eexists.
Qed.

(** The inputs that neither commit, acknowledge nor report anything. *)
Definition quiet_input i : bool :=
  match i with
  | I_ClaimAttempt _ _ _ _ _ | I_RenewLease _ _ _ _ | I_RecordCheckpoint _ _ _ _
  | I_WaitExternal _ _ _ | I_ResumeRunning _ _ _ | I_LeaseExpired _ _ _ | I_ScheduleRetry _ => true
  | _ => false
  end.

Definition same_projection s s' : Prop :=
  job_id s' = job_id s ∧ restart_class s' = restart_class s ∧
  progress_cursor s' = progress_cursor s ∧ notification_applied s' = notification_applied s ∧
  terminal_delivery_applied s' = terminal_delivery_applied s.

Lemma quiet_move i s s' es :
  Move s i s' es → quiet_input i = true → same_projection s s' ∧ omap delivery_of es = [].
Proof.
  destruct 1; try done. by destruct i; try done; cbn in H.
Qed.

Lemma acknowledged_same s s' d :
  notification_applied s' = notification_applied s →
  terminal_delivery_applied s' = terminal_delivery_applied s →
  acknowledged_in s' d = acknowledged_in s d.
Proof. intros E1 E2. destruct d; cbn; by rewrite ?E1, ?E2. Qed.

Lemma entries_same id s s' (es : list JobOutboxEntry) :
  notification_applied s' = notification_applied s →
  terminal_delivery_applied s' = terminal_delivery_applied s →
  Forall (EntryOf id s) es → Forall (EntryOf id s') es.
Proof.
  intros E1 E2 HF. eapply Forall_impl; [exact HF|]. intros e [? ? Ha ?]. split; try done.
  rewrite Ha. symmetry. by apply acknowledged_same.
Qed.

Lemma projected_same c j s' :
  Projected c j → same_projection (machine_state j) s' → Projected c (j <| machine_state := s' |>).
Proof.
  intros [] (E1 & E2 & E3 & E4 & E5). split; cbn; try congruence. by apply (entries_same _ (machine_state j)).
Qed.

Lemma no_projection_projects i : quiet_input i = true → projects i no_projection.
Proof.
  intros Hq l j s es j' HR HM [= <-]. destruct (quiet_move _ _ _ _ HM Hq) as [Hs ->].
  rewrite app_nil_r. split_and!; try done. apply projected_same; [apply HR|done].
Qed.

Lemma report_projects a f p now :
  projects (I_ReportProgress a f (progress_cursor_of p) now) (λ j _, Ok (j <| progress := Some p |>)).
Proof.
  intros l j s es j' [_ [] _ _] HM [= <-]. inversion HM; simplify_eq/=.
  rewrite app_nil_r. split_and!; try done. split; cbn; try done.
  - apply N.eqb_refl.
  - by apply (entries_same _ (machine_state j)).
Qed.

(** *** Notifications *)

Lemma projected_push c s j e :
  Projected c j → same_projection (machine_state j) s → EntryOf (stored_id j) s e →
  entry_result e = None →
  Projected (c ++ [entry_delivery e]) (push_entry e (j <| machine_state := s |>)).
Proof.
  intros HP Hs He Hr. pose proof (projected_same _ _ _ HP Hs) as [P1 P2 P3 P4 P5 P6 P7].
  split; cbn in *; try done.
  - by rewrite fmap_app, P5.
  - apply Forall_app. split; [done|]. by apply Forall_singleton.
  - rewrite omap_app, P7. cbn. by rewrite Hr, app_nil_r.
Qed.

(** A notification that is not recorded yet is not acknowledged. *)
Lemma fresh_unapplied s id : Shape s → id ∉ notification_ids s → id ∉ notification_applied s.
Proof. intros HS Hid Hin. apply Hid. by apply (tables_applied _ _ _ _ _ _ _ (shape_tables _ HS)). Qed.

Lemma single_Ok {A} (xs : list A) e1 e2 x : single xs e1 e2 = Ok x → xs = [x].
Proof. destruct xs as [|y [|]]; cbn; [done|by intros [= ->]|done]. Qed.

Lemma notification_projects a f now n id :
  projects (I_EmitNotification a f (notification_id n) (notification_key n) id now)
    (λ j es, project_notification j es n).
Proof.
  intros l j s es j' HR HM Hj. pose proof (row_shape _ _ HR) as HS. destruct HR as [_ HP _ _].
  unfold project_notification in Hj. apply Outcome_bind_Ok in Hj as (((((?&?)&?)&?)&?) & Hs%single_Ok & Hj).
  inversion HM; simplify_eq/=.
  - destruct (bool_decide (_ = _)) eqn:E1 in Hj; [|done]. cbn in Hj.
    destruct (bool_decide (notification_id n = _)) eqn:E2 in Hj; [|done]. cbn in Hj.
    destruct (bool_decide (_ = notification_delivery_id _ _)) eqn:E3 in Hj; [|done]. cbn in Hj.
    destruct (existsb _ _); [done|]. simplify_eq. prop_guards. subst.
    split_and!; try done.
    match goal with |- Projected _ (push_entry ?e (_ <| machine_state := ?s |>)) =>
      apply (projected_push _ s j e) in HP; [exact HP|done| |done] end.
    split; try done.
    + cbn. rewrite bool_decide_false; [done|]. by apply fresh_unapplied.
    + by destruct HP.
  - rewrite app_nil_r. repeat case_match; try done. apply Outcome_bind_Ok in Hj as (e & _ & Hj).
    repeat case_match; try done. simplify_eq. split_and!; try done.
    by destruct j.
Qed.

(** *** Outcomes *)

Lemma move_terminal i s s' es t :
  Move s i s' es → omap terminal_commitment es = [t] →
  ∃ k n, i ≠ I_Submit (job_id s) (restart_class s) ∧ t = (job_id s, k, n) ∧
    omap delivery_of es = [(n, Ended (job_id s) k)] ∧ same_projection s s'.
Proof.
  destruct 1; cbn; try done. intros [= <-]. exists k, n. split_and!; try done.
  intros ->. by destruct (lifecycle_phase s).
Qed.

Lemma optional_terminal_projected l j i s es result j' b :
  JobRow l j → Move (machine_state j) i s es →
  project_optional_terminal (j <| machine_state := s |>) es result = Ok (j', b) →
  (omap terminal_commitment es = [] ∧ b = false ∧ j' = j <| machine_state := s |>) ∨
  (stored_id j' = stored_id j ∧ spec j' = spec j ∧ revision j' = revision j ∧
   machine_state j' = s ∧ Projected (committed l ++ omap delivery_of es) j').
Proof.
  intros HR HM. pose proof (row_shape _ _ HR) as HS. pose proof (row_result _ _ HR) as Hk.
  destruct HR as [HE HP _ _].
  unfold project_optional_terminal.
  destruct (omap terminal_commitment es) as [|[[em k] n] [|? ?]] eqn:Ht; [|..|by intros].
  { intros [= <- <-]. by left. }
  destruct (move_terminal _ _ _ _ _ HM Ht) as (k' & n' & _ & [= -> <- <-] & -> & Hsame).
  destruct (bool_decide (k = _)) eqn:E1; [|done]. cbn -[existsb].
  destruct (bool_decide (job_id _ = _)) eqn:E2; [|done]. cbn -[existsb].
  destruct (_ || _) eqn:E3; [done|]. intros [= <- <-]. right. prop_guards. subst.
  pose proof (projected_same _ _ _ HP Hsame) as [P1 P2 P3 P4 P5 P6 P7]. cbn in *.
  split_and!; try done. split; cbn; try done.
  - rewrite fmap_app, P5. cbn. by rewrite E2.
  - apply Forall_app. split; [done|]. apply Forall_singleton. split; try done. cbn.
    destruct Hsame as (_ & _ & _ & _ & ->). symmetry. apply (shape_applied _ HS).
    by rewrite Hk, H.
  - rewrite omap_app, P7, H. done.
Qed.

(** The moves that commit no outcome though the service asks for one: a
    request for cancellation that an attempt has yet to answer. *)
Lemma terminal_projects i result :
  projects i (project_terminal result).
Proof.
  intros l j s es j' HR HM Hj. unfold project_terminal in Hj.
  apply Outcome_bind_Ok in Hj as ([j1 b] & Hp & Hj). cbn in Hj.
  destruct b; [|done]. simplify_eq.
  by destruct (optional_terminal_projected _ _ _ _ _ _ _ _ HR HM Hp) as [(_ & ? & _)|?].
Qed.

Lemma cancel_projects : projects I_RequestCancel project_cancel.
Proof.
  intros l j s es j' HR HM Hj. unfold project_cancel in Hj.
  apply Outcome_bind_Ok in Hj as ([j1 b] & Hp & [= <-]).
  destruct (optional_terminal_projected _ _ _ _ _ _ _ _ HR HM Hp) as [(Ht & _ & ->)|?]; [|done].
  destruct HR as [_ HP _ _].
  inversion HM; simplify_eq/=; rewrite app_nil_r; split_and!; try done;
    by apply projected_same.
Qed.

(** *** Acknowledgements *)

Definition acknowledge_entry (n : N) (e : JobOutboxEntry) : JobOutboxEntry :=
  if (entry_sequence e =? n)%N then e <| entry_applied := true |> else e.

Lemma update_first_numbered n (es : list JobOutboxEntry) :
  NoDup (entry_sequence <$> es) →
  update_first (λ e, (entry_sequence e =? n)%N) (λ e, e <| entry_applied := true |>) es
  = acknowledge_entry n <$> es.
Proof.
  induction es as [|e es IH]; cbn; [done|]. intros [He Hes]%NoDup_cons.
  unfold acknowledge_entry at 1. destruct (N.eqb_spec (entry_sequence e) n) as [<-|]; cbn.
  - f_equal. rewrite <-(list_fmap_id es) at 1. apply list_fmap_ext. intros k e' Hk.
    unfold acknowledge_entry. rewrite (proj2 (N.eqb_neq _ _)); [done|].
    intros Heq. apply He. rewrite <-Heq. apply list_elem_of_fmap_2. by eapply list_elem_of_lookup_2.
  - by rewrite IH.
Qed.

Lemma acknowledge_entry_delivery n e : entry_delivery (acknowledge_entry n e) = entry_delivery e.
Proof. unfold acknowledge_entry. by destruct (_ =? _)%N. Qed.

Lemma acknowledge_entry_result n e : entry_result (acknowledge_entry n e) = entry_result e.
Proof. unfold acknowledge_entry. by destruct (_ =? _)%N. Qed.

(** Acknowledging one delivery leaves the others as they were. *)
Lemma acknowledged_other c s n d n' d' :
  Recorded c s → Shape s → (n, d) ∈ c → (n', d') ∈ c → n ≠ n' →
  acknowledged_in (acknowledged d s) d' = acknowledged_in s d'.
Proof.
  intros HR HS Hd Hd' Hne. destruct d as [id key rt|jb k], d' as [id' key' rt'|jb' k']; cbn; try done.
  - apply bool_decide_ext. rewrite elem_of_union, elem_of_singleton. split; [|by right].
    intros [->|?]; [|done]. exfalso. apply Hne.
    by destruct (recorded_distinct _ _ _ _ _ _ _ _ _ _ HR HS Hd Hd') as [? _]; [left|].
  - apply (recorded_ended _ _ HR) in Hd as (_ & -> & _).
    by apply (recorded_ended _ _ HR) in Hd' as (_ & -> & _).
Qed.

Lemma acknowledged_self s d : acknowledged_in (acknowledged d s) d = true.
Proof. destruct d; cbn; [|done]. apply bool_decide_eq_true. set_solver. Qed.

(** The delivery with a given number is unique. *)
Lemma recorded_number c s n d d' : Recorded c s → (n, d) ∈ c → (n, d') ∈ c → d = d'.
Proof.
  intros HR Hd Hd'. assert (Hnd : NoDup c.*1)
    by (rewrite (recorded_numbers _ _ HR); apply numbers_to_NoDup).
  apply list_elem_of_lookup in Hd as [x Hx]. apply list_elem_of_lookup in Hd' as [y Hy].
  assert (x = y) as ->; [|by simplify_eq].
  eapply (NoDup_lookup c.*1); [done|..]; rewrite list_lookup_fmap; [by rewrite Hx|by rewrite Hy].
Qed.

Lemma acknowledgement_projects did n :
  projects (I_MarkDeliveryApplied did n) (project_acknowledgement did n).
Proof.
  intros l j s es j' HR HM Hj. pose proof (row_shape _ _ HR) as HS.
  pose proof (row_recorded _ _ HR) as Hrec. pose proof (row_numbers _ _ HR) as Hnum.
  assert (Hnd : NoDup (entry_sequence <$> outbox j)) by (rewrite Hnum; apply numbers_to_NoDup).
  pose proof HR as [_ HP _ _].
  destruct (move_acknowledges _ _ _ _ _ _ HM Hrec HS) as (d & Hd & Hname & -> & ->).
  unfold project_acknowledgement in Hj. destruct (negb _); [done|].
  apply Outcome_bind_Ok in Hj as (e & He%ok_or_Ok & Hj).
  apply List.find_some in He as [Hin%list_elem_of_In Hn]. cbn in Hin. apply N.eqb_eq in Hn.
  assert (j' = j <| machine_state := acknowledged d (machine_state j) |>
                 <| outbox := acknowledge_entry n <$> outbox j |>) as ->.
  { destruct (entry_applied e) eqn:Ea; simplify_eq.
    - unfold field_update. cbn. f_equal. symmetry. rewrite <-(list_fmap_id (outbox j)) at 2.
      apply list_fmap_ext. intros k e' Hk. unfold acknowledge_entry.
      destruct (N.eqb_spec (entry_sequence e') (entry_sequence e)) as [Heq|]; [|done].
      assert (e' = e) as ->; [|unfold field_update; cbn; rewrite <-Ea; by destruct e].
      apply list_elem_of_lookup in Hin as [k' Hk'].
      assert (k = k') as ->; [|by simplify_eq].
      eapply (NoDup_lookup (entry_sequence <$> outbox j)); [done|..];
        rewrite list_lookup_fmap; [by rewrite Hk|by rewrite Hk', Heq].
    - cbn. by rewrite update_first_numbered. }
  cbn. rewrite app_nil_r. destruct HP as [P1 P2 P3 P4 P5 P6 P7].
  split_and!; try done. split; cbn; try by destruct d.
  - rewrite <-list_fmap_compose, <-P5. apply list_fmap_ext.
    intros ? ? _. apply acknowledge_entry_delivery.
  - apply Forall_fmap, Forall_forall. intros e' He'. cbn.
    destruct (row_entry _ _ _ HR He') as [Hc' [Ho Hna Hap Hadd]].
    unfold acknowledge_entry. destruct (N.eqb_spec (entry_sequence e') n) as [Heq|Hne]; cbn.
    + assert ((entry_delivery e').2 = d) as Hd'.
      { eapply recorded_number; [done| |exact Hd]. rewrite <-Heq. exact Hc'. }
      split; [done|done| |done].
      change (true = acknowledged_in (acknowledged d (machine_state j)) (entry_delivery e').2).
      by rewrite Hd', acknowledged_self.
    + split; try done. rewrite Hap. symmetry.
      by apply (acknowledged_other _ _ n _ (entry_sequence e') _ Hrec HS).
  - rewrite <-P7. clear. induction (outbox j) as [|e' es' IH]; [done|]. cbn.
    by rewrite acknowledge_entry_result, IH.
Qed.

(** ** Replacements *)

Lemma replacement_moves j i project j' es :
  canonical_input i → projects i project →
  replacement_of j i project = Ok (j', es) → RowMove j j'.
Proof.
  intros Hi HP Hr. unfold replacement_of in Hr.
  apply Outcome_bind_Ok in Hr as (s0 & ->%recovered_Ok & Hr).
  apply Outcome_bind_Ok in Hr as ([s1 es1] & Ha & Hr).
  apply Outcome_bind_Ok in Hr as (j1 & Hp & [= -> ->]).
  by eapply projected_move.
Qed.

(** The other writes: a change of the subscriptions. *)
Lemma subscriptions_move j subs :
  (NoDup (subscription_id <$> subscriptions j) → NoDup (subscription_id <$> subs)) →
  RowMove j (j <| subscriptions := subs |>).
Proof.
  intros Hs l [HE [] HT Hl]. split; try done. exists []. rewrite app_nil_r.
  split; [done| |done..]. split; try done. by apply Hs.
Qed.

Lemma revised_row l j n : JobRow l j → JobRow l (j <| revision := n |>).
Proof. intros [HE [] HT Hl]. split; [done| |done..]. by split. Qed.

(** *** The bundle of a predicate evaluation *)

Context `{!NameUuid, !CheckpointCodec}.

Lemma bundle_step_Ok id i s j s' j' es :
  apply_predicate_bundle_step id i s j = Ok (s', j', es) →
  machine_apply id i s = Ok (s', es) ∧ j' = j <| machine_state := s' |>.
Proof.
  unfold apply_predicate_bundle_step. intros ([s1 es1] & Ha & [= <- <- <-])%Outcome_bind_Ok. done.
Qed.

Definition in_step (b : DetachedJobMachineState * StoredJob) : Prop := machine_state b.2 = b.1.

Lemma project_notification_state j es n j' :
  project_notification j es n = Ok j' → machine_state j' = machine_state j.
Proof.
  unfold project_notification. intros (((((? & ?) & ?) & ?) & sup) & _ & Hj)%Outcome_bind_Ok.
  destruct (negb _); [done|]. destruct sup.
  - apply Outcome_bind_Ok in Hj as (e & _ & Hj). repeat case_match; by simplify_eq.
  - repeat case_match; by simplify_eq/=.
Qed.

Lemma bundle_notification_moves id w now e b b' d :
  bundle_notification id w now e b = Ok (b', d) → in_step b → RowMove b.2 b'.2 ∧ in_step b'.
Proof.
  destruct b as [s j]. unfold bundle_notification, in_step. cbn. intros Hb <-.
  destruct (evaluation_notification e) as [n|]; [|simplify_eq; split; [apply row_move_refl|done]].
  apply Outcome_bind_Ok in Hb as ([[s1 j1] es] & (Ha & ->)%bundle_step_Ok & Hb).
  apply Outcome_bind_Ok in Hb as (j2 & Hp & Hb).
  apply Outcome_bind_Ok in Hb as (d' & _ & [= <- <-]). cbn. split.
  - eapply (projected_move j _ id s1 es j2 (λ j es, project_notification j es n));
      [|apply notification_projects|exact Ha|exact Hp]. done.
  - by apply project_notification_state in Hp.
Qed.

Lemma encoded_canonical c r : encoded_checkpoint c = Ok r → canonical r.
Proof.
  unfold encoded_checkpoint. intros (t & _ & Hr)%Outcome_bind_Ok. by eapply component_canonical.
Qed.

Lemma bundle_checkpoint_moves id w now e b b' :
  bundle_checkpoint id w now e b = Ok b' → in_step b → RowMove b.2 b'.2 ∧ in_step b'.
Proof.
  destruct b as [s j]. unfold bundle_checkpoint, in_step. cbn. intros Hb <-.
  destruct (evaluation_checkpoint e) as [c|]; [|simplify_eq; split; [apply row_move_refl|done]].
  apply Outcome_bind_Ok in Hb as (r & Hr%encoded_canonical & Hb).
  apply Outcome_bind_Ok in Hb as ([[s1 j1] es] & (Ha & ->)%bundle_step_Ok & Hb).
  destruct (negb _) in Hb; [done|]. simplify_eq. cbn. split; [|done].
  refine (projected_move j _ id s1 es _ no_projection _ _ Ha _); [done| |done].
  by apply no_projection_projects.
Qed.

Lemma bundle_progress_moves id w now e b j' :
  bundle_progress id w now e b = Ok j' → in_step b → RowMove b.2 j'.
Proof.
  destruct b as [s j]. unfold bundle_progress, in_step. cbn. intros Hb <-.
  apply Outcome_bind_Ok in Hb as (p & _ & Hb).
  apply Outcome_bind_Ok in Hb as ([[s1 j1] es] & (Ha & ->)%bundle_step_Ok & Hb).
  destruct (negb _) in Hb; [done|]. simplify_eq.
  refine (projected_move j _ id s1 es _ (λ j _, Ok (j <| progress := Some p |>)) _ _ Ha _);
    [done|by apply report_projects|done].
Qed.

Lemma bundle_moves id w identity watch o now j j' c :
  predicate_bundle id w identity watch o now j = Ok (j', c) →
  RowMove j j' ∧ commit_identity c = identity.
Proof.
  unfold predicate_bundle. intros H1.
  apply Outcome_bind_Ok in H1 as (? & _ & H1). apply Outcome_bind_Ok in H1 as (e & _ & H1).
  apply Outcome_bind_Ok in H1 as (s & ->%recovered_Ok & H1).
  apply Outcome_bind_Ok in H1 as ([b d] & [Hb Hi]%bundle_notification_moves & H1); [|done].
  apply Outcome_bind_Ok in H1 as (b' & [Hb' Hi']%bundle_checkpoint_moves & H1); [|done].
  apply Outcome_bind_Ok in H1 as (j1 & Hj%bundle_progress_moves & [= <- <-]); [|done].
  split; [|done]. cbn in Hb. by eauto using row_move_trans.
Qed.
End Moves.
