(* ===== verification/JobStoreFacts.v ===== *)
(** * JobStoreFacts: the state of the job store

    The rows of [JobStore] lie under their own identifiers and pass the
    store's validation, the submission index is the inverse of the rows, and
    every receipt of the ledger belongs to a row ([Consistent]); every call
    keeps this, and a consistent store survives its own snapshot. *)

From stdpp Require Import gmap sorting.
From S2P Require Export JobRows.

(** ** Vocabulary of the statements *)

Section Consistent.
Context {BP : BuildProfile}.

Record Consistent (st : MemoryJobs) : Prop := {
  consistent_id id j : jobs st !! id = Some j → stored_id j = id;
  consistent_valid id j : jobs st !! id = Some j → validate_stored_job j = Ok tt;
  consistent_indexed id j : jobs st !! id = Some j → submission_index st !! index_key j = Some id;
  consistent_index k id :
    submission_index st !! k = Some id → ∃ j, jobs st !! id = Some j ∧ index_key j = k;
  consistent_ledger id key r :
    predicate_deliveries st !! (id, key) = Some r →
    ∃ j, jobs st !! id = Some j ∧ validate_predicate_delivery_receipt j key r = Ok tt;
}.

Implicit Types st : MemoryJobs.
Implicit Types j : StoredJob.

Lemma memory_new_consistent : Consistent memory_new.
Proof. split; cbn; intros; by rewrite lookup_empty in *. Qed.

(** ** Entries in order *)

Lemma elem_of_entries {K A} `{Countable K} (f : K → K → comparison) (m : gmap K A) k a :
  (k, a) ∈ entries f m ↔ m !! k = Some a.
Proof.
  unfold entries. rewrite merge_sort_Permutation. apply elem_of_map_to_list.
Qed.

Lemma elem_of_job_values (m : gmap JobId StoredJob) j :
  j ∈ job_values m ↔ ∃ id, m !! id = Some j.
Proof.
  unfold job_values. rewrite list_elem_of_fmap. split.
  - intros ([id j'] & -> & ?%elem_of_entries). by exists id.
  - intros (id & ?). exists (id, j). by rewrite elem_of_entries.
Qed.

Lemma job_values_size (m : gmap JobId StoredJob) : length (job_values m) = size m.
Proof.
  unfold job_values, entries. rewrite length_fmap, merge_sort_Permutation.
  apply length_map_to_list.
Qed.

(** ** Validation *)

Lemma require_Ok b reason u : require b reason = Ok u → b = true.
Proof. by destruct b. Qed.

Lemma validate_replacement_Ok cur rev j u :
  validate_job_replacement cur rev j = Ok u →
  revision cur = rev ∧ spec j = spec cur ∧ validate_stored_job j = Ok tt.
Proof.
  unfold validate_job_replacement. destruct (N.eqb_spec (revision cur) rev) as [->|]; [|done].
  cbn [negb]. intros (? & Hs%require_Ok & Hv)%Outcome_bind_Ok.
  split; [done|]. destruct u. split; [|done].
  unfold same_admission, equivalent_submission in Hs. prop_guards.
  destruct (spec cur), (spec j); cbn in *; by subst.
Qed.

(** A row may be revised without changing its validity. *)
Lemma validate_revised j n :
  validate_stored_job (j <| revision := n |>) = validate_stored_job j.
Proof. done. Qed.

Lemma validate_receipt_later j j' key r :
  validate_predicate_delivery_receipt j key r = Ok tt →
  stored_id j' = stored_id j → (revision j ≤ revision j')%N →
  validate_predicate_delivery_receipt j' key r = Ok tt.
Proof.
  unfold validate_predicate_delivery_receipt. intros Hv Hid Hrev.
  apply Outcome_bind_Ok in Hv as ([] & H1 & Hv). apply Outcome_bind_Ok in Hv as ([] & H2 & Hv).
  apply Outcome_bind_Ok in Hv as ([] & H3 & Hv). rewrite Hid, H1, H2. cbn [mbind Outcome_bind].
  assert (Hr : require (negb (committed_revision r =? 0)%N && (committed_revision r <=? revision j')%N)
                 "receipt revision is invalid" = Ok tt).
  { apply require_Ok in H3. prop_guards. unfold require.
    by rewrite (proj2 (N.eqb_neq _ _)), (proj2 (N.leb_le _ _)) by lia. }
  by rewrite Hr.
Qed.

Lemma next_revision_Ok n m : next_revision n = Ok m → m = (n + 1)%N ∧ (n < u64_max)%N.
Proof. unfold next_revision. destruct (N.leb_spec (n + 1) u64_max); [|done]. intros [= <-]. lia. Qed.

Lemma next_revision_small n : (n < u64_max)%N → next_revision n = Ok (n + 1)%N.
Proof. intros. unfold next_revision. by rewrite (proj2 (N.leb_le _ _)) by lia. Qed.

(** ** What a call does to the rows *)

(** The row [id] is replaced by [j], one revision later. *)
Record Swapped (id : JobId) (cur j : StoredJob) (st st' : MemoryJobs) : Prop := {
  swapped_from : jobs st !! id = Some cur;
  swapped_to : jobs st' = <[id := j]> (jobs st);
  swapped_id : stored_id j = id;
  swapped_spec : spec j = spec cur;
  swapped_revision : revision j = (revision cur + 1)%N;
  swapped_bound : (revision cur < u64_max)%N;
  swapped_valid : validate_stored_job j = Ok tt;
  swapped_index : submission_index st' = submission_index st;
}.

Lemma checked_inv {A B} st (m : Fallible B) (k : B → Step A) st' r :
  checked st m k = (st', r) → (∃ b, m = Ok b ∧ k b = (st', r)) ∨ (st' = st ∧ ∀ a, r ≠ Ok a).
Proof. destruct m; cbn; [eauto|intros [= <- <-]; by right..]. Qed.

Lemma compare_and_swap_inv rev j st st' r :
  compare_and_swap rev j st = (st', r) →
  (∃ cur, revision cur = rev ∧ r = Ok (j <| revision := (rev + 1)%N |>) ∧
     Swapped (stored_id j) cur (j <| revision := (rev + 1)%N |>) st st' ∧
     predicate_deliveries st' = predicate_deliveries st ∧
     commit_generation st' = commit_generation st) ∨
  (st' = st ∧ ∀ a, r ≠ Ok a).
Proof.
  unfold compare_and_swap. intros [(cur & Hc%ok_or_Ok & HC)|?]%checked_inv; [|by right].
  apply checked_inv in HC as [(u & Hv & HC)|?]; [|by right].
  apply checked_inv in HC as [(n & [-> ?]%next_revision_Ok & HC)|?]; [|by right].
  apply validate_replacement_Ok in Hv as (<- & ? & ?). simplify_eq. left. exists cur.
  split_and!; try done.
Qed.

Lemma insert_inv j st st' r :
  insert_deduplicated j st = (st', r) →
  (jobs st !! stored_id j = None ∧ submission_index st !! index_key j = None ∧
   r = Ok (Inserted j) ∧ validate_stored_job j = Ok tt ∧
   jobs st' = <[stored_id j := j]> (jobs st) ∧
   submission_index st' = <[index_key j := stored_id j]> (submission_index st) ∧
   predicate_deliveries st' = predicate_deliveries st ∧
   commit_generation st' = commit_generation st) ∨
  st' = st.
Proof.
  unfold insert_deduplicated. intros [([] & Hv & H)|[? _]]%checked_inv; [|by right].
  destruct (submission_index st !! index_key j) as [id|] eqn:Hi.
  - apply checked_inv in H as [(e & _ & H)|[? _]]; [|by right].
    destruct (negb _); simplify_eq; by right.
  - destruct (bool_decide _) eqn:E; simplify_eq; [by right|]. left. prop_guards.
    apply eq_None_not_Some in E. done.
Qed.

Lemma commit_inv rev j c st st' r :
  commit_predicate_delivery rev j c st = (st', r) →
  let key := (stored_id j, idempotency_key (commit_identity c)) in
  let j' := j <| revision := (rev + 1)%N |> in
  (∃ cur receipt, revision cur = rev ∧ r = Ok (Committed j' receipt) ∧
     Swapped (stored_id j) cur j' st st' ∧ predicate_deliveries st !! key = None ∧
     receipt = mkDeliveryReceipt (stored_id j) (commit_identity c) (rev + 1) (commit_evaluation c)
                 (commit_notification c) ∧
     predicate_deliveries st' = <[key := receipt]> (predicate_deliveries st) ∧
     validate_predicate_delivery_receipt j' key.2 receipt = Ok tt ∧
     commit_generation st' = commit_generation st) ∨
  (st' = st ∧ ((∃ receipt cur, r = Ok (CommitDeduplicated cur receipt) ∧
                 predicate_deliveries st !! key = Some receipt ∧
                 jobs st !! stored_id j = Some cur ∧ ledger_identity receipt = commit_identity c) ∨
               ∀ a, r ≠ Ok a)).
Proof.
  intros H key j'. unfold commit_predicate_delivery in H. fold key in H.
  destruct (predicate_deliveries st !! key) as [receipt|] eqn:Hl.
  - right. apply checked_inv in H as [([] & He%require_Ok & H)|[? ?]]; [|by eauto].
    apply checked_inv in H as [(cur & Hc%ok_or_Ok & H)|[? ?]]; [|by eauto].
    simplify_eq. prop_guards. split; [done|]. left. by exists receipt, cur.
  - apply checked_inv in H as [(cur & Hc%ok_or_Ok & H)|[? ?]]; [|by eauto].
    apply checked_inv in H as [(u & Hv & H)|[? ?]]; [|by eauto].
    apply checked_inv in H as [(n & Hn & H)|[? ?]]; [|by eauto].
    apply next_revision_Ok in Hn as [-> ?].
    apply checked_inv in H as [([] & Hr & H)|[? ?]]; [|by eauto].
    apply validate_replacement_Ok in Hv as (<- & ? & ?). simplify_eq. left.
    eexists cur, _. split_and!; try done.
Qed.

(** ** Consistency *)

Lemma swapped_consistent id cur j st st' :
  Consistent st → Swapped id cur j st st' →
  (∀ id' key r, predicate_deliveries st' !! (id', key) = Some r →
     predicate_deliveries st !! (id', key) = Some r ∨
     id' = id ∧ validate_predicate_delivery_receipt j key r = Ok tt) →
  Consistent st'.
Proof.
  intros [C1 C2 C3 C4 C5] [Hc Hj Hid Hs Hr Hb Hv Hi] Hl.
  assert (Hk : index_key j = index_key cur) by (unfold index_key; by rewrite Hs).
  split.
  - intros id' j'. rewrite Hj. intros [[<- <-]|[_ ?]]%lookup_insert_Some; [done|by apply C1].
  - intros id' j'. rewrite Hj. intros [[<- <-]|[_ ?]]%lookup_insert_Some; [done|by eapply C2].
  - intros id' j'. rewrite Hj, Hi. intros [[<- <-]|[_ ?]]%lookup_insert_Some; [|by apply C3].
    rewrite Hk. by apply C3.
  - intros k id'. rewrite Hi, Hj. intros (j' & Hj' & <-)%C4.
    destruct (decide (id' = id)) as [->|Hne].
    + exists j. rewrite lookup_insert_eq. split; [done|]. congruence.
    + exists j'. by rewrite lookup_insert_ne.
  - intros id' key r [Hr'|[-> ?]]%Hl.
    + apply C5 in Hr' as (j' & Hj' & Hv'). rewrite Hj.
      destruct (decide (id' = id)) as [->|Hne]; [|exists j'; by rewrite lookup_insert_ne].
      exists j. rewrite lookup_insert_eq. split; [done|].
      assert (j' = cur) as -> by congruence.
      apply (validate_receipt_later cur); [done| |lia]. rewrite Hid. symmetry. by apply C1.
    + exists j. by rewrite Hj, lookup_insert_eq.
Qed.

Lemma inserted_consistent j st st' :
  Consistent st → jobs st !! stored_id j = None → submission_index st !! index_key j = None →
  validate_stored_job j = Ok tt → jobs st' = <[stored_id j := j]> (jobs st) →
  submission_index st' = <[index_key j := stored_id j]> (submission_index st) →
  predicate_deliveries st' = predicate_deliveries st → Consistent st'.
Proof.
  intros [C1 C2 C3 C4 C5] Hn Hx Hv Ej Ei Ed. split; rewrite ?Ej, ?Ei, ?Ed.
  - intros id j'. intros [[<- <-]|[_ ?]]%lookup_insert_Some; [done|by apply C1].
  - intros id j'. intros [[<- <-]|[_ ?]]%lookup_insert_Some; [done|by eapply C2].
  - intros id j'. intros [[<- <-]|[_ Hj]]%lookup_insert_Some; [by rewrite lookup_insert_eq|].
    apply C3 in Hj. rewrite lookup_insert_ne; [done|]. congruence.
  - intros k id. intros [[<- <-]|[_ (j' & Hj & <-)%C4]]%lookup_insert_Some.
    + exists j. by rewrite lookup_insert_eq.
    + exists j'. rewrite lookup_insert_ne; [done|]. congruence.
  - intros id key r (j' & Hj & ?)%C5. exists j'. rewrite lookup_insert_ne; [done|]. congruence.
Qed.

(** Every call keeps the store consistent. *)
Lemma memory_step_consistent {X} (c : JobCall X) st :
  Consistent st → Consistent (memory_step c st).1.
Proof.
  intros HC. destruct (memory_step c st) as [st' r] eqn:H. destruct c; cbn in H |- *.
  1: apply insert_inv in H as [(? & ? & ? & ? & ? & ? & ? & ?)| ->]; [by eapply inserted_consistent|done].
  all: try by simplify_eq.
  - apply compare_and_swap_inv in H as [(cur & _ & _ & Hs & Hd & _)|[-> _]]; [|done].
    eapply swapped_consistent; [done..|]. rewrite Hd. by left.
  - apply commit_inv in H as [(cur & rc & _ & _ & Hs & Hn & Hrc & Hd & Hv & _)|[-> _]]; [|done].
    eapply swapped_consistent; [done..|]. intros id' key' r'. rewrite Hd.
    intros [[? <-]|[_ ?]]%lookup_insert_Some; [simplify_eq; by right|by left].
  - unfold record_commit in H. simplify_eq. destruct HC. by split.
Qed.

(** No call changes or drops a receipt of the ledger. *)
Lemma ledger_kept {X} (c : JobCall X) st key r :
  predicate_deliveries st !! key = Some r →
  predicate_deliveries (memory_step c st).1 !! key = Some r.
Proof.
  intros Hk. destruct (memory_step c st) as [st' a] eqn:H. destruct c; cbn in H |- *.
  1: apply insert_inv in H as [(? & ? & ? & ? & ? & ? & -> & ?)| ->]; done.
  all: try by simplify_eq.
  - apply compare_and_swap_inv in H as [(? & ? & ? & ? & -> & ?)|[-> _]]; done.
  - apply commit_inv in H as [(? & ? & _ & _ & _ & Hn & _ & -> & _)|[-> _]]; [|done].
    rewrite lookup_insert_ne; [done|]. congruence.
  - unfold record_commit in H. by simplify_eq.
Qed.

(** ** Snapshots *)

Lemma consistent_snapshot st :
  Consistent st → from_snapshot (snapshot st) = Ok (st <| commit_generation := 0%N |>).
Proof.
  intros [C1 C2 C3 C4 C5]. unfold from_snapshot.
  rewrite (check_each_Forall (check_index_entry _)); cbn [mbind Outcome_bind].
  2:{ apply Forall_forall. intros [[realm key] id] (j & Hj & Hk)%elem_of_entries%C4.
      unfold check_index_entry. cbn. rewrite Hj. unfold index_key in Hk. simplify_eq/=.
      rewrite !bool_decide_true by done. by eapply C2. }
  rewrite (check_each_Forall (check_indexed _)); cbn [mbind Outcome_bind].
  2:{ apply Forall_forall. intros j (id & Hj)%elem_of_job_values.
      unfold check_indexed. cbn. by rewrite (C3 _ _ Hj), (C1 _ _ Hj), bool_decide_true. }
  rewrite (check_each_Forall (check_delivery _)); cbn [mbind Outcome_bind].
  2:{ apply Forall_forall. intros [[id key] r] (j & Hj & Hv)%elem_of_entries%C5.
      unfold check_delivery. cbn. by rewrite Hj. }
  by destruct st.
Qed.
End Consistent.
