(* ===== verification/JobDiscipline.v ===== *)
(** * JobDiscipline: what the operations of the job service ask of the store

    An operation writes only rows it derived from a row it has read
    ([legit]), whatever the store answers on the way: every operation of
    [JobService] is [harmless].  [wp] follows a program with the rows it has
    read so far. *)

From stdpp Require Import gmap.
From S2P Require Export JobRows.

Section Discipline.
Context {BP : BuildProfile} {CA : CheckedArithmetic}.

(** The rows a program has read. *)
Abbreviation Known := (StoredJob → Prop).

(** A row of a job that was just submitted. *)
Definition fresh_row (j : StoredJob) : Prop := ∃ l, JobRow l j.

Definition legit {X} (K : Known) (c : JobCall X) : Prop :=
  match c with
  | InsertDeduplicated j => fresh_row j
  | CompareAndSwap rev j => ∃ cur, K cur ∧ revision j = rev ∧ RowMove cur j
  | CommitDelivery rev j _ => ∃ cur, K cur ∧ revision j = rev ∧ RowMove cur j
  | _ => True
  end.

(** The row an answer hands out for writing. *)
Definition learned {X} (c : JobCall X) : Fallible X → Known :=
  match c in JobCall X return Fallible X → Known with
  | GetJob _ => λ r j, r = Ok (Some j)
  | _ => λ _ _, False
  end.

Fixpoint wp {A} (K : Known) (m : JobProg A) (Q : Known → A → Prop) : Prop :=
  match m with
  | Done a => Q K a
  | Call c k => legit K c ∧ ∀ r, wp (λ j, K j ∨ learned c r j) (k r) Q
  end.

Lemma job_wp_mono {A} K (m : JobProg A) (Q Q' : Known → A → Prop) :
  (∀ K a, Q K a → Q' K a) → wp K m Q → wp K m Q'.
Proof.
  intros HQ. revert K. induction m as [a|X c k IH]; intros K; cbn; [apply HQ|].
  intros [? Hk]. split; [done|]. intros r. by apply IH.
Qed.

Lemma job_wp_bind {A B} K (m : JobProg A) (f : A → JobProg B) Q :
  wp K m (λ K a, wp K (f a) Q) → wp K (job_bind m f) Q.
Proof.
  revert K. induction m as [a|X c k IH]; intros K; cbn; [done|].
  intros [? Hk]. split; [done|]. intros r. by apply IH.
Qed.

(** For an operation of the service only its successes need following. *)
Definition ok_then {A} (Q : Known → A → Prop) : Known → Fallible A → Prop :=
  λ K r, match r with Ok a => Q K a | _ => True end.

Lemma wp_and_then {A B} K (m : JobService A) (f : A → JobService B) (Q : Known → B → Prop) :
  wp K m (ok_then (λ K a, wp K (f a) (ok_then Q))) → wp K (and_then m f) (ok_then Q).
Proof.
  intros H. apply job_wp_bind. eapply job_wp_mono; [|exact H].
  intros K' [a|e| |] Ha; cbn in *; done.
Qed.

Lemma wp_lift {A} K (r : Fallible A) (Q : Known → A → Prop) :
  (∀ a, r = Ok a → Q K a) → wp K (lift r) (ok_then Q).
Proof. intros HQ. cbn. destruct r; cbn; auto. Qed.

Lemma wp_call {X} K (c : JobCall X) (Q : Known → X → Prop) :
  legit K c → (∀ x, Q (λ j, K j ∨ learned c (Ok x) j) x) → wp K (call c) (ok_then Q).
Proof. intros Hc HQ. split; [done|]. by intros [x|e| |]; cbn. Qed.

Lemma wp_required K id (Q : Known → StoredJob → Prop) :
  (∀ K' j, K' j → Q K' j) → wp K (required id) (ok_then Q).
Proof.
  intros HQ. apply wp_and_then, wp_call; [done|]. intros [j|]; [|done].
  apply HQ. by right.
Qed.

Lemma wp_written K id w (Q : Known → StoredJob → Prop) :
  (∀ K' j, K' j → Q K' j) → wp K (written id w) (ok_then Q).
Proof.
  intros HQ. apply wp_and_then, wp_required. intros K' j Hj.
  apply wp_and_then, wp_lift. intros ? _. by apply HQ.
Qed.

(** A program that succeeds with anything. *)
Definition any {A} : Known → A → Prop := λ _ _, True.

Lemma wp_any {A} K (m : JobService A) : wp K m (ok_then any) ↔ wp K m (λ _ _, True).
Proof. split; apply job_wp_mono; [done|]. by intros ? [| | |]. Qed.

Lemma wp_done {A} K (r : Fallible A) : wp K (lift r) (ok_then any).
Proof. by apply wp_lift. Qed.

Lemma wp_apply_from K j i project :
  K j → canonical_input i → projects i project →
  wp K (apply_from j i project) (ok_then any).
Proof.
  intros Hj Hi HP. apply wp_and_then, wp_lift. intros [j' es] Hr.
  pose proof (replacement_moves _ _ _ _ _ Hi HP Hr) as HM.
  destruct (bool_decide _); [done|]. apply wp_and_then, wp_call; [by exists j|].
  intros committed. apply wp_and_then. destruct (existsb _ _); [by apply wp_call|done].
Qed.

Lemma wp_apply_written K id w i project :
  canonical_input i → projects i project →
  wp K (apply_written id w i project) (ok_then any).
Proof.
  intros Hi HP. apply wp_and_then, wp_written. intros K' j Hj.
  apply wp_and_then. eapply job_wp_mono; [|by apply wp_apply_from].
  intros K'' [[stored es]|e| |] _; try done. apply wp_done.
Qed.

Lemma wp_apply_input K id i project :
  canonical_input i → projects i project → wp K (apply_input id i project) (ok_then any).
Proof.
  intros Hi HP. apply wp_and_then, wp_required. intros K' j Hj. by apply wp_apply_from.
Qed.

Lemma wp_apply_terminal K j i result :
  K j → canonical_input i → wp K (apply_terminal j i result) (ok_then any).
Proof.
  intros Hj Hi. apply wp_and_then. eapply job_wp_mono; [|apply wp_apply_from; [done..|apply terminal_projects]].
  intros K'' [[stored es]|e| |] _; try done. apply wp_done.
Qed.

Lemma wp_then {A B} K (m : JobService A) (f : A → JobService B) :
  wp K m (ok_then any) → (∀ K' a, wp K' (f a) (ok_then any)) → wp K (and_then m f) (ok_then any).
Proof.
  intros Hm Hf. apply wp_and_then. eapply job_wp_mono; [|exact Hm].
  intros K' [a| | |] _; try done. apply Hf.
Qed.

(** ** The operations *)

Definition harmless {A} (m : JobService A) : Prop := ∀ K, wp K m (ok_then any).

Lemma submitted_fresh uuid s j : submitted uuid s = Ok j → fresh_row j.
Proof.
  unfold submitted. intros ([s1 es] & Ha & [= <-])%Outcome_bind_Ok.
  pose proof (machine_apply_Ok _ _ _ _ _ Ha) as (HM & r & Hes & Happ).
  exists [(I_Submit (JobId_generated uuid) (spec_restart_class s), r)]. split; cbn.
  - by eapply Execution_cons; [|constructor].
  - rewrite Hes. inversion HM; simplify_eq/=. split; try done; constructor.
  - inversion HM; simplify_eq/=. by split.
  - done.
Qed.

Lemma submit_harmless uuid s : harmless (submit uuid s).
Proof.
  intros K. unfold submit. destruct (_ || _); [done|].
  apply wp_and_then, wp_lift. intros j Hj%submitted_fresh.
  apply wp_and_then, wp_call; [done|]. by intros [].
Qed.

(** A read: whatever comes of it, nothing is written. *)
Lemma read_harmless {X A} (c : JobCall X) (f : X → JobService A) :
  (∀ K, legit K c) → (∀ x, harmless (f x)) → harmless (and_then (call c) f).
Proof. intros Hc Hf K. apply wp_and_then, wp_call; [done|]. intros. apply Hf. Qed.

Lemma get_harmless id : harmless (get id).
Proof. apply read_harmless; [done|]. intros x K. apply wp_done. Qed.

Lemma subscribe_harmless fuel id s : harmless (subscribe fuel id s).
Proof.
  induction fuel as [|fuel IH]; intros K; [done|]. cbn [subscribe].
  apply wp_and_then, wp_required. intros K' j Hj. destruct (List.find _ _) as [e|] eqn:Hf.
  { destruct (bool_decide _); [apply wp_done|done]. }
  split.
  - exists j. split_and!; [done..|]. apply subscriptions_move. intros Hn.
    rewrite fmap_app. apply NoDup_app. split; [done|]. split; [|apply NoDup_singleton].
    intros x (e & -> & He)%list_elem_of_fmap Heq%list_elem_of_singleton.
    eapply List.find_none in Hf; [|by apply list_elem_of_In]. cbn in Hf. by prop_guards.
  - intros [|[]| |]; first [apply IH | apply wp_done | done].
Qed.

Lemma NoDup_fmap_filter {A B} (f : A → B) P `{∀ x, Decision (P x)} (xs : list A) :
  NoDup (f <$> xs) → NoDup (f <$> filter P xs).
Proof.
  induction xs as [|x xs IH]; [done|]. intros [Hx Hxs]%NoDup_cons.
  rewrite filter_cons. case_decide; [|by apply IH]. apply NoDup_cons. split; [|by apply IH].
  intros (y & Hy & [_ Hin]%list_elem_of_filter)%list_elem_of_fmap. apply Hx. rewrite Hy.
  by apply list_elem_of_fmap_2.
Qed.

Lemma unsubscribe_harmless id sid : harmless (unsubscribe id sid).
Proof.
  intros K. apply wp_and_then, wp_required. intros K' j Hj.
  cbv zeta. match goal with |- context [(?a =? ?b)%nat] => destruct (a =? b)%nat end; [apply wp_done|].
  apply wp_and_then, wp_call; [|intros; apply wp_done].
  exists j. split_and!; [done..|]. apply subscriptions_move. intros Hn.
  by apply NoDup_fmap_filter.
Qed.

Lemma claim_harmless uuid id c :
  canonical (AttemptId_generated uuid) → canonical (claim_runner_handle c) →
  harmless (claim_attempt uuid id c).
Proof.
  intros Ha Hh K. apply wp_then; [apply wp_apply_input; [done|by apply no_projection_projects]|].
  intros K' [stored es]. apply wp_then; [apply wp_done|]. intros K'' r.
  destruct (_ && _); [apply wp_done|done].
Qed.

Lemma report_harmless id w p now : harmless (report_progress id w p now).
Proof. intros K. apply wp_apply_written; [done|apply report_projects]. Qed.

Lemma renew_harmless id w beat lease : harmless (renew_lease id w beat lease).
Proof. intros K. apply wp_apply_written; [done|by apply no_projection_projects]. Qed.

Lemma checkpoint_harmless id w r now : canonical r → harmless (record_checkpoint id w r now).
Proof. intros ? K. apply wp_apply_written; [done|by apply no_projection_projects]. Qed.

Lemma wait_harmless id w now : harmless (wait_external id w now).
Proof. intros K. apply wp_apply_written; [done|by apply no_projection_projects]. Qed.

Lemma resume_harmless id w now : harmless (resume_running id w now).
Proof. intros K. apply wp_apply_written; [done|by apply no_projection_projects]. Qed.

Lemma expire_harmless id w now : harmless (observe_lease_expired id w now).
Proof. intros K. apply wp_apply_written; [done|by apply no_projection_projects]. Qed.

Lemma retry_harmless id due : harmless (schedule_retry id due).
Proof.
  intros K. apply wp_then; [apply wp_apply_input; [done|by apply no_projection_projects]|].
  intros K' []. apply wp_done.
Qed.

Lemma emit_harmless id w now n : harmless (emit_notification id w now n).
Proof.
  intros K. apply wp_and_then, wp_written. intros K' j Hj.
  apply wp_then; [apply wp_apply_from; [done..|apply notification_projects]|].
  intros K1 [stored es]. apply wp_then; [apply wp_done|].
  intros K2 [[[[nid ?] ?] number] dedup]. apply wp_then; [apply wp_done|]. intros K3 snap.
  apply wp_then; [apply wp_done|]. done.
Qed.

Lemma end_attempt_harmless id w now i result :
  canonical_input i → harmless (end_attempt id w now i result).
Proof.
  intros Hi K. apply wp_and_then, wp_written. intros K' j Hj.
  destruct (cancel_requested _); by apply wp_apply_terminal.
Qed.

Lemma request_cancel_harmless fuel id : harmless (request_cancel fuel id).
Proof.
  induction fuel as [|fuel IH]; intros K; [done|]. cbn [request_cancel].
  apply wp_and_then, wp_required. intros K' j Hj. destruct (negb _); [apply wp_done|].
  apply job_wp_bind. eapply job_wp_mono; [|apply wp_apply_from; [done..|apply cancel_projects]].
  intros K2 [[stored es]|[]| |] _; first [apply IH | apply wp_done | done].
Qed.

Lemma acknowledge_cancel_harmless id w now : harmless (acknowledge_cancel id w now).
Proof.
  intros K. apply wp_and_then, wp_written. intros K' j Hj. by apply wp_apply_terminal.
Qed.

Lemma worker_loss_harmless id now : harmless (classify_worker_loss id now).
Proof.
  intros K. apply wp_and_then, wp_required. intros K' j Hj. by apply wp_apply_terminal.
Qed.

Lemma needs_attention_harmless id now reason : harmless (mark_needs_attention id now reason).
Proof.
  intros K. apply wp_and_then, wp_required. intros K' j Hj. by apply wp_apply_terminal.
Qed.

Lemma mark_delivery_harmless budget id n : harmless (mark_delivery_loop budget id n).
Proof.
  induction budget as [|budget IH]; intros K; cbn [mark_delivery_loop]; apply job_wp_bind;
    (eapply job_wp_mono; [|apply wp_and_then, wp_required; intros K' j Hj;
       apply wp_and_then, wp_lift; intros e He; apply wp_apply_from;
       [done..|apply acknowledgement_projects]]);
    intros K2 [[stored es]|[]| |] _; first [apply IH | apply wp_done | done].
Qed.

Context `{!NameUuid, !CheckpointCodec}.

Lemma evaluate_harmless id w watch o now : harmless (evaluate_predicate id w watch o now).
Proof.
  intros K. apply wp_and_then, wp_written. intros K1 j Hj.
  apply wp_then; [apply wp_done|]. intros K2 e.
  apply wp_then.
  { destruct (evaluation_notification e); [|done].
    apply wp_then; [apply emit_harmless|done]. }
  intros K3 notification. apply wp_then.
  { destruct (evaluation_checkpoint e) as [c|].
    - apply wp_and_then, wp_lift. intros r Hr%encoded_canonical. by apply checkpoint_harmless.
    - apply wp_then; [apply get_harmless|]. by intros ? []. }
  intros K4 snap. apply wp_then; [apply wp_done|]. intros K5 p.
  apply wp_then; [apply report_harmless|]. done.
Qed.

Lemma delivered_harmless c outcome : harmless (delivered c outcome).
Proof.
  intros K. destruct outcome; cbn [delivered].
  - apply wp_then; [destruct (announces c); [by apply wp_call|done]|].
    intros ? []. apply wp_then; [apply wp_done|done].
  - apply wp_then; [apply wp_done|done].
Qed.

Lemma idempotent_harmless budget id w identity watch o now :
  harmless (evaluate_idempotent_loop budget id w identity watch o now).
Proof.
  induction budget as [|budget IH]; intros K; cbn [evaluate_idempotent_loop];
    (apply wp_and_then, wp_call; [done|]; intros [receipt|];
     [apply wp_and_then, wp_required; intros K' j Hj; apply wp_then; [apply wp_done|done]|];
     apply wp_and_then, wp_required; intros K' j Hj; apply wp_and_then, wp_lift;
     intros [j' c] [HM Hc]%bundle_moves; split; [by exists j|]).
  all: intros [outcome|[]| |]; first [apply IH | apply delivered_harmless | apply wp_done | done].
Qed.
End Discipline.
