(* ===== verification/JobSystem.v ===== *)
(** * JobSystem: the job service under concurrent use

    Any number of operations of [JobService] run against one in-memory store,
    their store calls interleaved in any order; an operation may be dropped
    between two calls (a cancelled future, a crash).  In every reachable state
    the store is consistent and every row projects an execution of the job
    authority; rows only move forward and receipts never change.  [contended]
    follows one operation while other users of the store act between any two of
    its calls: what the store answers to the writes of an operation whose row is
    still current, and that a request for cancellation is always accepted by a
    job that has not ended. *)

From stdpp Require Import gmap.
From S2P Require Export JobStoreFacts JobDiscipline.

Section System.
Context {BP : BuildProfile} `{!NameUuid, !CheckpointCodec}.

(** ** The system *)

Definition forget {A} (m : JobProg A) : JobProg unit := job_bind m (λ _, Done tt).

(** The texts that identifiers of the crate can hold are [canonical]. *)
Inductive entry : JobProg unit → Prop :=
| enter_submit uuid s : entry (forget (submit uuid s))
| enter_get id : entry (forget (get id))
| enter_get_authorized r session : entry (forget (get_authorized_for_session r session))
| enter_get_for_reference r : entry (forget (get_for_reference r))
| enter_describe id : entry (forget (describe id))
| enter_describe_for_realm realm id : entry (forget (describe_for_realm realm id))
| enter_list realm session limit : entry (forget (list_descriptions_for_origin realm session limit))
| enter_health realm now limit : entry (forget (health_snapshot_for_realm_filter realm now limit))
| enter_subscribe fuel id s : entry (forget (subscribe fuel id s))
| enter_unsubscribe id sid : entry (forget (unsubscribe id sid))
| enter_claim uuid id c :
    canonical (AttemptId_generated uuid) → canonical (claim_runner_handle c) →
    entry (forget (claim_attempt uuid id c))
| enter_report id w p now : entry (forget (report_progress id w p now))
| enter_renew id w beat lease : entry (forget (renew_lease id w beat lease))
| enter_checkpoint id w r now : canonical r → entry (forget (record_checkpoint id w r now))
| enter_emit id w now n : entry (forget (emit_notification id w now n))
| enter_wait id w now : entry (forget (wait_external id w now))
| enter_resume id w now : entry (forget (resume_running id w now))
| enter_expire id w now : entry (forget (observe_lease_expired id w now))
| enter_retry id due : entry (forget (schedule_retry id due))
| enter_complete id w now r : entry (forget (complete_attempt id w now r))
| enter_fail id w now code r : entry (forget (fail_attempt id w now code r))
| enter_request_cancel fuel id : entry (forget (request_cancel fuel id))
| enter_acknowledge_cancel id w now : entry (forget (acknowledge_cancel id w now))
| enter_worker_loss id now : entry (forget (classify_worker_loss id now))
| enter_needs_attention id now reason : entry (forget (mark_needs_attention id now reason))
| enter_mark_delivery id n : entry (forget (mark_delivery_applied id n))
| enter_evaluate id w watch o now : entry (forget (evaluate_predicate id w watch o now))
| enter_applied id identity : entry (forget (predicate_delivery_applied id identity))
| enter_idempotent id w identity watch o now :
    entry (forget (evaluate_predicate_idempotent id w identity watch o now)).

Record JobsSystem := mkJobsSystem { sys_store : MemoryJobs; sys_running : list (JobProg unit) }.

Inductive jobs_step : JobsSystem → JobsSystem → Prop :=
| step_enter st ms m : entry m → jobs_step (mkJobsSystem st ms) (mkJobsSystem st (m :: ms))
| step_call st ms X (c : JobCall X) k ms' st' r :
    memory_step c st = (st', r) →
    jobs_step (mkJobsSystem st (ms ++ Call c k :: ms')) (mkJobsSystem st' (ms ++ k r :: ms'))
| step_leave st ms m ms' :
    jobs_step (mkJobsSystem st (ms ++ m :: ms')) (mkJobsSystem st (ms ++ ms')).

Definition jobs_init : JobsSystem := mkJobsSystem memory_new [].

(** ** Rows move forward *)

(** [j'] is [j], or what later writes made of it. *)
Definition Later (j j' : StoredJob) : Prop :=
  j' = j ∨
  ((revision j < revision j')%N ∧ stored_id j' = stored_id j ∧ spec j' = spec j ∧
   ∀ l, JobRow l j → ∃ l', JobRow (l ++ l') j').

Lemma later_trans j1 j2 j3 : Later j1 j2 → Later j2 j3 → Later j1 j3.
Proof.
  intros [->|(? & ? & ? & Ha)] [->|(? & ? & ? & Hb)]; [by left|by right|by right|]. right.
  split_and!; [lia|congruence..|]. intros l (l1 & (l2 & ?)%Hb)%Ha.
  exists (l1 ++ l2). by rewrite app_assoc.
Qed.

Lemma later_revision j j' : Later j j' → (revision j ≤ revision j')%N.
Proof. intros [->|[? _]]; lia. Qed.

Record Advance (st st' : MemoryJobs) : Prop := {
  advance_rows id j : jobs st !! id = Some j → ∃ j', jobs st' !! id = Some j' ∧ Later j j';
  advance_ledger key r :
    predicate_deliveries st !! key = Some r → predicate_deliveries st' !! key = Some r;
}.

Lemma advance_refl st : Advance st st.
Proof. split; [|done]. intros id j ?. exists j. split; [done|by left]. Qed.

Lemma advance_trans st1 st2 st3 : Advance st1 st2 → Advance st2 st3 → Advance st1 st3.
Proof.
  intros [R1 L1] [R2 L2]. split; [|auto].
  intros id j (j1 & (j2 & ? & ?)%R2 & ?)%R1. exists j2. split; [done|by eapply later_trans].
Qed.

(** ** The invariant *)

Definition rows_run (st : MemoryJobs) : Prop :=
  ∀ id j, jobs st !! id = Some j → ∃ l, JobRow l j.

(** A row that was read: the current one, or an older version of it. *)
Definition known (st : MemoryJobs) (j : StoredJob) : Prop :=
  (∃ l, JobRow l j) ∧
  ∃ cur, jobs st !! stored_id j = Some cur ∧ Later j cur.

Lemma known_advance st st' j : Advance st st' → known st j → known st' j.
Proof.
  intros [HR _] [? (cur & (cur' & ? & ?)%HR & ?)]. split; [done|].
  exists cur'. split; [done|by eapply later_trans].
Qed.

(** An older version has a smaller revision. *)
Lemma known_current st j cur :
  known st j → jobs st !! stored_id j = Some cur → revision cur = revision j → cur = j.
Proof.
  intros [_ (cur' & Hc & HL)] Hc' Hr. simplify_eq. destruct HL as [->|[? _]]; [done|lia].
Qed.

Record Sound (st : MemoryJobs) : Prop := {
  sound_consistent : Consistent st;
  sound_rows : rows_run st;
}.

(** An operation under way will only ask what [legit] allows of what it has read. *)
Definition well_informed (st : MemoryJobs) (m : JobProg unit) : Prop :=
  ∃ K : StoredJob → Prop, (∀ j, K j → known st j) ∧ wp K m (λ _ _, True).

Record sys_inv (s : JobsSystem) : Prop := {
  inv_sound : Sound (sys_store s);
  inv_running : Forall (well_informed (sys_store s)) (sys_running s);
}.

Lemma memory_new_sound : Sound memory_new.
Proof. split; [apply memory_new_consistent|]. intros id j. cbn. by rewrite lookup_empty. Qed.

Lemma jobs_init_inv : sys_inv jobs_init.
Proof. split; [apply memory_new_sound|constructor]. Qed.
End System.

Section Invariant.
Context {BP : BuildProfile} {CA : CheckedArithmetic} `{!NameUuid, !CheckpointCodec}.

Lemma forget_job_harmless {A} (m : JobService A) :
  harmless m → ∀ K, wp K (forget m) (λ _ _, True).
Proof. intros Hm K. apply job_wp_bind. eapply job_wp_mono; [|apply Hm]. done. Qed.

Lemma entered_harmless m K : entry m → wp K m (λ _ _, True).
Proof.
  intros HE. destruct HE; apply forget_job_harmless;
    auto using submit_harmless, get_harmless, subscribe_harmless, unsubscribe_harmless,
      claim_harmless, report_harmless, renew_harmless, checkpoint_harmless, emit_harmless,
      wait_harmless, resume_harmless, expire_harmless, retry_harmless, request_cancel_harmless,
      acknowledge_cancel_harmless, worker_loss_harmless, needs_attention_harmless,
      evaluate_harmless.
  - apply read_harmless; [done|]. intros [j|] K'; [|done]. destruct (_ && _); [apply wp_done|done].
  - apply read_harmless; [done|]. intros [j|] K'; [|done]. destruct (bool_decide _); [apply wp_done|done].
  - apply read_harmless; [done|]. intros x K'. apply wp_done.
  - apply read_harmless; [done|]. intros x K'. apply wp_done.
  - apply read_harmless; [done|]. intros x K'. apply wp_done.
  - apply read_harmless; [done|]. intros x. apply read_harmless; [done|]. done.
  - by apply end_attempt_harmless.
  - by apply end_attempt_harmless.
  - apply mark_delivery_harmless.
  - apply read_harmless; [done|]. done.
  - apply idempotent_harmless.
Qed.

(** A write derived from a row that was read moves the current row. *)
Lemma swapped_later st st' K cur cur' j rev :
  Consistent st → (∀ j, K j → known st j) → K cur → revision j = rev → RowMove cur j →
  revision cur' = rev → Swapped (stored_id j) cur' (j <| revision := (rev + 1)%N |>) st st' →
  Later cur' (j <| revision := (rev + 1)%N |>) ∧ (∃ l, JobRow l (j <| revision := (rev + 1)%N |>)).
Proof.
  intros HC HK Hcur Hrev HM Hrev' [Hs _ _ Hsp _ _ _ _].
  destruct (HK _ Hcur) as [[l HR] Hk].
  destruct (HM l HR) as [Hid Hspec Hr (l' & HR')].
  assert (cur' = cur) as -> by (eapply known_current; [by apply HK|congruence|congruence]).
  assert (HR1 : JobRow (l ++ l') (j <| revision := (rev + 1)%N |>)) by by apply revised_row.
  split; [|by eexists]. right. cbn. split_and!; [lia|done|done|].
  intros l1 HR2. destruct (HM l1 HR2) as [_ _ _ (l2 & ?)]. exists l2. by apply revised_row.
Qed.

Lemma legit_step {X} K (c : JobCall X) st st' r :
  Sound st → (∀ j, K j → known st j) → legit K c → memory_step c st = (st', r) →
  Sound st' ∧ Advance st st'.
Proof.
  intros [HC HR] HK Hl Hs.
  assert (HC' : Consistent st') by (pose proof (memory_step_consistent c st HC) as Hx; by rewrite Hs in Hx).
  assert (HL : ∀ key r0, predicate_deliveries st !! key = Some r0 →
                 predicate_deliveries st' !! key = Some r0).
  { intros key r0 Hk. pose proof (ledger_kept c st key r0 Hk) as Hx. by rewrite Hs in Hx. }
  enough (Hrows : (∀ id j', jobs st' !! id = Some j' → jobs st !! id = Some j' ∨ ∃ l, JobRow l j') ∧
                  ∀ id j, jobs st !! id = Some j → ∃ j', jobs st' !! id = Some j' ∧ Later j j').
  { destruct Hrows as [Hr1 Hr2]. split; [split; [done|]|by split].
    intros id j' [?|?]%Hr1; [by eapply HR|done]. }
  assert (Hsame : jobs st' = jobs st →
    (∀ id j', jobs st' !! id = Some j' → jobs st !! id = Some j' ∨ ∃ l, JobRow l j') ∧
    ∀ id j, jobs st !! id = Some j → ∃ j', jobs st' !! id = Some j' ∧ Later j j').
  { intros ->. split; [by left|]. intros id j ?. exists j. split; [done|by left]. }
  assert (Hswap : ∀ cur j rev, K cur → revision j = rev → RowMove cur j → ∀ cur', revision cur' = rev →
    Swapped (stored_id j) cur' (j <| revision := (rev + 1)%N |>) st st' →
    (∀ id j', jobs st' !! id = Some j' → jobs st !! id = Some j' ∨ ∃ l, JobRow l j') ∧
    ∀ id j, jobs st !! id = Some j → ∃ j', jobs st' !! id = Some j' ∧ Later j j').
  { intros cur j rev Hcur Hrev HM cur' Hrev' Hsw.
    destruct (swapped_later _ _ _ _ _ _ _ HC HK Hcur Hrev HM Hrev' Hsw) as [HLt Hrow].
    destruct Hsw as [Hf -> _ _ _ _ _ _]. split.
    - intros id j' [[<- <-]|[_ ?]]%lookup_insert_Some; [by right|by left].
    - intros id j1 Hj1. destruct (decide (id = stored_id j)) as [->|Hne].
      + exists (j <| revision := (rev + 1)%N |>). rewrite lookup_insert_eq. split; [done|]. by simplify_eq.
      + exists j1. rewrite lookup_insert_ne by done. split; [done|by left]. }
  destruct c; cbn in Hs.
  1:{ apply insert_inv in Hs as [(Hn & _ & _ & _ & Ej & _)| ->]; [|by apply Hsame].
      rewrite Ej. split.
      - intros id j' [[<- <-]|[_ ?]]%lookup_insert_Some; [by right|by left].
      - intros id j1 Hj1. exists j1. rewrite lookup_insert_ne by congruence. split; [done|by left]. }
  all: try (unfold record_commit in Hs; simplify_eq; by apply Hsame).
  - apply compare_and_swap_inv in Hs as [(cur' & Hr & _ & Hsw & _)|[-> _]]; [|by apply Hsame].
    destruct Hl as (cur & Hk & Hv & HM). by apply (Hswap _ _ _ Hk Hv HM cur' Hr Hsw).
  - apply commit_inv in Hs as [(cur' & rc & Hr & _ & Hsw & _)|[-> _]]; [|by apply Hsame].
    destruct Hl as (cur & Hk & Hv & HM). by apply (Hswap _ _ _ Hk Hv HM cur' Hr Hsw).
Qed.

(** What a program learns from an answer is in the store. *)
Lemma learned_known {X} (c : JobCall X) st st' r j :
  Sound st → memory_step c st = (st', r) → learned c r j → known st' j.
Proof.
  intros [HC HR] Hs Hl. destruct c; try done. cbn in Hs, Hl. simplify_eq.
  split; [by eapply HR|]. exists j. split; [|by left].
  match goal with E : jobs _ !! _ = Some _ |- _ => by rewrite (consistent_id _ HC _ _ E) end.
Qed.

Lemma jobs_step_inv s s' :
  jobs_step s s' → sys_inv s → sys_inv s' ∧ Advance (sys_store s) (sys_store s').
Proof.
  intros [st ms m HE|st ms X c k ms' st' r Hs|st ms m ms'] [HS HF]; cbn in *.
  - split; [|apply advance_refl]. split; [done|]. cbn. constructor; [|done].
    exists (λ _, False). split; [done|by apply entered_harmless].
  - apply Forall_app in HF as [HF1 [(K & HK & Hl & Hwp) HF2]%Forall_cons].
    destruct (legit_step K c st st' r HS HK Hl Hs) as [HS' HA]. split; [|done].
    split; [done|]. cbn.
    assert (Hold : ∀ ms0, Forall (well_informed st) ms0 → Forall (well_informed st') ms0).
    { intros ms0 HF0. eapply Forall_impl; [exact HF0|]. intros m (K0 & HK0 & ?).
      exists K0. split; [|done]. intros j ?%HK0. by eapply known_advance. }
    apply Forall_app. split; [by apply Hold|]. constructor; [|by apply Hold].
    exists (λ j, K j ∨ learned c r j). split; [|apply Hwp].
    intros j [?%HK|?]; [by eapply known_advance|by eapply (learned_known c st)].
  - split; [|apply advance_refl]. split; [done|]. cbn.
    apply Forall_app in HF as [HF1 [_ HF2]%Forall_cons]. by apply Forall_app.
Qed.

Lemma jobs_steps_inv s s' :
  rtc jobs_step s s' → sys_inv s → sys_inv s' ∧ Advance (sys_store s) (sys_store s').
Proof.
  induction 1 as [s|s1 s2 s3 H12 _ IH]; intros HI; [split; [done|apply advance_refl]|].
  destruct (jobs_step_inv _ _ H12 HI) as [HI2 HA]. destruct (IH HI2) as [HI3 HA'].
  split; [done|by eapply advance_trans].
Qed.

Lemma jobs_reachable_inv s : rtc jobs_step jobs_init s → sys_inv s.
Proof. intros HR. by destruct (jobs_steps_inv _ _ HR jobs_init_inv). Qed.

(** A program alone takes the system's steps. *)
Lemma exec_reaches {A} (m : JobProg A) st st' a ms :
  exec m st = (a, st') →
  rtc jobs_step (mkJobsSystem st (ms ++ [forget m])) (mkJobsSystem st' (ms ++ [Done tt])).
Proof.
  revert st. induction m as [a'|X c k IH]; intros st; cbn.
  - intros [= -> ->]. done.
  - intros He. eapply rtc_l; [|by apply (IH (memory_step c st).2 (memory_step c st).1)].
    apply (step_call st ms X c (λ r, forget (k r)) []). by destruct (memory_step c st).
Qed.

Lemma exec_entry {A} (m : JobProg A) st st' a :
  entry (forget m) → exec m st = (a, st') →
  rtc jobs_step (mkJobsSystem st []) (mkJobsSystem st' []).
Proof.
  intros HE Hx. eapply rtc_l; [by apply (step_enter _ _ _ HE)|].
  etrans; [by apply (exec_reaches _ _ _ _ [] Hx)|].
  apply rtc_once. apply (step_leave st' [] _ []).
Qed.

Lemma exec_step {A} (m : JobProg A) st :
  entry (forget m) → rtc jobs_step (mkJobsSystem st []) (mkJobsSystem (exec m st).2 []).
Proof. intros HE. by eapply exec_entry; [|apply surjective_pairing]. Qed.
End Invariant.

Section Runs.
Context {BP : BuildProfile}.

(** ** Contended runs *)

(** What other operations may make of the store: see [jobs_step_inv]. *)
Definition others (st st' : MemoryJobs) : Prop := Sound st' ∧ Advance st st'.

(** [m] started on [st] and ended with [a] on [st']. *)
Fixpoint contended {A} (m : JobProg A) (st : MemoryJobs) (a : A) (st' : MemoryJobs) : Prop :=
  match m with
  | Done b => a = b ∧ st' = st
  | Call c k =>
      ∃ st1, others (memory_step c st).1 st1 ∧ contended (k (memory_step c st).2) st1 a st'
  end.

Lemma contended_bind {A B} (m : JobProg A) (f : A → JobProg B) st b st' :
  contended (job_bind m f) st b st' → ∃ a st1, contended m st a st1 ∧ contended (f a) st1 b st'.
Proof.
  revert st. induction m as [a|X c k IH]; intros st; cbn; [by eauto|].
  intros (st1 & Ho & (a & st2 & Ha & Hb)%IH). exists a, st2. split; [|done]. by exists st1.
Qed.

Lemma contended_and_then {A B} (m : JobService A) (f : A → JobService B) st r st' :
  contended (and_then m f) st r st' →
  ∃ a st1, contended m st a st1 ∧
    match a with
    | Ok a => contended (f a) st1 r st'
    | Err e => r = Err e ∧ st' = st1
    | Panic => r = Panic ∧ st' = st1
    | OutOfFuel => r = OutOfFuel ∧ st' = st1
    end.
Proof.
  intros (a & st1 & Hm & Hf)%contended_bind. exists a, st1. split; [done|]. by destruct a.
Qed.

End Runs.

Section Answers.
Context {BP : BuildProfile} {CA : CheckedArithmetic}.
Implicit Types j : StoredJob.

(** ** What callers see of a sound row *)

Definition snapshot_of (j : StoredJob) : JobSnapshot :=
  let s := machine_state j in
  mkSnapshot (stored_id j) (revision j) (lifecycle_phase s) (attempt_count s)
    (current_attempt_id s) (current_fence s) (lease_expires_at_ms s) (checkpoint_ref s)
    (runner_handle s) (progress j) (cancel_requested s) (terminal_kind s) (terminal_result j)
    (subscriptions j) (outbox j).

Lemma traverse_canonical label (o : option str) :
  (∀ t, o = Some t → canonical t) → traverse (string_id label) o = Ok o.
Proof.
  destruct o as [t|]; [|done]. intros Ht. cbn. unfold string_id.
  by rewrite canonical_component by by apply Ht.
Qed.

Lemma row_snapshot l j : JobRow l j → job_snapshot j = Ok (snapshot_of j).
Proof.
  intros [_ _ [Ha Hc Hh] _]. unfold job_snapshot.
  rewrite !traverse_canonical by done. done.
Qed.

Lemma move_submitted i s s' es : Move s i s' es → lifecycle_phase s' ≠ Unsubmitted.
Proof.
  destruct 1; try done.
  all: try (match goal with A : Holds _ _ _ |- _ => destruct A as [A _ _ _] end; subst; cbn;
            by destruct (lifecycle_phase s)).
  all: cbn; try by destruct (lifecycle_phase s).
  - by destruct k.
  - intros E. rewrite E in H. set_solver.
Qed.

Lemma row_phase l j : JobRow l j → lifecycle_phase (machine_state j) ≠ Unsubmitted.
Proof.
  intros [HE _ _ Hl]. destruct l as [|[i r] l] using rev_ind; [done|].
  apply Execution_snoc_inv in HE as (s1 & _ & (t & HF%fires_move & _)%apply_accepted).
  by eapply move_submitted.
Qed.

Lemma row_ended l j : JobRow l j → terminal_result j = None ↔ terminal_kind (machine_state j) = None.
Proof. intros HR. rewrite (row_result _ _ HR). by destruct (terminal_result j). Qed.

Lemma row_open_entries l j :
  JobRow l j → terminal_result j = None → existsb is_terminal_entry (outbox j) = false.
Proof.
  intros [_ HP _ _] Hn. pose proof (projected_result _ _ HP) as Hr. rewrite Hn in Hr. cbn in Hr.
  apply not_true_iff_false. intros (e & Hin%list_elem_of_In & He)%existsb_exists.
  destruct (entry_payload e) as [r|] eqn:Hp; unfold is_terminal_entry in He; rewrite Hp in He; [|done].
  assert (r ∈ omap entry_result (outbox j)) as Hx
    by (apply list_elem_of_omap; exists e; split; [done|]; unfold entry_result; by rewrite Hp).
  rewrite Hr in Hx. by apply elem_of_nil in Hx.
Qed.

(** ** Writes of a current row *)

Lemma same_admission_refl s : same_admission s s = true.
Proof.
  unfold same_admission, equivalent_submission. by rewrite !bool_decide_true by done.
Qed.

Lemma replacement_valid l j j' :
  Continues l j j' → validate_job_replacement j (revision j) j' = Ok tt.
Proof.
  intros [Hid Hs Hr (l' & HR)]. unfold validate_job_replacement. rewrite N.eqb_refl, Hs. cbn [negb].
  rewrite bool_decide_true, same_admission_refl by done. cbn. by eapply row_valid.
Qed.

Lemma swap_current l j j' st :
  jobs st !! stored_id j = Some j → Continues l j j' → (revision j < u64_max)%N →
  memory_step (CompareAndSwap (revision j') j') st =
    (st <| jobs := <[stored_id j := j' <| revision := (revision j + 1)%N |>]> (jobs st) |>,
     Ok (j' <| revision := (revision j + 1)%N |>)).
Proof.
  intros Hj HC Hr. pose proof (replacement_valid _ _ _ HC) as Hv. destruct HC as [Hid Hs Hrev _].
  cbn. unfold compare_and_swap. rewrite Hid, Hj, Hrev. cbn [ok_or checked]. rewrite Hv. cbn [checked].
  rewrite next_revision_small by done. cbn. by rewrite Hid.
Qed.

(** A row that is no longer current is refused. *)
Lemma swap_stale j cur j' st :
  jobs st !! stored_id j' = Some cur → revision cur ≠ revision j' →
  memory_step (CompareAndSwap (revision j') j') st =
    (st, Err (StaleRevision (stored_id j') (revision j') (revision cur))).
Proof.
  intros Hj Hr. cbn. unfold compare_and_swap. rewrite Hj. cbn [ok_or checked].
  unfold validate_job_replacement. by rewrite (proj2 (N.eqb_neq _ _)).
Qed.

(** ** Requests for cancellation *)

Lemma request_cancel_panics s :
  Shape s → apply I_RequestCancel s = Panicked → (u64_max ≤ delivery_sequence s)%N.
Proof.
  intros HS (t & Hin & Hg & [Hup|(s' & es & HF & Hinv)])%apply_panicked_inv.
  - cbn -[app] in Hin. split_declared Hin; subst t.
    all: unfold_update Hup; try discriminate Hup.
    all: repeat match type of Hup with (mbind _ ?m = None) =>
      let E := fresh in destruct m eqn:E; cbn [mbind option_bind] in Hup;
      [|apply u64_add_none in E; by cbn in E] end; done.
  - apply job_fires_shape in HF; [|done]. apply job_shape_invariants in HF. congruence.
Qed.

Lemma request_cancel_selected s :
  lifecycle_phase s ≠ Unsubmitted → lifecycle_phase s ≠ Claimed →
  terminal_kind_of (lifecycle_phase s) = None → select (transitions I_RequestCancel) s ≠ None.
Proof. intros. unfold select. cbn. by destruct (lifecycle_phase s), (cancel_requested s). Qed.

Lemma request_cancel_accepted l j id :
  JobRow l j → terminal_result j = None → (delivery_sequence (machine_state j) < u64_max)%N →
  ∃ s es, machine_apply id I_RequestCancel (machine_state j) = Ok (s, es).
Proof.
  intros HR Hn Hd. pose proof (row_shape _ _ HR) as HS. unfold machine_apply.
  destruct (apply _ _) as [s [r|e]|] eqn:Ha; [by eauto| |].
  - exfalso. apply apply_rejected_inv in Ha as (-> & [[? _]|(_ & Hsel & _)]); [done|].
    revert Hsel. apply request_cancel_selected; [by eapply row_phase| |].
    + intros E. pose proof (shape_phase _ HS) as Hp. by rewrite E in Hp.
    + by rewrite <-(shape_terminal _ HS), <-(row_ended _ _ HR).
  - apply request_cancel_panics in Ha; [lia|done].
Qed.

(** The replacement a request makes of a job that has not ended. *)
Lemma cancel_replacement l j :
  JobRow l j → terminal_result j = None → (delivery_sequence (machine_state j) < u64_max)%N →
  ∃ j' es, replacement_of j I_RequestCancel project_cancel = Ok (j', es) ∧ Continues l j j' ∧
    (cancel_requested (machine_state j') = true ∨ terminal_result j' ≠ None).
Proof.
  intros HR Hn Hd. destruct (request_cancel_accepted l j (stored_id j) HR Hn Hd) as (s & es & Ha).
  pose proof (proj1 (machine_apply_Ok _ _ _ _ _ Ha)) as HM.
  assert (∃ j', project_cancel (j <| machine_state := s |>) es = Ok j' ∧
            (cancel_requested (machine_state j') = true ∨ terminal_result j' ≠ None)) as (j' & Hp & Hc).
  { unfold project_cancel, project_optional_terminal.
    inversion HM as [ | | | | | | | | |Hact|Hcan| | |i k c n Hk _ _ Hc Hadd| | ]; simplify_eq/=.
    - eexists. split; [done|]. by left.
    - exfalso. pose proof (row_ended _ _ HR) as Hx. rewrite (shape_terminal _ (row_shape _ _ HR)), Hcan in Hx.
      pose proof (proj1 Hx Hn). done.
    - assert (k = DetachedJobTerminalKind_Cancelled) as ->
        by (by destruct (lifecycle_phase (machine_state j)); simplify_eq).
      rewrite bool_decide_true by done. cbn -[existsb].
      rewrite (bool_decide_true (job_id _ = _)) by by destruct HR as [_ [] _ _]. cbn -[existsb].
      rewrite Hn, bool_decide_true, (row_open_entries _ _ HR Hn) by done. cbn.
      eexists. split; [done|]. by right. }
  assert (Hr : replacement_of j I_RequestCancel project_cancel = Ok (j', es)).
  { unfold replacement_of, recovered. rewrite (row_recovers _ _ HR). cbn [mbind Outcome_bind].
    rewrite Ha. cbn [mbind Outcome_bind]. by rewrite Hp. }
  exists j', es. split_and!; [done| |done].
  apply (replacement_moves j I_RequestCancel project_cancel j' es);
    [done|apply cancel_projects|done..].
Qed.

(** ** The loop of [request_cancel] *)

Lemma contended_required id st r st' j :
  contended (required id) st r st' → jobs st !! id = Some j →
  r = Ok j ∧ others st st'.
Proof.
  intros Hc Hj. cbn in Hc. destruct Hc as (st1 & Ho & Hc). rewrite Hj in Hc. cbn in Hc.
  by destruct Hc as [-> ->].
Qed.

(** A write of a row that was read: it lands on the current row, or is stale. *)
Lemma contended_apply_from l j i project j' es st r st' :
  contended (apply_from j i project) st r st' → Sound st → known st j → JobRow l j →
  replacement_of j i project = Ok (j', es) → Continues l j j' →
  (revision j < u64_max)%N →
  (∃ stored, r = Ok (stored, es) ∧ (∃ l', JobRow l' stored) ∧
     machine_state stored = machine_state j' ∧ terminal_result stored = terminal_result j') ∨
  (∃ cur e, jobs st !! stored_id j = Some cur ∧ (revision j < revision cur)%N ∧
     r = Err (StaleRevision (stored_id j) (revision j) e) ∧ others st st').
Proof.
  intros Hc [HC HS] Hk HR Hr HC' Hb. pose proof HC' as [Hid Hs Hrev (l' & HR')].
  unfold apply_from, lift in Hc. rewrite Hr in Hc. cbn [and_then job_bind] in Hc.
  destruct (bool_decide (j' = j)) eqn:Ej in Hc.
  { left. prop_guards. subst j'. destruct Hc as [-> ->]. exists j. split_and!; eauto. }
  destruct Hk as [_ (cur & Hcur & HL)].
  destruct (decide (revision cur = revision j)) as [Heq|Hne].
  - assert (cur = j) as -> by (destruct HL as [->|[? _]]; [done|lia]).
    cbn [job_bind and_then call contended] in Hc. destruct Hc as (st1 & _ & Hc).
    rewrite (swap_current l j j' st Hcur HC' Hb) in Hc. cbn [snd job_bind] in Hc.
    left. exists (j' <| revision := (revision j + 1)%N |>).
    assert (Hres : r = Ok (j' <| revision := (revision j + 1)%N |>, es)).
    { destruct (existsb _ es); [destruct Hc as (st2 & _ & -> & _)|destruct Hc as [-> _]]; done. }
    split_and!; [done| |done..]. eexists. by apply revised_row.
  - right. exists cur. cbn [job_bind and_then call contended] in Hc. destruct Hc as (st1 & Ho & Hc).
    rewrite <-Hid in Hcur.
    assert (Hne' : revision cur ≠ revision j') by congruence.
    rewrite (swap_stale j cur j' st Hcur Hne') in Hc, Ho. cbn in Hc, Ho. destruct Hc as [-> ->].
    rewrite Hid, Hrev in *. exists (revision cur). split_and!; try done.
    pose proof (later_revision _ _ HL). lia.
Qed.

(** ** Versions of a row *)

Lemma later_sequence l j j' :
  JobRow l j → Later j j' →
  (delivery_sequence (machine_state j) ≤ delivery_sequence (machine_state j'))%N.
Proof.
  intros HR [->|(_ & _ & _ & HL)]; [done|]. destruct (HL _ HR) as (l' & HR').
  pose proof (recorded_numbers _ _ (row_recorded _ _ HR)) as H1%(f_equal length).
  pose proof (recorded_numbers _ _ (row_recorded _ _ HR')) as H2%(f_equal length).
  rewrite length_fmap, numbers_to_length in H1, H2.
  rewrite committed_app, length_app in H2. lia.
Qed.

Lemma advance_row st st' id j j' :
  Advance st st' → jobs st !! id = Some j → jobs st' !! id = Some j' → Later j j'.
Proof. intros [HA _] (j1 & ? & ?)%HA ?. by simplify_eq. Qed.

Lemma contended_sound {A} K (m : JobProg A) st a st' Q :
  contended m st a st' → wp K m Q → (∀ j, K j → known st j) → Sound st →
  Sound st' ∧ Advance st st'.
Proof.
  revert K st. induction m as [b|X c k IH]; intros K st; cbn.
  - intros [_ ->] _ _ HS. split; [done|apply advance_refl].
  - intros (st1 & [HS1 HA1] & Hc) [Hl Hk] HK HS.
    destruct (memory_step c st) as [st0 r] eqn:Hs. cbn in *.
    destruct (legit_step K c st st0 r HS HK Hl Hs) as [HS0 HA0].
    destruct (IH r _ st1 Hc (Hk r)) as [HS' HA']; [|done|].
    + intros j [?%HK|?].
      * eapply known_advance; [exact HA1|]. by eapply known_advance.
      * eapply known_advance; [exact HA1|]. by eapply (learned_known c st).
    + split; [done|]. eapply advance_trans; [exact HA0|]. by eapply advance_trans.
Qed.

(** A store among whose rows nobody is writing. *)
Lemma others_refl st : Sound st → others st st.
Proof. intros HS. split; [done|apply advance_refl]. Qed.

Lemma exec_contended {A} K (m : JobProg A) st Q :
  wp K m Q → (∀ j, K j → known st j) → Sound st → contended m st (exec m st).1 (exec m st).2.
Proof.
  revert K st. induction m as [b|X c k IH]; intros K st; cbn; [done|].
  intros [Hl Hk] HK HS. destruct (memory_step c st) as [st0 r] eqn:Hs. cbn.
  destruct (legit_step K c st st0 r HS HK Hl Hs) as [HS0 HA0].
  exists st0. split; [by apply others_refl|]. eapply (IH r); [apply Hk| |done].
  intros j [?%HK|?]; [by eapply known_advance|by eapply (learned_known c st)].
Qed.

Lemma operation_sound {A} (m : JobService A) st r st' :
  harmless m → Sound st → contended m st r st' → Sound st' ∧ Advance st st'.
Proof. intros Hm HS Hc. by apply (contended_sound (λ _, False) m st r st' _ Hc (Hm _)). Qed.
End Answers.
