(* ===== verification/JobSystemProps.v ===== *)
(** * JobSystemProps: what the job service promises

    Stored jobs are runs of the job authority and only move forward, a
    submission key names one job, a predicate delivery is committed once and
    replayed afterwards, a request for cancellation lands however contended the
    job is, and workers that lost their claim write nothing. *)

From stdpp Require Import gmap.
From S2P Require Export JobSystem.

(** ** Vocabulary of the statements *)

Definition outcome_receipt (o : PredicateDeliveryOutcome) : PredicateDeliveryReceipt :=
  match o with Applied r _ | Deduplicated r _ => r end.

(** The texts a realm of a submission may be. *)
Definition canonical_realm (realm : str) : bool :=
  negb ((realm == []) || (trim realm != realm) || existsb is_control realm).

Section Writes.
Context {BP : BuildProfile}.

(** What a recorded predicate delivery answers to whoever evaluates it again:
    its receipt, or the error of a key recorded for another delivery. *)
Definition replayed `{!NameUuid} `{!CheckpointCodec} (id : JobId)
    (identity : PredicateDeliveryIdentity) (st : MemoryJobs)
    : option (Fallible PredicateDeliveryOutcome) :=
  match predicate_delivery_receipt id identity st with
  | Ok None => None
  | Ok (Some receipt) =>
      Some (j ← ok_or (jobs st !! id) (NotFound id);
            snap ← job_snapshot j;
            Ok (Deduplicated receipt snap))
  | Err e => Some (Err e)
  | Panic => Some Panic
  | OutOfFuel => Some OutOfFuel
  end.

(** The operations a worker writes with: those that take its write authority.
    The one that looks in the ledger first can answer without looking at the
    writer. *)
Inductive worker_write (id : JobId) (w : AttemptWriteAuthority)
    : ∀ A, (MemoryJobs → option (Fallible A)) → JobService A → Prop :=
| write_report p now : worker_write id w _ (λ _, None) (report_progress id w p now)
| write_renew beat lease : worker_write id w _ (λ _, None) (renew_lease id w beat lease)
| write_checkpoint r now : worker_write id w _ (λ _, None) (record_checkpoint id w r now)
| write_emit now n : worker_write id w _ (λ _, None) (emit_notification id w now n)
| write_wait now : worker_write id w _ (λ _, None) (wait_external id w now)
| write_resume now : worker_write id w _ (λ _, None) (resume_running id w now)
| write_expire now : worker_write id w _ (λ _, None) (observe_lease_expired id w now)
| write_complete now r : worker_write id w _ (λ _, None) (complete_attempt id w now r)
| write_fail now code r : worker_write id w _ (λ _, None) (fail_attempt id w now code r)
| write_acknowledge now : worker_write id w _ (λ _, None) (acknowledge_cancel id w now)
| write_evaluate `{!NameUuid, !CheckpointCodec} watch o now :
    worker_write id w _ (λ _, None) (evaluate_predicate id w watch o now)
| write_deliver `{!NameUuid, !CheckpointCodec} identity watch o now :
    worker_write id w _ (replayed id identity)
      (evaluate_predicate_idempotent id w identity watch o now).

Lemma exec_and_then {A B} (m : JobService A) (f : A → JobService B) st :
  exec (and_then m f) st =
    match exec m st with
    | (Ok a, st') => exec (f a) st'
    | (Err e, st') => (Err e, st')
    | (Panic, st') => (Panic, st')
    | (OutOfFuel, st') => (OutOfFuel, st')
    end.
Proof.
  unfold and_then. revert st. induction m as [a|X c k IH]; intros st; [by destruct a|]. cbn. apply IH.
Qed.

Lemma exec_required id st :
  exec (required id) st =
    (match jobs st !! id with Some j => Ok j | None => Err (NotFound id) end, st).
Proof. unfold required. rewrite exec_and_then. cbn. by destruct (jobs st !! id). Qed.

(** The writer is not the one the job was last claimed by. *)
Definition superseded (w : AttemptWriteAuthority) (j : StoredJob) : Prop :=
  current_attempt_id (machine_state j) ≠ Some (write_attempt_id w) ∨
  current_fence (machine_state j) ≠ write_fence w.

Lemma ensure_superseded id w j :
  superseded w j →
  ensure_current_writer id j w = Err (StaleAttempt id (write_attempt_id w) (write_fence w)).
Proof.
  intros Hw. unfold ensure_current_writer.
  assert ((current_attempt_id (machine_state j) != Some (write_attempt_id w))
     || negb (current_fence (machine_state j) =? write_fence w)%N = true) as ->; [|done].
  apply orb_true_iff. destruct Hw as [?|?]; [left; by apply bool_neq_true|right].
  by apply negb_true_iff, N.eqb_neq.
Qed.

Lemma exec_written_stale id w st j :
  jobs st !! id = Some j → superseded w j →
  exec (written id w) st = (Err (StaleAttempt id (write_attempt_id w) (write_fence w)), st).
Proof.
  intros Hj Hw. unfold written. rewrite exec_and_then, exec_required, Hj, exec_and_then.
  cbn [exec lift]. by rewrite ensure_superseded.
Qed.

Lemma exec_deliver_stale `{!NameUuid, !CheckpointCodec} id w identity watch o now st j :
  jobs st !! id = Some j → superseded w j →
  exec (evaluate_predicate_idempotent id w identity watch o now) st =
    (default (Err (StaleAttempt id (write_attempt_id w) (write_fence w)))
       (replayed id identity st), st).
Proof.
  intros Hj Hw. unfold evaluate_predicate_idempotent, replayed.
  cbn [evaluate_idempotent_loop PREDICATE_EVALUATION_CONFLICT_BUDGET].
  rewrite exec_and_then. cbn [exec call memory_step fst snd].
  destruct (predicate_delivery_receipt id identity st) as [[receipt|]|e| |]; try done;
    rewrite exec_and_then, exec_required, Hj, exec_and_then; cbn [exec lift ok_or].
  - cbn. by destruct (job_snapshot j).
  - unfold predicate_bundle. by rewrite ensure_superseded.
Qed.
End Writes.

(** ** Censuses *)

Section Census.
Context {BP : BuildProfile}.

Definition rows_of (realm : option str) (st : MemoryJobs) : list StoredJob :=
  filter (in_realm realm) (job_values (jobs st)).

Definition count_where (p : StoredJob → bool) (xs : list StoredJob) : N :=
  N.of_nat (length (List.filter p xs)).

Definition is_queued (j : StoredJob) : bool :=
  match lifecycle_phase (machine_state j) with Queued | RetryScheduled => true | _ => false end.
Definition is_running (j : StoredJob) : bool := is_active (lifecycle_phase (machine_state j)).
Definition is_stale (now : N) (j : StoredJob) : bool :=
  is_running j && lease_overdue now (machine_state j).
Definition is_stuck (j : StoredJob) : bool :=
  match lifecycle_phase (machine_state j) with NeedsAttention => true | _ => false end.

(** A counter that stops at its greatest value. *)
Definition capped (n : N) : N := N.min n u64_max.

Lemma count_cons p j xs : count_where p (j :: xs) = ((if p j then 1 else 0) + count_where p xs)%N.
Proof. unfold count_where. cbn [List.filter]. destruct (p j); cbn [length]; lia. Qed.

Lemma saturating_count (b : bool) n m :
  capped ((if b then saturating_succ n else n) + m) = capped (n + ((if b then 1 else 0) + m)).
Proof. unfold capped, saturating_succ. destruct b; lia. Qed.

Lemma fold_health now xs h :
  let h' := fold_left (count_health now) xs h in
  capped (queued h') = capped (queued h + count_where is_queued xs) ∧
  capped (running h') = capped (running h + count_where is_running xs) ∧
  capped (stale_leases h') = capped (stale_leases h + count_where (is_stale now) xs) ∧
  capped (needs_attention h') = capped (needs_attention h + count_where is_stuck xs) ∧
  pending_outbox_jobs h' = pending_outbox_jobs h ∧ coverage h' = coverage h.
Proof.
  revert h. induction xs as [|j xs IH]; intros h; cbn zeta.
  { cbn. unfold count_where. cbn. by rewrite !N.add_0_r. }
  cbn [fold_left]. destruct (IH (count_health now h j)) as (-> & -> & -> & -> & -> & ->).
  rewrite !count_cons, <-!saturating_count.
  unfold count_health, is_queued, is_stale, is_running, is_stuck.
  destruct (lifecycle_phase (machine_state j)); cbn; try done; by destruct (lease_overdue now _).
Qed.

Lemma fold_health_bounded now xs h :
  (queued h ≤ u64_max)%N → (running h ≤ u64_max)%N → (stale_leases h ≤ u64_max)%N →
  (needs_attention h ≤ u64_max)%N →
  let h' := fold_left (count_health now) xs h in
  (queued h' ≤ u64_max)%N ∧ (running h' ≤ u64_max)%N ∧ (stale_leases h' ≤ u64_max)%N ∧
  (needs_attention h' ≤ u64_max)%N.
Proof.
  revert h. induction xs as [|j xs IH]; intros h Hq Hr Hs Hn; [done|].
  cbn [fold_left]. apply IH.
  all: unfold count_health; destruct (lifecycle_phase _); cbn; try done;
    try destruct (lease_overdue _ _); cbn; try done; unfold saturating_succ; lia.
Qed.

(** What a census counts is live. *)
Lemma count_live p xs :
  (∀ j, p j = true → job_is_census_live j = true) →
  count_where p (filter (λ j, job_is_census_live j = true) xs) = count_where p xs.
Proof.
  intros Hp. induction xs as [|j xs IH]; [done|]. rewrite filter_cons, count_cons, <-IH.
  case_decide as Hl; [by rewrite count_cons|].
  destruct (p j) eqn:E; [by apply Hp in E|done].
Qed.

Lemma census_live_length xs :
  N.of_nat (length (filter (λ j, job_is_census_live j = true) xs)) =
    count_where job_is_census_live xs.
Proof.
  induction xs as [|j xs IH]; [done|]. rewrite filter_cons, count_cons, <-IH.
  case_decide as Hl; [rewrite Hl; cbn [length]; lia|].
  destruct (job_is_census_live j); [done|lia].
Qed.

Lemma pending_length xs :
  N.of_nat (length (filter (λ j, has_pending_outbox j = true) xs)) = count_where has_pending_outbox xs.
Proof.
  induction xs as [|j xs IH]; [done|]. rewrite filter_cons, count_cons, <-IH.
  case_decide as Hl; [rewrite Hl; cbn [length]; lia|].
  destruct (has_pending_outbox j); [done|lia].
Qed.
End Census.

(** ** Submissions *)

Section Submissions.
Context {BP : BuildProfile} {CA : CheckedArithmetic}.

Lemma submit_selected id cls : id ≠ [] → select (transitions (I_Submit id cls)) init ≠ None.
Proof.
  intros Hid. unfold select. cbn. rewrite (bool_decide_true (_ = Unsubmitted)) by done.
  rewrite (bool_decide_false (id = [])) by done. done.
Qed.

(** The row of a submission. *)
Lemma submitted_row uuid s :
  ∃ j, submitted uuid s = Ok j ∧ stored_id j = JobId_generated uuid ∧ spec j = s ∧
    lifecycle_phase (machine_state j) = Queued ∧ validate_stored_job j = Ok tt.
Proof.
  set (id := JobId_generated uuid). assert (Hid : id ≠ []) by (intros [Hx _]%app_nil; by vm_compute in Hx).
  assert (∃ s1 es, machine_apply id (I_Submit id (spec_restart_class s)) init = Ok (s1, es))
    as (s1 & es & Ha).
  { unfold machine_apply. destruct (apply _ _) as [s1 [r|e]|] eqn:Ha; [by eauto| |].
    - exfalso. apply apply_rejected_inv in Ha as (-> & [[? _]|(_ & Hsel & _)]); [done|].
      by eapply submit_selected.
    - exfalso. apply shape_panics in Ha as [H|H]; [by apply H|by apply H|apply job_init_shape]. }
  assert (Hs : submitted uuid s = Ok (mkStored id s 1 s1 None None [] [])).
  { unfold submitted. fold id. by rewrite Ha. }
  eexists. split; [exact Hs|]. split_and!; try done.
  - apply machine_apply_Ok in Ha as [HM _]. by inversion HM; simplify_eq/=.
  - destruct (submitted_fresh _ _ _ Hs) as (l & HR). by eapply row_valid.
Qed.

Lemma index_row st realm key j :
  Consistent st → get_by_submission_key realm key st = Ok (Some j) →
  jobs st !! stored_id j = Some j ∧ index_key j = (realm, key).
Proof.
  intros HC Hg. unfold get_by_submission_key in Hg.
  destruct (submission_index st !! (realm, key)) as [id|] eqn:Hi; [|done].
  destruct (consistent_index _ HC _ _ Hi) as (j' & Hj & Hk). rewrite Hj in Hg. cbn in Hg.
  simplify_eq. by rewrite (consistent_id _ HC _ _ Hj).
Qed.
End Submissions.

(** ** Predicate deliveries *)

Section Deliveries.
Context {BP : BuildProfile} {CA : CheckedArithmetic} `{!NameUuid, !CheckpointCodec}.

(** A receipt the service reports is in the ledger. *)
Definition in_ledger (id : JobId) (identity : PredicateDeliveryIdentity) (r : PredicateDeliveryReceipt)
    (st : MemoryJobs) : Prop :=
  predicate_deliveries st !! (id, idempotency_key identity) = Some r ∧
  ledger_identity r = identity ∧ is_Some (jobs st !! id).

Lemma in_ledger_later id identity r st st' :
  Advance st st' → in_ledger id identity r st → in_ledger id identity r st'.
Proof.
  intros [HR HL] (? & ? & [j Hj]). split_and!; [by apply HL|done|].
  apply HR in Hj as (j' & ? & _). by exists j'.
Qed.

Lemma known_ledger st id identity a :
  predicate_delivery_receipt id identity st = Ok (Some a) → in_ledger id identity a st.
Proof.
  unfold predicate_delivery_receipt. destruct (jobs st !! id) eqn:Hj; [|done].
  destruct (predicate_deliveries st !! _) as [r|] eqn:Hl; [|done].
  intros ([] & Hr%require_Ok & [= <-])%Outcome_bind_Ok. prop_guards.
  split_and!; [done|done|by eexists].
Qed.

(** What a bundle writes, it writes to the row it was made from. *)
Lemma bundle_row l id w identity watch o now j j' c :
  predicate_bundle id w identity watch o now j = Ok (j', c) → JobRow l j →
  stored_id j' = stored_id j ∧ commit_identity c = identity.
Proof. intros [HM ?]%bundle_moves HR. by destruct (HM _ HR). Qed.

Lemma record_commit_ledger id identity r st :
  in_ledger id identity r st → in_ledger id identity r (memory_step RecordCommit st).1.
Proof. done. Qed.

(** The answer the service makes of a commit the store acknowledged. *)
Lemma delivered_in_ledger id identity c outcome st out st' :
  contended (delivered c outcome) st (Ok out) st' →
  (∀ j r, outcome = Committed j r ∨ outcome = CommitDeduplicated j r → in_ledger id identity r st) →
  in_ledger id identity (outcome_receipt out) st'.
Proof.
  intros Hc Hr. destruct outcome as [j r|j r]; cbn [delivered] in Hc.
  - apply contended_and_then in Hc as (a & st1 & Hq & Hc).
    assert (Hl : in_ledger id identity r st1).
    { destruct (announces c).
      - destruct Hq as (st2 & [_ HA] & _ & ->). eapply in_ledger_later; [exact HA|].
        apply record_commit_ledger. eauto.
      - destruct Hq as [_ ->]. eauto. }
    destruct a; try (by destruct Hc). apply contended_and_then in Hc as (snap & st2 & [-> ->] & Hc).
    destruct (job_snapshot j); try (by destruct Hc). by destruct Hc as [[= ->] ->].
  - apply contended_and_then in Hc as (snap & st2 & [-> ->] & Hc).
    destruct (job_snapshot j); try (by destruct Hc). destruct Hc as [[= ->] ->]. eauto.
Qed.

Lemma commit_in_ledger rev j c st st' outcome :
  Consistent st → memory_step (CommitDelivery rev j c) st = (st', Ok outcome) →
  ∀ j' r, outcome = Committed j' r ∨ outcome = CommitDeduplicated j' r →
    in_ledger (stored_id j) (commit_identity c) r st'.
Proof.
  intros HC Hs. apply commit_inv in Hs as
    [(cur & r0 & _ & [= ->] & Hsw & _ & -> & Hd & _)|[-> [(r0 & cur & [= ->] & Hl & Hj & Hi)|Hno]]].
  - intros j' r [[= <- <-]|?]; [|done]. split_and!; [by rewrite Hd, lookup_insert_eq|done|].
    rewrite (swapped_to _ _ _ _ _ Hsw), lookup_insert_eq. by eexists.
  - intros j' r [?|[= <- <-]]; [done|]. split_and!; [done|done|by eexists].
  - by destruct (Hno outcome).
Qed.

Lemma evaluation_in_ledger budget id w identity watch o now st out st' :
  Sound st → contended (evaluate_idempotent_loop budget id w identity watch o now) st (Ok out) st' →
  in_ledger id identity (outcome_receipt out) st'.
Proof.
  revert st. induction budget as [|budget IH]; intros st HS Hc; cbn [evaluate_idempotent_loop] in Hc.
  all: apply contended_and_then in Hc as (a & st1 & (st1' & [HS1 HA1] & -> & ->) & Hc);
    cbn [memory_step fst snd] in Hc, HS1, HA1.
  all: destruct (predicate_delivery_receipt id identity st) as [[r|]| | |] eqn:Hp; try (by destruct Hc).
  1,3: apply known_ledger, (in_ledger_later _ _ _ _ _ HA1) in Hp;
    apply contended_and_then in Hc as (a & st2 & Hq & Hc);
    pose proof Hp as (_ & _ & [j Hj]);
    destruct (contended_required _ _ _ _ _ Hq Hj) as [-> [_ HA2]];
    apply contended_and_then in Hc as (snap & st3 & [-> ->] & Hc);
    destruct (job_snapshot j); try (by destruct Hc); destruct Hc as [[= ->] ->];
    by eapply in_ledger_later.
  all: apply contended_and_then in Hc as (a & st2 & Hq & Hc).
  all: destruct (jobs st1' !! id) as [j|] eqn:Hj;
    [|destruct Hq as (st2' & _ & Hq); cbn in Hq; rewrite Hj in Hq; destruct Hq as [-> ->]; by destruct Hc].
  all: destruct (contended_required _ _ _ _ _ Hq Hj) as [-> [HS2 HA2]];
    destruct (sound_rows _ HS1 _ _ Hj) as (l & HR);
    apply contended_and_then in Hc as (b & st3 & [-> ->] & Hc);
    destruct (predicate_bundle _ _ _ _ _ _ j) as [[j' c]| | |] eqn:Hb; try (by destruct Hc);
    destruct (bundle_row _ _ _ _ _ _ _ _ _ _ Hb HR) as [Hid Hi];
    rewrite (consistent_id _ (sound_consistent _ HS1) _ _ Hj) in Hid;
    destruct Hc as (st4 & [HS4 HA4] & Hc);
    destruct (memory_step (CommitDelivery (revision j') j' c) st2) as [st3 ans] eqn:Hs;
    cbn [fst snd] in *.
  all: destruct ans as [outcome|e| |]; [| |by destruct Hc|by destruct Hc].
  2,4: destruct e; first [by destruct Hc | by apply (IH st4)].
  all: pose proof (commit_in_ledger _ _ _ _ _ _ (sound_consistent _ HS2) Hs) as Hin;
    rewrite Hid, Hi in Hin; eapply (delivered_in_ledger id identity); [exact Hc|];
    intros j0 r0 Hout; eapply in_ledger_later; [exact HA4|by eapply Hin].
Qed.
End Deliveries.

(** ** Properties *)

Section Properties.
Context {BP : BuildProfile} {CA : CheckedArithmetic} `{!NameUuid, !CheckpointCodec}.

(** C3: whatever operations run against the store and however their calls are
    interleaved or cut off, every stored job is a run of the job authority: its
    machine state is reached by an execution, its outbox lists exactly the
    deliveries that execution committed, in order, each marked applied as the
    authority has it acknowledged, and its terminal result is the one delivery
    that ended it.  The store's own validation accepts every such row, rows lie
    under their identifiers, and the submission index is exactly their index. *)
Theorem stored_jobs_run_machine s :
  rtc jobs_step jobs_init s →
  Consistent (sys_store s) ∧
  ∀ id j, jobs (sys_store s) !! id = Some j →
    stored_id j = id ∧ validate_stored_job j = Ok tt ∧
    ∃ l, Execution init l (machine_state j) ∧ entry_delivery <$> outbox j = committed l ∧
      Forall (λ e, entry_applied e = acknowledged_in (machine_state j) (entry_delivery e).2) (outbox j) ∧
      omap entry_result (outbox j) = option_list (terminal_result j) ∧
      terminal_kind (machine_state j) = result_kind <$> terminal_result j.
Proof.
  intros [[HC HR] _]%jobs_reachable_inv. split; [done|]. intros id j Hj.
  split_and!; [by eapply consistent_id|by eapply consistent_valid|].
  destruct (HR _ _ Hj) as (l & Hl). exists l.
  pose proof Hl as [HE [_ _ _ _ Ho He Hres] _ _]. split_and!; try done; [|by eapply row_result].
  eapply Forall_impl; [exact He|]. cbn. by intros ? [].
Qed.

(** C8: a stored job only moves forward.  From one reachable state to a later
    one its identity and its submission stay, its revision never falls, an
    unchanged revision means an unchanged row, and otherwise the authority's
    state went on by an execution whose deliveries were appended to the outbox:
    no committed delivery is lost, renumbered or reordered. *)
Theorem stored_jobs_advance s s' id j :
  rtc jobs_step jobs_init s → rtc jobs_step s s' → jobs (sys_store s) !! id = Some j →
  ∃ j' l, jobs (sys_store s') !! id = Some j' ∧ stored_id j' = stored_id j ∧ spec j' = spec j ∧
    (revision j ≤ revision j')%N ∧ (revision j' = revision j → j' = j) ∧
    Execution (machine_state j) l (machine_state j') ∧
    entry_delivery <$> outbox j' = (entry_delivery <$> outbox j) ++ committed l.
Proof.
  intros HI%jobs_reachable_inv HS Hj. destruct (jobs_steps_inv _ _ HS HI) as [_ [HA _]].
  destruct (HA _ _ Hj) as (j' & Hj' & HL). destruct (sound_rows _ (inv_sound _ HI) _ _ Hj) as (l & HR).
  exists j'. destruct HL as [->|(Hr & Hid & Hsp & HL)].
  { exists []. split_and!; try done; [constructor|by rewrite app_nil_r]. }
  destruct (HL _ HR) as (l' & HR'). exists l'. pose proof HR as [HE [_ _ _ _ -> _ _] _ _].
  pose proof HR' as [HE' [_ _ _ _ -> _ _] _ _]. split_and!; try done; [lia|intros; lia| |].
  - apply Execution_app_inv in HE' as (s1 & HE1 & HE2).
    by rewrite (Execution_deterministic _ _ _ _ HE HE1).
  - apply committed_app.
Qed.

(** C12: a submission key names one job of its realm.  Resubmitting it answers
    with the job there is when the submission says the same, and conflicts
    otherwise, writing nothing; a new key creates a queued job that the key
    then finds.  A realm that is not canonical is refused first. *)
Theorem submissions_deduplicated uuid s st :
  Sound st →
  if canonical_realm (realm_id s) then
    match get_by_submission_key (realm_id s) (submission_key s) st with
    | Ok (Some j) =>
        exec (submit uuid s) st =
          (if equivalent_submission (spec j) s then Ok (receipt_of true j) else Err SubmissionConflict, st)
    | Ok None =>
        match jobs st !! JobId_generated uuid with
        | Some _ => exec (submit uuid s) st = (Err (StoreFailure "generated job id already exists"), st)
        | None =>
            ∃ j st', exec (submit uuid s) st =
                (Ok (mkReceipt (JobId_generated uuid) Queued false (spec_restart_class s)), st') ∧
              jobs st' = <[JobId_generated uuid := j]> (jobs st) ∧ spec j = s ∧
              get_by_submission_key (realm_id s) (submission_key s) st' = Ok (Some j)
        end
    | _ => False
    end
  else ∃ reason, exec (submit uuid s) st = (Err (InvalidInput reason), st).
Proof.
  intros [HC HR]. unfold submit, canonical_realm. destruct (_ || _); [by eexists|]. cbn [negb].
  destruct (submitted_row uuid s) as (j & Hs & Hid & Hsp & Hph & Hv).
  assert (Hik : index_key j = (realm_id s, submission_key s)) by (unfold index_key; by rewrite Hsp).
  rewrite !exec_and_then. cbn [exec lift]. rewrite Hs. rewrite exec_and_then.
  cbn [exec call memory_step]. unfold insert_deduplicated. rewrite Hv. cbn [checked].
  rewrite Hik, Hid. unfold get_by_submission_key.
  destruct (submission_index st !! _) as [id0|] eqn:Hi.
  - destruct (consistent_index _ HC _ _ Hi) as (j0 & Hj0 & Hk0). rewrite Hj0. cbn [ok_or checked mbind Outcome_bind].
    rewrite Hsp. by destruct (equivalent_submission (spec j0) s).
  - destruct (jobs st !! JobId_generated uuid) as [j0|] eqn:Hj0.
    + by rewrite bool_decide_true by done.
    + rewrite bool_decide_false by (by intros []). cbn [fst snd exec]. eexists j, _.
      split; [unfold receipt_of; by rewrite Hid, Hph, Hsp|].
      split; [done|]. split; [done|]. cbn. by rewrite !lookup_insert_eq.
Qed.

(** a store survives its own snapshot: rebuilt from the snapshot of any
    reachable state it holds the same rows, index and receipts, with a commit
    signal that starts again. *)
Theorem job_snapshots_restore s :
  rtc jobs_step jobs_init s →
  from_snapshot (snapshot (sys_store s)) = Ok ((sys_store s) <| commit_generation := 0%N |>).
Proof. intros [[HC _] _]%jobs_reachable_inv. by apply consistent_snapshot. Qed.

(** C14: the health census is exact or says that it is not.  It always answers
    and writes nothing; the delivery backlog is the number of the realm's jobs
    that owe a delivery; the census is marked complete exactly when fewer live
    jobs than the limit exist, and then every counter is the number of jobs of
    its kind in the realm (up to the counter's greatest value). *)
Theorem health_census_exact realm now limit st :
  let rows := rows_of realm st in
  ∃ h, exec (health_snapshot_for_realm_filter realm now limit) st = (Ok h, st) ∧
    pending_outbox_jobs h = capped (count_where has_pending_outbox rows) ∧
    (is_complete (coverage h) = true ↔ (count_where job_is_census_live rows < limit)%N) ∧
    (is_complete (coverage h) = true →
       queued h = capped (count_where is_queued rows) ∧
       running h = capped (count_where is_running rows) ∧
       stale_leases h = capped (count_where (is_stale now) rows) ∧
       needs_attention h = capped (count_where is_stuck rows)).
Proof.
  cbn zeta. set (rows := rows_of realm st).
  set (found := list_census_candidates realm limit st).
  set (cov := if (limit <=? N.of_nat (length found))%N
              then Truncated (length_u64 found) (N.min limit u64_max) else Complete).
  set (h0 := mkHealth 0 0 0 0 0 (count_pending_outbox_jobs realm st) cov).
  exists (fold_left (count_health now) found h0).
  split; [done|].
  pose proof (fold_health now found h0) as (Hq & Hr & Hs & Hn & -> & ->).
  pose proof (fold_health_bounded now found h0) as (Bq & Br & Bs & Bn); [done..|].
  assert (Hcov : (is_complete cov = true ↔ (count_where job_is_census_live rows < limit)%N) ∧
                 (is_complete cov = true → found = filter (λ j, job_is_census_live j = true) rows)).
  { unfold cov, found, list_census_candidates, take_limit. fold (rows_of realm st). fold rows.
    rewrite <-census_live_length.
    destruct (N.eqb_spec limit 0) as [->|Hl0]; [split; [split; [done|lia]|done]|].
    set (live := filter _ rows).
    destruct (N.leb_spec limit (N.of_nat (length (take (N.to_nat limit) live)))) as [Hle|Hlt];
      rewrite length_take in *.
    - split; [split; [done|lia]|done].
    - split; [split; [lia|done]|]. intros _. apply take_ge. lia. }
  split.
  { cbn. unfold count_pending_outbox_jobs, capped. fold (rows_of realm st). fold rows.
    by rewrite pending_length. }
  cbn [coverage h0]. split; [apply Hcov|]. intros Hf%Hcov.
  rewrite Hf in *. cbn in Hq, Hr, Hs, Hn. unfold capped in *.
  rewrite !count_live in Hq, Hr, Hs, Hn by (unfold is_queued, is_stale, is_running, is_stuck,
    job_is_census_live, phase_is_census_live; intros j; by destruct (lifecycle_phase (machine_state j))).
  split_and!; lia.
Qed.

(** C7: a request for cancellation lands, however contended the job is.  Each
    turn of the loop that fails to write proves that another operation wrote, so
    more turns than there are writes to the job, its own included, are enough;
    the request then answers with the job ended, or with its cancellation requested.  (The
    revision and the delivery number are below the top of their range.) *)
Theorem request_cancel_lands fuel id st st' j j' r :
  Sound st → jobs st !! id = Some j → contended (request_cancel fuel id) st r st' →
  jobs st' !! id = Some j' → (revision j' < revision j + N.of_nat fuel)%N →
  (revision j' < u64_max)%N → (delivery_sequence (machine_state j') < u64_max)%N →
  ∃ snap, r = Ok snap ∧ (snap_cancel_requested snap = true ∨ snap_terminal_result snap ≠ None).
Proof.
  revert st j. induction fuel as [|fuel IH]; intros st j HS Hj Hc Hj' Hn Hmax Hseq.
  { destruct Hc as [_ ->]. simplify_eq. lia. }
  destruct (operation_sound _ _ _ _ (request_cancel_harmless _ _) HS Hc) as [HS' HA].
  destruct (sound_rows _ HS _ _ Hj) as (l & HR).
  pose proof (advance_row _ _ _ _ _ HA Hj Hj') as HL.
  pose proof (later_sequence _ _ _ HR HL) as Hd. pose proof (later_revision _ _ HL) as Hv.
  assert (Hid : stored_id j = id) by (by eapply consistent_id, Hj; apply HS).
  cbn [request_cancel] in Hc. apply contended_and_then in Hc as (a & st1 & Hq & Hc).
  destruct (contended_required _ _ _ _ _ Hq Hj) as [-> [HS1 HA1]].
  destruct (decide (terminal_result j = None)) as [Hres|Hres].
  2:{ rewrite bool_decide_false in Hc by done. cbn [negb lift contended] in Hc.
      destruct Hc as [-> ->]. exists (snapshot_of j). split; [by eapply row_snapshot|by right]. }
  rewrite bool_decide_true in Hc by done. cbn [negb] in Hc.
  apply contended_bind in Hc as (answer & st2 & Ha & Hc).
  destruct (cancel_replacement l j HR Hres) as (j1 & es & Hrep & HC & Hland); [lia|].
  assert (Hk : known st1 j) by (split; [by eexists|]; rewrite Hid; by apply HA1).
  destruct (contended_apply_from l j _ _ j1 es st1 answer st2 Ha HS1 Hk HR Hrep HC)
    as [(stored & -> & (l' & HR') & Hst & Hter)|(cur & e & Hcur & Hlt & -> & [HS2 HA2])]; [lia|..].
  - destruct Hc as [-> ->]. exists (snapshot_of stored). split; [by eapply row_snapshot|].
    cbn. by rewrite Hst, Hter.
  - rewrite Hid in Hcur. destruct (advance_rows _ _ HA2 _ _ Hcur) as (j2 & Hj2 & HL2).
    pose proof (later_revision _ _ HL2). eapply (IH st2 j2); try done. lia.
Qed.

(** C22: a worker that does not hold the job writes nothing.  When the attempt
    or the fence it writes under is not the job's current one, each of the
    twelve operations that take a write authority leaves the store as it was
    and answers that the attempt is stale.  There is one exception to the
    answer, none to the store: the idempotent evaluation of a delivery whose
    key is in the ledger already answers from the ledger. *)
Theorem stale_workers_write_nothing id w A replay (m : JobService A) st j :
  worker_write id w A replay m → jobs st !! id = Some j → superseded w j →
  exec m st = (default (Err (StaleAttempt id (write_attempt_id w) (write_fence w))) (replay st), st).
Proof.
  intros Hm Hj Hw. pose proof (exec_written_stale id w st j Hj Hw) as Hx.
  destruct Hm; [..|by eapply exec_deliver_stale].
  all: unfold report_progress, renew_lease, record_checkpoint, emit_notification, wait_external,
    resume_running, observe_lease_expired, complete_attempt, fail_attempt, acknowledge_cancel,
    evaluate_predicate, apply_written, end_attempt; rewrite exec_and_then, Hx; done.
Qed.

(** C5: a predicate delivery is committed once.  Whatever else goes on, once an
    evaluation under a delivery identity has been answered, its receipt is in
    the ledger for good, and every later evaluation under that identity, by
    whatever worker and of whatever observation, even after the job moved on
    or ended, answers that same receipt and writes nothing. *)
Theorem predicate_delivery_once id w identity watch o now st out st1 st2 w' watch' o' now' :
  Sound st → contended (evaluate_predicate_idempotent id w identity watch o now) st (Ok out) st1 →
  others st1 st2 →
  ∃ snap, exec (evaluate_predicate_idempotent id w' identity watch' o' now') st2 =
            (Ok (Deduplicated (outcome_receipt out) snap), st2).
Proof.
  intros HS Hc HO. assert (HL : in_ledger id identity (outcome_receipt out) st1).
  { by eapply evaluation_in_ledger. }
  apply (in_ledger_later _ _ _ _ _ (proj2 HO)) in HL as (Hl & Hi & [j Hj]).
  destruct (sound_rows _ (proj1 HO) _ _ Hj) as (l & HR). exists (snapshot_of j).
  unfold evaluate_predicate_idempotent. cbn [evaluate_idempotent_loop PREDICATE_EVALUATION_CONFLICT_BUDGET].
  rewrite exec_and_then. cbn [exec call memory_step fst snd].
  unfold predicate_delivery_receipt. rewrite Hj, Hl. unfold ensure_same_predicate_delivery_identity.
  rewrite bool_decide_true by done. cbn [require mbind Outcome_bind].
  rewrite exec_and_then, exec_required, Hj, exec_and_then. cbn [exec lift].
  by rewrite (row_snapshot _ _ HR).
Qed.
End Properties.

(** ** Witnesses *)

#[local] Existing Instance dev_profile.

#[local] Instance witness_checked : CheckedArithmetic.
Proof. reflexivity. Defined.

(** A name UUID that is the name, and checkpoints written as key and message. *)
#[local] Instance demo_uuid : NameUuid := λ name, name.
#[local] Instance demo_codec : CheckpointCodec := {|
  encode_checkpoint := λ c, Some (checkpoint_key c ++ lit "|" ++ checkpoint_message c);
  decode_checkpoint := λ s,
    '(key, message) ← split_once 124 s; Some (mkCheckpoint key message None);
|}.

Definition demo_spec : JobSpec :=
  JobSpec_new (lit "realm") 7 (lit "intent") (lit "lineage") (mkTool (lit "tool") (lit "1"))
    (mkRunner (lit "runner") (lit "1")) DetachedJobRestartClass_Replayable (lit "hash") (lit "key").

Definition demo_id : JobId := JobId_generated (lit "1").
Definition demo_write : AttemptWriteAuthority := mkWrite (AttemptId_generated (lit "1")) 1.
Definition demo_watch : PredicateWatch :=
  mkWatch (lit "w") (lit "schedule") (PersistentFile (lit "f")) Changed (mkPolicy 60 1 0 1 60).
Definition demo_identity (n : string) : PredicateDeliveryIdentity :=
  mkIdentity (lit n) (lit "occurrence") (lit "runnable").

(** An evaluation of the demo watch, under the delivery identity [n]. *)
Definition demo_evaluation (n key message : string) : JobService PredicateDeliveryOutcome :=
  evaluate_predicate_idempotent demo_id demo_write (demo_identity n) demo_watch
    (Available (lit key) (lit message) None) 10.

Definition demo_jobs_submitted : MemoryJobs := (exec (submit (lit "1") demo_spec) memory_new).2.
Definition demo_terms : AttemptClaim := mkClaim (lit "worker") 0 100 (lit "handle").
Definition demo_claim : JobService AttemptClaimReceipt :=
  claim_attempt (lit "1") demo_id demo_terms.

Definition demo_jobs_claimed : MemoryJobs := (exec demo_claim demo_jobs_submitted).2.

(** A baseline, and a crossing, which is notified. *)
Definition demo_jobs_baseline : MemoryJobs := (exec (demo_evaluation "d1" "a" "up") demo_jobs_claimed).2.
Definition demo_crossing := exec (demo_evaluation "d2" "b" "down") demo_jobs_baseline.

Lemma demo_claimed_reachable : rtc jobs_step jobs_init (mkJobsSystem demo_jobs_claimed []).
Proof.
  etrans; [exact (exec_step _ memory_new (enter_submit (lit "1") demo_spec))|].
  assert (Ha : canonical (AttemptId_generated (lit "1"))) by (by vm_compute).
  assert (Hh : canonical (claim_runner_handle demo_terms)) by (by vm_compute).
  exact (exec_step demo_claim demo_jobs_submitted (enter_claim (lit "1") demo_id demo_terms Ha Hh)).
Qed.

Lemma demo_crossed_reachable :
  rtc jobs_step (mkJobsSystem demo_jobs_claimed []) (mkJobsSystem demo_crossing.2 []).
Proof.
  etrans; [exact (exec_step (demo_evaluation "d1" "a" "up") demo_jobs_claimed (enter_idempotent _ _ _ _ _ _))|].
  exact (exec_step (demo_evaluation "d2" "b" "down") demo_jobs_baseline (enter_idempotent _ _ _ _ _ _)).
Qed.

Lemma demo_reachable : rtc jobs_step jobs_init (mkJobsSystem demo_crossing.2 []).
Proof. etrans; [apply demo_claimed_reachable|apply demo_crossed_reachable]. Qed.

Lemma demo_sound : Sound demo_crossing.2.
Proof. exact (inv_sound _ (jobs_reachable_inv _ demo_reachable)). Qed.

Definition demo_revision (st : MemoryJobs) : option N := revision <$> jobs st !! demo_id.

Lemma stored_jobs_run_machine_witness :
  Consistent demo_crossing.2 ∧ demo_revision demo_crossing.2 = Some 4%N ∧
  ∀ j, jobs demo_crossing.2 !! demo_id = Some j →
    ∃ l, Execution init l (machine_state j) ∧ entry_delivery <$> outbox j = committed l.
Proof.
  destruct (stored_jobs_run_machine _ demo_reachable) as [HC HR].
  split; [exact HC|]. split; [by vm_compute|]. intros j Hj.
  destruct (HR _ _ Hj) as (_ & _ & l & HE & Ho & _). exists l. split; [exact HE|exact Ho].
Defined.

Lemma stored_jobs_advance_witness :
  demo_revision demo_jobs_claimed = Some 2%N ∧
  ∀ j, jobs demo_jobs_claimed !! demo_id = Some j →
    ∃ j' l, jobs demo_crossing.2 !! demo_id = Some j' ∧ Execution (machine_state j) l (machine_state j').
Proof.
  split; [by vm_compute|]. intros j Hj.
  destruct (stored_jobs_advance _ _ _ _ demo_claimed_reachable demo_crossed_reachable Hj)
    as (j' & l & Hj' & _ & _ & _ & _ & HE & _).
  exists j', l. split; [exact Hj'|exact HE].
Defined.

Lemma submissions_deduplicated_witness :
  ∃ j, get_by_submission_key (realm_id demo_spec) (submission_key demo_spec) demo_crossing.2 = Ok (Some j) ∧
    exec (submit (lit "2") demo_spec) demo_crossing.2 =
      (if equivalent_submission (spec j) demo_spec then Ok (receipt_of true j) else Err SubmissionConflict,
       demo_crossing.2).
Proof.
  pose proof (submissions_deduplicated (lit "2") demo_spec demo_crossing.2 demo_sound) as Hx.
  assert (Hc : canonical_realm (realm_id demo_spec) = true) by (by vm_compute).
  rewrite Hc in Hx. destruct (get_by_submission_key _ _ demo_crossing.2) as [[j|]| | |] eqn:Hg.
  - exists j. split; [reflexivity|exact Hx].
  - exfalso. vm_compute in Hg. discriminate Hg.
  - destruct Hx.
  - destruct Hx.
  - destruct Hx.
Defined.

Lemma job_snapshots_restore_witness :
  from_snapshot (snapshot demo_crossing.2) = Ok (demo_crossing.2 <| commit_generation := 0%N |>) ∧
  commit_generation demo_crossing.2 = 1%N.
Proof. split; [exact (job_snapshots_restore _ demo_reachable)|by vm_compute]. Defined.

Lemma revision_of st j n :
  jobs st !! demo_id = Some j → demo_revision st = Some n → revision j = n.
Proof. unfold demo_revision. intros ->. by intros [= ->]. Qed.

Lemma request_cancel_lands_witness :
  ∃ snap, (exec (request_cancel 2 demo_id) demo_crossing.2).1 = Ok snap ∧
    (snap_cancel_requested snap = true ∨ snap_terminal_result snap ≠ None).
Proof.
  set (run := exec (request_cancel 2 demo_id) demo_crossing.2).
  assert (Hc : contended (request_cancel 2 demo_id) demo_crossing.2 run.1 run.2).
  { apply (exec_contended (λ _, False) _ _ (ok_then any)); [apply request_cancel_harmless|done|apply demo_sound]. }
  destruct (jobs demo_crossing.2 !! demo_id) as [j|] eqn:Hj; [|exfalso; vm_compute in Hj; discriminate Hj].
  destruct (jobs run.2 !! demo_id) as [j'|] eqn:Hj'; [|exfalso; vm_compute in Hj'; discriminate Hj'].
  assert (Hr : revision j = 4%N) by (apply (revision_of _ _ _ Hj); by vm_compute).
  assert (Hr' : revision j' = 5%N) by (apply (revision_of _ _ _ Hj'); by vm_compute).
  assert (Hd : delivery_sequence (machine_state j') = 1%N).
  { assert (Ho : (delivery_sequence ∘ machine_state) <$> jobs run.2 !! demo_id = Some 1%N)
      by (by vm_compute).
    rewrite Hj' in Ho. by injection Ho. }
  apply (request_cancel_lands 2 demo_id demo_crossing.2 run.2 j j' run.1 demo_sound Hj Hc Hj').
  - rewrite Hr, Hr'. lia.
  - rewrite Hr'. unfold u64_max. lia.
  - rewrite Hd. unfold u64_max. lia.
Defined.

(** A worker whose fence the job never reached. *)
Definition demo_stale : AttemptWriteAuthority := mkWrite (AttemptId_generated (lit "1")) 2.

Definition demo_stale_error : DetachedJobError :=
  StaleAttempt demo_id (write_attempt_id demo_stale) (write_fence demo_stale).

Definition is_replay (answer : option (Fallible PredicateDeliveryOutcome)) : bool :=
  match answer with Some (Ok (Deduplicated _ _)) => true | _ => false end.

Lemma answers_replay answer :
  is_replay answer = true → ∃ receipt snap, answer = Some (Ok (Deduplicated receipt snap)).
Proof. destruct answer as [[[]| | |]|]; try done. by eexists _, _. Qed.

(** Its external wait and its evaluation of a new delivery are refused; its
    evaluation of the recorded delivery d2 answers the receipt.  None of them
    changes the store. *)
Lemma stale_workers_write_nothing_witness :
  exec (wait_external demo_id demo_stale 10) demo_crossing.2 =
    (Err demo_stale_error, demo_crossing.2) ∧
  exec (evaluate_predicate_idempotent demo_id demo_stale (demo_identity "d3") demo_watch
          (Available (lit "b") (lit "down") None) 10) demo_crossing.2 =
    (Err demo_stale_error, demo_crossing.2) ∧
  ∃ receipt snap,
    exec (evaluate_predicate_idempotent demo_id demo_stale (demo_identity "d2") demo_watch
            (Available (lit "b") (lit "down") None) 10) demo_crossing.2 =
      (Ok (Deduplicated receipt snap), demo_crossing.2).
Proof.
  destruct (jobs demo_crossing.2 !! demo_id) as [j|] eqn:Hj; [|exfalso; vm_compute in Hj; discriminate Hj].
  assert (Hw : superseded demo_stale j).
  { right. assert (Ho : (current_fence ∘ machine_state) <$> jobs demo_crossing.2 !! demo_id = Some 1%N)
      by (by vm_compute).
    rewrite Hj in Ho. injection Ho as Ho. rewrite Ho. discriminate. }
  pose proof (λ A replay m Hm, stale_workers_write_nothing demo_id demo_stale A replay m _ j Hm Hj Hw)
    as Hstale.
  rewrite (Hstale _ _ _ (write_wait demo_id demo_stale 10)).
  rewrite !(Hstale _ _ _ (write_deliver demo_id demo_stale _ _ _ _)).
  split; [done|]. split.
  - assert (Hr : replayed demo_id (demo_identity "d3") demo_crossing.2 = None) by (by vm_compute).
    by rewrite Hr.
  - destruct (answers_replay (replayed demo_id (demo_identity "d2") demo_crossing.2))
      as (receipt & snap & Hr); [by vm_compute|].
    exists receipt, snap. by rewrite Hr.
Defined.

Lemma predicate_delivery_once_witness :
  ∃ out snap, demo_crossing.1 = Ok out ∧
    exec (demo_evaluation "d2" "c" "another observation") demo_crossing.2 =
      (Ok (Deduplicated (outcome_receipt out) snap), demo_crossing.2).
Proof.
  assert (Hs : Sound demo_jobs_baseline).
  { refine (inv_sound _ (jobs_reachable_inv (mkJobsSystem demo_jobs_baseline []) _)).
    etrans; [exact demo_claimed_reachable|].
    exact (exec_step (demo_evaluation "d1" "a" "up") demo_jobs_claimed (enter_idempotent _ _ _ _ _ _)). }
  assert (Hc : contended (demo_evaluation "d2" "b" "down") demo_jobs_baseline demo_crossing.1 demo_crossing.2).
  { apply (exec_contended (λ _, False) _ _ (ok_then any)); [apply idempotent_harmless|done|exact Hs]. }
  unfold demo_evaluation in Hc |- *.
  destruct demo_crossing.1 as [out| | |] eqn:Hout;
    [|exfalso; vm_compute in Hout; discriminate Hout..].
  destruct (predicate_delivery_once demo_id demo_write (demo_identity "d2") demo_watch
    (Available (lit "b") (lit "down") None) 10 demo_jobs_baseline out demo_crossing.2 demo_crossing.2
    demo_write demo_watch (Available (lit "c") (lit "another observation") None) 10 Hs Hc
    (others_refl _ demo_sound)) as (snap & Hx).
  exists out, snap. split; [reflexivity|exact Hx].
Defined.

(** A watch that comes back to an observation it was at before is not notified
    again: the second crossing to the key "b" is answered with the first
    notification, and one that says something else about "b" is refused, on
    every try, so that the watch neither records the observation nor reports
    its health any more. *)
Example crossing_back_is_lost :
  let returned := (exec (demo_evaluation "d3" "a" "up") demo_crossing.2).2 in
  let again := exec (demo_evaluation "d4" "b" "down") returned in
  let other := exec (demo_evaluation "d4" "b" "down, in another way") returned in
  (length ∘ outbox) <$> jobs returned !! demo_id = Some 2 ∧
  (length ∘ outbox) <$> jobs again.2 !! demo_id = Some 2 ∧
  (∃ reason, other = (Err (InvalidInput reason), returned)).
Proof. split_and!; [by vm_compute..|]. eexists. by vm_compute. Qed.
